(** * A segregated-fit allocator (mm.c): shallow embedding and verification

    The allocator of [malloclab_mm.c] keeps one contiguous arena of
    boundary-tagged blocks and eleven FIFO free lists, one per size class,
    whose anchors live in the prologue block.  This file embeds the C code
    as state-passing functions over a byte-addressed memory and proves
    properties of [malloc], [free], [realloc], [calloc] and of the helpers
    [coalesce], [place] and [find_fit]. *)

From Stdlib Require Import ZArith List Lia Bool.
Import ListNotations.
Open Scope Z_scope.

(** ** Machine model *)

(** Memory is byte addressed; an address is an integer and a cell is read
    modulo 256.  [size_t] and pointers are 64 bits wide, the tags the
    allocator stores ([unsigned int]) are 32 bits wide. *)
Definition mem := Z -> Z.

Definition wrap64 (z : Z) : Z := z mod 2 ^ 64.
Definition wrap32 (z : Z) : Z := z mod 2 ^ 32.

(** Little-endian load of [n] bytes at [p]. *)
Fixpoint load_le (m : mem) (p : Z) (n : nat) : Z :=
  match n with
  | O => 0
  | S k => (m p) mod 256 + 256 * load_le m (p + 1) k
  end.

(** Little-endian store of the low [n] bytes of [v] at [p]. *)
Definition store_le (m : mem) (p : Z) (n : nat) (v : Z) : mem :=
  fun a =>
    if (p <=? a) && (a <? p + Z.of_nat n)
    then (v / 2 ^ (8 * (a - p))) mod 256
    else m a.

(** [memset] and [memcpy] of the C library, by their effect on memory. *)
Definition memset_mem (m : mem) (p c n : Z) : mem :=
  fun a => if (p <=? a) && (a <? p + n) then c mod 256 else m a.

Definition memcpy_mem (m : mem) (dst src n : Z) : mem :=
  fun a => if (dst <=? a) && (a <? dst + n) then m (src + (a - dst)) else m a.

(** ** Constants and macros *)

Definition WSIZE : Z := 4.
Definition DSIZE : Z := 8.
Definition CHUNKSIZE : Z := Z.shiftl 1 9.
Definition NULL : Z := 0.

Definition MAX (x y : Z) : Z := if x >? y then x else y.
Definition PACK (size alloc : Z) : Z := Z.lor size alloc.

(** The allocator state: the arena bytes, the break and the limit of the
    arena (owned by memlib), and the globals of mm.c. *)
Record state : Type := mkState {
  bytes : mem;
  mem_brk : Z;
  mem_max_addr : Z;
  heap_listp : Z;
  free_list_head_16 : Z;
  free_list_head_32 : Z;
  free_list_head_64 : Z;
  free_list_head_128 : Z;
  free_list_head_256 : Z;
  free_list_head_512 : Z;
  free_list_head_1024 : Z;
  free_list_head_2048 : Z;
  free_list_head_4096 : Z;
  free_list_head_8192 : Z;
  free_list_head_max : Z
}.

Definition set_bytes (s : state) (m : mem) : state :=
  mkState m (mem_brk s) (mem_max_addr s) (heap_listp s)
    (free_list_head_16 s) (free_list_head_32 s) (free_list_head_64 s)
    (free_list_head_128 s) (free_list_head_256 s) (free_list_head_512 s)
    (free_list_head_1024 s) (free_list_head_2048 s) (free_list_head_4096 s)
    (free_list_head_8192 s) (free_list_head_max s).

Definition set_brk (s : state) (b : Z) : state :=
  mkState (bytes s) b (mem_max_addr s) (heap_listp s)
    (free_list_head_16 s) (free_list_head_32 s) (free_list_head_64 s)
    (free_list_head_128 s) (free_list_head_256 s) (free_list_head_512 s)
    (free_list_head_1024 s) (free_list_head_2048 s) (free_list_head_4096 s)
    (free_list_head_8192 s) (free_list_head_max s).

Definition set_heap_listp (s : state) (p : Z) : state :=
  mkState (bytes s) (mem_brk s) (mem_max_addr s) p
    (free_list_head_16 s) (free_list_head_32 s) (free_list_head_64 s)
    (free_list_head_128 s) (free_list_head_256 s) (free_list_head_512 s)
    (free_list_head_1024 s) (free_list_head_2048 s) (free_list_head_4096 s)
    (free_list_head_8192 s) (free_list_head_max s).

(** All eleven list heads at once (used by [set_list_head] and [mm_init]). *)
Definition set_heads (s : state) (h0 h1 h2 h3 h4 h5 h6 h7 h8 h9 h10 : Z) : state :=
  mkState (bytes s) (mem_brk s) (mem_max_addr s) (heap_listp s)
    h0 h1 h2 h3 h4 h5 h6 h7 h8 h9 h10.

(** [GET], [PUT] on 32-bit words. *)
Definition GET (s : state) (p : Z) : Z := load_le (bytes s) p 4.
Definition PUT (s : state) (p val : Z) : state :=
  set_bytes s (store_le (bytes s) p 4 val).

(** [GET(p) & ~0x7] and [GET(p) & 0x1] on an [unsigned int]. *)
Definition GET_SIZE (s : state) (p : Z) : Z := Z.land (GET s p) 4294967288.
Definition GET_ALLOC (s : state) (p : Z) : Z := Z.land (GET s p) 1.

Definition HDRP (bp : Z) : Z := bp - WSIZE.
Definition FTRP (s : state) (bp : Z) : Z := bp + GET_SIZE s (HDRP bp) - DSIZE.
Definition NEXT_BLKP (s : state) (bp : Z) : Z := bp + GET_SIZE s (bp - WSIZE).
Definition PREV_BLKP (s : state) (bp : Z) : Z := bp - GET_SIZE s (bp - DSIZE).

(** Link fields of a free block: 64-bit pointers. *)
Definition GET_PRED_PTR (s : state) (bp : Z) : Z := load_le (bytes s) (bp + DSIZE) 8.
Definition GET_NEXT_PTR (s : state) (bp : Z) : Z := load_le (bytes s) bp 8.
Definition PUT_PRED_PTR (s : state) (bp newptr : Z) : state :=
  set_bytes s (store_le (bytes s) (bp + DSIZE) 8 newptr).
Definition PUT_NEXT_PTR (s : state) (bp newptr : Z) : state :=
  set_bytes s (store_le (bytes s) bp 8 newptr).

(** Modelled from the spec: the arena growth primitive [mem_sbrk] of
    memlib.c, which is not among the sources.  It hands back the old break
    and advances it when the request fits below the arena limit, and
    returns [(void * )-1] leaving the break where it was otherwise. *)
Definition mem_sbrk (s : state) (incr : Z) : state * Z :=
  if mem_brk s + incr <=? mem_max_addr s
  then (set_brk s (mem_brk s + incr), mem_brk s)
  else (s, 2 ^ 64 - 1).

(** ** Size classes *)

Definition find_list_tail (s : state) (size : Z) : Z :=
  if size <=? 16 then heap_listp s
  else if size <=? 32 then heap_listp s + DSIZE
  else if size <=? 64 then heap_listp s + DSIZE * 2
  else if size <=? 128 then heap_listp s + DSIZE * 3
  else if size <=? 256 then heap_listp s + DSIZE * 4
  else if size <=? 512 then heap_listp s + DSIZE * 5
  else if size <=? 1024 then heap_listp s + DSIZE * 6
  else if size <=? 2048 then heap_listp s + DSIZE * 7
  else if size <=? 4096 then heap_listp s + DSIZE * 8
  else if size <=? 8192 then heap_listp s + DSIZE * 9
  else heap_listp s + DSIZE * 10.

Definition find_list_head (s : state) (size : Z) : Z :=
  if size <=? 16 then free_list_head_16 s
  else if size <=? 32 then free_list_head_32 s
  else if size <=? 64 then free_list_head_64 s
  else if size <=? 128 then free_list_head_128 s
  else if size <=? 256 then free_list_head_256 s
  else if size <=? 512 then free_list_head_512 s
  else if size <=? 1024 then free_list_head_1024 s
  else if size <=? 2048 then free_list_head_2048 s
  else if size <=? 4096 then free_list_head_4096 s
  else if size <=? 8192 then free_list_head_8192 s
  else free_list_head_max s.

Definition set_list_head (s : state) (size newptr : Z) : state :=
  let h0 := free_list_head_16 s in
  let h1 := free_list_head_32 s in
  let h2 := free_list_head_64 s in
  let h3 := free_list_head_128 s in
  let h4 := free_list_head_256 s in
  let h5 := free_list_head_512 s in
  let h6 := free_list_head_1024 s in
  let h7 := free_list_head_2048 s in
  let h8 := free_list_head_4096 s in
  let h9 := free_list_head_8192 s in
  let h10 := free_list_head_max s in
  if size <=? 16 then set_heads s newptr h1 h2 h3 h4 h5 h6 h7 h8 h9 h10
  else if size <=? 32 then set_heads s h0 newptr h2 h3 h4 h5 h6 h7 h8 h9 h10
  else if size <=? 64 then set_heads s h0 h1 newptr h3 h4 h5 h6 h7 h8 h9 h10
  else if size <=? 128 then set_heads s h0 h1 h2 newptr h4 h5 h6 h7 h8 h9 h10
  else if size <=? 256 then set_heads s h0 h1 h2 h3 newptr h5 h6 h7 h8 h9 h10
  else if size <=? 512 then set_heads s h0 h1 h2 h3 h4 newptr h6 h7 h8 h9 h10
  else if size <=? 1024 then set_heads s h0 h1 h2 h3 h4 h5 newptr h7 h8 h9 h10
  else if size <=? 2048 then set_heads s h0 h1 h2 h3 h4 h5 h6 newptr h8 h9 h10
  else if size <=? 4096 then set_heads s h0 h1 h2 h3 h4 h5 h6 h7 newptr h9 h10
  else if size <=? 8192 then set_heads s h0 h1 h2 h3 h4 h5 h6 h7 h8 newptr h10
  else set_heads s h0 h1 h2 h3 h4 h5 h6 h7 h8 h9 newptr.

(** ** Loops run on fuel

    The list walks of the C code are [for] loops over pointers read from
    memory.  They are modelled with a fuel argument; [None] means that the
    fuel ran out before the loop ended. *)

Definition bind {A B : Type} (x : option A) (f : A -> option B) : option B :=
  match x with
  | Some a => f a
  | None => None
  end.

Notation "x <- c1 ;; c2" := (bind c1 (fun x => c2))
  (at level 61, c1 at next level, right associativity).
Notation "' pat <- c1 ;; c2" := (bind c1 (fun x => match x with pat => c2 end))
  (at level 61, pat pattern, c1 at next level, right associativity).

(** ** The free lists *)

(** The scan of [remove_frome_free_list] for the predecessor of [bp] in the
    one-way list: [for(bp_pred = tail; NEXT(bp_pred) != bp; bp_pred = NEXT(bp_pred));] *)
Fixpoint find_pred (fuel : nat) (s : state) (bp_pred bp : Z) : option Z :=
  match fuel with
  | O => None
  | S f =>
      if GET_NEXT_PTR s bp_pred =? bp then Some bp_pred
      else find_pred f s (GET_NEXT_PTR s bp_pred) bp
  end.

Definition remove_frome_free_list (fuel : nat) (s : state) (bp : Z) : option state :=
  let free_list_tail := find_list_tail s (GET_SIZE s (HDRP bp)) in
  if GET_SIZE s (HDRP bp) >? 16 then
    if GET_NEXT_PTR s bp =? NULL then
      let s := set_list_head s (GET_SIZE s (HDRP bp)) (GET_PRED_PTR s bp) in
      Some (PUT_NEXT_PTR s (find_list_head s (GET_SIZE s (HDRP bp))) NULL)
    else
      let s := PUT_NEXT_PTR s (GET_PRED_PTR s bp) (GET_NEXT_PTR s bp) in
      Some (PUT_PRED_PTR s (GET_NEXT_PTR s bp) (GET_PRED_PTR s bp))
  else
    bp_pred <- find_pred fuel s free_list_tail bp ;;
    if GET_NEXT_PTR s bp =? NULL then
      let s := set_list_head s (GET_SIZE s (HDRP bp)) bp_pred in
      Some (PUT_NEXT_PTR s (find_list_head s (GET_SIZE s (HDRP bp))) NULL)
    else
      Some (PUT_NEXT_PTR s bp_pred (GET_NEXT_PTR s bp)).

Definition add_to_free_list (s : state) (bp : Z) : state :=
  let free_list_head := find_list_head s (GET_SIZE s (HDRP bp)) in
  if GET_SIZE s (HDRP bp) >? 16 then
    let s := PUT_NEXT_PTR s free_list_head bp in
    let s := PUT_PRED_PTR s bp free_list_head in
    let s := PUT_NEXT_PTR s bp NULL in
    set_list_head s (GET_SIZE s (HDRP bp)) bp
  else
    let s := PUT_NEXT_PTR s free_list_head bp in
    let s := PUT_NEXT_PTR s bp NULL in
    set_list_head s (GET_SIZE s (HDRP bp)) bp.

(** ** Coalescing *)

Definition coalesce (fuel : nat) (s : state) (bp : Z) : option (state * Z) :=
  let prev_alloc := GET_ALLOC s (FTRP s (PREV_BLKP s bp)) in
  let next_alloc := GET_ALLOC s (HDRP (NEXT_BLKP s bp)) in
  let size := GET_SIZE s (HDRP bp) in
  if negb (prev_alloc =? 0) && negb (next_alloc =? 0) then
    Some (s, bp)
  else if negb (prev_alloc =? 0) && (next_alloc =? 0) then
    let size := wrap64 (size + GET_SIZE s (HDRP (NEXT_BLKP s bp))) in
    s <- remove_frome_free_list fuel s bp ;;
    s <- remove_frome_free_list fuel s (NEXT_BLKP s bp) ;;
    let s := PUT s (HDRP bp) (PACK size 0) in
    let s := PUT s (FTRP s bp) (PACK size 0) in
    let s := add_to_free_list s bp in
    Some (s, bp)
  else if (prev_alloc =? 0) && negb (next_alloc =? 0) then
    let size := wrap64 (size + GET_SIZE s (HDRP (PREV_BLKP s bp))) in
    s <- remove_frome_free_list fuel s (PREV_BLKP s bp) ;;
    let s := PUT s (FTRP s bp) (PACK size 0) in
    let s := PUT s (HDRP (PREV_BLKP s bp)) (PACK size 0) in
    s <- remove_frome_free_list fuel s bp ;;
    let bp := PREV_BLKP s bp in
    let s := add_to_free_list s bp in
    Some (s, bp)
  else
    let size := wrap64 (size + wrap32 (GET_SIZE s (HDRP (PREV_BLKP s bp)) +
                                       GET_SIZE s (FTRP s (NEXT_BLKP s bp)))) in
    s <- remove_frome_free_list fuel s (PREV_BLKP s bp) ;;
    let s := PUT s (HDRP (PREV_BLKP s bp)) (PACK size 0) in
    let s := PUT s (FTRP s (NEXT_BLKP s bp)) (PACK size 0) in
    s <- remove_frome_free_list fuel s (NEXT_BLKP s bp) ;;
    s <- remove_frome_free_list fuel s bp ;;
    let bp := PREV_BLKP s bp in
    let s := add_to_free_list s bp in
    Some (s, bp).

(** ** Growing the arena *)

Definition extend_heap (fuel : nat) (s : state) (words : Z) : option (state * Z) :=
  let size := if negb (words mod 2 =? 0)
              then wrap64 (wrap64 (words + 1) * WSIZE)
              else wrap64 (words * WSIZE) in
  let '(s, bp) := mem_sbrk s size in
  if bp =? 2 ^ 64 - 1 then Some (s, NULL)
  else
    let s := PUT s (HDRP bp) (PACK size 0) in
    let s := PUT s (FTRP s bp) (PACK size 0) in
    let s := PUT s (HDRP (NEXT_BLKP s bp)) (PACK 0 1) in
    let s := add_to_free_list s bp in
    coalesce fuel s bp.

(** ** Initialisation *)

Definition mm_init (fuel : nat) (s : state) : option (state * Z) :=
  let '(s, p) := mem_sbrk s (26 * WSIZE) in
  let s := set_heap_listp s p in
  if heap_listp s =? 2 ^ 64 - 1 then Some (s, -1)
  else
    let s := PUT s (heap_listp s) 0 in
    let s := PUT s (heap_listp s + 1 * WSIZE) (PACK (DSIZE * 12) 1) in
    let s := PUT s (heap_listp s + 24 * WSIZE) (PACK (DSIZE * 12) 1) in
    let s := PUT s (heap_listp s + 25 * WSIZE) (PACK 0 1) in
    let s := set_heap_listp s (heap_listp s + 2 * WSIZE) in
    let s := PUT_NEXT_PTR s (heap_listp s) NULL in
    let s := PUT_NEXT_PTR s (heap_listp s + DSIZE) NULL in
    let s := PUT_NEXT_PTR s (heap_listp s + DSIZE * 2) NULL in
    let s := PUT_NEXT_PTR s (heap_listp s + DSIZE * 3) NULL in
    let s := PUT_NEXT_PTR s (heap_listp s + DSIZE * 4) NULL in
    let s := PUT_NEXT_PTR s (heap_listp s + DSIZE * 5) NULL in
    let s := PUT_NEXT_PTR s (heap_listp s + DSIZE * 6) NULL in
    let s := PUT_NEXT_PTR s (heap_listp s + DSIZE * 7) NULL in
    let s := PUT_NEXT_PTR s (heap_listp s + DSIZE * 8) NULL in
    let s := PUT_NEXT_PTR s (heap_listp s + DSIZE * 9) NULL in
    let s := PUT_NEXT_PTR s (heap_listp s + DSIZE * 10) NULL in
    let s := set_heads s
               (heap_listp s) (heap_listp s + DSIZE) (heap_listp s + DSIZE * 2)
               (heap_listp s + DSIZE * 3) (heap_listp s + DSIZE * 4)
               (heap_listp s + DSIZE * 5) (heap_listp s + DSIZE * 6)
               (heap_listp s + DSIZE * 7) (heap_listp s + DSIZE * 8)
               (heap_listp s + DSIZE * 9) (heap_listp s + DSIZE * 10) in
    '(s, bp) <- extend_heap fuel s (CHUNKSIZE / WSIZE) ;;
    if bp =? NULL then Some (s, -1) else Some (s, 0).

(** ** Placement and search *)

Definition place (fuel : nat) (s : state) (bp asize : Z) : option (state * Z) :=
  let csize := GET_SIZE s (HDRP bp) in
  if wrap64 (csize - asize) >=? 2 * DSIZE then
    s <- remove_frome_free_list fuel s bp ;;
    let s := PUT s (HDRP bp) (PACK (wrap64 (csize - asize)) 0) in
    let s := PUT s (FTRP s bp) (PACK (wrap64 (csize - asize)) 0) in
    let bp := NEXT_BLKP s bp in
    let s := PUT s (HDRP bp) (PACK asize 1) in
    let s := PUT s (FTRP s bp) (PACK asize 1) in
    let s := add_to_free_list s (PREV_BLKP s bp) in
    Some (s, bp)
  else
    let s := PUT s (HDRP bp) (PACK csize 1) in
    let s := PUT s (FTRP s bp) (PACK csize 1) in
    s <- remove_frome_free_list fuel s bp ;;
    Some (s, bp).

(** Inner loop of the first-fit search over one list, entered at [bp];
    [Some NULL] when the list holds no fit. *)
Fixpoint first_fit_list (fuel : nat) (s : state) (asize bp : Z) : option Z :=
  match fuel with
  | O => None
  | S f =>
      if bp =? NULL then Some NULL
      else if asize <=? GET_SIZE s (HDRP bp) then Some bp
      else first_fit_list f s asize (GET_NEXT_PTR s bp)
  end.

(** The loop condition of the first-fit stage, as written. *)
Definition first_fit_goes_on (s : state) (free_list_tail : Z) : bool :=
  negb (free_list_tail =? heap_listp s + 2 * DSIZE) &&
  negb (free_list_tail =? heap_listp s + 3 * DSIZE) &&
  negb (free_list_tail =? heap_listp s + 4 * DSIZE) &&
  negb (free_list_tail =? heap_listp s + 7 * DSIZE) &&
  negb (free_list_tail =? heap_listp s + 8 * DSIZE) &&
  negb (free_list_tail =? heap_listp s + 9 * DSIZE) &&
  negb (free_list_tail =? heap_listp s + 5 * DSIZE) &&
  negb (free_list_tail =? heap_listp s + 6 * DSIZE) &&
  negb (free_list_tail =? heap_listp s + 10 * DSIZE).

(** First-fit stage: the block found (or [NULL]) and the value of
    [free_list_tail] with which the stage ends. *)
Fixpoint first_fit_loop (fuel : nat) (s : state) (asize free_list_tail : Z)
  : option (Z * Z) :=
  match fuel with
  | O => None
  | S f =>
      if first_fit_goes_on s free_list_tail then
        bp <- first_fit_list fuel s asize (GET_NEXT_PTR s free_list_tail) ;;
        if negb (bp =? NULL) then Some (bp, free_list_tail)
        else first_fit_loop f s asize (free_list_tail + DSIZE)
      else Some (NULL, free_list_tail)
  end.

(** Inner loop of the best-fit search over one list: the running
    [bp_best] and [t] after the list was walked. *)
Fixpoint best_fit_list (fuel : nat) (s : state) (asize bp bp_best t : Z)
  : option (Z * Z) :=
  match fuel with
  | O => None
  | S f =>
      if bp =? NULL then Some (bp_best, t)
      else if asize <=? GET_SIZE s (HDRP bp) then
        if GET_SIZE s (HDRP bp) <=? t
        then best_fit_list f s asize (GET_NEXT_PTR s bp) bp (GET_SIZE s (HDRP bp))
        else best_fit_list f s asize (GET_NEXT_PTR s bp) bp_best t
      else best_fit_list f s asize (GET_NEXT_PTR s bp) bp_best t
  end.

Fixpoint best_fit_loop (fuel : nat) (s : state) (asize free_list_tail bp_best t : Z)
  : option Z :=
  match fuel with
  | O => None
  | S f =>
      if negb (free_list_tail =? heap_listp s + 11 * DSIZE) then
        '(bp_best, t) <- best_fit_list fuel s asize
                           (GET_NEXT_PTR s free_list_tail) bp_best t ;;
        if negb (bp_best =? NULL) then Some bp_best
        else best_fit_loop f s asize (free_list_tail + DSIZE) bp_best t
      else Some NULL
  end.

Definition find_fit (fuel : nat) (s : state) (asize : Z) : option Z :=
  let free_list_tail := find_list_tail s asize in
  '(bp, free_list_tail) <- first_fit_loop fuel s asize free_list_tail ;;
  if negb (bp =? NULL) then Some bp
  else best_fit_loop fuel s asize free_list_tail NULL (Z.shiftl 1 30).

(** ** The four entry points *)

(** The adjusted block size computed by [malloc] and [realloc]. *)
Definition adjust (size : Z) : Z :=
  if size <=? DSIZE then 2 * DSIZE
  else wrap64 (DSIZE * (wrap64 (wrap64 (size + DSIZE) + (DSIZE - 1)) / DSIZE)).

Definition malloc (fuel : nat) (s : state) (size : Z) : option (state * Z) :=
  s <- (if heap_listp s =? 0
        then '(s, _) <- mm_init fuel s ;; Some s
        else Some s) ;;
  if size =? 0 then Some (s, NULL)
  else
    let asize := adjust size in
    bp <- find_fit fuel s asize ;;
    if negb (bp =? NULL) then place fuel s bp asize
    else
      let extendsize := MAX asize CHUNKSIZE in
      '(s, bp) <- extend_heap fuel s (extendsize / WSIZE) ;;
      if bp =? NULL then Some (s, NULL)
      else place fuel s bp asize.

Definition free (fuel : nat) (s : state) (bp : Z) : option state :=
  if bp =? 0 then Some s
  else
    let size := GET_SIZE s (HDRP bp) in
    s <- (if heap_listp s =? 0
          then '(s, _) <- mm_init fuel s ;; Some s
          else Some s) ;;
    let s := PUT s (HDRP bp) (PACK size 0) in
    let s := PUT s (FTRP s bp) (PACK size 0) in
    let s := add_to_free_list s bp in
    '(s, _) <- coalesce fuel s bp ;;
    Some s.

Definition realloc (fuel : nat) (s : state) (ptr size : Z) : option (state * Z) :=
  if size =? 0 then
    s <- free fuel s ptr ;;
    Some (s, 0)
  else if ptr =? NULL then malloc fuel s size
  else
    let oldsize := GET_SIZE s (HDRP ptr) in
    let asize := adjust size in
    if oldsize >=? wrap64 (asize + 2 * DSIZE) then
      let s := PUT s (HDRP ptr) (PACK asize 1) in
      let s := PUT s (FTRP s ptr) (PACK asize 1) in
      let s := PUT s (HDRP (NEXT_BLKP s ptr)) (PACK (wrap64 (oldsize - asize)) 1) in
      let s := PUT s (FTRP s (NEXT_BLKP s ptr)) (PACK (wrap64 (oldsize - asize)) 1) in
      s <- free fuel s (NEXT_BLKP s ptr) ;;
      Some (s, ptr)
    else if oldsize >=? asize then Some (s, ptr)
    else
      let fallback (s : state) : option (state * Z) :=
        '(s, newptr) <- malloc fuel s asize ;;
        if newptr =? 0 then Some (s, 0)
        else
          let s := set_bytes s (memcpy_mem (bytes s) newptr ptr oldsize) in
          s <- free fuel s ptr ;;
          Some (s, newptr) in
      if GET_ALLOC s (HDRP (NEXT_BLKP s ptr)) =? 0 then
        let nowsize := wrap64 (oldsize + GET_SIZE s (HDRP (NEXT_BLKP s ptr))) in
        if nowsize >=? wrap64 (asize + 2 * DSIZE) then
          s <- remove_frome_free_list fuel s (NEXT_BLKP s ptr) ;;
          let s := PUT s (HDRP ptr) (PACK asize 1) in
          let s := PUT s (FTRP s ptr) (PACK asize 1) in
          let s := PUT s (HDRP (NEXT_BLKP s ptr)) (PACK (wrap64 (nowsize - asize)) 0) in
          let s := PUT s (FTRP s (NEXT_BLKP s ptr)) (PACK (wrap64 (nowsize - asize)) 0) in
          let s := add_to_free_list s (NEXT_BLKP s ptr) in
          Some (s, ptr)
        else if nowsize >=? asize then
          s <- remove_frome_free_list fuel s (NEXT_BLKP s ptr) ;;
          let s := PUT s (HDRP ptr) (PACK nowsize 1) in
          let s := PUT s (FTRP s ptr) (PACK nowsize 1) in
          Some (s, ptr)
        else fallback s
      else fallback s.

Definition calloc (fuel : nat) (s : state) (nmemb size : Z) : option (state * Z) :=
  let bytes_ := wrap64 (nmemb * size) in
  '(s, newptr) <- malloc fuel s bytes_ ;;
  let s := set_bytes s (memset_mem (bytes s) newptr 0 bytes_) in
  Some (s, newptr).

(** ** The heap as a list of blocks and eleven lists of free blocks *)

(** The size classes, numbered 0 to 10 as the anchors are laid out. *)
Definition class_of (size : Z) : Z :=
  if size <=? 16 then 0
  else if size <=? 32 then 1
  else if size <=? 64 then 2
  else if size <=? 128 then 3
  else if size <=? 256 then 4
  else if size <=? 512 then 5
  else if size <=? 1024 then 6
  else if size <=? 2048 then 7
  else if size <=? 4096 then 8
  else if size <=? 8192 then 9
  else 10.

(** The tracked end of the list of class [k] (the C code calls it head). *)
Definition head_of (s : state) (k : Z) : Z :=
  if k =? 0 then free_list_head_16 s
  else if k =? 1 then free_list_head_32 s
  else if k =? 2 then free_list_head_64 s
  else if k =? 3 then free_list_head_128 s
  else if k =? 4 then free_list_head_256 s
  else if k =? 5 then free_list_head_512 s
  else if k =? 6 then free_list_head_1024 s
  else if k =? 7 then free_list_head_2048 s
  else if k =? 8 then free_list_head_4096 s
  else if k =? 9 then free_list_head_8192 s
  else free_list_head_max s.

(** The anchor of class [k] in the prologue (the C code calls it tail). *)
Definition anchor (s : state) (k : Z) : Z := heap_listp s + DSIZE * k.

(** Every class but the smallest is doubly linked. *)
Definition doubly (k : Z) : bool := negb (k =? 0).

(** Bytes of a node of class [k] taken by its link fields. *)
Definition link_size (k : Z) : Z := if k =? 0 then 8 else 16.

(** [lseg m d prev l nxt]: in memory [m] the next field of [prev] starts
    the chain of nodes [l], whose last next field holds [nxt]; with [d]
    every node also points back to its predecessor. *)
Fixpoint lseg (m : mem) (d : bool) (prev : Z) (l : list Z) (nxt : Z) : Prop :=
  match l with
  | [] => load_le m prev 8 = nxt
  | x :: l' =>
      load_le m prev 8 = x /\ x <> 0 /\
      (d = true -> load_le m (x + 8) 8 = prev) /\
      lseg m d x l' nxt
  end.

Definition lists_ok (s : state) (F : Z -> list Z) : Prop :=
  forall k, 0 <= k <= 10 ->
    lseg (bytes s) (doubly k) (anchor s k) (F k) 0 /\
    head_of s k = last (F k) (anchor s k).

(** [upd F k l]: the lists [F] with the list of class [k] replaced by [l]. *)
Definition upd (F : Z -> list Z) (k : Z) (l : list Z) : Z -> list Z :=
  fun j => if j =? k then l else F j.

(** A heap layout is the list of its blocks in address order, each with
    its size and allocated flag. *)
Definition layout_t : Type := list (Z * bool).

Fixpoint total (L : layout_t) : Z :=
  match L with
  | [] => 0
  | (sz, _) :: L' => sz + total L'
  end.

(** The blocks of [L] laid out from payload address [a]: address, size, flag. *)
Fixpoint layout (a : Z) (L : layout_t) : list (Z * Z * bool) :=
  match L with
  | [] => []
  | (sz, al) :: L' => (a, sz, al) :: layout (a + sz) L'
  end.

Definition flag (al : bool) : Z := if al then 1 else 0.

(** The word at [p] is the tag of a block of size [sz] and flag [al]. *)
Definition tag (m : mem) (p sz : Z) (al : bool) : Prop :=
  load_le m p 4 = sz + flag al.

(** Header and footer of every block of [L], laid out from [a]. *)
Fixpoint blocks_at (m : mem) (a : Z) (L : layout_t) : Prop :=
  match L with
  | [] => True
  | (sz, al) :: L' =>
      16 <= sz /\ sz mod 8 = 0 /\
      tag m (a - 4) sz al /\ tag m (a + sz - 8) sz al /\
      blocks_at m (a + sz) L'
  end.

Fixpoint no_adj_free (L : layout_t) : bool :=
  match L with
  | (_, a1) :: (((_, a2) :: _) as L') => (a1 || a2) && no_adj_free L'
  | _ => true
  end.

(** The flag of the first and of the last block; true when there is none,
    as the prologue and the epilogue are allocated. *)
Definition first_alloc (L : layout_t) : bool :=
  match L with
  | [] => true
  | (_, al) :: _ => al
  end.

Fixpoint last_alloc (L : layout_t) : bool :=
  match L with
  | [] => true
  | (_, al) :: L' => match L' with [] => al | _ :: _ => last_alloc L' end
  end.

(** The link fields of the anchors and of the nodes of [F]. *)
Definition in_links (s : state) (F : Z -> list Z) (a : Z) : Prop :=
  heap_listp s <= a < heap_listp s + 88 \/
  exists k x, 0 <= k <= 10 /\ In x (F k) /\ x <= a < x + link_size k.

(** The nodes of [F] lie above the prologue, fit in a pointer, and the
    link fields of one do not overlap the header and link fields of another. *)
Record sep (s : state) (F : Z -> list Z) : Prop := {
  sep_base : 0 < heap_listp s /\ heap_listp s + 96 <= 2 ^ 64;
  sep_range : forall k x, 0 <= k <= 10 -> In x (F k) ->
      heap_listp s + 96 <= x /\ x + 16 <= 2 ^ 64;
  sep_apart : forall k1 k2 x1 x2, 0 <= k1 <= 10 -> 0 <= k2 <= 10 ->
      In x1 (F k1) -> In x2 (F k2) ->
      (k1 = k2 /\ x1 = x2) \/
      x1 + link_size k1 + 4 <= x2 \/ x2 + link_size k2 + 4 <= x1;
  sep_nodup : forall k, 0 <= k <= 10 -> NoDup (F k)
}.

(** The nodes of one list, [w] bytes of link fields each, do not overlap
    each other nor the next field of [prev]. *)
Definition spaced (w prev : Z) (l : list Z) : Prop :=
  NoDup l /\
  (forall y, In y l -> prev + 8 <= y \/ y + w <= prev) /\
  (forall x y, In x l -> In y l -> x = y \/ x + w <= y \/ y + w <= x).

(** Every block has at least the minimum size and a size that keeps the
    alignment. *)
Definition sizes_ok (L : layout_t) : Prop :=
  Forall (fun b => 16 <= fst b /\ fst b mod 8 = 0) L.

(** The bytes of the headers and footers of the blocks of [L] from [a]. *)
Definition tag_area (a : Z) (L : layout_t) (x : Z) : Prop :=
  exists b sz al, In (b, sz, al) (layout a L) /\
                  (b - 4 <= x < b \/ b + sz - 8 <= x < b + sz - 4).

(** The bytes of the payloads of the blocks of [L] from [a]. *)
Definition in_payload (a : Z) (L : layout_t) (x : Z) : Prop :=
  exists b sz al, In (b, sz, al) (layout a L) /\ b <= x < b + sz - 8.

(** [s'] holds the bytes of [s] except, possibly, those in [R]. *)
Definition same_but (R : Z -> Prop) (s s' : state) : Prop :=
  forall a, ~ R a -> bytes s' a = bytes s a.

(** The first block starts 96 bytes after the prologue payload. *)
Definition first_block (s : state) : Z := heap_listp s + 96.

(** [heap_rep L F s]: the memory of [s] holds the prologue, the blocks of
    [L] with matching header and footer, and the epilogue at the break;
    the lists [F] are linked in memory and hold exactly the free blocks of
    [L], each in the class of its size; the arena stays below 4 GiB so that
    every size fits a tag. *)
Record heap_rep (L : layout_t) (F : Z -> list Z) (s : state) : Prop := {
  rep_aligned : heap_listp s mod 8 = 0;
  rep_base : 8 <= heap_listp s;
  rep_brk : mem_brk s = first_block s + total L;
  rep_max : mem_brk s <= mem_max_addr s;
  rep_small : mem_max_addr s - heap_listp s < 2 ^ 32;
  rep_addr : mem_max_addr s + 16 <= 2 ^ 64;
  rep_blocks : blocks_at (bytes s) (heap_listp s) ((96, true) :: L);
  rep_epilogue : tag (bytes s) (mem_brk s - 4) 0 true;
  rep_lists : lists_ok s F;
  rep_nodup : forall k, 0 <= k <= 10 -> NoDup (F k);
  rep_nodes : forall k x, 0 <= k <= 10 ->
      (In x (F k) <->
       exists sz, In (x, sz, false) (layout (first_block s) L) /\ class_of sz = k)
}.

(** The part of [heap_rep] that does not look at memory. *)
Record geom (s : state) (L : layout_t) : Prop := {
  geom_aligned : heap_listp s mod 8 = 0;
  geom_base : 8 <= heap_listp s;
  geom_brk : mem_brk s = first_block s + total L;
  geom_max : mem_brk s <= mem_max_addr s;
  geom_small : mem_max_addr s - heap_listp s < 2 ^ 32;
  geom_addr : mem_max_addr s + 16 <= 2 ^ 64;
  geom_sizes : sizes_ok L
}.

(** Every node of [F] is a free block of [L], listed in the class of its size. *)
Definition nodes_in (s : state) (L : layout_t) (F : Z -> list Z) : Prop :=
  forall k x, 0 <= k <= 10 -> In x (F k) ->
    exists sz, In (x, sz, false) (layout (first_block s) L) /\ class_of sz = k.

(** Address and size, and address, of a block of a layout. *)
Definition addr_size (b : Z * Z * bool) : Z * Z := (fst (fst b), snd (fst b)).
Definition addr_of (b : Z * Z * bool) : Z := fst (fst b).

(** While an operation rewrites the blocks between [lo] and [hi], a
    listed node lies outside that segment or is one of the nodes [G]
    inside it, given with the sizes of their blocks. *)
Definition seg_node (lo hi : Z) (G : list (Z * Z)) (j x : Z) : Prop :=
  x + link_size j + 4 <= lo \/ hi + 4 <= x \/
  exists sz, In (x, sz) G /\ link_size j + 8 <= sz.

(** The state [s] with lists [F] in the middle of an operation that
    started in [s0] with lists [F0] and works on the segment [lo, hi). *)
Record running (s0 : state) (F0 : Z -> list Z) (lo hi : Z) (G : list (Z * Z))
       (s : state) (F : Z -> list Z) : Prop := {
  run_base : heap_listp s = heap_listp s0;
  run_brk : mem_brk s = mem_brk s0;
  run_max : mem_max_addr s = mem_max_addr s0;
  run_lo : heap_listp s0 + 92 <= lo;
  run_sep : sep s0 F0;
  run_lists : lists_ok s F;
  run_sub : forall j x, 0 <= j <= 10 -> In x (F j) -> In x (F0 j);
  run_nodup : forall j, 0 <= j <= 10 -> NoDup (F j);
  run_class : forall j x, 0 <= j <= 10 -> In x (F j) ->
      class_of (GET_SIZE s (HDRP x)) = j;
  run_seg : forall j x, 0 <= j <= 10 -> In x (F j) -> seg_node lo hi G j x;
  run_frame : same_but (fun a => in_links s0 F0 a \/ lo <= a < hi) s0 s
}.



(** Fuel that outlasts every list walk of a heap inside the arena. *)
Definition enough (fuel : nat) (s : state) : Prop :=
  mem_max_addr s - heap_listp s <= Z.of_nat fuel.

(** ** Client requests and concrete heaps *)

(** A request of a client program to one of the four entry points. *)
Inductive request : Type :=
| Malloc (size : Z)
| Free (ptr : Z)
| Realloc (ptr size : Z)
| Calloc (nmemb size : Z).

Definition run_request (fuel : nat) (s : state) (r : request) : option (state * Z) :=
  match r with
  | Malloc size => malloc fuel s size
  | Free ptr => s' <- free fuel s ptr ;; Some (s', NULL)
  | Realloc ptr size => realloc fuel s ptr size
  | Calloc nmemb size => calloc fuel s nmemb size
  end.

Fixpoint run_requests (fuel : nat) (s : state) (rs : list request) : option state :=
  match rs with
  | [] => Some s
  | r :: rs' => '(s', _) <- run_request fuel s r ;; run_requests fuel s' rs'
  end.

(** The state of a process before the allocator ran: every global is zero,
    the arena is [lo, max) with the break at [lo], memory holds [m]. *)
Definition fresh_state (m : mem) (lo max : Z) : state :=
  mkState m lo max 0 0 0 0 0 0 0 0 0 0 0 0.

(** Projections of a result, for statements about concrete runs. *)
Definition result_ptr (o : option (state * Z)) : option Z := option_map snd o.
Definition result_byte (o : option (state * Z)) (a : Z) : option Z :=
  option_map (fun r => bytes (fst r) a) o.
Definition result_state (o : option (state * Z)) (d : state) : state :=
  match o with Some (s, _) => s | None => d end.
Definition state_or (o : option state) (d : state) : state :=
  match o with Some s => s | None => d end.

(** Usable payload of the block at [bp]: the block without its two tags. *)
Definition payload_size (s : state) (bp : Z) : Z := GET_SIZE s (HDRP bp) - DSIZE.

(** The [n] bytes at [p] are all zero. *)
Definition zero_filled (s : state) (p n : Z) : Prop :=
  forall i, 0 <= i < n -> (bytes s (p + i)) mod 256 = 0.

(** An arena of 4096 bytes at address 4096, zeroed, allocator not yet
    initialised; and the same after [mm_init]. *)
Definition boot : state := fresh_state (fun _ => 0) 4096 8192.
Definition booted : state := result_state (mm_init 100 boot) boot.

(** Two free blocks of 64 and 48 bytes, in this order, in the list of the
    class of sizes 33..64. *)
Definition two_in_class_64 : state :=
  state_or (run_requests 100 boot
              [Malloc 56; Malloc 8; Malloc 40; Malloc 8; Free 4648; Free 4584]) boot.

(** An arena whose memory holds ones and which has less than 4000 bytes left. *)
Definition nearly_full : state :=
  result_state (mm_init 100 (fresh_state (fun _ => 1) 4096 8192)) boot.

(** A 32-byte block whose 24 payload bytes the client set to 255 before
    freeing it. *)
Definition dirty_freed : state :=
  let s := result_state (malloc 100 booted 24) boot in
  let s := set_bytes s (memset_mem (bytes s) 4680 255 24) in
  state_or (free 100 s 4680) boot.

(** Two live 16-byte blocks at the end of the arena, at 4680 and 4696. *)
Definition two_small : state :=
  state_or (run_requests 100 boot [Malloc 8; Malloc 8]) boot.

From Stdlib Require String.
Import String.StringSyntax.
Delimit Scope string_scope with string.

(** ** The heap checker *)

(** What [mm_checkheap] prints, one value per line of output:
    - [Text msg] for a fixed message,
    - [BlockLine a sz al] for "address: %p, size: %x, alloc: %d",
    - [NextLine a] for "next address: %p",
    - [ListBelow cnt] for "FREE LIST BELOW %x". *)
Inductive line : Type :=
| Text (msg : String.string)
| BlockLine (address size alloc : Z)
| NextLine (address : Z)
| ListBelow (cnt : Z).

(** A checker returns to its caller or ends the process with [exit(0)]. *)
Inductive outcome : Type := Returned | Exited.

(** [if (lineno) printf(...)]. *)
Definition say (lineno : Z) (l : line) : list line :=
  if lineno =? 0 then [] else [l].

(** The loop of [print_each_block] over the blocks from [bp] on, and the
    test of the epilogue that follows it. *)
Fixpoint print_blocks (fuel : nat) (s : state) (lineno bp : Z)
  : option (list line * outcome) :=
  match fuel with
  | O => None
  | S f =>
      if GET_SIZE s (HDRP bp) >? 0 then
        if negb (GET_SIZE s (HDRP bp) =? GET_SIZE s (FTRP s bp)) then
          Some (say lineno (Text "the header and foot not matches"%string), Exited)
        else
          '(out, r) <- print_blocks f s lineno (NEXT_BLKP s bp) ;;
          Some (say lineno (BlockLine bp (GET_SIZE s (HDRP bp)) (GET_ALLOC s (HDRP bp)))
                  ++ out, r)
      else if (GET_ALLOC s (HDRP bp) =? 0) || negb (GET_SIZE s (HDRP bp) =? 0) then
        Some (say lineno (Text "the epilogue is invalid"%string), Exited)
      else Some ([], Returned)
  end.

Definition print_each_block (fuel : nat) (s : state) (lineno : Z)
  : option (list line * outcome) :=
  let bp := heap_listp s in
  if negb (GET_SIZE s (HDRP bp) mod 8 =? 0) then
    Some (say lineno (Text "the prologue not aligns to DSIZE!"%string), Exited)
  else print_blocks fuel s lineno bp.

(** The do-while loop of [print_free_block], entered at [bp] whose next
    field is not [NULL]. *)
Fixpoint print_list (fuel : nat) (s : state) (lineno bp : Z) : option (list line) :=
  match fuel with
  | O => None
  | S f =>
      let bp := GET_NEXT_PTR s bp in
      let out := say lineno (BlockLine bp (GET_SIZE s (HDRP bp)) (GET_ALLOC s (HDRP bp)))
                 ++ say lineno (NextLine (GET_NEXT_PTR s bp)) in
      if negb (GET_NEXT_PTR s bp =? 0) then
        rest <- print_list f s lineno bp ;;
        Some (out ++ rest)
      else Some out
  end.

(** The for loop of [print_free_block] over the anchors; [cnt] is an [int]
    that doubles at most eleven times from 16. *)
Fixpoint print_lists (fuel : nat) (s : state) (lineno free_list_tail cnt : Z)
  : option (list line) :=
  match fuel with
  | O => None
  | S f =>
      if negb (free_list_tail =? heap_listp s + 11 * DSIZE) then
        let out := if lineno =? 0 then []
                   else if negb (cnt =? 16384) then [ListBelow cnt]
                        else [Text "FREE LIST OVER 1000"%string] in
        let cnt := cnt * 2 in
        body <- (if GET_NEXT_PTR s free_list_tail =? 0 then Some []
                 else print_list fuel s lineno free_list_tail) ;;
        rest <- print_lists f s lineno (free_list_tail + DSIZE) cnt ;;
        Some (out ++ body ++ rest)
      else Some []
  end.

Definition print_free_block (fuel : nat) (s : state) (lineno : Z) : option (list line) :=
  print_lists fuel s lineno (heap_listp s) 16.

Definition mm_checkheap (fuel : nat) (s : state) (lineno : Z)
  : option (list line * outcome) :=
  '(out1, r) <- print_each_block fuel s lineno ;;
  match r with
  | Exited => Some (out1, Exited)
  | Returned =>
      out2 <- print_free_block fuel s lineno ;;
      Some (out1 ++ out2, Returned)
  end.

(** ** Deciding the representation of a concrete heap *)

Definition classes : list Z := [0; 1; 2; 3; 4; 5; 6; 7; 8; 9; 10].

(** The lists of the eleven classes given as a list of lists. *)
Definition lists_of (Fl : list (list Z)) : Z -> list Z :=
  fun k => nth (Z.to_nat k) Fl [].

Definition tagb (m : mem) (p sz : Z) (al : bool) : bool :=
  load_le m p 4 =? sz + flag al.

Fixpoint blocks_atb (m : mem) (a : Z) (L : layout_t) : bool :=
  match L with
  | [] => true
  | (sz, al) :: L' =>
      (16 <=? sz) && (sz mod 8 =? 0) &&
      tagb m (a - 4) sz al && tagb m (a + sz - 8) sz al &&
      blocks_atb m (a + sz) L'
  end.

Fixpoint lsegb (m : mem) (d : bool) (prev : Z) (l : list Z) (nxt : Z) : bool :=
  match l with
  | [] => load_le m prev 8 =? nxt
  | x :: l' =>
      (load_le m prev 8 =? x) && negb (x =? 0) &&
      (if d then load_le m (x + 8) 8 =? prev else true) &&
      lsegb m d x l' nxt
  end.

Definition lists_okb (s : state) (F : Z -> list Z) : bool :=
  forallb (fun k => lsegb (bytes s) (doubly k) (anchor s k) (F k) 0 &&
                    (head_of s k =? last (F k) (anchor s k))) classes.

Fixpoint nodupb (l : list Z) : bool :=
  match l with
  | [] => true
  | x :: l' => negb (existsb (Z.eqb x) l') && nodupb l'
  end.

Definition apartb (k1 k2 x1 x2 : Z) : bool :=
  ((k1 =? k2) && (x1 =? x2)) ||
  (x1 + link_size k1 + 4 <=? x2) || (x2 + link_size k2 + 4 <=? x1).

Definition sepb (s : state) (F : Z -> list Z) : bool :=
  (0 <? heap_listp s) && (heap_listp s + 96 <=? 2 ^ 64) &&
  forallb (fun k =>
    nodupb (F k) &&
    forallb (fun x =>
      (heap_listp s + 96 <=? x) && (x + 16 <=? 2 ^ 64) &&
      forallb (fun k2 => forallb (fun x2 => apartb k k2 x x2) (F k2)) classes)
      (F k)) classes.

Definition nodesb (s : state) (L : layout_t) (F : Z -> list Z) : bool :=
  forallb (fun k =>
    forallb (fun x =>
      existsb (fun b => (addr_of b =? x) && negb (snd b) &&
                        (class_of (snd (fst b)) =? k))
              (layout (first_block s) L)) (F k)) classes &&
  forallb (fun b => snd b || existsb (Z.eqb (addr_of b)) (F (class_of (snd (fst b)))))
          (layout (first_block s) L).

Definition rep_check (L : layout_t) (F : Z -> list Z) (s : state) : bool :=
  (heap_listp s mod 8 =? 0) && (8 <=? heap_listp s) &&
  (mem_brk s =? first_block s + total L) && (mem_brk s <=? mem_max_addr s) &&
  (mem_max_addr s - heap_listp s <? 2 ^ 32) && (mem_max_addr s + 16 <=? 2 ^ 64) &&
  blocks_atb (bytes s) (heap_listp s) ((96, true) :: L) &&
  tagb (bytes s) (mem_brk s - 4) 0 true &&
  lists_okb s F && forallb (fun k => nodupb (F k)) classes && nodesb s L F.

(** ** More concrete heaps *)

(** The lists of [booted]: the 512-byte block at 4200 in the class of
    sizes 257..512. *)
Definition booted_lists : Z -> list Z :=
  lists_of [[]; []; []; []; []; [4200]; []; []; []; []; []].

(** [two_small] is laid out as a free block of 480 bytes at 4200 followed
    by the live blocks at 4680 and 4696. *)
Definition two_small_layout : layout_t := [(480, false); (16, true); (16, true)].

(** The block at 4680 of [two_small] tagged free ([tagged_free]) and then
    listed ([before_coalesce]), its free neighbour at 4200 not yet merged:
    the states in which [free] calls [add_to_free_list] and [coalesce]. *)
Definition tagged_free : state :=
  let s := PUT two_small (HDRP 4680) (PACK 16 0) in
  PUT s (FTRP s 4680) (PACK 16 0).

Definition before_coalesce : state := add_to_free_list tagged_free 4680.

Definition before_coalesce_layout : layout_t := [(480, false); (16, false); (16, true)].

Definition before_coalesce_lists : Z -> list Z :=
  lists_of [[4680]; []; []; []; []; [4200]; []; []; []; []; []].

(** ** What the heap checker prints for a represented heap *)

(** One line per block: address, size, flag. *)
Definition block_lines (lineno : Z) (bl : list (Z * Z * bool)) : list line :=
  flat_map (fun b => say lineno (BlockLine (addr_of b) (snd (fst b)) (flag (snd b)))) bl.

(** Two lines per node of a list: the node as its header describes it,
    and its next field. *)
Definition node_lines (s : state) (lineno : Z) (l : list Z) : list line :=
  flat_map (fun x => say lineno (BlockLine x (GET_SIZE s (HDRP x)) (GET_ALLOC s (HDRP x)))
                     ++ say lineno (NextLine (GET_NEXT_PTR s x))) l.

(** The title of the list of class [k]: the counter starts at 16 and
    doubles with every class; the last class has a title of its own. *)
Definition class_title (lineno k : Z) : list line :=
  if lineno =? 0 then []
  else if k =? 10 then [Text "FREE LIST OVER 1000"%string]
       else [ListBelow (16 * 2 ^ k)].

Definition list_lines (s : state) (F : Z -> list Z) (lineno : Z) (ks : list Z)
  : list line :=
  flat_map (fun k => class_title lineno k ++ node_lines s lineno (F k)) ks.

(** Untouched arenas starting at 4096: one too small for the prologue,
    one with room for the prologue but not for the first chunk. *)
Definition cramped : state := fresh_state (fun _ => 0) 4096 4150.
Definition no_chunk : state := fresh_state (fun _ => 0) 4096 4400.

(** ** What [place] makes of a free block *)

(** The blocks [place] leaves where a free block of [csize] bytes was, for
    a request of [asize] bytes: a free remainder below the allocated block
    when at least 16 bytes remain, the whole block allocated otherwise;
    with the address ([placed_at]) and the size ([placed_size]) of the
    allocated block, the free block being at [bp]. *)
Definition placed (csize asize : Z) : layout_t :=
  if 16 <=? csize - asize then [(csize - asize, false); (asize, true)]
  else [(csize, true)].

Definition placed_at (bp csize asize : Z) : Z :=
  if 16 <=? csize - asize then bp + (csize - asize) else bp.

Definition placed_size (csize asize : Z) : Z :=
  if 16 <=? csize - asize then asize else csize.

(** ** States of the allocator at a call *)



(** An arena of 2 GiB in which a block of [2^30] bytes was allocated and
    freed again: one free block of [2^30 + 520] bytes at 4200. *)
Definition roomy : state := fresh_state (fun _ => 0) 4096 (4096 + 2 ^ 31).

Definition huge : state :=
  state_or (run_requests 100 roomy [Malloc (2 ^ 30); Free 4712]) boot.

Definition huge_layout : layout_t := [(2 ^ 30 + 520, false)].

Definition huge_lists : Z -> list Z :=
  lists_of [[]; []; []; []; []; []; []; []; []; []; [4200]].

(** Fuel for the walks of a heap of [huge]'s arena. *)
Definition huge_fuel : nat := Z.to_nat (2 ^ 31).

(** [two_small] after the block at 4696 was freed, and then with the
    block at 4680 tagged free and listed, its two free neighbours not yet
    merged: the state in which [free(4680)] calls [coalesce]. *)
Definition between_free : state :=
  let s := state_or (free 100 two_small 4696) boot in
  let s := PUT s (HDRP 4680) (PACK 16 0) in
  let s := PUT s (FTRP s 4680) (PACK 16 0) in
  add_to_free_list s 4680.

Definition between_free_layout : layout_t := [(480, false); (16, false); (16, false)].

Definition between_free_lists : Z -> list Z :=
  lists_of [[4696; 4680]; []; []; []; []; [4200]; []; []; []; []; []].

(** ** The last resort of [realloc] *)


(** ** Requests within the contract *)


(** * Memory lemmas *)

Lemma load_le_ext (n : nat) : forall (m1 m2 : mem) (p : Z),
  (forall a, p <= a < p + Z.of_nat n -> m1 a = m2 a) ->
  load_le m1 p n = load_le m2 p n.
Proof.
  induction n as [|k IH]; intros m1 m2 p H; simpl; [reflexivity|].
  rewrite (H p) by lia.
  rewrite (IH m1 m2 (p + 1)); [reflexivity|].
  intros a Ha. apply H. lia.
Qed.

Lemma load_le_range (n : nat) : forall (m : mem) (p : Z),
  0 <= load_le m p n < 2 ^ (8 * Z.of_nat n).
Proof.
  induction n as [|k IH]; intros m p.
  - simpl. lia.
  - cbn [load_le].
    replace (8 * Z.of_nat (S k)) with (8 + 8 * Z.of_nat k) by lia.
    rewrite Z.pow_add_r by lia.
    specialize (IH m (p + 1)).
    assert (0 <= m p mod 256 < 256) by (apply Z.mod_pos_bound; lia).
    change (2 ^ 8) with 256. nia.
Qed.

Lemma store_le_outside (m : mem) (p : Z) (n : nat) (v a : Z) :
  a < p \/ p + Z.of_nat n <= a -> store_le m p n v a = m a.
Proof.
  intros H. unfold store_le.
  destruct (p <=? a) eqn:E1; destruct (a <? p + Z.of_nat n) eqn:E2; simpl;
    try reflexivity; lia.
Qed.

Lemma load_store_other (m : mem) (p q : Z) (n k : nat) (v : Z) :
  q + Z.of_nat k <= p \/ p + Z.of_nat n <= q ->
  load_le (store_le m p n v) q k = load_le m q k.
Proof.
  intros H. apply load_le_ext. intros a Ha.
  apply store_le_outside. lia.
Qed.

Lemma load_store_same (n : nat) : forall (m : mem) (p v : Z),
  load_le (store_le m p n v) p n = v mod 2 ^ (8 * Z.of_nat n).
Proof.
  induction n as [|k IH]; intros m p v.
  - simpl. symmetry. apply Z.mod_1_r.
  - cbn [load_le].
    rewrite (load_le_ext k _ (store_le m (p + 1) k (v / 256)) (p + 1)).
    + rewrite IH.
      unfold store_le at 1.
      replace (p <=? p) with true by (symmetry; apply Z.leb_le; lia).
      replace (p <? p + Z.of_nat (S k)) with true by (symmetry; apply Z.ltb_lt; lia).
      cbn [andb]. rewrite Z.sub_diag. change (2 ^ (8 * 0)) with 1.
      rewrite Z.div_1_r, Z.mod_mod by lia.
      replace (8 * Z.of_nat (S k)) with (8 + 8 * Z.of_nat k) by lia.
      rewrite Z.pow_add_r by lia. change (2 ^ 8) with 256.
      rewrite (Z.rem_mul_r v 256 (2 ^ (8 * Z.of_nat k))) by lia.
      reflexivity.
    + intros a Ha. unfold store_le.
      replace (p <=? a) with true by (symmetry; apply Z.leb_le; lia).
      replace (a <? p + Z.of_nat (S k)) with true by (symmetry; apply Z.ltb_lt; lia).
      replace (p + 1 <=? a) with true by (symmetry; apply Z.leb_le; lia).
      replace (a <? p + 1 + Z.of_nat k) with true by (symmetry; apply Z.ltb_lt; lia).
      cbn [andb].
      replace (8 * (a - p)) with (8 + 8 * (a - (p + 1))) by lia.
      rewrite Z.pow_add_r by lia. change (2 ^ 8) with 256.
      rewrite Z.div_div by lia. reflexivity.
Qed.

Lemma memset_inside (m : mem) (p c n a : Z) :
  p <= a < p + n -> memset_mem m p c n a = c mod 256.
Proof.
  intros H. unfold memset_mem.
  replace (p <=? a) with true by (symmetry; apply Z.leb_le; lia).
  replace (a <? p + n) with true by (symmetry; apply Z.ltb_lt; lia).
  reflexivity.
Qed.

Lemma memset_outside (m : mem) (p c n a : Z) :
  a < p \/ p + n <= a -> memset_mem m p c n a = m a.
Proof.
  intros H. unfold memset_mem.
  destruct (p <=? a) eqn:E1; destruct (a <? p + n) eqn:E2; simpl;
    try reflexivity; lia.
Qed.

Lemma memcpy_inside (m : mem) (dst src n a : Z) :
  dst <= a < dst + n -> memcpy_mem m dst src n a = m (src + (a - dst)).
Proof.
  intros H. unfold memcpy_mem.
  replace (dst <=? a) with true by (symmetry; apply Z.leb_le; lia).
  replace (a <? dst + n) with true by (symmetry; apply Z.ltb_lt; lia).
  reflexivity.
Qed.


(** * Tags *)

Lemma land_mask (x : Z) : 0 <= x < 2 ^ 32 -> Z.land x 4294967288 = 8 * (x / 8).
Proof.
  intros H.
  change 4294967288 with (Z.ldiff (Z.ones 32) (Z.ones 3)).
  rewrite Z.ldiff_land, Z.land_assoc, <- Z.ldiff_land.
  rewrite Z.land_ones by lia.
  rewrite Z.mod_small by lia.
  rewrite Z.ldiff_ones_r by lia.
  rewrite Z.shiftl_mul_pow2, Z.shiftr_div_pow2 by lia.
  change (2 ^ 3) with 8. lia.
Qed.

Lemma land_one (x : Z) : Z.land x 1 = x mod 2.
Proof. change 1 with (Z.ones 1). rewrite Z.land_ones by lia. reflexivity. Qed.

Lemma PACK_free (sz : Z) : PACK sz 0 = sz.
Proof. unfold PACK. apply Z.lor_0_r. Qed.

Lemma PACK_alloc (sz : Z) : sz mod 8 = 0 -> PACK sz 1 = sz + 1.
Proof.
  intros H. unfold PACK.
  assert (Hl : Z.land sz 1 = 0).
  { rewrite land_one. rewrite (Z.div_mod sz 8) by lia. rewrite H.
    replace (8 * (sz / 8) + 0) with ((sz / 8 * 4) * 2) by lia.
    apply Z.mod_mul. lia. }
  rewrite <- Z.lxor_lor by exact Hl.
  symmetry. apply Z.add_nocarry_lxor. exact Hl.
Qed.

(** * Size classes and list heads *)

Ltac zb :=
  repeat match goal with
  | H : (_ <=? _) = true |- _ => apply Z.leb_le in H
  | H : (_ <=? _) = false |- _ => apply Z.leb_gt in H
  | H : (_ <? _) = true |- _ => apply Z.ltb_lt in H
  | H : (_ <? _) = false |- _ => apply Z.ltb_ge in H
  | H : (_ =? _) = true |- _ => apply Z.eqb_eq in H
  | H : (_ =? _) = false |- _ => apply Z.eqb_neq in H
  | H : (_ >? _) = true |- _ => rewrite Z.gtb_ltb in H; apply Z.ltb_lt in H
  | H : (_ >? _) = false |- _ => rewrite Z.gtb_ltb in H; apply Z.ltb_ge in H
  | H : (_ >=? _) = true |- _ => rewrite Z.geb_leb in H; apply Z.leb_le in H
  | H : (_ >=? _) = false |- _ => rewrite Z.geb_leb in H; apply Z.leb_gt in H
  end.

Ltac class_cases sz :=
  unfold class_of;
  destruct (sz <=? 16) eqn:? ; [ |
  destruct (sz <=? 32) eqn:? ; [ |
  destruct (sz <=? 64) eqn:? ; [ |
  destruct (sz <=? 128) eqn:? ; [ |
  destruct (sz <=? 256) eqn:? ; [ |
  destruct (sz <=? 512) eqn:? ; [ |
  destruct (sz <=? 1024) eqn:? ; [ |
  destruct (sz <=? 2048) eqn:? ; [ |
  destruct (sz <=? 4096) eqn:? ; [ |
  destruct (sz <=? 8192) eqn:? ]]]]]]]]].

Lemma class_of_range (sz : Z) : 0 <= class_of sz <= 10.
Proof. class_cases sz; lia. Qed.

Lemma class_of_zero (sz : Z) : class_of sz = 0 <-> sz <= 16.
Proof. class_cases sz; zb; lia. Qed.

Lemma class_of_mono (a b : Z) : a <= b -> class_of a <= class_of b.
Proof.
  intros H. pose proof (class_of_range b).
  unfold class_of at 1.
  destruct (a <=? 16) eqn:? ; [lia|].
  destruct (a <=? 32) eqn:? ; [zb; class_cases b; zb; lia|].
  destruct (a <=? 64) eqn:? ; [zb; class_cases b; zb; lia|].
  destruct (a <=? 128) eqn:? ; [zb; class_cases b; zb; lia|].
  destruct (a <=? 256) eqn:? ; [zb; class_cases b; zb; lia|].
  destruct (a <=? 512) eqn:? ; [zb; class_cases b; zb; lia|].
  destruct (a <=? 1024) eqn:? ; [zb; class_cases b; zb; lia|].
  destruct (a <=? 2048) eqn:? ; [zb; class_cases b; zb; lia|].
  destruct (a <=? 4096) eqn:? ; [zb; class_cases b; zb; lia|].
  destruct (a <=? 8192) eqn:? ; zb; class_cases b; zb; lia.
Qed.

Lemma doubly_class (sz : Z) : doubly (class_of sz) = (sz >? 16).
Proof.
  unfold doubly. rewrite Z.gtb_ltb.
  destruct (class_of sz =? 0) eqn:E; zb.
  - apply class_of_zero in E. symmetry. apply Z.ltb_ge. lia.
  - symmetry. apply Z.ltb_lt.
    destruct (Z.le_gt_cases sz 16) as [H|H]; [ |lia].
    apply class_of_zero in H. lia.
Qed.

Lemma link_size_class (sz : Z) :
  link_size (class_of sz) = if sz >? 16 then 16 else 8.
Proof.
  unfold link_size. rewrite <- doubly_class. unfold doubly.
  destruct (class_of sz =? 0); reflexivity.
Qed.

Lemma find_list_tail_anchor (s : state) (sz : Z) :
  find_list_tail s sz = anchor s (class_of sz).
Proof.
  unfold find_list_tail, anchor, DSIZE. class_cases sz; lia.
Qed.

Lemma find_list_head_class (s : state) (sz : Z) :
  find_list_head s sz = head_of s (class_of sz).
Proof.
  unfold find_list_head. class_cases sz; reflexivity.
Qed.

Lemma set_list_head_bytes (s : state) (sz v : Z) :
  bytes (set_list_head s sz v) = bytes s.
Proof. unfold set_list_head. class_cases sz; reflexivity. Qed.

Lemma set_list_head_brk (s : state) (sz v : Z) :
  mem_brk (set_list_head s sz v) = mem_brk s.
Proof. unfold set_list_head. class_cases sz; reflexivity. Qed.

Lemma set_list_head_max (s : state) (sz v : Z) :
  mem_max_addr (set_list_head s sz v) = mem_max_addr s.
Proof. unfold set_list_head. class_cases sz; reflexivity. Qed.

Lemma set_list_head_base (s : state) (sz v : Z) :
  heap_listp (set_list_head s sz v) = heap_listp s.
Proof. unfold set_list_head. class_cases sz; reflexivity. Qed.

Lemma set_list_head_head (s : state) (sz v k : Z) :
  0 <= k <= 10 ->
  head_of (set_list_head s sz v) k =
  if k =? class_of sz then v else head_of s k.
Proof.
  intros Hk.
  assert (Hc : k = 0 \/ k = 1 \/ k = 2 \/ k = 3 \/ k = 4 \/ k = 5 \/ k = 6 \/
               k = 7 \/ k = 8 \/ k = 9 \/ k = 10) by lia.
  unfold set_list_head.
  class_cases sz;
    repeat (destruct Hc as [Hc|Hc]; [subst k; reflexivity|]);
    subst k; reflexivity.
Qed.

Lemma GET_SIZE_set_list_head (s : state) (sz v q : Z) :
  GET_SIZE (set_list_head s sz v) q = GET_SIZE s q.
Proof. unfold GET_SIZE, GET. rewrite set_list_head_bytes. reflexivity. Qed.

(** Writes to memory leave the globals alone. *)
Lemma head_of_set_bytes (s : state) (m : mem) (k : Z) :
  head_of (set_bytes s m) k = head_of s k.
Proof. reflexivity. Qed.

Lemma anchor_set_bytes (s : state) (m : mem) (k : Z) :
  anchor (set_bytes s m) k = anchor s k.
Proof. reflexivity. Qed.

Lemma anchor_set_list_head (s : state) (sz v k : Z) :
  anchor (set_list_head s sz v) k = anchor s k.
Proof. unfold anchor. rewrite set_list_head_base. reflexivity. Qed.

(** * Reading a tag *)

Lemma tag_size (s : state) (p sz : Z) (al : bool) :
  tag (bytes s) p sz al -> 0 <= sz -> sz mod 8 = 0 -> GET_SIZE s p = sz.
Proof.
  intros Ht H0 H8. unfold GET_SIZE, GET. red in Ht.
  pose proof (load_le_range 4 (bytes s) p) as Hr.
  change (2 ^ (8 * Z.of_nat 4)) with (2 ^ 32) in Hr.
  rewrite land_mask by exact Hr. rewrite Ht.
  assert (flag al = 0 \/ flag al = 1) by (destruct al; auto).
  rewrite (Z.div_mod sz 8) at 1 by lia. rewrite H8.
  replace (8 * (sz / 8) + 0 + flag al) with (flag al + (sz / 8) * 8) by lia.
  rewrite Z.div_add by lia. rewrite Z.div_small by lia.
  rewrite (Z.div_mod sz 8) at 2 by lia. lia.
Qed.

Lemma tag_alloc (s : state) (p sz : Z) (al : bool) :
  tag (bytes s) p sz al -> sz mod 8 = 0 -> GET_ALLOC s p = flag al.
Proof.
  intros Ht H8. unfold GET_ALLOC, GET. red in Ht.
  rewrite land_one, Ht.
  rewrite (Z.div_mod sz 8) by lia. rewrite H8.
  replace (8 * (sz / 8) + 0 + flag al) with (flag al + (sz / 8 * 4) * 2) by lia.
  rewrite Z.mod_add by lia. destruct al; reflexivity.
Qed.

(** Writing a tag. *)
Lemma PUT_tag (s : state) (p sz : Z) (al : bool) :
  0 <= sz -> sz + 1 < 2 ^ 32 -> sz mod 8 = 0 ->
  tag (bytes (PUT s p (PACK sz (flag al)))) p sz al.
Proof.
  intros H0 H1 H8. unfold tag, PUT. cbn [bytes set_bytes].
  rewrite load_store_same.
  change (2 ^ (8 * Z.of_nat 4)) with (2 ^ 32).
  assert (PACK sz (flag al) = sz + flag al) as ->.
  { destruct al; cbn [flag]; [apply PACK_alloc; exact H8 | rewrite PACK_free; lia]. }
  apply Z.mod_small. destruct al; cbn [flag]; lia.
Qed.

Lemma tag_frame (m m' : mem) (p sz : Z) (al : bool) :
  (forall a, p <= a < p + 4 -> m' a = m a) ->
  tag m p sz al -> tag m' p sz al.
Proof.
  intros H Ht. unfold tag in *. rewrite <- Ht.
  apply load_le_ext. intros a Ha. apply H. lia.
Qed.

(** * Linked list segments in memory *)

Lemma last_cons {A : Type} (l : list A) : forall (x d : A),
  last (x :: l) d = last l x.
Proof.
  induction l as [|y l IH]; intros x d; [reflexivity|].
  change (last (x :: y :: l) d) with (last (y :: l) d).
  rewrite (IH y d), (IH y x). reflexivity.
Qed.

Lemma last_in_cons (x : Z) (l : list Z) : In (last l x) (x :: l).
Proof.
  revert x. induction l as [|y l IH]; intros x; [left; reflexivity|].
  rewrite last_cons. right. apply IH.
Qed.

Lemma last_app_cons {A : Type} (l1 : list A) (x : A) (l2 : list A) (d : A) :
  last (l1 ++ x :: l2) d = last l2 x.
Proof.
  revert d. induction l1 as [|y l1 IH]; intros d; cbn [app].
  - apply last_cons.
  - rewrite last_cons. apply IH.
Qed.

Lemma nodup_app_disjoint (l1 l2 : list Z) (x : Z) :
  NoDup (l1 ++ l2) -> In x l1 -> ~ In x l2.
Proof.
  induction l1 as [|z l1 IH]; intros Hd Hx; [destruct Hx|].
  cbn [app] in Hd. inversion Hd as [|? ? Hz Hd']; subst.
  destruct Hx as [->|Hx].
  - intros H. apply Hz. apply in_or_app. right. exact H.
  - apply IH; assumption.
Qed.

Section Segments.
Variable d : bool.

Lemma lseg_frame (m m' : mem) (l : list Z) : forall (prev nxt : Z),
  load_le m' prev 8 = load_le m prev 8 ->
  (forall x, In x l ->
     load_le m' x 8 = load_le m x 8 /\
     (d = true -> load_le m' (x + 8) 8 = load_le m (x + 8) 8)) ->
  lseg m d prev l nxt -> lseg m' d prev l nxt.
Proof.
  induction l as [|x l IH]; intros prev nxt Hp Hl H; cbn [lseg] in *.
  - congruence.
  - destruct H as (H1 & H2 & H3 & H4).
    destruct (Hl x (or_introl eq_refl)) as [Hx Hx'].
    repeat split.
    + congruence.
    + exact H2.
    + intros Hd. rewrite (Hx' Hd). auto.
    + apply IH; auto. intros y Hy. apply Hl. right. exact Hy.
Qed.

Lemma lseg_split (m : mem) (l1 : list Z) : forall (prev x : Z) (l2 : list Z) (nxt : Z),
  lseg m d prev (l1 ++ x :: l2) nxt <->
  lseg m d prev l1 x /\ x <> 0 /\
  (d = true -> load_le m (x + 8) 8 = last l1 prev) /\
  lseg m d x l2 nxt.
Proof.
  induction l1 as [|y l1 IH]; intros prev x l2 nxt; cbn [app lseg].
  - change (last [] prev) with prev. tauto.
  - rewrite IH. rewrite last_cons. tauto.
Qed.

Lemma lseg_nonzero (m : mem) (l : list Z) : forall (prev nxt x : Z),
  lseg m d prev l nxt -> In x l -> x <> 0.
Proof.
  induction l as [|y l IH]; intros prev nxt x H Hx; [destruct Hx|].
  cbn [lseg] in H. destruct H as (_ & H2 & _ & H4).
  destruct Hx as [->|Hx]; [exact H2|]. eapply IH; eauto.
Qed.

Lemma spaced_tail (w prev x : Z) (l : list Z) :
  8 <= w -> spaced w prev (x :: l) -> spaced w x l.
Proof.
  intros Hw (Hn & Hp & Ha). inversion Hn as [|? ? Hx Hn']; subst.
  split; [exact Hn'|]. split.
  - intros y Hy.
    destruct (Ha x y (or_introl eq_refl) (or_intror Hy)) as [E|E].
    + subst. contradiction.
    + lia.
  - intros a b Ha' Hb. apply Ha; right; assumption.
Qed.

(** Storing into the next field of the last node redirects the end of
    the segment and nothing else. *)
Lemma lseg_set_last (w : Z) (m : mem) (v : Z) (l : list Z) : forall (prev nxt : Z),
  8 <= w -> (d = true -> w = 16) -> 0 <= v < 2 ^ 64 ->
  spaced w prev l ->
  lseg m d prev l nxt ->
  lseg (store_le m (last l prev) 8 v) d prev l v.
Proof.
  induction l as [|x l IH]; intros prev nxt Hw Hd Hv Hs H.
  - cbn [lseg last] in *. rewrite load_store_same.
    change (2 ^ (8 * Z.of_nat 8)) with (2 ^ 64). apply Z.mod_small. exact Hv.
  - cbn [lseg] in *. destruct H as (H1 & H2 & H3 & H4).
    rewrite last_cons.
    pose proof (last_in_cons x l) as Hin.
    destruct Hs as (Hn & Hp & Ha).
    repeat split.
    + rewrite load_store_other; [exact H1|].
      specialize (Hp _ Hin). change (Z.of_nat 8) with 8. lia.
    + exact H2.
    + intros Hd'. rewrite load_store_other; [auto|].
      specialize (Hd Hd'). change (Z.of_nat 8) with 8.
      destruct (Ha x (last l x) (or_introl eq_refl) Hin) as [E|E].
      * rewrite <- E. lia.
      * lia.
    + apply (IH x nxt Hw Hd Hv); [|exact H4].
      apply (spaced_tail w prev); [exact Hw|]. repeat split; assumption.
Qed.
End Segments.

(** The scan for the predecessor in the one-way list. *)
Lemma find_pred_spec (s : state) (d : bool) (bp : Z) (l2 : list Z) (nxt : Z)
      (l1 : list Z) : forall (prev : Z) (fuel : nat),
  lseg (bytes s) d prev (l1 ++ bp :: l2) nxt ->
  ~ In bp l1 -> (length l1 < fuel)%nat ->
  find_pred fuel s prev bp = Some (last l1 prev).
Proof.
  induction l1 as [|x l1 IH]; intros prev fuel H Hn Hf.
  - destruct fuel as [|f]; [cbn in Hf; lia|].
    cbn [app lseg] in H. destruct H as (H1 & _).
    cbn [find_pred last]. unfold GET_NEXT_PTR. rewrite H1, Z.eqb_refl. reflexivity.
  - destruct fuel as [|f]; [cbn in Hf; lia|].
    cbn [app lseg] in H. destruct H as (H1 & _ & _ & H4).
    cbn [find_pred]. unfold GET_NEXT_PTR at 1 2. rewrite H1.
    assert (x <> bp) by (intros ->; apply Hn; left; reflexivity).
    replace (x =? bp) with false by (symmetry; apply Z.eqb_neq; assumption).
    rewrite last_cons. apply IH; [exact H4| |cbn in Hf; lia].
    intros Hb. apply Hn. right. exact Hb.
Qed.

(** * The free lists of a state *)

Lemma link_size_cases (k : Z) :
  (k = 0 /\ link_size k = 8 /\ doubly k = false) \/
  (k <> 0 /\ link_size k = 16 /\ doubly k = true).
Proof.
  unfold link_size, doubly. destruct (k =? 0) eqn:E; zb; [left|right]; auto.
Qed.

Lemma upd_same (F : Z -> list Z) (k : Z) (l : list Z) : upd F k l k = l.
Proof. unfold upd. rewrite Z.eqb_refl. reflexivity. Qed.

Lemma upd_other (F : Z -> list Z) (k j : Z) (l : list Z) :
  j <> k -> upd F k l j = F j.
Proof. intros H. unfold upd. apply Z.eqb_neq in H. rewrite H. reflexivity. Qed.

Lemma sep_spaced (s : state) (F : Z -> list Z) (k : Z) :
  sep s F -> 0 <= k <= 10 -> spaced (link_size k) (anchor s k) (F k).
Proof.
  intros Hs Hk. split; [apply (sep_nodup _ _ Hs); exact Hk|]. split.
  - intros y Hy. left. pose proof (sep_range _ _ Hs k y Hk Hy).
    unfold anchor, DSIZE. lia.
  - intros x y Hx Hy.
    destruct (sep_apart _ _ Hs k k x y Hk Hk Hx Hy) as [[_ E]|E];
      [left; assumption|right; lia].
Qed.

(** The header of a node is not a link field. *)
Lemma sep_header_not_links (s : state) (F : Z -> list Z) (k x a : Z) :
  sep s F -> 0 <= k <= 10 -> In x (F k) -> x - 4 <= a < x -> ~ in_links s F a.
Proof.
  intros Hs Hk Hx Ha [H|(j & y & Hj & Hy & Hr)].
  - pose proof (sep_range _ _ Hs k x Hk Hx). lia.
  - destruct (sep_apart _ _ Hs k j x y Hk Hj Hx Hy) as [[_ E]|E]; [subst; lia|].
    pose proof (link_size_cases k). lia.
Qed.

Lemma spaced_incl (w prev : Z) (l l' : list Z) :
  NoDup l' -> incl l' l -> spaced w prev l -> spaced w prev l'.
Proof.
  intros Hn Hi (_ & Hp & Ha). split; [exact Hn|]. split.
  - intros y Hy. apply Hp, Hi, Hy.
  - intros x y Hx Hy. apply Ha; apply Hi; assumption.
Qed.

(** Bytes outside the link fields do not matter to the lists. *)
Lemma lists_ok_frame (s s' : state) (F : Z -> list Z) :
  lists_ok s F ->
  heap_listp s' = heap_listp s ->
  (forall k, 0 <= k <= 10 -> head_of s' k = head_of s k) ->
  (forall a, in_links s F a -> bytes s' a = bytes s a) ->
  lists_ok s' F.
Proof.
  intros Hl Hb Hh Hf k Hk. destruct (Hl k Hk) as [H1 H2].
  assert (Ha : anchor s' k = anchor s k) by (unfold anchor; rewrite Hb; reflexivity).
  rewrite Ha, (Hh k Hk). split; [|exact H2].
  apply (lseg_frame _ (bytes s)); [| |exact H1].
  - apply load_le_ext. intros a Hr. apply Hf. left.
    unfold anchor, DSIZE in Hr. change (Z.of_nat 8) with 8 in Hr. lia.
  - intros x Hx. split.
    + apply load_le_ext. intros a Hr. apply Hf. right. exists k, x.
      change (Z.of_nat 8) with 8 in Hr.
      destruct (link_size_cases k) as [(_ & E & _)|(_ & E & _)]; rewrite E;
        repeat split; try assumption; lia.
    + intros Hd. apply load_le_ext. intros a Hr. apply Hf. right. exists k, x.
      change (Z.of_nat 8) with 8 in Hr.
      destruct (link_size_cases k) as [(_ & _ & E)|(_ & E & _)];
        [congruence|]. rewrite E. repeat split; try assumption; lia.
Qed.

(** A store into a link field of class [k] leaves the list of any other
    class as it is. *)
Lemma lseg_other_class (s : state) (F : Z -> list Z) (m : mem) (k j p q v nxt : Z) :
  sep s F -> 0 <= k <= 10 -> 0 <= j <= 10 -> j <> k ->
  (p = anchor s k /\ q = p) \/ (In p (F k) /\ p <= q /\ q + 8 <= p + link_size k) ->
  lseg m (doubly j) (anchor s j) (F j) nxt ->
  lseg (store_le m q 8 v) (doubly j) (anchor s j) (F j) nxt.
Proof.
  intros Hs Hk Hj Hjk Hp H.
  apply (lseg_frame _ m); [| |exact H].
  - apply load_store_other. change (Z.of_nat 8) with 8.
    unfold anchor, DSIZE in *.
    destruct Hp as [[-> ->]|(Hp & Hq1 & Hq2)]; [lia|].
    pose proof (sep_range _ _ Hs k p Hk Hp). lia.
  - intros x Hx.
    pose proof (sep_range _ _ Hs j x Hj Hx) as Hrx.
    assert (Hd : x + link_size j <= q \/ q + 8 <= x).
    { destruct Hp as [[-> ->]|(Hp & Hq1 & Hq2)].
      - right. unfold anchor, DSIZE. lia.
      - destruct (sep_apart _ _ Hs j k x p Hj Hk Hx Hp) as [[E _]|E]; [contradiction|].
        lia. }
    split.
    + apply load_store_other. change (Z.of_nat 8) with 8.
      destruct (link_size_cases j) as [(_ & E & _)|(_ & E & _)]; rewrite E in Hd; lia.
    + intros Hdj. apply load_store_other. change (Z.of_nat 8) with 8.
      destruct (link_size_cases j) as [(_ & _ & E)|(_ & E & _)]; [congruence|].
      rewrite E in Hd. lia.
Qed.

(** A store into a link field of a node outside the segment leaves the
    segment as it is. *)
Lemma lseg_store_apart (d : bool) (w : Z) (m : mem) (prev q v nxt : Z) (l : list Z) :
  (d = true -> w = 16) -> 8 <= w ->
  (q + 8 <= prev \/ prev + 8 <= q) ->
  (forall x, In x l -> q + 8 <= x \/ x + w <= q) ->
  lseg m d prev l nxt ->
  lseg (store_le m q 8 v) d prev l nxt.
Proof.
  intros Hd Hw Hp Hl H.
  apply (lseg_frame _ m); [| |exact H].
  - apply load_store_other. change (Z.of_nat 8) with 8. lia.
  - intros x Hx. specialize (Hl x Hx). split.
    + apply load_store_other. change (Z.of_nat 8) with 8. lia.
    + intros Hd'. specialize (Hd Hd'). apply load_store_other.
      change (Z.of_nat 8) with 8. lia.
Qed.

Lemma add_unfold (s : state) (bp : Z) :
  let sz := GET_SIZE s (HDRP bp) in
  let h := head_of s (class_of sz) in
  let m1 := store_le (bytes s) h 8 bp in
  let m2 := if sz >? 16 then store_le m1 (bp + DSIZE) 8 h else m1 in
  let m3 := store_le m2 bp 8 NULL in
  add_to_free_list s bp =
  set_list_head (set_bytes s m3) (GET_SIZE (set_bytes s m3) (HDRP bp)) bp.
Proof.
  cbv zeta. unfold add_to_free_list. rewrite find_list_head_class.
  destruct (GET_SIZE s (HDRP bp) >? 16); reflexivity.
Qed.

Lemma in_upd_app (F : Z -> list Z) (k j x bp : Z) :
  In x (F j) -> In x (upd F k (F k ++ [bp]) j).
Proof.
  intros H. unfold upd. destruct (j =? k) eqn:E; zb; [|exact H].
  subst j. apply in_or_app. left. exact H.
Qed.

Lemma add_to_free_list_spec (s : state) (F : Z -> list Z) (bp k : Z) :
  lists_ok s F ->
  class_of (GET_SIZE s (HDRP bp)) = k ->
  sep s (upd F k (F k ++ [bp])) ->
  lists_ok (add_to_free_list s bp) (upd F k (F k ++ [bp])) /\
  heap_listp (add_to_free_list s bp) = heap_listp s /\
  mem_brk (add_to_free_list s bp) = mem_brk s /\
  mem_max_addr (add_to_free_list s bp) = mem_max_addr s /\
  (forall a, ~ in_links s (upd F k (F k ++ [bp])) a ->
             bytes (add_to_free_list s bp) a = bytes s a).
Proof.
  intros Hl Hk Hs.
  set (F' := upd F k (F k ++ [bp])) in *.
  pose proof (class_of_range (GET_SIZE s (HDRP bp))) as Hkr. rewrite Hk in Hkr.
  assert (Hh : forall a, bp - 4 <= a < bp -> ~ in_links s F' a).
  { intros a Ha. apply (sep_header_not_links s F' k bp); auto.
    unfold F'. rewrite upd_same. apply in_or_app. right. left. reflexivity. }
  pose proof (add_unfold s bp) as Hu. cbv zeta in Hu. rewrite Hk in Hu.
  pose proof (doubly_class (GET_SIZE s (HDRP bp))) as Hd.
  pose proof (link_size_class (GET_SIZE s (HDRP bp))) as Hw.
  rewrite Hk in Hd, Hw.
  set (sz := GET_SIZE s (HDRP bp)) in *.
  set (h := head_of s k) in *.
  set (m1 := store_le (bytes s) h 8 bp) in *.
  set (m2 := if sz >? 16 then store_le m1 (bp + DSIZE) 8 h else m1) in *.
  set (m3 := store_le m2 bp 8 NULL) in *.
  destruct (Hl k Hkr) as [Hseg Hhead]. fold h in Hhead.
  assert (Hbp : In bp (F' k)).
  { unfold F'. rewrite upd_same. apply in_or_app. right. left. reflexivity. }
  assert (Hsub : forall x, In x (F k) -> In x (F' k)).
  { intros x Hx. unfold F'. rewrite upd_same. apply in_or_app. left. exact Hx. }
  pose proof (sep_range _ _ Hs k bp Hkr Hbp) as Hbr.
  pose proof (sep_base _ _ Hs) as Hbase.
  assert (Hhin : h = anchor s k \/ In h (F k)).
  { rewrite Hhead. destruct (last_in_cons (anchor s k) (F k)) as [E|E]; auto. }
  assert (Hhr : 0 <= h < 2 ^ 64 /\ (h + 8 <= bp \/ bp + link_size k <= h)).
  { destruct Hhin as [E|E].
    - rewrite E. unfold anchor, DSIZE. lia.
    - pose proof (sep_range _ _ Hs k h Hkr (Hsub _ E)).
      split; [lia|].
      destruct (sep_apart _ _ Hs k k h bp Hkr Hkr (Hsub _ E) Hbp) as [[_ E']|E'].
      + exfalso. pose proof (sep_nodup _ _ Hs k Hkr) as Hnd.
        unfold F' in Hnd. rewrite upd_same in Hnd.
        apply NoDup_remove_2 in Hnd. rewrite app_nil_r in Hnd.
        apply Hnd. rewrite <- E'. exact E.
      + pose proof (link_size_cases k). lia. }
  assert (Hlinks_h : forall a, h <= a < h + 8 -> in_links s F' a).
  { intros a Ha. destruct Hhin as [E|E].
    - left. rewrite E in Ha. unfold anchor, DSIZE in Ha. lia.
    - right. exists k, h. pose proof (link_size_cases k).
      repeat split; try assumption; try lia. apply Hsub, E. }
  assert (Hlinks_bp : forall a, bp <= a < bp + link_size k -> in_links s F' a).
  { intros a Ha. right. exists k, bp. repeat split; try assumption; lia. }
  assert (Hframe : forall a, ~ in_links s F' a -> m3 a = bytes s a).
  { intros a Ha. unfold m3. rewrite store_le_outside.
    2:{ change (Z.of_nat 8) with 8.
        destruct (Z_lt_le_dec a bp); [left; assumption|].
        destruct (Z_lt_le_dec a (bp + 8)); [|right; assumption].
        exfalso. apply Ha, Hlinks_bp. pose proof (link_size_cases k). lia. }
    assert (Hm1 : m1 a = bytes s a).
    { unfold m1. apply store_le_outside. change (Z.of_nat 8) with 8.
      destruct (Z_lt_le_dec a h); [left; assumption|].
      destruct (Z_lt_le_dec a (h + 8)); [|right; assumption].
      exfalso. apply Ha, Hlinks_h. lia. }
    unfold m2. destruct (sz >? 16) eqn:E; [|exact Hm1].
    rewrite store_le_outside; [exact Hm1|].
    change (Z.of_nat 8) with 8. unfold DSIZE.
    destruct (Z_lt_le_dec a (bp + 8)); [left; assumption|].
    destruct (Z_lt_le_dec a (bp + 16)); [|right; lia].
    exfalso. apply Ha, Hlinks_bp. rewrite Hw. lia. }
  assert (Hsz : GET_SIZE (set_bytes s m3) (HDRP bp) = sz).
  { unfold sz, GET_SIZE, GET. f_equal. cbn [bytes set_bytes].
    apply load_le_ext. intros a Ha. apply Hframe. apply Hh.
    unfold HDRP, WSIZE in Ha. change (Z.of_nat 4) with 4 in Ha. lia. }
  rewrite Hu, Hsz.
  rewrite set_list_head_base, set_list_head_brk, set_list_head_max, set_list_head_bytes.
  cbn [bytes set_bytes heap_listp mem_brk mem_max_addr].
  split; [|repeat split; auto].
  intros j Hj.
  rewrite anchor_set_list_head, anchor_set_bytes, set_list_head_bytes,
    set_list_head_head by exact Hj.
  cbn [bytes set_bytes]. rewrite Hk, head_of_set_bytes.
  destruct (j =? k) eqn:Ejk; zb.
  - subst j. unfold F'. rewrite upd_same. split.
    2:{ rewrite last_app_cons. reflexivity. }
    apply lseg_split.
    pose proof (sep_spaced _ _ k Hs Hkr) as Hsp.
    assert (Hsp' : spaced (link_size k) (anchor s k) (F k)).
    { apply (spaced_incl _ _ (F' k)); [|intros x Hx; apply Hsub, Hx|exact Hsp].
      pose proof (sep_nodup _ _ Hs k Hkr) as Hnd. unfold F' in Hnd.
      rewrite upd_same in Hnd. apply NoDup_remove_1 in Hnd.
      rewrite app_nil_r in Hnd. exact Hnd. }
    assert (Hw8 : 8 <= link_size k) by (pose proof (link_size_cases k); lia).
    assert (Hd16 : doubly k = true -> link_size k = 16)
      by (pose proof (link_size_cases k); intuition congruence).
    assert (Hapart : forall x, In x (F k) -> bp + link_size k <= x \/ x + link_size k <= bp).
    { intros x Hx.
      destruct (sep_apart _ _ Hs k k x bp Hkr Hkr (Hsub _ Hx) Hbp) as [[_ E']|E'].
      - exfalso. pose proof (sep_nodup _ _ Hs k Hkr) as Hnd.
        unfold F' in Hnd. rewrite upd_same in Hnd.
        apply NoDup_remove_2 in Hnd. rewrite app_nil_r in Hnd.
        apply Hnd. rewrite <- E'. exact Hx.
      - lia. }
    assert (H1 : lseg m1 (doubly k) (anchor s k) (F k) bp).
    { unfold m1. rewrite Hhead.
      apply (lseg_set_last (doubly k) (link_size k) (bytes s) bp (F k) (anchor s k) 0);
        auto. lia. }
    assert (H2 : lseg m2 (doubly k) (anchor s k) (F k) bp).
    { unfold m2. destruct (sz >? 16) eqn:E; [|exact H1].
      apply (lseg_store_apart _ (link_size k)); auto.
      - unfold anchor, DSIZE. lia.
      - intros x Hx. specialize (Hapart x Hx). rewrite Hw in *. unfold DSIZE. lia. }
    assert (H3 : lseg m3 (doubly k) (anchor s k) (F k) bp).
    { unfold m3. apply (lseg_store_apart _ (link_size k)); auto.
      - unfold anchor, DSIZE. lia.
      - intros x Hx. specialize (Hapart x Hx). lia. }
    split; [exact H3|]. split; [lia|]. split.
    + intros Hdk. unfold m3. rewrite load_store_other
        by (change (Z.of_nat 8) with 8; lia).
      unfold m2. rewrite <- Hd, Hdk. unfold DSIZE. rewrite load_store_same.
      change (2 ^ (8 * Z.of_nat 8)) with (2 ^ 64).
      rewrite <- Hhead. apply Z.mod_small. lia.
    + cbn [lseg]. unfold m3. rewrite load_store_same. reflexivity.
  - destruct (Hl j Hj) as [Hsj Hhj].
    assert (HFj : F' j = F j) by (unfold F'; rewrite upd_other by exact Ejk; reflexivity).
    split; [|rewrite HFj; exact Hhj].
    rewrite <- HFj in Hsj.
    unfold m3. apply (lseg_other_class s F' _ k j bp); auto.
    { right. pose proof (link_size_cases k). repeat split; try assumption; lia. }
    assert (H1 : lseg m1 (doubly j) (anchor s j) (F' j) 0).
    { unfold m1. apply (lseg_other_class s F' _ k j h); auto.
      destruct Hhin as [E|E]; [left; auto|right].
      pose proof (link_size_cases k). repeat split; try lia. apply Hsub, E. }
    unfold m2. destruct (sz >? 16) eqn:E; [|exact H1].
    apply (lseg_other_class s F' _ k j bp); auto.
    right. rewrite Hw. unfold DSIZE. repeat split; try assumption; lia.
Qed.

Lemma remove_unfold (fuel : nat) (s : state) (bp : Z) :
  let sz := GET_SIZE s (HDRP bp) in
  remove_frome_free_list fuel s bp =
  (p <- (if sz >? 16 then Some (GET_PRED_PTR s bp)
         else find_pred fuel s (find_list_tail s sz) bp) ;;
   if GET_NEXT_PTR s bp =? NULL then
     let s1 := set_list_head s sz p in
     Some (PUT_NEXT_PTR s1 (find_list_head s1 (GET_SIZE s1 (HDRP bp))) NULL)
   else
     let s1 := PUT_NEXT_PTR s p (GET_NEXT_PTR s bp) in
     Some (if sz >? 16
           then PUT_PRED_PTR s1 (GET_NEXT_PTR s1 bp) (GET_PRED_PTR s1 bp)
           else s1)).
Proof.
  cbv zeta. unfold remove_frome_free_list.
  destruct (GET_SIZE s (HDRP bp) >? 16); cbn [bind]; [|reflexivity].
  destruct (GET_NEXT_PTR s bp =? NULL); reflexivity.
Qed.

Lemma in_links_upd_remove (s : state) (F : Z -> list Z) (k : Z) (l1 l2 : list Z)
      (bp a : Z) :
  F k = l1 ++ bp :: l2 ->
  in_links s (upd F k (l1 ++ l2)) a -> in_links s F a.
Proof.
  intros HF [H|(j & x & Hj & Hx & Ha)]; [left; exact H|].
  right. exists j, x. repeat split; try assumption; try lia.
  unfold upd in Hx. destruct (j =? k) eqn:E; zb; [|exact Hx].
  subst j. rewrite HF. apply in_app_or in Hx. apply in_or_app.
  destruct Hx; [left|right; right]; assumption.
Qed.

Lemma sep_upd_remove (s : state) (F : Z -> list Z) (k : Z) (l1 l2 : list Z) (bp : Z) :
  0 <= k <= 10 -> F k = l1 ++ bp :: l2 -> sep s F -> sep s (upd F k (l1 ++ l2)).
Proof.
  intros Hk HF Hs.
  assert (Hin : forall j x, In x (upd F k (l1 ++ l2) j) -> In x (F j)).
  { intros j x Hx. unfold upd in Hx. destruct (j =? k) eqn:E; zb; [|exact Hx].
    subst j. rewrite HF. apply in_app_or in Hx. apply in_or_app.
    destruct Hx; [left|right; right]; assumption. }
  constructor.
  - apply (sep_base _ _ Hs).
  - intros j x Hj Hx. apply (sep_range _ _ Hs j x Hj). apply Hin, Hx.
  - intros k1 k2 x1 x2 H1 H2 Hx1 Hx2.
    apply (sep_apart _ _ Hs); auto.
  - intros j Hj. unfold upd. destruct (j =? k) eqn:E; zb.
    + subst j. pose proof (sep_nodup _ _ Hs k Hk) as Hn. rewrite HF in Hn.
      apply NoDup_remove_1 in Hn. exact Hn.
    + apply (sep_nodup _ _ Hs j Hj).
Qed.

Lemma remove_spec (fuel : nat) (s : state) (F : Z -> list Z) (bp k : Z)
      (l1 l2 : list Z) :
  lists_ok s F -> sep s F ->
  class_of (GET_SIZE s (HDRP bp)) = k ->
  F k = l1 ++ bp :: l2 ->
  (length l1 < fuel)%nat ->
  exists s',
    remove_frome_free_list fuel s bp = Some s' /\
    lists_ok s' (upd F k (l1 ++ l2)) /\
    heap_listp s' = heap_listp s /\
    mem_brk s' = mem_brk s /\
    mem_max_addr s' = mem_max_addr s /\
    (forall a, ~ in_links s F a -> bytes s' a = bytes s a).
Proof.
  intros Hl Hs Hk HF Hfuel.
  pose proof (class_of_range (GET_SIZE s (HDRP bp))) as Hkr. rewrite Hk in Hkr.
  pose proof (doubly_class (GET_SIZE s (HDRP bp))) as Hd.
  pose proof (link_size_class (GET_SIZE s (HDRP bp))) as Hw.
  rewrite Hk in Hd, Hw.
  pose proof (remove_unfold fuel s bp) as Hu. cbv zeta in Hu.
  set (sz := GET_SIZE s (HDRP bp)) in *.
  destruct (Hl k Hkr) as [Hseg Hhead]. rewrite HF in Hseg, Hhead.
  pose proof Hseg as Hseg0.
  apply lseg_split in Hseg. destruct Hseg as (Hs1 & Hbp0 & Hpred & Hs2).
  set (p := last l1 (anchor s k)) in *.
  pose proof (sep_base _ _ Hs) as Hbase.
  pose proof (sep_nodup _ _ Hs k Hkr) as Hnd. rewrite HF in Hnd.
  pose proof (NoDup_remove_2 _ _ _ Hnd) as Hnotin.
  pose proof (NoDup_remove_1 _ _ _ Hnd) as Hnd'.
  pose proof (fun x => nodup_app_disjoint l1 (bp :: l2) x Hnd) as Hdis.
  assert (Hbpin : In bp (F k)) by (rewrite HF; apply in_or_app; right; left; reflexivity).
  assert (Hin1 : forall x, In x l1 -> In x (F k))
    by (intros x Hx; rewrite HF; apply in_or_app; left; exact Hx).
  assert (Hin2 : forall x, In x l2 -> In x (F k))
    by (intros x Hx; rewrite HF; apply in_or_app; right; right; exact Hx).
  pose proof (sep_range _ _ Hs k bp Hkr Hbpin) as Hbr.
  assert (Hw8 : 8 <= link_size k <= 16) by (pose proof (link_size_cases k); lia).
  assert (Hd16 : doubly k = true -> link_size k = 16)
    by (pose proof (link_size_cases k); intuition congruence).
  assert (Hpin : p = anchor s k \/ In p l1).
  { unfold p. destruct (last_in_cons (anchor s k) l1) as [E|E]; auto. }
  assert (Hpr : 0 <= p < 2 ^ 64).
  { destruct Hpin as [E|E].
    - rewrite E. unfold anchor, DSIZE. lia.
    - pose proof (sep_range _ _ Hs k p Hkr (Hin1 _ E)). lia. }
  assert (Hapart : forall x y, In x (F k) -> In y (F k) -> x <> y ->
            x + link_size k <= y \/ y + link_size k <= x).
  { intros x y Hx Hy Hne.
    destruct (sep_apart _ _ Hs k k x y Hkr Hkr Hx Hy) as [[_ E]|E]; [contradiction|lia]. }
  (* [p] is the anchor or a node before [bp]: apart from [bp] and what follows *)
  assert (Hpx : forall x, In x (bp :: l2) -> p + 8 <= x \/ x + link_size k <= p).
  { intros x Hx.
    assert (Hxin : In x (F k)) by (rewrite HF; apply in_or_app; right; exact Hx).
    destruct Hpin as [E|E].
    - left. rewrite E. pose proof (sep_range _ _ Hs k x Hkr Hxin).
      unfold anchor, DSIZE. lia.
    - assert (p <> x) by (intros E'; apply (Hdis p E); rewrite E'; exact Hx).
      destruct (Hapart p x (Hin1 _ E) Hxin H); lia. }
  assert (Hlinks_p : forall a, p <= a < p + 8 -> in_links s F a).
  { intros a Ha. destruct Hpin as [E|E].
    - left. rewrite E in Ha. unfold anchor, DSIZE in Ha. lia.
    - right. exists k, p. repeat split; try assumption; try lia. apply Hin1, E. }
  assert (Hsp1 : spaced (link_size k) (anchor s k) l1).
  { apply (spaced_incl _ _ (F k)); [|exact Hin1|apply sep_spaced; assumption].
    apply NoDup_app_remove_r in Hnd'. exact Hnd'. }
  assert (Hp : (if sz >? 16 then Some (GET_PRED_PTR s bp)
                else find_pred fuel s (find_list_tail s sz) bp) = Some p).
  { rewrite <- Hd. destruct (doubly k) eqn:Ed.
    - unfold GET_PRED_PTR, DSIZE. rewrite (Hpred eq_refl). reflexivity.
    - rewrite find_list_tail_anchor, Hk.
      apply (find_pred_spec s false bp l2 0 l1); auto.
      intros Hb. apply (Hdis bp Hb). left. reflexivity. }
  rewrite Hp in Hu. cbn [bind] in Hu.
  assert (Hother : forall m q v j, 0 <= j <= 10 -> j <> k ->
            (q = anchor s k) \/ (exists x, In x (F k) /\ x <= q /\ q + 8 <= x + link_size k) ->
            lseg m (doubly j) (anchor s j) (F j) 0 ->
            lseg (store_le m q 8 v) (doubly j) (anchor s j) (F j) 0).
  { intros m q v j Hj Hjk Hq H.
    destruct Hq as [E|(x & Hx & Hq1 & Hq2)].
    - apply (lseg_other_class s F m k j q); auto.
    - apply (lseg_other_class s F m k j x); auto. }
  assert (Hpq : (p = anchor s k) \/
                (exists x, In x (F k) /\ x <= p /\ p + 8 <= x + link_size k)).
  { destruct Hpin as [E|E]; [left; auto|right]. exists p.
    repeat split; try lia. apply Hin1, E. }
  assert (Hfp : forall a, ~ in_links s F a -> forall v, store_le (bytes s) p 8 v a = bytes s a).
  { intros a Ha v. apply store_le_outside. change (Z.of_nat 8) with 8.
    destruct (Z_lt_le_dec a p); [left; assumption|].
    destruct (Z_lt_le_dec a (p + 8)); [|right; assumption].
    exfalso. apply Ha, Hlinks_p. lia. }
  destruct l2 as [|y l2'].
  - (* [bp] is the last node *)
    cbn [lseg] in Hs2. unfold GET_NEXT_PTR at 1 in Hu. rewrite Hs2 in Hu.
    change (0 =? NULL) with true in Hu. cbv iota zeta in Hu.
    rewrite GET_SIZE_set_list_head in Hu. fold sz in Hu.
    rewrite find_list_head_class, Hk, set_list_head_head, Hk, Z.eqb_refl in Hu
      by exact Hkr.
    eexists. split; [exact Hu|].
    unfold PUT_NEXT_PTR.
    cbn [bytes set_bytes heap_listp mem_brk mem_max_addr].
    rewrite set_list_head_bytes, set_list_head_base, set_list_head_brk, set_list_head_max.
    split; [|repeat split; auto].
    intros j Hj. rewrite anchor_set_bytes, anchor_set_list_head, head_of_set_bytes.
    rewrite set_list_head_head, Hk by exact Hj. cbn [bytes set_bytes].
    destruct (j =? k) eqn:Ejk; zb.
    + subst j. rewrite upd_same, app_nil_r. split; [|reflexivity].
      apply (lseg_set_last (doubly k) (link_size k) (bytes s) 0 l1 (anchor s k) bp);
        auto; lia.
    + rewrite upd_other by exact Ejk.
      destruct (Hl j Hj) as [Hsj Hhj]. split; [|exact Hhj].
      apply Hother; auto.
  - (* [bp] has a successor [y] *)
    cbn [lseg] in Hs2. destruct Hs2 as (Hy1 & Hy0 & Hy2 & Hs3).
    assert (Hgn : GET_NEXT_PTR s bp = y) by exact Hy1.
    rewrite !Hgn in Hu.
    replace (y =? NULL) with false in Hu by (symmetry; apply Z.eqb_neq; exact Hy0).
    cbv iota zeta in Hu.
    assert (Hyin : In y (F k)) by (apply Hin2; left; reflexivity).
    pose proof (sep_range _ _ Hs k y Hkr Hyin) as Hyr.
    pose proof (Hpx bp (or_introl eq_refl)) as Hpbp.
    pose proof (Hpx y (or_intror (or_introl eq_refl))) as Hpy.
    set (m1 := store_le (bytes s) p 8 y) in *.
    assert (Hn1 : GET_NEXT_PTR (PUT_NEXT_PTR s p y) bp = y).
    { unfold GET_NEXT_PTR, PUT_NEXT_PTR. cbn [bytes set_bytes].
      rewrite load_store_other by (change (Z.of_nat 8) with 8; lia). exact Hy1. }
    assert (Hp1 : doubly k = true -> GET_PRED_PTR (PUT_NEXT_PTR s p y) bp = p).
    { intros Ed. unfold GET_PRED_PTR, PUT_NEXT_PTR, DSIZE. cbn [bytes set_bytes].
      rewrite load_store_other by (change (Z.of_nat 8) with 8; specialize (Hd16 Ed); lia).
      apply Hpred, Ed. }
    set (m2 := if doubly k then store_le m1 (y + 8) 8 p else m1).
    assert (Hres : (if sz >? 16
                    then PUT_PRED_PTR (PUT_NEXT_PTR s p y)
                           (GET_NEXT_PTR (PUT_NEXT_PTR s p y) bp)
                           (GET_PRED_PTR (PUT_NEXT_PTR s p y) bp)
                    else PUT_NEXT_PTR s p y) = set_bytes s m2).
    { rewrite <- Hd. unfold m2. destruct (doubly k) eqn:Ed; [|reflexivity].
      rewrite Hn1, (Hp1 eq_refl). reflexivity. }
    rewrite Hres in Hu.
    exists (set_bytes s m2). split; [exact Hu|].
    cbn [bytes set_bytes heap_listp mem_brk mem_max_addr].
    split; [|repeat split; auto].
    + intros j Hj. rewrite anchor_set_bytes, head_of_set_bytes.
      cbn [bytes set_bytes].
      destruct (Z.eq_dec j k) as [->|Ejk].
      * rewrite upd_same. split.
        2:{ rewrite Hhead. rewrite !last_app_cons. rewrite last_cons. reflexivity. }
        apply lseg_split.
        assert (Hyx : forall x, In x l1 \/ In x l2' ->
                   y + link_size k <= x \/ x + link_size k <= y).
        { intros x Hx.
          assert (Hxin : In x (F k)).
          { destruct Hx; [apply Hin1|apply Hin2; right]; assumption. }
          assert (x <> y).
          { intros ->. destruct Hx as [Hx|Hx].
            - apply (Hdis y Hx). right. left. reflexivity.
            - apply NoDup_app_remove_l in Hnd'.
              inversion Hnd' as [|? ? Hz ?]; subst. contradiction. }
          destruct (Hapart x y Hxin Hyin H); lia. }
        assert (H1 : lseg m1 (doubly k) (anchor s k) l1 y).
        { unfold m1, p.
          apply (lseg_set_last (doubly k) (link_size k) (bytes s) y l1 (anchor s k) bp);
            auto; lia. }
        split.
        { unfold m2. destruct (doubly k) eqn:Ed; [|exact H1].
          apply (lseg_store_apart _ (link_size k)); auto; try lia.
          - unfold anchor, DSIZE. lia.
          - intros x Hx. specialize (Hyx x (or_introl Hx)). specialize (Hd16 eq_refl). lia. }
        split; [exact Hy0|]. split.
        { intros Ed. unfold m2. rewrite Ed. rewrite load_store_same.
          change (2 ^ (8 * Z.of_nat 8)) with (2 ^ 64). apply Z.mod_small. exact Hpr. }
        assert (H3 : lseg m1 (doubly k) y l2' 0).
        { unfold m1. apply (lseg_store_apart _ (link_size k)); auto; try lia.
          intros x Hx. apply Hpx. right. right. exact Hx. }
        unfold m2. destruct (doubly k) eqn:Ed; [|exact H3].
        apply (lseg_store_apart _ (link_size k)); auto; try lia.
        intros x Hx. specialize (Hyx x (or_intror Hx)). specialize (Hd16 eq_refl). lia.
      * rewrite upd_other by exact Ejk.
        destruct (Hl j Hj) as [Hsj Hhj]. split; [|exact Hhj].
        assert (H1 : lseg m1 (doubly j) (anchor s j) (F j) 0).
        { unfold m1. apply Hother; auto. }
        unfold m2. destruct (doubly k) eqn:Ed; [|exact H1].
        apply Hother; auto. right. exists y. specialize (Hd16 eq_refl).
        repeat split; try assumption; lia.
    + intros a Ha.
      assert (Hm1 : m1 a = bytes s a) by (apply Hfp; exact Ha).
      unfold m2. destruct (doubly k) eqn:Ed; [|exact Hm1].
      rewrite store_le_outside; [exact Hm1|]. change (Z.of_nat 8) with 8.
      destruct (Z_lt_le_dec a (y + 8)); [left; assumption|].
      destruct (Z_lt_le_dec a (y + 16)); [|right; lia].
      exfalso. apply Ha. right. exists k, y. specialize (Hd16 eq_refl).
      repeat split; try assumption; lia.
Qed.

(** * Layouts *)

Lemma total_app (L1 L2 : layout_t) : total (L1 ++ L2) = total L1 + total L2.
Proof.
  induction L1 as [|[sz al] L1 IH]; cbn [app total]; [reflexivity|]. lia.
Qed.

Lemma layout_app (L1 : layout_t) : forall (a : Z) (L2 : layout_t),
  layout a (L1 ++ L2) = layout a L1 ++ layout (a + total L1) L2.
Proof.
  induction L1 as [|[sz al] L1 IH]; intros a L2; cbn [app layout total].
  - rewrite Z.add_0_r. reflexivity.
  - rewrite IH. rewrite Z.add_assoc. reflexivity.
Qed.

Lemma sizes_ok_app (L1 L2 : layout_t) :
  sizes_ok (L1 ++ L2) <-> sizes_ok L1 /\ sizes_ok L2.
Proof. apply Forall_app. Qed.

Lemma sizes_ok_cons (sz : Z) (al : bool) (L : layout_t) :
  sizes_ok ((sz, al) :: L) <-> (16 <= sz /\ sz mod 8 = 0) /\ sizes_ok L.
Proof. apply Forall_cons_iff. Qed.

Lemma total_nonneg (L : layout_t) : sizes_ok L -> 0 <= total L.
Proof.
  induction L as [|[sz al] L IH]; intros H; cbn [total]; [lia|].
  apply sizes_ok_cons in H. cbn [fst] in H. destruct H as [[H1 _] H2].
  specialize (IH H2). lia.
Qed.

Lemma layout_range (L : layout_t) : forall (a b sz : Z) (al : bool),
  sizes_ok L -> In (b, sz, al) (layout a L) ->
  a <= b /\ b + sz <= a + total L /\ 16 <= sz /\ sz mod 8 = 0.
Proof.
  induction L as [|[sz0 al0] L IH]; intros a b sz al Hs Hin; [destruct Hin|].
  apply sizes_ok_cons in Hs. cbn [fst] in Hs. destruct Hs as [[H1 H2] Hs].
  pose proof (total_nonneg L Hs).
  cbn [layout total] in *. destruct Hin as [E|Hin].
  - injection E as <- <- <-. lia.
  - specialize (IH _ _ _ _ Hs Hin). lia.
Qed.

Lemma layout_aligned (L : layout_t) : forall (a b sz : Z) (al : bool),
  sizes_ok L -> a mod 8 = 0 -> In (b, sz, al) (layout a L) -> b mod 8 = 0.
Proof.
  induction L as [|[sz0 al0] L IH]; intros a b sz al Hs Ha Hin; [destruct Hin|].
  apply sizes_ok_cons in Hs. cbn [fst] in Hs. destruct Hs as [[H1 H2] Hs].
  cbn [layout] in Hin. destruct Hin as [E|Hin].
  - injection E as <- <- <-. exact Ha.
  - apply (IH (a + sz0) b sz al Hs); [|exact Hin].
    rewrite Z.add_mod, Ha, H2 by lia. reflexivity.
Qed.

Lemma layout_split (L : layout_t) : forall (a b sz : Z) (al : bool),
  In (b, sz, al) (layout a L) ->
  exists L1 L2, L = L1 ++ (sz, al) :: L2 /\ b = a + total L1.
Proof.
  induction L as [|[sz0 al0] L IH]; intros a b sz al Hin; [destruct Hin|].
  cbn [layout] in Hin. destruct Hin as [E|Hin].
  - injection E as <- <- <-. exists [], L. cbn. split; [reflexivity|lia].
  - destruct (IH _ _ _ _ Hin) as (L1 & L2 & -> & ->).
    exists ((sz0, al0) :: L1), L2. cbn [app total]. split; [reflexivity|lia].
Qed.

Lemma layout_mid (L1 L2 : layout_t) (a sz : Z) (al : bool) :
  In (a + total L1, sz, al) (layout a (L1 ++ (sz, al) :: L2)).
Proof.
  rewrite layout_app. apply in_or_app. right. left. reflexivity.
Qed.

(** Two blocks of a layout are the same block or do not overlap. *)
Lemma layout_disjoint (L : layout_t) : forall (a b1 sz1 b2 sz2 : Z) (al1 al2 : bool),
  sizes_ok L ->
  In (b1, sz1, al1) (layout a L) -> In (b2, sz2, al2) (layout a L) ->
  (b1 = b2 /\ sz1 = sz2 /\ al1 = al2) \/ b1 + sz1 <= b2 \/ b2 + sz2 <= b1.
Proof.
  induction L as [|[sz0 al0] L IH]; intros a b1 sz1 b2 sz2 al1 al2 Hs H1 H2;
    [destruct H1|].
  pose proof Hs as Hs0.
  apply sizes_ok_cons in Hs. cbn [fst] in Hs. destruct Hs as [[Hz1 Hz2] Hs].
  cbn [layout] in H1, H2. destruct H1 as [E1|H1]; destruct H2 as [E2|H2].
  - injection E1 as <- <- <-. injection E2 as <- <- <-. left. auto.
  - injection E1 as <- <- <-. pose proof (layout_range _ _ _ _ _ Hs H2). lia.
  - injection E2 as <- <- <-. pose proof (layout_range _ _ _ _ _ Hs H1). lia.
  - apply (IH (a + sz0)); assumption.
Qed.

Lemma blocks_at_app (m : mem) (L1 : layout_t) : forall (a : Z) (L2 : layout_t),
  blocks_at m a (L1 ++ L2) <->
  blocks_at m a L1 /\ blocks_at m (a + total L1) L2.
Proof.
  induction L1 as [|[sz al] L1 IH]; intros a L2; cbn [app blocks_at total].
  - rewrite Z.add_0_r. tauto.
  - rewrite IH, Z.add_assoc. tauto.
Qed.

Lemma blocks_at_sizes (m : mem) (L : layout_t) : forall (a : Z),
  blocks_at m a L -> sizes_ok L.
Proof.
  induction L as [|[sz al] L IH]; intros a H; [constructor|].
  cbn [blocks_at] in H. destruct H as (H1 & H2 & _ & _ & H5).
  apply sizes_ok_cons. cbn [fst]. split; [split; assumption|]. eapply IH; eauto.
Qed.

Lemma blocks_at_tags (m : mem) (L : layout_t) : forall (a b sz : Z) (al : bool),
  blocks_at m a L -> In (b, sz, al) (layout a L) ->
  tag m (b - 4) sz al /\ tag m (b + sz - 8) sz al.
Proof.
  induction L as [|[sz0 al0] L IH]; intros a b sz al H Hin; [destruct Hin|].
  cbn [blocks_at layout] in *. destruct H as (_ & _ & H3 & H4 & H5).
  destruct Hin as [E|Hin].
  - injection E as <- <- <-. auto.
  - eapply IH; eauto.
Qed.

Lemma blocks_at_frame (m m' : mem) (L : layout_t) : forall (a : Z),
  (forall x, tag_area a L x -> m' x = m x) ->
  blocks_at m a L -> blocks_at m' a L.
Proof.
  induction L as [|[sz al] L IH]; intros a Hf H; [exact I|].
  cbn [blocks_at] in *. destruct H as (H1 & H2 & H3 & H4 & H5).
  repeat split; try assumption.
  - apply (tag_frame m); [|exact H3]. intros x Hx. apply Hf.
    exists a, sz, al. split; [left; reflexivity|lia].
  - apply (tag_frame m); [|exact H4]. intros x Hx. apply Hf.
    exists a, sz, al. split; [left; reflexivity|lia].
  - apply IH; [|exact H5]. intros x (b & sz' & al' & Hin & Hx). apply Hf.
    exists b, sz', al'. split; [right; exact Hin|exact Hx].
Qed.

Lemma tag_area_range (a : Z) (L : layout_t) (x : Z) :
  sizes_ok L -> tag_area a L x -> a - 4 <= x < a + total L - 4.
Proof.
  intros Hs (b & sz & al & Hin & Hx).
  pose proof (layout_range _ _ _ _ _ Hs Hin). lia.
Qed.

Lemma payload_not_tag (a : Z) (L : layout_t) (x : Z) :
  sizes_ok L -> in_payload a L x -> ~ tag_area a L x.
Proof.
  intros Hs (b & sz & al & Hin & Hx) (b' & sz' & al' & Hin' & Hx').
  pose proof (layout_range _ _ _ _ _ Hs Hin).
  pose proof (layout_range _ _ _ _ _ Hs Hin').
  destruct (layout_disjoint _ _ _ _ _ _ _ _ Hs Hin Hin') as [(-> & -> & _)|E]; lia.
Qed.

Lemma tag_area_app (a : Z) (L1 L2 : layout_t) (x : Z) :
  tag_area a (L1 ++ L2) x <-> tag_area a L1 x \/ tag_area (a + total L1) L2 x.
Proof.
  unfold tag_area. rewrite layout_app. split.
  - intros (b & sz & al & Hin & Hx). apply in_app_or in Hin.
    destruct Hin; [left|right]; exists b, sz, al; auto.
  - intros [(b & sz & al & Hin & Hx)|(b & sz & al & Hin & Hx)];
      exists b, sz, al; (split; [apply in_or_app|exact Hx]); auto.
Qed.

Lemma in_payload_app (a : Z) (L1 L2 : layout_t) (x : Z) :
  in_payload a (L1 ++ L2) x <-> in_payload a L1 x \/ in_payload (a + total L1) L2 x.
Proof.
  unfold in_payload. rewrite layout_app. split.
  - intros (b & sz & al & Hin & Hx). apply in_app_or in Hin.
    destruct Hin; [left|right]; exists b, sz, al; auto.
  - intros [(b & sz & al & Hin & Hx)|(b & sz & al & Hin & Hx)];
      exists b, sz, al; (split; [apply in_or_app|exact Hx]); auto.
Qed.

(** * Frames *)

Lemma same_but_refl (R : Z -> Prop) (s : state) : same_but R s s.
Proof. intros a _. reflexivity. Qed.

Lemma same_but_trans (R : Z -> Prop) (s1 s2 s3 : state) :
  same_but R s1 s2 -> same_but R s2 s3 -> same_but R s1 s3.
Proof. intros H1 H2 a Ha. rewrite (H2 a Ha). apply H1, Ha. Qed.

Lemma same_but_weaken (R R' : Z -> Prop) (s1 s2 : state) :
  (forall a, R a -> R' a) -> same_but R s1 s2 -> same_but R' s1 s2.
Proof. intros H H1 a Ha. apply H1. intros Hr. apply Ha, H, Hr. Qed.

Lemma same_but_PUT (R : Z -> Prop) (s : state) (p v : Z) :
  (forall a, p <= a < p + 4 -> R a) -> same_but R s (PUT s p v).
Proof.
  intros H a Ha. unfold PUT. cbn [bytes set_bytes].
  apply store_le_outside. change (Z.of_nat 4) with 4.
  destruct (Z_lt_le_dec a p); [left; assumption|].
  destruct (Z_lt_le_dec a (p + 4)); [|right; assumption].
  exfalso. apply Ha, H. lia.
Qed.

Lemma tag_same_but (R : Z -> Prop) (s s' : state) (q sz : Z) (al : bool) :
  same_but R s s' -> (forall a, q <= a < q + 4 -> ~ R a) ->
  tag (bytes s) q sz al -> tag (bytes s') q sz al.
Proof.
  intros Hf Hq. apply tag_frame. intros a Ha. apply Hf, Hq, Ha.
Qed.

Lemma blocks_at_same_but (R : Z -> Prop) (s s' : state) (a : Z) (L : layout_t) :
  same_but R s s' -> (forall x, tag_area a L x -> ~ R x) ->
  blocks_at (bytes s) a L -> blocks_at (bytes s') a L.
Proof.
  intros Hf Hq. apply blocks_at_frame. intros x Hx. apply Hf, Hq, Hx.
Qed.

(** * Consequences of the representation *)

Lemma class_link_fits (sz : Z) :
  16 <= sz -> sz mod 8 = 0 -> link_size (class_of sz) + 8 <= sz.
Proof.
  intros H1 H2. rewrite link_size_class.
  destruct (sz >? 16) eqn:E; zb; [|lia].
  assert (sz <> 17 /\ sz <> 18 /\ sz <> 19 /\ sz <> 20 /\ sz <> 21 /\ sz <> 22 /\ sz <> 23).
  { repeat split; intros ->; discriminate. }
  lia.
Qed.

Lemma rep_geom (L : layout_t) (F : Z -> list Z) (s : state) :
  heap_rep L F s -> geom s L.
Proof.
  intros H. constructor; try apply H.
  pose proof (rep_blocks _ _ _ H) as Hb. apply blocks_at_sizes in Hb.
  apply sizes_ok_cons in Hb. apply Hb.
Qed.

Lemma rep_nodes_in (L : layout_t) (F : Z -> list Z) (s : state) :
  heap_rep L F s -> nodes_in s L F.
Proof. intros H k x Hk Hx. apply (rep_nodes _ _ _ H k x Hk). exact Hx. Qed.

Lemma geom_total (s : state) (L : layout_t) :
  geom s L -> 0 <= total L /\ total L + 96 < 2 ^ 32.
Proof.
  intros H. pose proof (total_nonneg L (geom_sizes _ _ H)).
  pose proof (geom_brk _ _ H). pose proof (geom_max _ _ H).
  pose proof (geom_small _ _ H). unfold first_block in *. lia.
Qed.

Lemma geom_block (s : state) (L : layout_t) (b sz : Z) (al : bool) :
  geom s L -> In (b, sz, al) (layout (first_block s) L) ->
  first_block s <= b /\ b + sz <= mem_brk s /\ 16 <= sz /\ sz mod 8 = 0 /\
  b mod 8 = 0 /\ sz < 2 ^ 32 - 96.
Proof.
  intros H Hin.
  pose proof (layout_range _ _ _ _ _ (geom_sizes _ _ H) Hin) as Hr.
  pose proof (geom_brk _ _ H). pose proof (geom_total _ _ H).
  assert (first_block s mod 8 = 0).
  { unfold first_block. rewrite Z.add_mod, (geom_aligned _ _ H) by lia. reflexivity. }
  pose proof (layout_aligned _ _ _ _ _ (geom_sizes _ _ H) H2 Hin).
  lia.
Qed.

(** Nodes that are free blocks of a layout are well apart. *)
Lemma geom_sep (s : state) (L : layout_t) (F : Z -> list Z) :
  geom s L -> nodes_in s L F ->
  (forall k, 0 <= k <= 10 -> NoDup (F k)) ->
  sep s F.
Proof.
  intros Hg Hn Hd.
  pose proof (geom_base _ _ Hg). pose proof (geom_max _ _ Hg).
  pose proof (geom_small _ _ Hg). pose proof (geom_addr _ _ Hg).
  pose proof (geom_total _ _ Hg). pose proof (geom_brk _ _ Hg).
  unfold first_block in *.
  constructor.
  - lia.
  - intros k x Hk Hx. destruct (Hn k x Hk Hx) as (sz & Hin & _).
    pose proof (geom_block _ _ _ _ _ Hg Hin). unfold first_block in *. lia.
  - intros k1 k2 x1 x2 Hk1 Hk2 Hx1 Hx2.
    destruct (Hn k1 x1 Hk1 Hx1) as (sz1 & Hin1 & Hc1).
    destruct (Hn k2 x2 Hk2 Hx2) as (sz2 & Hin2 & Hc2).
    pose proof (geom_block _ _ _ _ _ Hg Hin1) as (_ & _ & A1 & A2 & _).
    pose proof (geom_block _ _ _ _ _ Hg Hin2) as (_ & _ & B1 & B2 & _).
    pose proof (class_link_fits sz1 A1 A2). pose proof (class_link_fits sz2 B1 B2).
    rewrite Hc1 in *. rewrite Hc2 in *.
    destruct (layout_disjoint _ _ _ _ _ _ _ _ (geom_sizes _ _ Hg) Hin1 Hin2)
      as [(E1 & E2 & _)|E].
    + left. split; [congruence|exact E1].
    + right. lia.
  - exact Hd.
Qed.

(** Link fields lie in the prologue payload or in the payload of a free block. *)
Lemma links_in_free (s : state) (L : layout_t) (F : Z -> list Z) (a : Z) :
  geom s L -> nodes_in s L F -> in_links s F a ->
  heap_listp s <= a < heap_listp s + 88 \/
  exists x sz, In (x, sz, false) (layout (first_block s) L) /\ x <= a < x + sz - 8.
Proof.
  intros Hg Hn [H|(k & x & Hk & Hx & Ha)]; [left; exact H|right].
  destruct (Hn k x Hk Hx) as (sz & Hin & Hc).
  pose proof (geom_block _ _ _ _ _ Hg Hin) as (_ & _ & A1 & A2 & _).
  pose proof (class_link_fits sz A1 A2). rewrite Hc in *.
  exists x, sz. split; [exact Hin|lia].
Qed.

Lemma links_in_payload (s : state) (L : layout_t) (F : Z -> list Z) (a : Z) :
  geom s L -> nodes_in s L F -> in_links s F a ->
  in_payload (heap_listp s) ((96, true) :: L) a.
Proof.
  intros Hg Hn H. destruct (links_in_free _ _ _ _ Hg Hn H) as [H1|(x & sz & Hin & Hx)].
  - exists (heap_listp s), 96, true. split; [left; reflexivity|lia].
  - exists x, sz, false. split; [right; exact Hin|exact Hx].
Qed.

Lemma geom_sizes_full (s : state) (L : layout_t) :
  geom s L -> sizes_ok ((96, true) :: L).
Proof.
  intros Hg. apply sizes_ok_cons. cbn [fst]. split; [split; [lia|reflexivity]|].
  apply (geom_sizes _ _ Hg).
Qed.

(** Link fields hold no tag: not of a block, not of the prologue, not the
    epilogue header. *)
Lemma links_not_tag (s : state) (L : layout_t) (F : Z -> list Z) (a : Z) :
  geom s L -> nodes_in s L F -> in_links s F a ->
  ~ tag_area (heap_listp s) ((96, true) :: L) a /\
  ~ (mem_brk s - 4 <= a).
Proof.
  intros Hg Hn H. split.
  - apply payload_not_tag; [apply (geom_sizes_full _ _ Hg)|].
    apply (links_in_payload _ _ _ _ Hg Hn H).
  - destruct (links_in_free _ _ _ _ Hg Hn H) as [H1|(x & sz & Hin & Hx)].
    + pose proof (geom_total _ _ Hg). pose proof (geom_brk _ _ Hg).
      unfold first_block in *. lia.
    + pose proof (geom_block _ _ _ _ _ Hg Hin). lia.
Qed.

(** Link fields are not in the payload of a live block. *)
Lemma links_not_live (s : state) (L : layout_t) (F : Z -> list Z) (a b sz : Z) :
  geom s L -> nodes_in s L F -> in_links s F a ->
  In (b, sz, true) (layout (first_block s) L) ->
  ~ (b - 4 <= a < b + sz - 4).
Proof.
  intros Hg Hn H Hb.
  pose proof (geom_block _ _ _ _ _ Hg Hb) as Hbr.
  destruct (links_in_free _ _ _ _ Hg Hn H) as [H1|(x & sz' & Hin & Hx)].
  - unfold first_block in *. lia.
  - pose proof (geom_block _ _ _ _ _ Hg Hin).
    destruct (layout_disjoint _ _ _ _ _ _ _ _ (geom_sizes _ _ Hg) Hin Hb)
      as [(_ & _ & E)|E]; [discriminate|lia].
Qed.

(** Reading the tags of a block. *)
Lemma read_tags (s : state) (a : Z) (L : layout_t) (b sz : Z) (al : bool) :
  sizes_ok L -> blocks_at (bytes s) a L -> In (b, sz, al) (layout a L) ->
  GET_SIZE s (b - 4) = sz /\ GET_ALLOC s (b - 4) = flag al /\
  GET_SIZE s (b + sz - 8) = sz /\ GET_ALLOC s (b + sz - 8) = flag al.
Proof.
  intros Hs Hb Hin.
  destruct (blocks_at_tags _ _ _ _ _ _ Hb Hin) as [H1 H2].
  pose proof (layout_range _ _ _ _ _ Hs Hin) as (_ & _ & A1 & A2).
  repeat split.
  - apply (tag_size _ _ _ al); auto; lia.
  - apply (tag_alloc _ _ sz); auto.
  - apply (tag_size _ _ _ al); auto; lia.
  - apply (tag_alloc _ _ sz); auto.
Qed.

Lemma rep_read (L : layout_t) (F : Z -> list Z) (s : state) (b sz : Z) (al : bool) :
  heap_rep L F s -> In (b, sz, al) (layout (first_block s) L) ->
  GET_SIZE s (b - 4) = sz /\ GET_ALLOC s (b - 4) = flag al /\
  GET_SIZE s (b + sz - 8) = sz /\ GET_ALLOC s (b + sz - 8) = flag al.
Proof.
  intros H Hin.
  apply (read_tags s (heap_listp s) ((96, true) :: L)).
  - apply (geom_sizes_full s). apply (rep_geom _ F), H.
  - apply H.
  - right. exact Hin.
Qed.

Lemma rep_sep (L : layout_t) (F : Z -> list Z) (s : state) :
  heap_rep L F s -> sep s F.
Proof.
  intros H. apply (geom_sep s L).
  - apply (rep_geom _ F), H.
  - apply rep_nodes_in, H.
  - apply H.
Qed.

(** The header of a listed node gives its class. *)
Lemma rep_node_class (L : layout_t) (F : Z -> list Z) (s : state) (k x : Z) :
  heap_rep L F s -> 0 <= k <= 10 -> In x (F k) ->
  class_of (GET_SIZE s (HDRP x)) = k.
Proof.
  intros H Hk Hx. destruct (rep_nodes_in _ _ _ H k x Hk Hx) as (sz & Hin & Hc).
  destruct (rep_read _ _ _ _ _ _ H Hin) as (E & _). unfold HDRP, WSIZE.
  rewrite E. exact Hc.
Qed.

(** * Membership in updated lists *)

Lemma in_upd_remove (F : Z -> list Z) (k : Z) (l1 l2 : list Z) (bp j x : Z) :
  F k = l1 ++ bp :: l2 -> NoDup (F k) ->
  (In x (upd F k (l1 ++ l2) j) <-> In x (F j) /\ ~ (j = k /\ x = bp)).
Proof.
  intros HF Hn. unfold upd. destruct (j =? k) eqn:E; zb.
  - subst j. rewrite HF in *. pose proof (NoDup_remove_2 _ _ _ Hn) as Hni.
    split.
    + intros Hx. split.
      * apply in_app_or in Hx. apply in_or_app. destruct Hx; [left|right; right]; assumption.
      * intros [_ ->]. contradiction.
    + intros [Hx Hne]. apply in_app_or in Hx. apply in_or_app.
      destruct Hx as [Hx|[Hx|Hx]]; [left; assumption| |right; assumption].
      exfalso. apply Hne. auto.
  - split; [intros Hx; split; [exact Hx|intros [? _]; contradiction]|intros [Hx _]; exact Hx].
Qed.

Lemma in_upd_add (F : Z -> list Z) (k bp j x : Z) :
  In x (upd F k (F k ++ [bp]) j) <-> In x (F j) \/ (j = k /\ x = bp).
Proof.
  unfold upd. destruct (j =? k) eqn:E; zb.
  - subst j. split.
    + intros Hx. apply in_app_or in Hx. destruct Hx as [Hx|[Hx|[]]]; auto.
    + intros [Hx|[_ ->]]; apply in_or_app; [left; exact Hx|right; left; reflexivity].
  - split; [auto|]. intros [Hx|[? _]]; [exact Hx|contradiction].
Qed.

Lemma nodup_upd_remove (F : Z -> list Z) (k : Z) (l1 l2 : list Z) (bp : Z) :
  F k = l1 ++ bp :: l2 ->
  (forall j, 0 <= j <= 10 -> NoDup (F j)) -> 0 <= k <= 10 ->
  forall j, 0 <= j <= 10 -> NoDup (upd F k (l1 ++ l2) j).
Proof.
  intros HF Hn Hk j Hj. unfold upd. destruct (j =? k) eqn:E; zb.
  - specialize (Hn k Hk). rewrite HF in Hn. apply NoDup_remove_1 in Hn. exact Hn.
  - apply Hn, Hj.
Qed.

Lemma nodup_upd_add (F : Z -> list Z) (k bp : Z) :
  (forall j, 0 <= j <= 10 -> NoDup (F j)) -> ~ In bp (F k) ->
  forall j, 0 <= j <= 10 -> NoDup (upd F k (F k ++ [bp]) j).
Proof.
  intros Hn Hb j Hj. unfold upd. destruct (j =? k) eqn:E; zb.
  - subst j. apply NoDup_app; [apply Hn, Hj|repeat constructor; intros []|].
    intros a Ha [<-|[]]. contradiction.
  - apply Hn, Hj.
Qed.

(** * The deciders are sound *)

Lemma in_classes (k : Z) : 0 <= k <= 10 -> In k classes.
Proof.
  intros H.
  assert (k = 0 \/ k = 1 \/ k = 2 \/ k = 3 \/ k = 4 \/ k = 5 \/ k = 6 \/
          k = 7 \/ k = 8 \/ k = 9 \/ k = 10) as E by lia.
  unfold classes. cbn [In]. intuition.
Qed.

Lemma forallb_classes (f : Z -> bool) (k : Z) :
  forallb f classes = true -> 0 <= k <= 10 -> f k = true.
Proof.
  intros H Hk. rewrite forallb_forall in H. apply H, in_classes, Hk.
Qed.

Lemma tagb_sound (m : mem) (p sz : Z) (al : bool) :
  tagb m p sz al = true -> tag m p sz al.
Proof. unfold tagb, tag. intros H. apply Z.eqb_eq. exact H. Qed.

Lemma blocks_atb_sound (m : mem) (L : layout_t) : forall (a : Z),
  blocks_atb m a L = true -> blocks_at m a L.
Proof.
  induction L as [|[sz al] L IH]; intros a H; [exact I|].
  cbn [blocks_atb] in H. rewrite !andb_true_iff in H.
  destruct H as [[[[H1 H2] H3] H4] H5].
  cbn [blocks_at]. repeat split.
  - apply Z.leb_le. exact H1.
  - apply Z.eqb_eq. exact H2.
  - apply tagb_sound. exact H3.
  - apply tagb_sound. exact H4.
  - apply IH. exact H5.
Qed.

Lemma lsegb_sound (m : mem) (d : bool) (l : list Z) : forall (prev nxt : Z),
  lsegb m d prev l nxt = true -> lseg m d prev l nxt.
Proof.
  induction l as [|x l IH]; intros prev nxt H.
  - cbn in *. apply Z.eqb_eq. exact H.
  - cbn [lsegb] in H. rewrite !andb_true_iff in H.
    destruct H as [[[H1 H2] H3] H4]. cbn [lseg]. repeat split.
    + apply Z.eqb_eq. exact H1.
    + intros E. rewrite E in H2. discriminate.
    + intros ->. apply Z.eqb_eq. exact H3.
    + apply IH. exact H4.
Qed.

Lemma lists_okb_sound (s : state) (F : Z -> list Z) :
  lists_okb s F = true -> lists_ok s F.
Proof.
  intros H k Hk. apply (forallb_classes _ k) in H; [|exact Hk].
  rewrite andb_true_iff in H. destruct H as [H1 H2]. split.
  - apply lsegb_sound. exact H1.
  - apply Z.eqb_eq. exact H2.
Qed.

Lemma existsb_eqb (x : Z) (l : list Z) : existsb (Z.eqb x) l = true <-> In x l.
Proof.
  rewrite existsb_exists. split.
  - intros (y & Hy & E). apply Z.eqb_eq in E. subst. exact Hy.
  - intros H. exists x. split; [exact H|apply Z.eqb_refl].
Qed.

Lemma nodupb_sound (l : list Z) : nodupb l = true -> NoDup l.
Proof.
  induction l as [|x l IH]; intros H; [constructor|].
  cbn [nodupb] in H. rewrite andb_true_iff in H. destruct H as [H1 H2].
  constructor; [|apply IH; exact H2].
  intros Hin. apply existsb_eqb in Hin. rewrite Hin in H1. discriminate.
Qed.

Lemma sepb_sound (s : state) (F : Z -> list Z) : sepb s F = true -> sep s F.
Proof.
  unfold sepb. rewrite !andb_true_iff. intros [[H1 H2] H3].
  assert (Hk : forall k x, 0 <= k <= 10 -> In x (F k) ->
            NoDup (F k) /\ heap_listp s + 96 <= x /\ x + 16 <= 2 ^ 64 /\
            forall k2 x2, 0 <= k2 <= 10 -> In x2 (F k2) -> apartb k k2 x x2 = true).
  { intros k x Hk Hx. apply (forallb_classes _ k) in H3; [|exact Hk].
    rewrite andb_true_iff in H3. destruct H3 as [A B].
    rewrite forallb_forall in B. specialize (B x Hx).
    rewrite !andb_true_iff in B. destruct B as [[B1 B2] B3].
    split; [apply nodupb_sound; exact A|]. split; [apply Z.leb_le; exact B1|].
    split; [apply Z.leb_le; exact B2|].
    intros k2 x2 Hk2 Hx2. apply (forallb_classes _ k2) in B3; [|exact Hk2].
    rewrite forallb_forall in B3. apply B3, Hx2. }
  constructor.
  - split; [apply Z.ltb_lt; exact H1|apply Z.leb_le; exact H2].
  - intros k x Hk' Hx. destruct (Hk k x Hk' Hx) as (_ & A & B & _). auto.
  - intros k1 k2 x1 x2 Hk1 Hk2 Hx1 Hx2.
    destruct (Hk k1 x1 Hk1 Hx1) as (_ & _ & _ & A).
    specialize (A k2 x2 Hk2 Hx2). unfold apartb in A.
    rewrite !orb_true_iff, andb_true_iff, !Z.leb_le, !Z.eqb_eq in A. destruct A as [[[A1 A2]|A]|A]; [left; split; assumption|right; left; exact A|right; right; exact A].
  - intros k Hk'. apply (forallb_classes _ k) in H3; [|exact Hk'].
    rewrite andb_true_iff in H3. apply nodupb_sound, H3.
Qed.

Lemma rep_check_sound (L : layout_t) (F : Z -> list Z) (s : state) :
  rep_check L F s = true -> heap_rep L F s.
Proof.
  unfold rep_check. rewrite !andb_true_iff.
  intros [[[[[[[[[[H1 H2] H3] H4] H5] H6] H7] H8] H9] H10] H11].
  constructor.
  - apply Z.eqb_eq. exact H1.
  - apply Z.leb_le. exact H2.
  - apply Z.eqb_eq. exact H3.
  - apply Z.leb_le. exact H4.
  - apply Z.ltb_lt. exact H5.
  - apply Z.leb_le. exact H6.
  - apply blocks_atb_sound. exact H7.
  - apply tagb_sound. exact H8.
  - apply lists_okb_sound. exact H9.
  - intros k Hk. apply (forallb_classes _ k) in H10; [|exact Hk].
    apply nodupb_sound. exact H10.
  - intros k x Hk. unfold nodesb in H11. rewrite andb_true_iff in H11.
    destruct H11 as [A B]. split.
    + intros Hx. apply (forallb_classes _ k) in A; [|exact Hk].
      rewrite forallb_forall in A. specialize (A x Hx).
      rewrite existsb_exists in A. destruct A as ([[y sz] al] & Hin & E).
      unfold addr_of in E. cbn [fst snd] in E.
      rewrite !andb_true_iff, !Z.eqb_eq, negb_true_iff in E.
      destruct E as [[-> ->] E]. exists sz. auto.
    + intros (sz & Hin & Hc). rewrite forallb_forall in B.
      specialize (B _ Hin). unfold addr_of in B. cbn [fst snd] in B.
      cbn [orb] in B. rewrite Hc in B. apply existsb_eqb. exact B.
Qed.

(** * Steps of an operation on a segment of the heap *)

Lemma sep_sub (s s' : state) (F0 F : Z -> list Z) :
  sep s F0 -> heap_listp s' = heap_listp s ->
  (forall j x, 0 <= j <= 10 -> In x (F j) -> In x (F0 j)) ->
  (forall j, 0 <= j <= 10 -> NoDup (F j)) ->
  sep s' F.
Proof.
  intros Hs Hb Hsub Hn. constructor.
  - rewrite Hb. apply (sep_base _ _ Hs).
  - intros k x Hk Hx. rewrite Hb. apply (sep_range _ _ Hs k x Hk). auto.
  - intros k1 k2 x1 x2 H1 H2 Hx1 Hx2. apply (sep_apart _ _ Hs); auto.
  - exact Hn.
Qed.

Lemma in_links_sub (s s' : state) (F0 F : Z -> list Z) (a : Z) :
  heap_listp s' = heap_listp s ->
  (forall j x, 0 <= j <= 10 -> In x (F j) -> In x (F0 j)) ->
  in_links s' F a -> in_links s F0 a.
Proof.
  intros Hb Hsub [H|(k & x & Hk & Hx & Ha)].
  - left. rewrite <- Hb. exact H.
  - right. exists k, x. auto.
Qed.

(** A node is listed in one class only. *)
Lemma sep_one_class (s : state) (F : Z -> list Z) (j k x : Z) :
  sep s F -> 0 <= j <= 10 -> 0 <= k <= 10 -> In x (F j) -> In x (F k) -> j = k.
Proof.
  intros Hs Hj Hk Hxj Hxk.
  destruct (sep_apart _ _ Hs j k x x Hj Hk Hxj Hxk) as [[E _]|E]; [exact E|].
  pose proof (link_size_cases j). pose proof (link_size_cases k). lia.
Qed.

Lemma GET_SIZE_same (s s' : state) (q : Z) :
  (forall a, q <= a < q + 4 -> bytes s' a = bytes s a) ->
  GET_SIZE s' q = GET_SIZE s q.
Proof.
  intros H. unfold GET_SIZE, GET. f_equal. apply load_le_ext.
  intros a Ha. apply H. change (Z.of_nat 4) with 4 in Ha. lia.
Qed.

Lemma GET_ALLOC_same (s s' : state) (q : Z) :
  (forall a, q <= a < q + 4 -> bytes s' a = bytes s a) ->
  GET_ALLOC s' q = GET_ALLOC s q.
Proof.
  intros H. unfold GET_ALLOC, GET. f_equal. apply load_le_ext.
  intros a Ha. apply H. change (Z.of_nat 4) with 4 in Ha. lia.
Qed.

Section Running.
Variables (s0 : state) (F0 : Z -> list Z) (lo hi : Z) (G : list (Z * Z)).

(** A word of the segment that avoids the header and payload of the
    nodes still listed inside the segment is not a link field. *)
Lemma run_not_links (s : state) (F : Z -> list Z) (q a : Z) :
  running s0 F0 lo hi G s F ->
  lo <= q -> q + 4 <= hi ->
  (forall j x sz, 0 <= j <= 10 -> In x (F j) -> In (x, sz) G ->
     q + 4 <= x - 4 \/ x + sz - 8 <= q) ->
  q <= a < q + 4 -> ~ in_links s F a.
Proof.
  intros Hr Hlo Hhi Hg Ha [H|(j & x & Hj & Hx & Hxa)].
  - rewrite (run_base _ _ _ _ _ _ _ Hr) in H.
    pose proof (run_lo _ _ _ _ _ _ _ Hr). lia.
  - destruct (run_seg _ _ _ _ _ _ _ Hr j x Hj Hx) as [E|[E|(sz & Hin & E)]];
      try lia.
    specialize (Hg j x sz Hj Hx Hin). lia.
Qed.

Lemma run_remove (fuel : nat) (s : state) (F : Z -> list Z) (k bp : Z) :
  running s0 F0 lo hi G s F ->
  0 <= k <= 10 -> In bp (F k) ->
  (length (F0 k) < fuel)%nat ->
  exists s' l1 l2,
    F k = l1 ++ bp :: l2 /\
    remove_frome_free_list fuel s bp = Some s' /\
    running s0 F0 lo hi G s' (upd F k (l1 ++ l2)) /\
    same_but (in_links s F) s s' /\
    (forall j x, 0 <= j <= 10 ->
       (In x (upd F k (l1 ++ l2) j) <-> In x (F j) /\ x <> bp)).
Proof.
  intros Hr Hk Hbp Hfuel.
  destruct (in_split _ _ Hbp) as (l1 & l2 & HF).
  pose proof (run_base _ _ _ _ _ _ _ Hr) as Hb.
  assert (Hs : sep s F).
  { apply (sep_sub s0 s F0 F); [apply Hr|exact Hb|apply Hr|apply Hr]. }
  assert (Hlen : (length l1 < fuel)%nat).
  { assert (length (F k) <= length (F0 k))%nat.
    { apply NoDup_incl_length; [apply Hr; exact Hk|].
      intros x Hx. apply (run_sub _ _ _ _ _ _ _ Hr k x Hk Hx). }
    rewrite HF in H. rewrite length_app in H. cbn [length] in H. lia. }
  destruct (remove_spec fuel s F bp k l1 l2 (run_lists _ _ _ _ _ _ _ Hr) Hs
              (run_class _ _ _ _ _ _ _ Hr k bp Hk Hbp) HF Hlen)
    as (s' & Hrm & Hl' & Hb' & Hbrk' & Hmax' & Hfr).
  exists s', l1, l2. split; [exact HF|]. split; [exact Hrm|].
  assert (Hsub' : forall j x, 0 <= j <= 10 -> In x (upd F k (l1 ++ l2) j) -> In x (F j)).
  { intros j x Hj Hx.
    apply (in_upd_remove F k l1 l2 bp j x HF (run_nodup _ _ _ _ _ _ _ Hr k Hk)) in Hx.
    apply Hx. }
  split; [|split].
  - constructor.
    + rewrite Hb'. exact Hb.
    + rewrite Hbrk'. apply Hr.
    + rewrite Hmax'. apply Hr.
    + apply Hr.
    + apply Hr.
    + exact Hl'.
    + intros j x Hj Hx. apply (run_sub _ _ _ _ _ _ _ Hr j x Hj). auto.
    + apply (nodup_upd_remove F k l1 l2 bp HF); [apply Hr|exact Hk].
    + intros j x Hj Hx.
      rewrite (GET_SIZE_same s s').
      * apply (run_class _ _ _ _ _ _ _ Hr j x Hj). auto.
      * intros a Ha. apply Hfr.
        apply (sep_header_not_links s F j x); auto.
        unfold HDRP, WSIZE in Ha. lia.
    + intros j x Hj Hx. apply (run_seg _ _ _ _ _ _ _ Hr j x Hj). auto.
    + apply (same_but_trans _ s0 s s'); [apply Hr|].
      intros a Ha. apply Hfr. intros Hl. apply Ha. left.
      apply (in_links_sub s0 s F0 F); [exact Hb|apply Hr|exact Hl].
  - exact Hfr.
  - intros j x Hj.
    rewrite (in_upd_remove F k l1 l2 bp j x HF (run_nodup _ _ _ _ _ _ _ Hr k Hk)).
    split; intros [Hin Hne]; (split; [exact Hin|]).
    + intros ->. apply Hne. split; [|reflexivity].
      apply (sep_one_class s F j k bp); auto.
    + intros [_ E]. contradiction.
Qed.

Lemma run_put (s : state) (F : Z -> list Z) (q v : Z) :
  running s0 F0 lo hi G s F ->
  lo <= q -> q + 4 <= hi ->
  (forall j x sz, 0 <= j <= 10 -> In x (F j) -> In (x, sz) G ->
     q + 4 <= x - 4 \/ x + sz - 8 <= q) ->
  running s0 F0 lo hi G (PUT s q v) F.
Proof.
  intros Hr Hlo Hhi Hg.
  assert (Hfr : same_but (fun a => q <= a < q + 4) s (PUT s q v)).
  { apply same_but_PUT. auto. }
  constructor; try apply Hr.
  - apply (lists_ok_frame s); [apply Hr|reflexivity|reflexivity|].
    intros a Ha. apply Hfr. intros Hq.
    apply (run_not_links s F q a Hr Hlo Hhi Hg Hq Ha).
  - intros j x Hj Hx. rewrite (GET_SIZE_same s (PUT s q v)).
    + apply (run_class _ _ _ _ _ _ _ Hr j x Hj Hx).
    + intros a Ha. apply Hfr. unfold HDRP, WSIZE in Ha.
      destruct (run_seg _ _ _ _ _ _ _ Hr j x Hj Hx) as [E|[E|(sz & Hin & E)]].
      * pose proof (link_size_cases j). lia.
      * lia.
      * specialize (Hg j x sz Hj Hx Hin). pose proof (link_size_cases j). lia.
  - apply (same_but_trans _ s0 s); [apply Hr|].
    intros a Ha. apply Hfr. lia.
Qed.

(** Tags outside the segment are those of the initial state. *)
Lemma run_tag_outside (L : layout_t) (s : state) (F : Z -> list Z)
      (q sz : Z) (al : bool) :
  running s0 F0 lo hi G s F ->
  geom s0 L -> nodes_in s0 L F0 ->
  (forall a, q <= a < q + 4 ->
     tag_area (heap_listp s0) ((96, true) :: L) a \/ mem_brk s0 - 4 <= a) ->
  q + 4 <= lo \/ hi <= q ->
  tag (bytes s0) q sz al -> tag (bytes s) q sz al.
Proof.
  intros Hr Hg Hn Hq Hout.
  apply (tag_same_but _ s0 s _ _ _ (run_frame _ _ _ _ _ _ _ Hr)).
  intros a Ha [Hl|Hl]; [|lia].
  destruct (links_not_tag _ _ _ _ Hg Hn Hl) as [H1 H2].
  destruct (Hq a Ha) as [E|E]; [exact (H1 E)|exact (H2 E)].
Qed.
End Running.

(** * Entering and leaving a segment *)

Lemma run_start (L : layout_t) (F : Z -> list Z) (s : state)
      (La M Lb : layout_t) :
  heap_rep L F s -> L = La ++ M ++ Lb ->
  running s F
    (first_block s + total La - 4) (first_block s + total La + total M - 4)
    (map addr_size (layout (first_block s + total La) M)) s F.
Proof.
  intros H HL.
  pose proof (rep_geom _ _ _ H) as Hg.
  pose proof (geom_sizes _ _ Hg) as Hs. rewrite HL in Hs.
  apply sizes_ok_app in Hs. destruct Hs as [HsA Hs].
  apply sizes_ok_app in Hs. destruct Hs as [HsM HsB].
  pose proof (total_nonneg _ HsA). pose proof (total_nonneg _ HsM).
  constructor; try reflexivity.
  - unfold first_block. lia.
  - apply (rep_sep _ _ _ H).
  - apply H.
  - auto.
  - apply H.
  - intros j x Hj Hx. apply (rep_node_class _ _ _ _ _ H Hj Hx).
  - intros j x Hj Hx.
    destruct (rep_nodes_in _ _ _ H j x Hj Hx) as (sz & Hin & Hc).
    pose proof (geom_block _ _ _ _ _ Hg Hin) as (_ & _ & A1 & A2 & _).
    pose proof (class_link_fits sz A1 A2) as Hfit. rewrite Hc in Hfit.
    rewrite HL in Hin. rewrite !layout_app in Hin.
    apply in_app_or in Hin. destruct Hin as [Hin|Hin].
    + left. pose proof (layout_range _ _ _ _ _ HsA Hin). lia.
    + apply in_app_or in Hin. destruct Hin as [Hin|Hin].
      * right. right. exists sz. split; [|exact Hfit].
        apply (in_map addr_size) in Hin. exact Hin.
      * right. left. pose proof (layout_range _ _ _ _ _ HsB Hin). lia.
  - apply same_but_refl.
Qed.

Lemma rep_rewrite (s s' : state) (F F' : Z -> list Z) (La M Lb M' : layout_t) :
  heap_rep (La ++ M ++ Lb) F s ->
  total M' = total M ->
  heap_listp s' = heap_listp s ->
  mem_brk s' = mem_brk s ->
  mem_max_addr s' = mem_max_addr s ->
  same_but (fun a => in_links s F a \/
                     first_block s + total La - 4 <= a
                       < first_block s + total La + total M - 4) s s' ->
  blocks_at (bytes s') (first_block s + total La) M' ->
  lists_ok s' F' ->
  (forall j, 0 <= j <= 10 -> NoDup (F' j)) ->
  (forall j x, 0 <= j <= 10 ->
     (In x (F' j) <->
      (In x (F j) /\ ~ In x (map addr_of (layout (first_block s + total La) M))) \/
      exists sz, In (x, sz, false) (layout (first_block s + total La) M') /\
                 class_of sz = j)) ->
  heap_rep (La ++ M' ++ Lb) F' s'.
Proof.
  intros H HT Hb Hbrk Hmax Hfr HM' Hl' Hn' Hmem.
  pose proof (rep_geom _ _ _ H) as Hg.
  pose proof (geom_sizes _ _ Hg) as Hs.
  apply sizes_ok_app in Hs. destruct Hs as [HsA Hs].
  apply sizes_ok_app in Hs. destruct Hs as [HsM HsB].
  pose proof (blocks_at_sizes _ _ _ HM') as HsM'.
  pose proof (total_nonneg _ HsA). pose proof (total_nonneg _ HsM).
  pose proof (total_nonneg _ HsB).
  pose proof (rep_nodes_in _ _ _ H) as Hni.
  assert (Hfb : first_block s' = first_block s) by (unfold first_block; rewrite Hb; reflexivity).
  assert (HTL : total (La ++ M' ++ Lb) = total (La ++ M ++ Lb)).
  { rewrite !total_app. lia. }
  pose proof (rep_blocks _ _ _ H) as HB.
  change ((96, true) :: La ++ M ++ Lb) with (((96, true) :: La) ++ M ++ Lb) in HB.
  apply blocks_at_app in HB. destruct HB as [HBA HB].
  apply blocks_at_app in HB. destruct HB as [_ HBB].
  cbn [total] in HBB.
  constructor.
  - rewrite Hb. apply H.
  - rewrite Hb. apply H.
  - rewrite Hbrk, Hfb, HTL. apply H.
  - rewrite Hbrk, Hmax. apply H.
  - rewrite Hmax, Hb. apply H.
  - rewrite Hmax. apply H.
  - rewrite Hb.
    change ((96, true) :: La ++ M' ++ Lb) with (((96, true) :: La) ++ M' ++ Lb).
    apply blocks_at_app. split; [|apply blocks_at_app; split].
    + apply (blocks_at_same_but _ s s' _ _ Hfr); [|exact HBA].
      intros x Hx [Hl|Hr].
      * destruct (links_not_tag _ _ _ _ Hg Hni Hl) as [Hnt _]. apply Hnt.
        change ((96, true) :: La ++ M ++ Lb) with (((96, true) :: La) ++ M ++ Lb).
        apply tag_area_app. left. exact Hx.
      * apply tag_area_range in Hx.
        -- cbn [total] in Hx. unfold first_block in Hr. lia.
        -- apply sizes_ok_cons. cbn [fst]. split; [split; [lia|reflexivity]|exact HsA].
    + cbn [total]. replace (heap_listp s + (96 + total La))
        with (first_block s + total La) by (unfold first_block; lia).
      exact HM'.
    + cbn [total]. rewrite HT.
      apply (blocks_at_same_but _ s s' _ _ Hfr); [|exact HBB].
      intros x Hx [Hl|Hr].
      * destruct (links_not_tag _ _ _ _ Hg Hni Hl) as [Hnt _]. apply Hnt.
        change ((96, true) :: La ++ M ++ Lb) with (((96, true) :: La) ++ M ++ Lb).
        apply tag_area_app. right. apply tag_area_app. right.
        cbn [total]. exact Hx.
      * apply tag_area_range in Hx; [|exact HsB].
        unfold first_block in Hr. lia.
  - rewrite Hbrk.
    apply (tag_same_but _ s s' _ _ _ Hfr); [|apply H].
    intros a Ha [Hl|Hr].
    + destruct (links_not_tag _ _ _ _ Hg Hni Hl) as [_ Hnt]. apply Hnt. lia.
    + pose proof (geom_brk _ _ Hg) as E. rewrite !total_app in E. lia.
  - exact Hl'.
  - exact Hn'.
  - intros j x Hj. rewrite Hfb, (Hmem j x Hj), (rep_nodes _ _ _ H j x Hj).
    rewrite !layout_app.
    set (r := first_block s + total La) in *.
    split.
    + intros [[(sz & Hin & Hc) Hnot]|(sz & Hin & Hc)].
      * exists sz. split; [|exact Hc].
        apply in_app_or in Hin. apply in_or_app. destruct Hin as [Hin|Hin]; [left; exact Hin|].
        right. apply in_app_or in Hin. apply in_or_app. destruct Hin as [Hin|Hin].
        -- exfalso. apply Hnot. apply (in_map addr_of) in Hin. exact Hin.
        -- right. rewrite HT. exact Hin.
      * exists sz. split; [|exact Hc].
        apply in_or_app. right. apply in_or_app. left. exact Hin.
    + intros (sz & Hin & Hc).
      apply in_app_or in Hin. destruct Hin as [Hin|Hin].
      * left. split.
        -- exists sz. split; [apply in_or_app; left; exact Hin|exact Hc].
        -- intros Hx. apply in_map_iff in Hx. destruct Hx as ([[b bsz] bal] & E & Hb').
           cbn in E. subst b.
           pose proof (layout_range _ _ _ _ _ HsA Hin).
           pose proof (layout_range _ _ _ _ _ HsM Hb'). lia.
      * apply in_app_or in Hin. destruct Hin as [Hin|Hin].
        -- right. exists sz. auto.
        -- left. split.
           ++ exists sz. split; [|exact Hc]. apply in_or_app. right.
              apply in_or_app. right. rewrite <- HT. exact Hin.
           ++ intros Hx. apply in_map_iff in Hx. destruct Hx as ([[b bsz] bal] & E & Hb').
              cbn in E. subst b.
              pose proof (layout_range _ _ _ _ _ HsB Hin).
              pose proof (layout_range _ _ _ _ _ HsM Hb'). lia.
Qed.

(** A listed node that is outside the segment or among the nodes already
    unlisted is outside the segment. *)
Lemma run_add (s0 : state) (F0 : Z -> list Z) (lo hi : Z) (G : list (Z * Z))
      (s : state) (F : Z -> list Z) (rb k : Z) :
  running s0 F0 lo hi G s F ->
  (forall j x, 0 <= j <= 10 -> In x (F j) ->
     x + link_size j + 4 <= lo \/ hi + 4 <= x) ->
  class_of (GET_SIZE s (HDRP rb)) = k ->
  lo + 4 <= rb -> rb + link_size k + 4 <= hi -> rb + 16 <= 2 ^ 64 ->
  lists_ok (add_to_free_list s rb) (upd F k (F k ++ [rb])) /\
  heap_listp (add_to_free_list s rb) = heap_listp s0 /\
  mem_brk (add_to_free_list s rb) = mem_brk s0 /\
  mem_max_addr (add_to_free_list s rb) = mem_max_addr s0 /\
  same_but (fun a => in_links s0 F0 a \/ lo <= a < hi) s0 (add_to_free_list s rb) /\
  same_but (fun a => in_links s F a \/ rb <= a < rb + link_size k)
           s (add_to_free_list s rb) /\
  (forall j, 0 <= j <= 10 -> NoDup (upd F k (F k ++ [rb]) j)) /\
  (forall j x, 0 <= j <= 10 ->
     (In x (upd F k (F k ++ [rb]) j) <-> In x (F j) \/ (j = k /\ x = rb))).
Proof.
  intros Hr Hout Hk Hlo Hhi Hmax.
  pose proof (class_of_range (GET_SIZE s (HDRP rb))) as Hkr. rewrite Hk in Hkr.
  pose proof (run_base _ _ _ _ _ _ _ Hr) as Hb.
  pose proof (run_lo _ _ _ _ _ _ _ Hr) as Hlo0.
  pose proof (run_sep _ _ _ _ _ _ _ Hr) as Hs0.
  assert (Hnotin : forall j, 0 <= j <= 10 -> ~ In rb (F j)).
  { intros j Hj Hin. pose proof (link_size_cases k).
    destruct (Hout j rb Hj Hin); pose proof (link_size_cases j); lia. }
  assert (Hnd : forall j, 0 <= j <= 10 -> NoDup (upd F k (F k ++ [rb]) j)).
  { apply nodup_upd_add; [apply Hr|apply Hnotin; exact Hkr]. }
  assert (Hs : sep s (upd F k (F k ++ [rb]))).
  { constructor.
    - rewrite Hb. apply Hs0.
    - intros j x Hj Hx. rewrite Hb. apply in_upd_add in Hx.
      destruct Hx as [Hx|[-> ->]].
      + apply (sep_range _ _ Hs0 j x Hj). apply (run_sub _ _ _ _ _ _ _ Hr j x Hj Hx).
      + lia.
    - intros k1 k2 x1 x2 H1 H2 Hx1 Hx2.
      apply in_upd_add in Hx1. apply in_upd_add in Hx2.
      destruct Hx1 as [Hx1|[-> ->]]; destruct Hx2 as [Hx2|[-> ->]].
      + apply (sep_apart _ _ Hs0); auto; apply (run_sub _ _ _ _ _ _ _ Hr); auto.
      + right. destruct (Hout k1 x1 H1 Hx1); lia.
      + right. destruct (Hout k2 x2 H2 Hx2); lia.
      + left. auto.
    - exact Hnd. }
  destruct (add_to_free_list_spec s F rb k (run_lists _ _ _ _ _ _ _ Hr) Hk Hs)
    as (Hl' & Hb' & Hbrk' & Hmax' & Hfr).
  assert (Hfr' : same_but (fun a => in_links s F a \/ rb <= a < rb + link_size k)
                          s (add_to_free_list s rb)).
  { intros a Ha. apply Hfr. intros [Hl|(j & x & Hj & Hx & Hxa)].
    - apply Ha. left. left. exact Hl.
    - apply in_upd_add in Hx. destruct Hx as [Hx|[-> ->]].
      + apply Ha. left. right. exists j, x. auto.
      + apply Ha. right. exact Hxa. }
  split; [exact Hl'|]. split; [congruence|].
  split; [rewrite Hbrk'; apply Hr|]. split; [rewrite Hmax'; apply Hr|].
  split; [|split; [exact Hfr'|split; [exact Hnd|]]].
  - apply (same_but_trans _ s0 s); [apply Hr|].
    intros a Ha. apply Hfr'. intros [Hl|Hl].
    + apply Ha. left. apply (in_links_sub s0 s F0 F); [exact Hb|apply Hr|exact Hl].
    + apply Ha. right. pose proof (link_size_cases k). lia.
  - intros j x Hj. apply in_upd_add.
Qed.

(** * Fuel *)

Lemma nodup_range_length (l : list Z) (lo hi : Z) :
  NoDup l -> (forall x, In x l -> lo <= x < hi) ->
  (length l <= Z.to_nat (hi - lo))%nat.
Proof.
  intros Hn Hr.
  apply Nat.le_trans with
    (length (map (fun n => lo + Z.of_nat n) (seq 0 (Z.to_nat (hi - lo)))));
    [|rewrite length_map, length_seq; apply Nat.le_refl].
  apply NoDup_incl_length; [exact Hn|].
  intros x Hx. specialize (Hr x Hx). apply in_map_iff.
  exists (Z.to_nat (x - lo)). split; [lia|]. apply in_seq. lia.
Qed.

Lemma rep_fuel (L : layout_t) (F : Z -> list Z) (s : state) (fuel : nat) (k : Z) :
  heap_rep L F s -> enough fuel s -> 0 <= k <= 10 ->
  (length (F k) < fuel)%nat.
Proof.
  intros H He Hk. red in He.
  pose proof (rep_geom _ _ _ H) as Hg.
  assert (length (F k) <= Z.to_nat (mem_brk s - first_block s))%nat.
  { apply nodup_range_length; [apply H; exact Hk|].
    intros x Hx. destruct (rep_nodes_in _ _ _ H k x Hk Hx) as (sz & Hin & _).
    pose proof (geom_block _ _ _ _ _ Hg Hin). lia. }
  pose proof (geom_max _ _ Hg). pose proof (geom_total _ _ Hg).
  pose proof (geom_brk _ _ Hg). unfold first_block in *. lia.
Qed.

Lemma rep_fuel_slack (L : layout_t) (F : Z -> list Z) (s : state) (fuel : nat) (k : Z) :
  heap_rep L F s -> enough fuel s -> 0 <= k <= 10 ->
  (length (F k) + 96 <= fuel)%nat.
Proof.
  intros H He Hk. red in He.
  pose proof (rep_geom _ _ _ H) as Hg.
  assert (length (F k) <= Z.to_nat (mem_brk s - first_block s))%nat.
  { apply nodup_range_length; [apply H; exact Hk|].
    intros x Hx. destruct (rep_nodes_in _ _ _ H k x Hk Hx) as (sz & Hin & _).
    pose proof (geom_block _ _ _ _ _ Hg Hin). lia. }
  pose proof (geom_max _ _ Hg). pose proof (geom_total _ _ Hg).
  pose proof (geom_brk _ _ Hg). unfold first_block in *. lia.
Qed.

(** * Live blocks across a rewrite of a segment *)

Lemma layout_all_free (M : layout_t) : forall (a b bsz : Z) (al : bool),
  Forall (fun x => snd x = false) M -> In (b, bsz, al) (layout a M) -> al = false.
Proof.
  induction M as [|[sz0 al0] M IH]; intros a b bsz al HF Hin; [destruct Hin|].
  apply Forall_cons_iff in HF. cbn [snd] in HF. destruct HF as [E HF].
  cbn [layout] in Hin. destruct Hin as [Hin|Hin].
  - injection Hin as _ _ <-. exact E.
  - apply (IH _ _ _ _ HF Hin).
Qed.

(** A block outside the rewritten segment keeps its place in the layout. *)
Lemma layout_rewrite (a : Z) (La M M' Lb : layout_t) (b bsz : Z) (al : bool) :
  total M' = total M ->
  In (b, bsz, al) (layout a (La ++ M ++ Lb)) ->
  (In (b, bsz, al) (layout (a + total La) M) ->
   In (b, bsz, al) (layout (a + total La) M')) ->
  In (b, bsz, al) (layout a (La ++ M' ++ Lb)).
Proof.
  intros HT Hin HM. rewrite !layout_app in *.
  apply in_app_or in Hin. apply in_or_app. destruct Hin as [Hin|Hin]; [left; exact Hin|].
  right. apply in_app_or in Hin. apply in_or_app. destruct Hin as [Hin|Hin].
  - left. apply HM, Hin.
  - right. rewrite HT. exact Hin.
Qed.

(** A live block that is not of the segment has no byte in the link
    fields nor in the segment. *)
Lemma live_outside (s : state) (F : Z -> list Z) (La M Lb : layout_t)
      (b bsz a : Z) :
  heap_rep (La ++ M ++ Lb) F s ->
  In (b, bsz, true) (layout (first_block s) (La ++ M ++ Lb)) ->
  ~ In (b, bsz, true) (layout (first_block s + total La) M) ->
  b - 4 <= a < b + bsz - 4 ->
  ~ (in_links s F a \/
     first_block s + total La - 4 <= a < first_block s + total La + total M - 4).
Proof.
  intros H Hin Hnot Ha.
  pose proof (rep_geom _ _ _ H) as Hg.
  pose proof (geom_sizes _ _ Hg) as Hs.
  apply sizes_ok_app in Hs. destruct Hs as [HsA Hs].
  apply sizes_ok_app in Hs. destruct Hs as [HsM HsB].
  intros [Hl|Hr].
  - apply (links_not_live s _ F a b bsz Hg (rep_nodes_in _ _ _ H) Hl Hin Ha).
  - rewrite !layout_app in Hin.
    apply in_app_or in Hin. destruct Hin as [Hin|Hin].
    + pose proof (layout_range _ _ _ _ _ HsA Hin). lia.
    + apply in_app_or in Hin. destruct Hin as [Hin|Hin]; [contradiction|].
      pose proof (layout_range _ _ _ _ _ HsB Hin). lia.
Qed.



(** * Neighbours of a block *)

Lemma full_layout_in (s : state) (L : layout_t) (b sz : Z) (al : bool) :
  In (b, sz, al) (layout (first_block s) L) ->
  In (b, sz, al) (layout (heap_listp s) ((96, true) :: L)).
Proof. intros H. right. exact H. Qed.

Lemma tag_area_header (a : Z) (L : layout_t) (b sz : Z) (al : bool) (x : Z) :
  In (b, sz, al) (layout a L) -> b - 4 <= x < b -> tag_area a L x.
Proof. intros H Hx. exists b, sz, al. auto. Qed.

Lemma tag_area_footer (a : Z) (L : layout_t) (b sz : Z) (al : bool) (x : Z) :
  In (b, sz, al) (layout a L) -> b + sz - 8 <= x < b + sz - 4 -> tag_area a L x.
Proof. intros H Hx. exists b, sz, al. auto. Qed.

(** The block before the block at [bp]: a block of the layout or the prologue. *)
Lemma prev_info (L : layout_t) (F : Z -> list Z) (s : state)
      (L1 : layout_t) (sz : Z) (al : bool) (L2 : layout_t) (bp : Z) :
  heap_rep L F s -> L = L1 ++ (sz, al) :: L2 -> bp = first_block s + total L1 ->
  exists psz pal,
    In (bp - psz, psz, pal) (layout (heap_listp s) ((96, true) :: L)) /\
    ((L1 = [] /\ psz = 96 /\ pal = true) \/ exists L1', L1 = L1' ++ [(psz, pal)]).
Proof.
  intros H HL Hbp.
  destruct (exists_last (l := (96, true) :: L1)) as (P' & [psz pal] & HP);
    [discriminate|].
  exists psz, pal. split.
  - change ((96, true) :: L) with ([(96, true)] ++ L).
    rewrite HL, app_assoc. change ([(96, true)] ++ L1) with ((96, true) :: L1).
    rewrite HP, <- app_assoc. cbn [app].
    assert (E : bp - psz = heap_listp s + total P').
    { assert (E : total ((96, true) :: L1) = total (P' ++ [(psz, pal)])) by (rewrite HP; reflexivity).
      rewrite total_app in E. cbn [total] in E. unfold first_block in Hbp. lia. }
    rewrite E. apply layout_mid.
  - destruct L1 as [|b L1t].
    + left. destruct P' as [|p P'].
      * cbn in HP. injection HP as <- <-. auto.
      * cbn in HP. injection HP as _ HP. destruct P'; discriminate.
    + right. destruct P' as [|p P'].
      * cbn in HP. discriminate.
      * cbn [app] in HP. injection HP as _ HP. exists P'. exact HP.
Qed.

(** What follows the block at [bp]: a block of the layout or the epilogue. *)
Lemma next_info (L : layout_t) (F : Z -> list Z) (s : state)
      (L1 : layout_t) (sz : Z) (al : bool) (L2 : layout_t) (bp : Z) :
  heap_rep L F s -> L = L1 ++ (sz, al) :: L2 -> bp = first_block s + total L1 ->
  (L2 = [] /\ bp + sz = mem_brk s) \/
  exists nsz nal L2', L2 = (nsz, nal) :: L2' /\
    In (bp + sz, nsz, nal) (layout (first_block s) L).
Proof.
  intros H HL Hbp. destruct L2 as [|[nsz nal] L2'].
  - left. split; [reflexivity|]. rewrite (rep_brk _ _ _ H), HL, total_app.
    cbn [total]. lia.
  - right. exists nsz, nal, L2'. split; [reflexivity|].
    rewrite HL.
    change (L1 ++ (sz, al) :: (nsz, nal) :: L2') with (L1 ++ [(sz, al)] ++ (nsz, nal) :: L2').
    rewrite app_assoc.
    replace (bp + sz) with (first_block s + total (L1 ++ [(sz, al)]))
      by (rewrite total_app; cbn [total]; lia).
    apply layout_mid.
Qed.

(** The reads with which [coalesce] starts. *)
Lemma coalesce_reads (L : layout_t) (F : Z -> list Z) (s : state)
      (L1 : layout_t) (sz : Z) (al : bool) (L2 : layout_t) (bp psz : Z)
      (pal : bool) :
  heap_rep L F s -> L = L1 ++ (sz, al) :: L2 -> bp = first_block s + total L1 ->
  In (bp - psz, psz, pal) (layout (heap_listp s) ((96, true) :: L)) ->
  GET_SIZE s (HDRP bp) = sz /\
  NEXT_BLKP s bp = bp + sz /\
  PREV_BLKP s bp = bp - psz /\
  GET_ALLOC s (FTRP s (PREV_BLKP s bp)) = flag pal /\
  GET_SIZE s (HDRP (PREV_BLKP s bp)) = psz.
Proof.
  intros H HL Hbp Hp.
  pose proof (rep_geom _ _ _ H) as Hg.
  assert (Hin : In (bp, sz, al) (layout (first_block s) L)).
  { rewrite HL, Hbp. apply layout_mid. }
  destruct (rep_read _ _ _ _ _ _ H Hin) as (E1 & E2 & E3 & E4).
  destruct (read_tags s _ _ _ _ _ (geom_sizes_full _ _ Hg) (rep_blocks _ _ _ H) Hp)
    as (P1 & P2 & P3 & P4).
  replace (bp - psz + psz - 8) with (bp - 8) in P3, P4 by lia.
  unfold HDRP, NEXT_BLKP, PREV_BLKP, FTRP, HDRP, WSIZE, DSIZE.
  rewrite E1, P3, P1.
  replace (bp - psz + psz - 8) with (bp - 8) by lia.
  repeat split; auto.
Qed.

(** * Coalescing, case by case *)

Lemma wrap64_small (z : Z) : 0 <= z < 2 ^ 64 -> wrap64 z = z.
Proof. intros H. unfold wrap64. apply Z.mod_small. exact H. Qed.

Lemma wrap32_small (z : Z) : 0 <= z < 2 ^ 32 -> wrap32 z = z.
Proof. intros H. unfold wrap32. apply Z.mod_small. exact H. Qed.

Lemma GET_SIZE_PUT (s : state) (q sz : Z) (al : bool) :
  0 <= sz -> sz + 1 < 2 ^ 32 -> sz mod 8 = 0 ->
  GET_SIZE (PUT s q (PACK sz (flag al))) q = sz.
Proof.
  intros H0 H1 H8. apply (tag_size _ _ _ al); auto. apply PUT_tag; auto.
Qed.

Lemma GET_SIZE_PUT_other (s : state) (q q' v : Z) :
  q' + 4 <= q \/ q + 4 <= q' ->
  GET_SIZE (PUT s q v) q' = GET_SIZE s q'.
Proof.
  intros H. apply GET_SIZE_same. intros a Ha. unfold PUT. cbn [bytes set_bytes].
  apply store_le_outside. change (Z.of_nat 4) with 4. lia.
Qed.

Lemma tag_PUT_other (s : state) (q q' v sz : Z) (al : bool) :
  q' + 4 <= q \/ q + 4 <= q' ->
  tag (bytes s) q' sz al -> tag (bytes (PUT s q v)) q' sz al.
Proof.
  intros H. apply tag_frame. intros a Ha. unfold PUT. cbn [bytes set_bytes].
  apply store_le_outside. change (Z.of_nat 4) with 4. lia.
Qed.

(** The four branches of [coalesce], as equations. *)
Lemma coalesce_eq2 (fuel : nat) (s : state) (bp : Z) :
  GET_ALLOC s (FTRP s (PREV_BLKP s bp)) = 1 ->
  GET_ALLOC s (HDRP (NEXT_BLKP s bp)) = 0 ->
  coalesce fuel s bp =
  (s1 <- remove_frome_free_list fuel s bp ;;
   s2 <- remove_frome_free_list fuel s1 (NEXT_BLKP s1 bp) ;;
   let size := wrap64 (GET_SIZE s (HDRP bp) + GET_SIZE s (HDRP (NEXT_BLKP s bp))) in
   let s3 := PUT s2 (HDRP bp) (PACK size 0) in
   let s4 := PUT s3 (FTRP s3 bp) (PACK size 0) in
   Some (add_to_free_list s4 bp, bp)).
Proof. intros E1 E2. unfold coalesce. rewrite E1, E2. reflexivity. Qed.

Lemma coalesce_eq3 (fuel : nat) (s : state) (bp : Z) :
  GET_ALLOC s (FTRP s (PREV_BLKP s bp)) = 0 ->
  GET_ALLOC s (HDRP (NEXT_BLKP s bp)) = 1 ->
  coalesce fuel s bp =
  (let size := wrap64 (GET_SIZE s (HDRP bp) + GET_SIZE s (HDRP (PREV_BLKP s bp))) in
   s1 <- remove_frome_free_list fuel s (PREV_BLKP s bp) ;;
   let s2 := PUT s1 (FTRP s1 bp) (PACK size 0) in
   let s3 := PUT s2 (HDRP (PREV_BLKP s2 bp)) (PACK size 0) in
   s4 <- remove_frome_free_list fuel s3 bp ;;
   Some (add_to_free_list s4 (PREV_BLKP s4 bp), PREV_BLKP s4 bp)).
Proof. intros E1 E2. unfold coalesce. rewrite E1, E2. reflexivity. Qed.

Lemma coalesce_eq4 (fuel : nat) (s : state) (bp : Z) :
  GET_ALLOC s (FTRP s (PREV_BLKP s bp)) = 0 ->
  GET_ALLOC s (HDRP (NEXT_BLKP s bp)) = 0 ->
  coalesce fuel s bp =
  (let size := wrap64 (GET_SIZE s (HDRP bp) +
                       wrap32 (GET_SIZE s (HDRP (PREV_BLKP s bp)) +
                               GET_SIZE s (FTRP s (NEXT_BLKP s bp)))) in
   s1 <- remove_frome_free_list fuel s (PREV_BLKP s bp) ;;
   let s2 := PUT s1 (HDRP (PREV_BLKP s1 bp)) (PACK size 0) in
   let s3 := PUT s2 (FTRP s2 (NEXT_BLKP s2 bp)) (PACK size 0) in
   s4 <- remove_frome_free_list fuel s3 (NEXT_BLKP s3 bp) ;;
   s5 <- remove_frome_free_list fuel s4 bp ;;
   Some (add_to_free_list s5 (PREV_BLKP s5 bp), PREV_BLKP s5 bp)).
Proof. intros E1 E2. unfold coalesce. rewrite E1, E2. reflexivity. Qed.

Section Coalesce.
Variables (fuel : nat) (L : layout_t) (F : Z -> list Z) (s : state).
Variables (L1 : layout_t) (sz : Z) (L2 : layout_t) (bp : Z).
Hypothesis H : heap_rep L F s.
Hypothesis HL : L = L1 ++ (sz, false) :: L2.
Hypothesis Hbp : bp = first_block s + total L1.
Hypothesis Hfuel : enough fuel s.

Let Hg : geom s L := rep_geom _ _ _ H.

Lemma coal_block : In (bp, sz, false) (layout (first_block s) L).
Proof. rewrite HL, Hbp. apply layout_mid. Qed.

Lemma coal_listed : In bp (F (class_of sz)).
Proof.
  apply (rep_nodes _ _ _ H); [apply class_of_range|].
  exists sz. split; [apply coal_block|reflexivity].
Qed.

(** Links of the lists never hold a tag of the initial layout. *)
Lemma coal_clear (lo hi : Z) (G : list (Z * Z)) (s1 : state) (F1 : Z -> list Z)
      (b bsz : Z) (bal : bool) (q a : Z) :
  running s F lo hi G s1 F1 ->
  In (b, bsz, bal) (layout (heap_listp s) ((96, true) :: L)) ->
  q = b - 4 \/ q = b + bsz - 8 ->
  q <= a < q + 4 -> ~ in_links s1 F1 a.
Proof.
  intros Hr Hin Hq Ha Hl.
  apply (in_links_sub s s1 F F1) in Hl; [|apply Hr|apply Hr].
  destruct (links_not_tag _ _ _ _ Hg (rep_nodes_in _ _ _ H) Hl) as [Hnt _].
  apply Hnt. exists b, bsz, bal. split; [exact Hin|lia].
Qed.

(** Unlisting a node leaves the tags of the initial layout as they are. *)
Lemma coal_keep (lo hi : Z) (G : list (Z * Z)) (s1 : state) (F1 : Z -> list Z)
      (s2 : state) (b bsz : Z) (bal : bool) (q : Z) :
  running s F lo hi G s1 F1 ->
  same_but (in_links s1 F1) s1 s2 ->
  In (b, bsz, bal) (layout (heap_listp s) ((96, true) :: L)) ->
  q = b - 4 \/ q = b + bsz - 8 ->
  forall a, q <= a < q + 4 -> bytes s2 a = bytes s1 a.
Proof.
  intros Hr Hfr Hin Hq a Ha. apply Hfr.
  apply (coal_clear lo hi G s1 F1 b bsz bal q a Hr Hin Hq Ha).
Qed.

Lemma coal_next_alloc :
  (L2 = [] \/ exists nsz L2', L2 = (nsz, true) :: L2') ->
  GET_ALLOC s (HDRP (NEXT_BLKP s bp)) = 1.
Proof.
  intros Hn.
  assert (E2 : NEXT_BLKP s bp = bp + sz).
  { unfold NEXT_BLKP, WSIZE.
    destruct (rep_read _ _ _ _ _ _ H coal_block) as (E & _). rewrite E. reflexivity. }
  rewrite E2. unfold HDRP, WSIZE.
  destruct (next_info _ _ _ _ _ _ _ _ H HL Hbp) as [[_ Eb]|(nsz & nal & L2' & EL & Hin)].
  - rewrite Eb. apply (tag_alloc _ _ 0 true); [apply H|reflexivity].
  - destruct Hn as [->|(nsz' & L2'' & EL')]; [discriminate|].
    rewrite EL' in EL. injection EL as <- <- <-.
    destruct (rep_read _ _ _ _ _ _ H Hin) as (_ & A & _). exact A.
Qed.

(** Case 1: both neighbours are allocated. *)
Lemma coalesce_case1 (psz : Z) :
  In (bp - psz, psz, true) (layout (heap_listp s) ((96, true) :: L)) ->
  (L2 = [] \/ exists nsz L2', L2 = (nsz, true) :: L2') ->
  coalesce fuel s bp = Some (s, bp).
Proof.
  intros Hp Hn.
  destruct (coalesce_reads _ _ _ _ _ _ _ _ _ _ H HL Hbp Hp) as (E1 & E2 & E3 & E4 & E5).
  assert (En : GET_ALLOC s (HDRP (NEXT_BLKP s bp)) = 1).
  { rewrite E2. unfold HDRP, WSIZE.
    destruct (next_info _ _ _ _ _ _ _ _ H HL Hbp) as [[_ Eb]|(nsz & nal & L2' & EL & Hin)].
    - rewrite Eb. apply (tag_alloc _ _ 0 true); [apply H|reflexivity].
    - destruct Hn as [->|(nsz' & L2'' & EL')]; [discriminate|].
      rewrite EL' in EL. injection EL as <- <- <-.
      destruct (rep_read _ _ _ _ _ _ H Hin) as (_ & A & _). exact A. }
  unfold coalesce. rewrite E4, En. reflexivity.
Qed.

(** Case 2: only the next block is free. *)
Lemma coalesce_case2 (psz nsz : Z) (L2' : layout_t) :
  In (bp - psz, psz, true) (layout (heap_listp s) ((96, true) :: L)) ->
  L2 = (nsz, false) :: L2' ->
  exists s' F',
    coalesce fuel s bp = Some (s', bp) /\
    (heap_listp s' = heap_listp s /\ mem_max_addr s' = mem_max_addr s) /\
    heap_rep (L1 ++ (sz + nsz, false) :: L2') F' s' /\
    same_but (fun a => in_links s F a \/ bp - 4 <= a < bp + (sz + nsz) - 4) s s'.
Proof.
  intros Hp HL2.
  destruct (coalesce_reads _ _ _ _ _ _ _ _ _ _ H HL Hbp Hp) as (E1 & E2 & E3 & E4 & E5).
  pose proof coal_block as Hb.
  assert (Hn : In (bp + sz, nsz, false) (layout (first_block s) L)).
  { destruct (next_info _ _ _ _ _ _ _ _ H HL Hbp) as [[E _]|(nsz' & nal & L2'' & EL & Hin)].
    - rewrite E in HL2. discriminate.
    - rewrite HL2 in EL. injection EL as <- <- <-. exact Hin. }
  destruct (rep_read _ _ _ _ _ _ H Hn) as (N1 & N2 & N3 & N4).
  pose proof (geom_block _ _ _ _ _ Hg Hb) as (B1 & B2 & B3 & B4 & B5 & B6).
  pose proof (geom_block _ _ _ _ _ Hg Hn) as (C1 & C2 & C3 & C4 & C5 & C6).
  pose proof (geom_max _ _ Hg) as Hmax. pose proof (geom_addr _ _ Hg) as Haddr.
  pose proof (geom_small _ _ Hg) as Hsmall.
  assert (HT : 16 <= sz + nsz /\ (sz + nsz) mod 8 = 0 /\ sz + nsz + 1 < 2 ^ 32).
  { split; [lia|]. split; [rewrite Z.add_mod, B4, C4 by lia; reflexivity|].
    unfold first_block in *. lia. }
  set (T := sz + nsz) in *.
  assert (HLM : L = L1 ++ [(sz, false); (nsz, false)] ++ L2').
  { rewrite HL, HL2. reflexivity. }
  pose proof (run_start L F s L1 _ L2' H HLM) as Hr0.
  cbn [total layout map addr_size fst snd] in Hr0. rewrite <- Hbp in Hr0.
  replace (bp + (sz + (nsz + 0)) - 4) with (bp + T - 4) in Hr0 by (unfold T; lia).
  set (G := [(bp, sz); (bp + sz, nsz)]) in *.
  (* the guards *)
  assert (Hpa : GET_ALLOC s (FTRP s (PREV_BLKP s bp)) = 1) by exact E4.
  assert (Hna : GET_ALLOC s (HDRP (NEXT_BLKP s bp)) = 0).
  { rewrite E2. unfold HDRP, WSIZE. exact N2. }
  rewrite (coalesce_eq2 fuel s bp Hpa Hna).
  (* unlist [bp] *)
  destruct (run_remove s F (bp - 4) (bp + T - 4) G fuel s F (class_of sz) bp Hr0
              (class_of_range sz) coal_listed
              (rep_fuel _ _ _ _ _ H Hfuel (class_of_range sz)))
    as (s1 & l1 & l2 & HF1 & Hrm1 & Hr1 & Hfr1 & Hmem1).
  rewrite Hrm1. cbn [bind].
  set (F1 := upd F (class_of sz) (l1 ++ l2)) in *.
  assert (Hh1 : GET_SIZE s1 (bp - 4) = sz).
  { rewrite (GET_SIZE_same s s1); [exact E1|].
    intros a Ha. apply Hfr1.
    apply (coal_clear _ _ _ s F bp sz false (bp - 4) a Hr0); auto.
    apply full_layout_in, Hb. }
  assert (Enx : NEXT_BLKP s1 bp = bp + sz).
  { unfold NEXT_BLKP, WSIZE. rewrite Hh1. reflexivity. }
  rewrite Enx.
  (* unlist the next block *)
  assert (Hnl : In (bp + sz) (F1 (class_of nsz))).
  { apply Hmem1; [apply class_of_range|]. split; [|lia].
    apply (rep_nodes _ _ _ H); [apply class_of_range|].
    exists nsz. auto. }
  destruct (run_remove s F (bp - 4) (bp + T - 4) G fuel s1 F1 (class_of nsz) (bp + sz)
              Hr1 (class_of_range nsz) Hnl
              (rep_fuel _ _ _ _ _ H Hfuel (class_of_range nsz)))
    as (s2 & l3 & l4 & HF2 & Hrm2 & Hr2 & Hfr2 & Hmem2).
  rewrite Hrm2. cbn [bind].
  set (F2 := upd F1 (class_of nsz) (l3 ++ l4)) in *.
  assert (Hgone : forall j x, 0 <= j <= 10 -> In x (F2 j) ->
                    In x (F j) /\ x <> bp /\ x <> bp + sz).
  { intros j x Hj Hx. apply (Hmem2 j x Hj) in Hx. destruct Hx as [Hx Hx2].
    apply (Hmem1 j x Hj) in Hx. destruct Hx as [Hx Hx1]. auto. }
  assert (Hghost : forall q j x sz', 0 <= j <= 10 -> In x (F2 j) -> In (x, sz') G ->
                     q + 4 <= x - 4 \/ x + sz' - 8 <= q).
  { intros q j x sz' Hj Hx HG. destruct (Hgone j x Hj Hx) as (_ & A & B).
    destruct HG as [E|[E|[]]]; injection E as E _; congruence. }
  (* the size *)
  assert (Esize : wrap64 (GET_SIZE s (HDRP bp) + GET_SIZE s (HDRP (NEXT_BLKP s bp))) = T).
  { rewrite E1, E2. unfold HDRP, WSIZE. rewrite N1. apply wrap64_small. lia. }
  cbv zeta. rewrite !Esize. unfold HDRP, WSIZE.
  (* the new header *)
  pose proof (run_put s F (bp - 4) (bp + T - 4) G s2 F2 (bp - 4) (PACK T 0) Hr2
                ltac:(lia) ltac:(lia) (Hghost (bp - 4))) as Hr3.
  set (s3 := PUT s2 (bp - 4) (PACK T 0)) in *.
  assert (Hh3 : tag (bytes s3) (bp - 4) T false).
  { apply (PUT_tag s2 (bp - 4) T false); lia. }
  assert (Ef : FTRP s3 bp = bp + T - 8).
  { unfold FTRP, HDRP, WSIZE, DSIZE.
    rewrite (tag_size _ _ _ _ Hh3) by lia. reflexivity. }
  rewrite Ef.
  (* the new footer *)
  pose proof (run_put s F (bp - 4) (bp + T - 4) G s3 F2 (bp + T - 8) (PACK T 0) Hr3
                ltac:(lia) ltac:(lia) (Hghost (bp + T - 8))) as Hr4.
  set (s4 := PUT s3 (bp + T - 8) (PACK T 0)) in *.
  assert (Hf4 : tag (bytes s4) (bp + T - 8) T false).
  { apply (PUT_tag s3 (bp + T - 8) T false); lia. }
  assert (Hh4 : tag (bytes s4) (bp - 4) T false).
  { apply tag_PUT_other; [lia|exact Hh3]. }
  (* list the merged block *)
  assert (Hout : forall j x, 0 <= j <= 10 -> In x (F2 j) ->
                   x + link_size j + 4 <= bp - 4 \/ bp + T - 4 + 4 <= x).
  { intros j x Hj Hx.
    destruct (run_seg _ _ _ _ _ _ _ Hr4 j x Hj Hx) as [E|[E|(sz' & HG & _)]]; auto.
    exfalso. destruct (Hgone j x Hj Hx) as (_ & A & B).
    destruct HG as [E|[E|[]]]; injection E as E _; congruence. }
  assert (Hk4 : class_of (GET_SIZE s4 (HDRP bp)) = class_of T).
  { unfold HDRP, WSIZE. rewrite (tag_size _ _ _ _ Hh4) by lia. reflexivity. }
  pose proof (class_link_fits T ltac:(lia) ltac:(lia)) as Hfit.
  destruct (run_add s F (bp - 4) (bp + T - 4) G s4 F2 bp (class_of T) Hr4 Hout Hk4
              ltac:(lia) ltac:(lia) ltac:(unfold first_block in *; lia))
    as (Hl5 & Hb5 & Hbrk5 & Hmax5 & Hfr05 & Hfr45 & Hnd5 & Hmem5).
  set (s5 := add_to_free_list s4 bp) in *.
  set (F5 := upd F2 (class_of T) (F2 (class_of T) ++ [bp])) in *.
  exists s5, F5. split; [reflexivity|]. split; [split; [exact Hb5|exact Hmax5]|].
  assert (Hclear4 : forall q a, bp - 4 <= q -> q + 4 <= bp + T - 4 ->
                      q <= a < q + 4 -> ~ in_links s4 F2 a).
  { intros q a Hq1 Hq2 Ha.
    apply (run_not_links s F (bp - 4) (bp + T - 4) G s4 F2 q a Hr4 Hq1 Hq2 (Hghost q) Ha). }
  split; [|exact Hfr05].
  apply (rep_rewrite s s5 F F5 L1 [(sz, false); (nsz, false)] L2' [(T, false)]).
  - rewrite <- HLM. exact H.
  - cbn [total]. unfold T. lia.
  - exact Hb5.
  - exact Hbrk5.
  - exact Hmax5.
  - rewrite <- Hbp. cbn [total].
    replace (bp + (sz + (nsz + 0)) - 4) with (bp + T - 4) by (unfold T; lia).
    exact Hfr05.
  - rewrite <- Hbp. cbn [blocks_at].
    split; [lia|]. split; [lia|]. split; [|split; [|exact I]].
    + apply (tag_same_but _ s4 s5 _ _ _ Hfr45); [|exact Hh4].
      intros a Ha [Hl|Hl]; [|lia].
      apply (Hclear4 (bp - 4) a); auto; lia.
    + apply (tag_same_but _ s4 s5 _ _ _ Hfr45); [|exact Hf4].
      intros a Ha [Hl|Hl]; [|lia].
      apply (Hclear4 (bp + T - 8) a); auto; lia.
  - exact Hl5.
  - exact Hnd5.
  - intros j x Hj. rewrite <- Hbp. cbn [layout map addr_of fst In].
    rewrite (Hmem5 j x Hj), (Hmem2 j x Hj), (Hmem1 j x Hj).
    split.
    + intros [[[Hx A] B]|[-> ->]].
      * left. split; [exact Hx|]. intros [E|[E|[]]]; congruence.
      * right. exists T. split; [left; reflexivity|reflexivity].
    + intros [[Hx A]|(sz0 & [E|[]] & Hc)].
      * left. repeat split; auto; intros E; apply A; auto.
      * right. injection E as <- <-. auto.
Qed.

(** Case 3: only the previous block is free. *)
Lemma coalesce_case3 (psz : Z) (L1' : layout_t) :
  L1 = L1' ++ [(psz, false)] ->
  (L2 = [] \/ exists nsz L2', L2 = (nsz, true) :: L2') ->
  exists s' F',
    coalesce fuel s bp = Some (s', bp - psz) /\
    (heap_listp s' = heap_listp s /\ mem_max_addr s' = mem_max_addr s) /\
    heap_rep (L1' ++ (psz + sz, false) :: L2) F' s' /\
    same_but (fun a => in_links s F a \/ bp - psz - 4 <= a < bp + sz - 4) s s'.
Proof.
  intros HL1 HL2.
  assert (Hpv : bp - psz = first_block s + total L1').
  { rewrite Hbp, HL1, total_app. cbn [total]. lia. }
  assert (Hp0 : In (bp - psz, psz, false) (layout (first_block s) L)).
  { rewrite HL, HL1, <- app_assoc, Hpv. apply layout_mid. }
  pose proof (full_layout_in _ _ _ _ _ Hp0) as Hp.
  destruct (coalesce_reads _ _ _ _ _ _ _ _ _ _ H HL Hbp Hp) as (E1 & E2 & E3 & E4 & E5).
  pose proof coal_block as Hb.
  pose proof (full_layout_in _ _ _ _ _ Hb) as Hbf.
  destruct (rep_read _ _ _ _ _ _ H Hp0) as (P1 & P2 & P3 & P4).
  replace (bp - psz + psz - 8) with (bp - 8) in P3, P4 by lia.
  pose proof (geom_block _ _ _ _ _ Hg Hb) as (B1 & B2 & B3 & B4 & B5 & B6).
  pose proof (geom_block _ _ _ _ _ Hg Hp0) as (C1 & C2 & C3 & C4 & C5 & C6).
  pose proof (geom_max _ _ Hg) as Hmax. pose proof (geom_addr _ _ Hg) as Haddr.
  pose proof (geom_small _ _ Hg) as Hsmall.
  assert (HT : 16 <= psz + sz /\ (psz + sz) mod 8 = 0 /\ psz + sz + 1 < 2 ^ 32).
  { split; [lia|]. split; [rewrite Z.add_mod, B4, C4 by lia; reflexivity|].
    unfold first_block in *. lia. }
  set (T := psz + sz) in *.
  set (pv := bp - psz) in *.
  assert (HLM : L = L1' ++ [(psz, false); (sz, false)] ++ L2).
  { rewrite HL, HL1, <- app_assoc. reflexivity. }
  pose proof (run_start L F s L1' _ L2 H HLM) as Hr0.
  cbn [total layout map addr_size fst snd] in Hr0. rewrite <- Hpv in Hr0.
  replace (pv + (psz + (sz + 0)) - 4) with (pv + T - 4) in Hr0 by (unfold T; lia).
  replace (pv + psz) with bp in Hr0 by (unfold pv; lia).
  unfold addr_size in Hr0. cbn [fst snd] in Hr0.
  set (G := [(pv, psz); (bp, sz)]) in *.
  assert (Hpa : GET_ALLOC s (FTRP s (PREV_BLKP s bp)) = 0) by exact E4.
  pose proof (coal_next_alloc HL2) as Hna.
  rewrite (coalesce_eq3 fuel s bp Hpa Hna).
  assert (Esize : wrap64 (GET_SIZE s (HDRP bp) + GET_SIZE s (HDRP (PREV_BLKP s bp))) = T).
  { rewrite E1, E5. unfold T. rewrite (Z.add_comm sz psz). apply wrap64_small. lia. }
  cbv zeta. rewrite !Esize, E3. fold pv.
  (* unlist the previous block *)
  assert (Hpl : In pv (F (class_of psz))).
  { apply (rep_nodes _ _ _ H); [apply class_of_range|]. exists psz. auto. }
  destruct (run_remove s F (pv - 4) (pv + T - 4) G fuel s F (class_of psz) pv Hr0
              (class_of_range psz) Hpl
              (rep_fuel _ _ _ _ _ H Hfuel (class_of_range psz)))
    as (s1 & l1 & l2 & HF1 & Hrm1 & Hr1 & Hfr1 & Hmem1).
  rewrite Hrm1. cbn [bind].
  set (F1 := upd F (class_of psz) (l1 ++ l2)) in *.
  assert (Hghost1 : forall q, (q + 4 <= bp - 4 \/ bp + sz - 8 <= q) ->
            forall j x sz', 0 <= j <= 10 -> In x (F1 j) -> In (x, sz') G ->
              q + 4 <= x - 4 \/ x + sz' - 8 <= q).
  { intros q Hq j x sz' Hj Hx HG. apply (Hmem1 j x Hj) in Hx. destruct Hx as [_ A].
    destruct HG as [E|[E|[]]]; injection E as E E'; [congruence|].
    rewrite <- E, <- E'. exact Hq. }
  (* the new footer *)
  assert (Hh1 : GET_SIZE s1 (bp - 4) = sz).
  { rewrite (GET_SIZE_same s s1); [exact E1|].
    apply (coal_keep _ _ _ s F s1 bp sz false (bp - 4) Hr0 Hfr1 Hbf). auto. }
  assert (Ef1 : FTRP s1 bp = bp + sz - 8).
  { unfold FTRP, HDRP, WSIZE, DSIZE. rewrite Hh1. reflexivity. }
  rewrite Ef1.
  pose proof (run_put s F (pv - 4) (pv + T - 4) G s1 F1 (bp + sz - 8) (PACK T 0) Hr1
                ltac:(unfold pv; lia) ltac:(unfold pv, T; lia)
                (Hghost1 (bp + sz - 8) ltac:(lia))) as Hr2.
  set (s2 := PUT s1 (bp + sz - 8) (PACK T 0)) in *.
  assert (Hf2 : tag (bytes s2) (bp + sz - 8) T false).
  { apply (PUT_tag s1 (bp + sz - 8) T false); lia. }
  (* the new header *)
  assert (Hpf2 : GET_SIZE s2 (bp - 8) = psz).
  { unfold s2. rewrite GET_SIZE_PUT_other by lia.
    rewrite (GET_SIZE_same s s1); [exact P3|].
    apply (coal_keep _ _ _ s F s1 pv psz false (bp - 8) Hr0 Hfr1 Hp).
    right. unfold pv. lia. }
  assert (Epv2 : PREV_BLKP s2 bp = pv).
  { unfold PREV_BLKP, DSIZE. rewrite Hpf2. reflexivity. }
  rewrite Epv2. unfold HDRP at 1, WSIZE at 1.
  pose proof (run_put s F (pv - 4) (pv + T - 4) G s2 F1 (pv - 4) (PACK T 0) Hr2
                ltac:(lia) ltac:(unfold T; lia)
                (Hghost1 (pv - 4) ltac:(unfold pv; lia))) as Hr3.
  set (s3 := PUT s2 (pv - 4) (PACK T 0)) in *.
  assert (Hh3 : tag (bytes s3) (pv - 4) T false).
  { apply (PUT_tag s2 (pv - 4) T false); lia. }
  assert (Hf3 : tag (bytes s3) (bp + sz - 8) T false).
  { apply tag_PUT_other; [unfold pv; lia|exact Hf2]. }
  (* unlist [bp] *)
  assert (Hbl : In bp (F1 (class_of sz))).
  { apply Hmem1; [apply class_of_range|]. split; [apply coal_listed|unfold pv; lia]. }
  destruct (run_remove s F (pv - 4) (pv + T - 4) G fuel s3 F1 (class_of sz) bp Hr3
              (class_of_range sz) Hbl
              (rep_fuel _ _ _ _ _ H Hfuel (class_of_range sz)))
    as (s4 & l3 & l4 & HF4 & Hrm4 & Hr4 & Hfr4 & Hmem4).
  rewrite Hrm4. cbn [bind].
  set (F4 := upd F1 (class_of sz) (l3 ++ l4)) in *.
  assert (Hgone : forall j x, 0 <= j <= 10 -> In x (F4 j) ->
                    In x (F j) /\ x <> pv /\ x <> bp).
  { intros j x Hj Hx. apply (Hmem4 j x Hj) in Hx. destruct Hx as [Hx Hx2].
    apply (Hmem1 j x Hj) in Hx. destruct Hx as [Hx Hx1]. auto. }
  assert (Hghost : forall q j x sz', 0 <= j <= 10 -> In x (F4 j) -> In (x, sz') G ->
                     q + 4 <= x - 4 \/ x + sz' - 8 <= q).
  { intros q j x sz' Hj Hx HG. destruct (Hgone j x Hj Hx) as (_ & A & B).
    destruct HG as [E|[E|[]]]; injection E as E _; congruence. }
  assert (Hpf4 : GET_SIZE s4 (bp - 8) = psz).
  { rewrite (GET_SIZE_same s3 s4).
    - unfold s3. rewrite GET_SIZE_PUT_other by (unfold pv; lia). exact Hpf2.
    - apply (coal_keep _ _ _ s3 F1 s4 pv psz false (bp - 8) Hr3 Hfr4 Hp).
      right. unfold pv. lia. }
  assert (Epv4 : PREV_BLKP s4 bp = pv).
  { unfold PREV_BLKP, DSIZE. rewrite Hpf4. reflexivity. }
  rewrite Epv4.
  assert (Hh4 : tag (bytes s4) (pv - 4) T false).
  { apply (tag_frame (bytes s3)); [|exact Hh3].
    apply (coal_keep _ _ _ s3 F1 s4 pv psz false (pv - 4) Hr3 Hfr4 Hp). auto. }
  assert (Hf4 : tag (bytes s4) (bp + sz - 8) T false).
  { apply (tag_frame (bytes s3)); [|exact Hf3].
    apply (coal_keep _ _ _ s3 F1 s4 bp sz false (bp + sz - 8) Hr3 Hfr4 Hbf). auto. }
  (* list the merged block *)
  assert (Hout : forall j x, 0 <= j <= 10 -> In x (F4 j) ->
                   x + link_size j + 4 <= pv - 4 \/ pv + T - 4 + 4 <= x).
  { intros j x Hj Hx.
    destruct (run_seg _ _ _ _ _ _ _ Hr4 j x Hj Hx) as [E|[E|(sz' & HG & _)]]; auto.
    exfalso. destruct (Hgone j x Hj Hx) as (_ & A & B).
    destruct HG as [E|[E|[]]]; injection E as E _; congruence. }
  assert (Hk4 : class_of (GET_SIZE s4 (HDRP pv)) = class_of T).
  { unfold HDRP, WSIZE. rewrite (tag_size _ _ _ _ Hh4) by lia. reflexivity. }
  pose proof (class_link_fits T ltac:(lia) ltac:(lia)) as Hfit.
  destruct (run_add s F (pv - 4) (pv + T - 4) G s4 F4 pv (class_of T) Hr4 Hout Hk4
              ltac:(lia) ltac:(lia) ltac:(unfold first_block, pv in *; lia))
    as (Hl5 & Hb5 & Hbrk5 & Hmax5 & Hfr05 & Hfr45 & Hnd5 & Hmem5).
  set (s5 := add_to_free_list s4 pv) in *.
  set (F5 := upd F4 (class_of T) (F4 (class_of T) ++ [pv])) in *.
  exists s5, F5. split; [reflexivity|]. split; [split; [exact Hb5|exact Hmax5]|].
  assert (Hclear4 : forall q a, pv - 4 <= q -> q + 4 <= pv + T - 4 ->
                      q <= a < q + 4 -> ~ in_links s4 F4 a).
  { intros q a Hq1 Hq2 Ha.
    apply (run_not_links s F (pv - 4) (pv + T - 4) G s4 F4 q a Hr4 Hq1 Hq2 (Hghost q) Ha). }
  assert (Ehi : pv + T - 4 = bp + sz - 4) by (unfold pv, T; lia).
  split; [|rewrite <- Ehi; exact Hfr05].
  apply (rep_rewrite s s5 F F5 L1' [(psz, false); (sz, false)] L2 [(T, false)]).
  - rewrite <- HLM. exact H.
  - cbn [total]. unfold T. lia.
  - exact Hb5.
  - exact Hbrk5.
  - exact Hmax5.
  - rewrite <- Hpv. cbn [total].
    replace (pv + (psz + (sz + 0)) - 4) with (pv + T - 4) by (unfold T; lia).
    exact Hfr05.
  - rewrite <- Hpv. cbn [blocks_at].
    split; [lia|]. split; [lia|]. split; [|split; [|exact I]].
    + apply (tag_same_but _ s4 s5 _ _ _ Hfr45); [|exact Hh4].
      intros a Ha [Hl|Hl]; [|lia].
      apply (Hclear4 (pv - 4) a); auto; lia.
    + replace (pv + T - 8) with (bp + sz - 8) by lia.
      apply (tag_same_but _ s4 s5 _ _ _ Hfr45); [|exact Hf4].
      intros a Ha [Hl|Hl]; [|lia].
      apply (Hclear4 (bp + sz - 8) a); auto; lia.
  - exact Hl5.
  - exact Hnd5.
  - intros j x Hj. rewrite <- Hpv. cbn [layout map addr_of fst In].
    replace (pv + psz) with bp by (unfold pv; lia).
    rewrite (Hmem5 j x Hj), (Hmem4 j x Hj), (Hmem1 j x Hj).
    split.
    + intros [[[Hx A] B]|[-> ->]].
      * left. split; [exact Hx|]. intros [E|[E|[]]]; congruence.
      * right. exists T. split; [left; reflexivity|reflexivity].
    + intros [[Hx A]|(sz0 & [E|[]] & Hc)].
      * left. repeat split; auto; intros E; apply A; auto.
      * right. injection E as <- <-. auto.
Qed.

(** Case 4: both neighbours are free. *)
Lemma coalesce_case4 (psz nsz : Z) (L1' L2' : layout_t) :
  L1 = L1' ++ [(psz, false)] ->
  L2 = (nsz, false) :: L2' ->
  exists s' F',
    coalesce fuel s bp = Some (s', bp - psz) /\
    (heap_listp s' = heap_listp s /\ mem_max_addr s' = mem_max_addr s) /\
    heap_rep (L1' ++ (psz + sz + nsz, false) :: L2') F' s' /\
    same_but (fun a => in_links s F a \/ bp - psz - 4 <= a < bp + sz + nsz - 4) s s'.
Proof.
  intros HL1 HL2.
  assert (Hpv : bp - psz = first_block s + total L1').
  { rewrite Hbp, HL1, total_app. cbn [total]. lia. }
  assert (Hp0 : In (bp - psz, psz, false) (layout (first_block s) L)).
  { rewrite HL, HL1, <- app_assoc, Hpv. apply layout_mid. }
  pose proof (full_layout_in _ _ _ _ _ Hp0) as Hp.
  destruct (coalesce_reads _ _ _ _ _ _ _ _ _ _ H HL Hbp Hp) as (E1 & E2 & E3 & E4 & E5).
  pose proof coal_block as Hb.
  pose proof (full_layout_in _ _ _ _ _ Hb) as Hbf.
  assert (Hn : In (bp + sz, nsz, false) (layout (first_block s) L)).
  { destruct (next_info _ _ _ _ _ _ _ _ H HL Hbp) as [[E _]|(nsz' & nal & L2'' & EL & Hin)].
    - rewrite E in HL2. discriminate.
    - rewrite HL2 in EL. injection EL as <- <- <-. exact Hin. }
  pose proof (full_layout_in _ _ _ _ _ Hn) as Hnf.
  destruct (rep_read _ _ _ _ _ _ H Hp0) as (P1 & P2 & P3 & P4).
  replace (bp - psz + psz - 8) with (bp - 8) in P3, P4 by lia.
  destruct (rep_read _ _ _ _ _ _ H Hn) as (N1 & N2 & N3 & N4).
  pose proof (geom_block _ _ _ _ _ Hg Hb) as (B1 & B2 & B3 & B4 & B5 & B6).
  pose proof (geom_block _ _ _ _ _ Hg Hp0) as (C1 & C2 & C3 & C4 & C5 & C6).
  pose proof (geom_block _ _ _ _ _ Hg Hn) as (D1 & D2 & D3 & D4 & D5 & D6).
  pose proof (geom_max _ _ Hg) as Hmax. pose proof (geom_addr _ _ Hg) as Haddr.
  pose proof (geom_small _ _ Hg) as Hsmall.
  assert (HT : 16 <= psz + sz + nsz /\ (psz + sz + nsz) mod 8 = 0 /\
               psz + sz + nsz + 1 < 2 ^ 32).
  { split; [lia|]. split.
    - rewrite Z.add_mod by lia. rewrite (Z.add_mod psz sz) by lia.
      rewrite B4, C4, D4. reflexivity.
    - unfold first_block in *. lia. }
  set (T := psz + sz + nsz) in *.
  set (pv := bp - psz) in *.
  set (nx := bp + sz) in *.
  assert (HLM : L = L1' ++ [(psz, false); (sz, false); (nsz, false)] ++ L2').
  { rewrite HL, HL1, HL2, <- app_assoc. reflexivity. }
  pose proof (run_start L F s L1' _ L2' H HLM) as Hr0.
  cbn [total layout map] in Hr0. rewrite <- Hpv in Hr0.
  replace (pv + (psz + (sz + (nsz + 0))) - 4) with (pv + T - 4) in Hr0 by (unfold T; lia).
  replace (pv + psz + sz) with nx in Hr0 by (unfold pv, nx; lia).
  replace (pv + psz) with bp in Hr0 by (unfold pv; lia).
  unfold addr_size in Hr0. cbn [fst snd] in Hr0.
  set (G := [(pv, psz); (bp, sz); (nx, nsz)]) in *.
  assert (Hpa : GET_ALLOC s (FTRP s (PREV_BLKP s bp)) = 0) by exact E4.
  assert (Hna : GET_ALLOC s (HDRP (NEXT_BLKP s bp)) = 0).
  { rewrite E2. unfold HDRP, WSIZE. exact N2. }
  rewrite (coalesce_eq4 fuel s bp Hpa Hna).
  assert (Esize : wrap64 (GET_SIZE s (HDRP bp) +
                          wrap32 (GET_SIZE s (HDRP (PREV_BLKP s bp)) +
                                  GET_SIZE s (FTRP s (NEXT_BLKP s bp)))) = T).
  { rewrite E1, E5, E2. unfold FTRP, HDRP, WSIZE, DSIZE. fold nx. rewrite N1, N3.
    rewrite wrap32_small by lia. rewrite wrap64_small by lia. unfold T. lia. }
  cbv zeta. rewrite !Esize, E3.
  (* unlist the previous block *)
  assert (Hpl : In pv (F (class_of psz))).
  { apply (rep_nodes _ _ _ H); [apply class_of_range|]. exists psz. auto. }
  destruct (run_remove s F (pv - 4) (pv + T - 4) G fuel s F (class_of psz) pv Hr0
              (class_of_range psz) Hpl
              (rep_fuel _ _ _ _ _ H Hfuel (class_of_range psz)))
    as (s1 & l1 & l2 & HF1 & Hrm1 & Hr1 & Hfr1 & Hmem1).
  rewrite Hrm1. cbn [bind].
  set (F1 := upd F (class_of psz) (l1 ++ l2)) in *.
  assert (Hghost1 : forall q, (q + 4 <= bp - 4 \/ nx + nsz - 8 <= q) ->
            forall j x sz', 0 <= j <= 10 -> In x (F1 j) -> In (x, sz') G ->
              q + 4 <= x - 4 \/ x + sz' - 8 <= q).
  { intros q Hq j x sz' Hj Hx HG. apply (Hmem1 j x Hj) in Hx. destruct Hx as [_ A].
    destruct HG as [E|[E|[E|[]]]]; injection E as E E'; [congruence| |];
      rewrite <- E, <- E'; unfold nx in *; lia. }
  (* the new header *)
  assert (Hpf1 : GET_SIZE s1 (bp - 8) = psz).
  { rewrite (GET_SIZE_same s s1); [exact P3|].
    apply (coal_keep _ _ _ s F s1 pv psz false (bp - 8) Hr0 Hfr1 Hp).
    right. unfold pv. lia. }
  assert (Epv1 : PREV_BLKP s1 bp = pv).
  { unfold PREV_BLKP, DSIZE. rewrite Hpf1. reflexivity. }
  rewrite Epv1. change (HDRP pv) with (pv - 4).
  pose proof (run_put s F (pv - 4) (pv + T - 4) G s1 F1 (pv - 4) (PACK T 0) Hr1
                ltac:(lia) ltac:(unfold T; lia)
                (Hghost1 (pv - 4) ltac:(unfold pv; lia))) as Hr2.
  set (s2 := PUT s1 (pv - 4) (PACK T 0)) in *.
  assert (Hh2 : tag (bytes s2) (pv - 4) T false).
  { apply (PUT_tag s1 (pv - 4) T false); lia. }
  (* the new footer *)
  assert (Hbh2 : GET_SIZE s2 (bp - 4) = sz).
  { unfold s2. rewrite GET_SIZE_PUT_other by (unfold pv; lia).
    rewrite (GET_SIZE_same s s1); [exact E1|].
    apply (coal_keep _ _ _ s F s1 bp sz false (bp - 4) Hr0 Hfr1 Hbf). auto. }
  assert (Hnh2 : GET_SIZE s2 (nx - 4) = nsz).
  { unfold s2. rewrite GET_SIZE_PUT_other by (unfold pv, nx; lia).
    rewrite (GET_SIZE_same s s1); [exact N1|].
    apply (coal_keep _ _ _ s F s1 nx nsz false (nx - 4) Hr0 Hfr1 Hnf). auto. }
  assert (Ef2 : FTRP s2 (NEXT_BLKP s2 bp) = nx + nsz - 8).
  { unfold FTRP, NEXT_BLKP, HDRP, WSIZE, DSIZE. rewrite Hbh2. fold nx.
    rewrite Hnh2. reflexivity. }
  rewrite Ef2.
  pose proof (run_put s F (pv - 4) (pv + T - 4) G s2 F1 (nx + nsz - 8) (PACK T 0) Hr2
                ltac:(unfold pv, nx; lia) ltac:(unfold pv, nx, T; lia)
                (Hghost1 (nx + nsz - 8) ltac:(lia))) as Hr3.
  set (s3 := PUT s2 (nx + nsz - 8) (PACK T 0)) in *.
  assert (Hf3 : tag (bytes s3) (nx + nsz - 8) T false).
  { apply (PUT_tag s2 (nx + nsz - 8) T false); lia. }
  assert (Hh3 : tag (bytes s3) (pv - 4) T false).
  { apply tag_PUT_other; [unfold pv, nx; lia|exact Hh2]. }
  (* unlist the next block *)
  assert (Enx3 : NEXT_BLKP s3 bp = nx).
  { unfold NEXT_BLKP, WSIZE, s3. rewrite GET_SIZE_PUT_other by (unfold nx; lia).
    rewrite Hbh2. reflexivity. }
  rewrite Enx3.
  assert (Hnl : In nx (F1 (class_of nsz))).
  { apply Hmem1; [apply class_of_range|]. split; [|unfold nx, pv; lia].
    apply (rep_nodes _ _ _ H); [apply class_of_range|]. exists nsz. auto. }
  destruct (run_remove s F (pv - 4) (pv + T - 4) G fuel s3 F1 (class_of nsz) nx Hr3
              (class_of_range nsz) Hnl
              (rep_fuel _ _ _ _ _ H Hfuel (class_of_range nsz)))
    as (s4 & l3 & l4 & HF4 & Hrm4 & Hr4 & Hfr4 & Hmem4).
  rewrite Hrm4. cbn [bind].
  set (F4 := upd F1 (class_of nsz) (l3 ++ l4)) in *.
  (* unlist [bp] *)
  assert (Hbl : In bp (F4 (class_of sz))).
  { apply Hmem4; [apply class_of_range|]. split; [|unfold nx; lia].
    apply Hmem1; [apply class_of_range|]. split; [apply coal_listed|unfold pv; lia]. }
  destruct (run_remove s F (pv - 4) (pv + T - 4) G fuel s4 F4 (class_of sz) bp Hr4
              (class_of_range sz) Hbl
              (rep_fuel _ _ _ _ _ H Hfuel (class_of_range sz)))
    as (s5 & l5 & l6 & HF5 & Hrm5 & Hr5 & Hfr5 & Hmem5).
  rewrite Hrm5. cbn [bind].
  set (F5 := upd F4 (class_of sz) (l5 ++ l6)) in *.
  assert (Hgone : forall j x, 0 <= j <= 10 -> In x (F5 j) ->
                    In x (F j) /\ x <> pv /\ x <> bp /\ x <> nx).
  { intros j x Hj Hx. apply (Hmem5 j x Hj) in Hx. destruct Hx as [Hx Hx3].
    apply (Hmem4 j x Hj) in Hx. destruct Hx as [Hx Hx2].
    apply (Hmem1 j x Hj) in Hx. destruct Hx as [Hx Hx1]. auto. }
  assert (Hghost : forall q j x sz', 0 <= j <= 10 -> In x (F5 j) -> In (x, sz') G ->
                     q + 4 <= x - 4 \/ x + sz' - 8 <= q).
  { intros q j x sz' Hj Hx HG. destruct (Hgone j x Hj Hx) as (_ & A & B & C).
    destruct HG as [E|[E|[E|[]]]]; injection E as E _; congruence. }
  assert (Hpf5 : GET_SIZE s5 (bp - 8) = psz).
  { rewrite (GET_SIZE_same s4 s5).
    2:{ apply (coal_keep _ _ _ s4 F4 s5 pv psz false (bp - 8) Hr4 Hfr5 Hp).
        right. unfold pv. lia. }
    rewrite (GET_SIZE_same s3 s4).
    2:{ apply (coal_keep _ _ _ s3 F1 s4 pv psz false (bp - 8) Hr3 Hfr4 Hp).
        right. unfold pv. lia. }
    unfold s3, s2. rewrite !GET_SIZE_PUT_other by (unfold pv, nx; lia). exact Hpf1. }
  assert (Epv5 : PREV_BLKP s5 bp = pv).
  { unfold PREV_BLKP, DSIZE. rewrite Hpf5. reflexivity. }
  rewrite Epv5.
  assert (Hh5 : tag (bytes s5) (pv - 4) T false).
  { apply (tag_frame (bytes s4)).
    { apply (coal_keep _ _ _ s4 F4 s5 pv psz false (pv - 4) Hr4 Hfr5 Hp). auto. }
    apply (tag_frame (bytes s3)); [|exact Hh3].
    apply (coal_keep _ _ _ s3 F1 s4 pv psz false (pv - 4) Hr3 Hfr4 Hp). auto. }
  assert (Hf5 : tag (bytes s5) (nx + nsz - 8) T false).
  { apply (tag_frame (bytes s4)).
    { apply (coal_keep _ _ _ s4 F4 s5 nx nsz false (nx + nsz - 8) Hr4 Hfr5 Hnf). auto. }
    apply (tag_frame (bytes s3)); [|exact Hf3].
    apply (coal_keep _ _ _ s3 F1 s4 nx nsz false (nx + nsz - 8) Hr3 Hfr4 Hnf). auto. }
  (* list the merged block *)
  assert (Hout : forall j x, 0 <= j <= 10 -> In x (F5 j) ->
                   x + link_size j + 4 <= pv - 4 \/ pv + T - 4 + 4 <= x).
  { intros j x Hj Hx.
    destruct (run_seg _ _ _ _ _ _ _ Hr5 j x Hj Hx) as [E|[E|(sz' & HG & _)]]; auto.
    exfalso. destruct (Hgone j x Hj Hx) as (_ & A & B & C).
    destruct HG as [E|[E|[E|[]]]]; injection E as E _; congruence. }
  assert (Hk5 : class_of (GET_SIZE s5 (HDRP pv)) = class_of T).
  { unfold HDRP, WSIZE. rewrite (tag_size _ _ _ _ Hh5) by lia. reflexivity. }
  pose proof (class_link_fits T ltac:(lia) ltac:(lia)) as Hfit.
  destruct (run_add s F (pv - 4) (pv + T - 4) G s5 F5 pv (class_of T) Hr5 Hout Hk5
              ltac:(lia) ltac:(lia) ltac:(unfold first_block, pv in *; lia))
    as (Hl6 & Hb6 & Hbrk6 & Hmax6 & Hfr06 & Hfr56 & Hnd6 & Hmem6).
  set (s6 := add_to_free_list s5 pv) in *.
  set (F6 := upd F5 (class_of T) (F5 (class_of T) ++ [pv])) in *.
  exists s6, F6. split; [reflexivity|]. split; [split; [exact Hb6|exact Hmax6]|].
  assert (Hclear5 : forall q a, pv - 4 <= q -> q + 4 <= pv + T - 4 ->
                      q <= a < q + 4 -> ~ in_links s5 F5 a).
  { intros q a Hq1 Hq2 Ha.
    apply (run_not_links s F (pv - 4) (pv + T - 4) G s5 F5 q a Hr5 Hq1 Hq2 (Hghost q) Ha). }
  assert (Ehi : pv + T - 4 = nx + nsz - 4) by (unfold pv, nx, T; lia).
  split; [|rewrite <- Ehi; exact Hfr06].
  apply (rep_rewrite s s6 F F6 L1' [(psz, false); (sz, false); (nsz, false)] L2'
           [(T, false)]).
  - rewrite <- HLM. exact H.
  - cbn [total]. unfold T. lia.
  - exact Hb6.
  - exact Hbrk6.
  - exact Hmax6.
  - rewrite <- Hpv. cbn [total].
    replace (pv + (psz + (sz + (nsz + 0))) - 4) with (pv + T - 4) by (unfold T; lia).
    exact Hfr06.
  - rewrite <- Hpv. cbn [blocks_at].
    split; [lia|]. split; [lia|]. split; [|split; [|exact I]].
    + apply (tag_same_but _ s5 s6 _ _ _ Hfr56); [|exact Hh5].
      intros a Ha [Hl|Hl]; [|lia].
      apply (Hclear5 (pv - 4) a); auto; lia.
    + replace (pv + T - 8) with (nx + nsz - 8) by (unfold nx; lia).
      apply (tag_same_but _ s5 s6 _ _ _ Hfr56); [|exact Hf5].
      intros a Ha [Hl|Hl]; [|unfold nx in *; lia].
      apply (Hclear5 (nx + nsz - 8) a); auto; unfold nx; lia.
  - exact Hl6.
  - exact Hnd6.
  - intros j x Hj. rewrite <- Hpv. cbn [layout map addr_of fst In].
    replace (pv + psz + sz) with nx by (unfold pv, nx; lia).
    replace (pv + psz) with bp by (unfold pv; lia).
    rewrite (Hmem6 j x Hj), (Hmem5 j x Hj), (Hmem4 j x Hj), (Hmem1 j x Hj).
    split.
    + intros [[[[Hx A] B] C]|[-> ->]].
      * left. split; [exact Hx|]. intros [E|[E|[E|[]]]]; congruence.
      * right. exists T. split; [left; reflexivity|reflexivity].
    + intros [[Hx A]|(sz0 & [E|[]] & Hc)].
      * left. repeat split; auto; intros E; apply A; auto.
      * right. injection E as <- <-. auto.
Qed.
End Coalesce.

(** * Adjacent free blocks *)

Lemma last_alloc_snoc (L : layout_t) (sz : Z) (al : bool) :
  last_alloc (L ++ [(sz, al)]) = al.
Proof.
  induction L as [|[sz0 al0] L IH]; [reflexivity|].
  cbn [app last_alloc]. destruct (L ++ [(sz, al)]) eqn:E.
  - destruct L; discriminate.
  - exact IH.
Qed.

Lemma naf_app (A B : layout_t) :
  no_adj_free (A ++ B) = true <->
  no_adj_free A = true /\ no_adj_free B = true /\
  (last_alloc A = true \/ first_alloc B = true).
Proof.
  induction A as [|[sz al] A IH].
  - cbn. intuition.
  - destruct A as [|[sz' al'] A'].
    + cbn [app]. destruct B as [|[sz2 al2] B'].
      * cbn. intuition.
      * cbn [no_adj_free last_alloc first_alloc].
        rewrite andb_true_iff, orb_true_iff. intuition.
    + change (no_adj_free (((sz, al) :: (sz', al') :: A') ++ B))
        with ((al || al') && no_adj_free (((sz', al') :: A') ++ B)).
      change (no_adj_free ((sz, al) :: (sz', al') :: A'))
        with ((al || al') && no_adj_free ((sz', al') :: A')).
      change (last_alloc ((sz, al) :: (sz', al') :: A'))
        with (last_alloc ((sz', al') :: A')).
      rewrite !andb_true_iff, IH. intuition.
Qed.

Lemma naf_mid (A B : layout_t) (sz : Z) (al : bool) :
  no_adj_free (A ++ (sz, al) :: B) = true <->
  no_adj_free A = true /\ no_adj_free B = true /\
  (last_alloc A = true \/ al = true) /\ (al = true \/ first_alloc B = true).
Proof.
  rewrite naf_app. cbn [first_alloc].
  change ((sz, al) :: B) with ([(sz, al)] ++ B).
  rewrite naf_app. cbn [no_adj_free last_alloc]. intuition.
Qed.

(** * Coalescing *)

(** [coalesce] at a listed free block [bp] whose neighbourhood is the only
    place where two free blocks may touch: the free run [Ma ++ bp :: Mb]
    around [bp] becomes one listed free block, at the address of the first
    block of the run, which is returned. *)
Lemma coalesce_spec (fuel : nat) (L : layout_t) (F : Z -> list Z) (s : state)
      (L1 : layout_t) (sz : Z) (L2 : layout_t) (bp : Z) :
  heap_rep L F s -> L = L1 ++ (sz, false) :: L2 ->
  bp = first_block s + total L1 -> enough fuel s ->
  no_adj_free (L1 ++ (sz, true) :: L2) = true ->
  exists s' F' La Ma Mb Lb,
    L1 = La ++ Ma /\ L2 = Mb ++ Lb /\
    Forall (fun b => snd b = false) (Ma ++ Mb) /\
    coalesce fuel s bp = Some (s', first_block s + total La) /\
    (heap_listp s' = heap_listp s /\ mem_max_addr s' = mem_max_addr s) /\
    heap_rep (La ++ (total (Ma ++ (sz, false) :: Mb), false) :: Lb) F' s' /\
    no_adj_free (La ++ (total (Ma ++ (sz, false) :: Mb), false) :: Lb) = true /\
    same_but (fun a => in_links s F a \/
                       first_block s + total La - 4 <= a
                         < first_block s + total La +
                           total (Ma ++ (sz, false) :: Mb) - 4) s s'.
Proof.
  intros H HL Hbp Hfuel Hnaf.
  apply naf_mid in Hnaf. destruct Hnaf as (Hn1 & Hn2 & _ & _).
  destruct (prev_info _ _ _ _ _ _ _ _ H HL Hbp) as (psz & pal & Hp & Hpc).
  assert (Hnc : (L2 = [] \/ exists nsz L2', L2 = (nsz, true) :: L2') \/
                exists nsz L2', L2 = (nsz, false) :: L2').
  { destruct L2 as [|[nsz [|]] L2']; [left; left; auto|left; right; eauto|right; eauto]. }
  assert (Hfa : (L2 = [] \/ exists nsz L2', L2 = (nsz, true) :: L2') -> first_alloc L2 = true).
  { intros [->|(nsz & L2' & ->)]; reflexivity. }
  destruct pal.
  - (* previous block allocated *)
    assert (Hla : last_alloc L1 = true).
    { destruct Hpc as [(-> & _)|(L1' & ->)]; [reflexivity|apply last_alloc_snoc]. }
    destruct Hnc as [Hn|(nsz & L2' & Hn)].
    + exists s, F, L1, [], [], L2. rewrite app_nil_r. cbn [app total].
      split; [reflexivity|]. split; [reflexivity|]. split; [constructor|].
      split.
      { rewrite <- Hbp. apply (coalesce_case1 fuel L F s L1 sz L2 bp H HL Hbp psz Hp Hn). }
      rewrite Z.add_0_r, <- HL. split; [split; reflexivity|].
      split; [exact H|]. split; [|apply same_but_refl].
      rewrite HL. apply naf_mid. specialize (Hfa Hn). intuition.
    + destruct (coalesce_case2 fuel L F s L1 sz L2 bp H HL Hbp Hfuel psz nsz L2' Hp Hn)
        as (s' & F' & Hc & Hg' & Hr & Hf).
      exists s', F', L1, [], [(nsz, false)], L2'. rewrite app_nil_r. cbn [app total].
      rewrite Z.add_0_r.
      split; [reflexivity|]. split; [exact Hn|]. split; [repeat constructor|].
      rewrite <- Hbp. split; [exact Hc|]. split; [exact Hg'|]. split; [exact Hr|]. split; [|exact Hf].
      rewrite Hn in Hn2. apply (naf_mid []) in Hn2.
      apply naf_mid. intuition.
  - (* previous block free *)
    destruct Hpc as [(_ & _ & [=])|(L1' & HL1)].
    assert (Hpv : bp - psz = first_block s + total L1').
    { rewrite Hbp, HL1, total_app. cbn [total]. lia. }
    rewrite HL1 in Hn1. apply naf_mid in Hn1.
    destruct Hnc as [Hn|(nsz & L2' & Hn)].
    + destruct (coalesce_case3 fuel L F s L1 sz L2 bp H HL Hbp Hfuel psz L1' HL1 Hn)
        as (s' & F' & Hc & Hg' & Hr & Hf).
      exists s', F', L1', [(psz, false)], [], L2. cbn [app total].
      rewrite Z.add_0_r.
      split; [exact HL1|]. split; [reflexivity|]. split; [repeat constructor|].
      rewrite <- Hpv.
      split; [exact Hc|]. split; [exact Hg'|]. split; [exact Hr|]. split.
      * apply naf_mid. specialize (Hfa Hn). intuition.
      * replace (bp - psz + (psz + sz) - 4) with (bp + sz - 4) by lia. exact Hf.
    + destruct (coalesce_case4 fuel L F s L1 sz L2 bp H HL Hbp Hfuel psz nsz L1' L2' HL1 Hn)
        as (s' & F' & Hc & Hg' & Hr & Hf).
      exists s', F', L1', [(psz, false)], [(nsz, false)], L2'. cbn [app total].
      rewrite Z.add_0_r.
      split; [exact HL1|]. split; [exact Hn|]. split; [repeat constructor|].
      rewrite <- Hpv.
      replace (psz + (sz + nsz)) with (psz + sz + nsz) by lia.
      split; [exact Hc|]. split; [exact Hg'|]. split; [exact Hr|]. split.
      * rewrite Hn in Hn2. apply (naf_mid []) in Hn2.
        apply naf_mid. intuition.
      * replace (bp - psz + (psz + sz + nsz) - 4) with (bp + sz + nsz - 4) by lia.
        exact Hf.
Qed.

(** * Growing the arena *)

(** The size in bytes that [extend_heap] asks for: the word count rounded
    up to an even number of words. *)
Lemma extend_size (words : Z) :
  0 <= words -> 4 * words + 4 < 2 ^ 64 ->
  (if negb (words mod 2 =? 0)
   then wrap64 (wrap64 (words + 1) * WSIZE)
   else wrap64 (words * WSIZE)) = 4 * (words + words mod 2).
Proof.
  intros H0 H1. unfold WSIZE.
  pose proof (Z.mod_pos_bound words 2 ltac:(lia)).
  destruct (words mod 2 =? 0) eqn:E; cbn [negb].
  - apply Z.eqb_eq in E. rewrite E. rewrite wrap64_small by lia. lia.
  - apply Z.eqb_neq in E. assert (words mod 2 = 1) as -> by lia.
    rewrite (wrap64_small (words + 1)) by lia. rewrite wrap64_small by lia. lia.
Qed.

Lemma in_links_base (s s' : state) (F : Z -> list Z) (a : Z) :
  heap_listp s' = heap_listp s -> in_links s' F a -> in_links s F a.
Proof. intros Hb. apply in_links_sub; auto. Qed.

(** The representation after a free block was laid out past the old break. *)
Lemma rep_extend (s s' : state) (F F' : Z -> list Z) (L : layout_t) (size : Z) :
  heap_rep L F s ->
  heap_listp s' = heap_listp s ->
  mem_brk s' = mem_brk s + size ->
  mem_max_addr s' = mem_max_addr s ->
  mem_brk s + size <= mem_max_addr s ->
  same_but (fun a => in_links s F a \/ mem_brk s - 4 <= a < mem_brk s + size) s s' ->
  blocks_at (bytes s') (mem_brk s) [(size, false)] ->
  tag (bytes s') (mem_brk s + size - 4) 0 true ->
  lists_ok s' F' ->
  (forall j, 0 <= j <= 10 -> NoDup (F' j)) ->
  (forall j x, 0 <= j <= 10 ->
     (In x (F' j) <-> In x (F j) \/ (j = class_of size /\ x = mem_brk s))) ->
  heap_rep (L ++ [(size, false)]) F' s'.
Proof.
  intros H Hb Hbrk Hmax Hfit Hfr HB He Hl' Hn' Hmem.
  pose proof (rep_geom _ _ _ H) as Hg.
  pose proof (geom_sizes _ _ Hg) as Hs.
  pose proof (total_nonneg _ Hs) as Ht.
  pose proof (rep_nodes_in _ _ _ H) as Hni.
  pose proof (rep_brk _ _ _ H) as Ebrk.
  assert (Hfb : first_block s' = first_block s) by (unfold first_block; rewrite Hb; reflexivity).
  constructor.
  - rewrite Hb. apply H.
  - rewrite Hb. apply H.
  - rewrite Hbrk, Hfb, total_app, Ebrk. cbn [total]. lia.
  - rewrite Hbrk, Hmax. exact Hfit.
  - rewrite Hmax, Hb. apply H.
  - rewrite Hmax. apply H.
  - rewrite Hb. change ((96, true) :: L ++ [(size, false)])
      with (((96, true) :: L) ++ [(size, false)]).
    apply blocks_at_app. split.
    + apply (blocks_at_same_but _ s s' _ _ Hfr); [|apply H].
      intros x Hx [Hl|Hr].
      * destruct (links_not_tag _ _ _ _ Hg Hni Hl) as [Hnt _]. exact (Hnt Hx).
      * apply tag_area_range in Hx; [|apply (geom_sizes_full _ _ Hg)].
        cbn [total] in Hx. unfold first_block in Ebrk. lia.
    + cbn [total]. replace (heap_listp s + (96 + total L)) with (mem_brk s)
        by (unfold first_block in Ebrk; lia).
      exact HB.
  - rewrite Hbrk. exact He.
  - exact Hl'.
  - exact Hn'.
  - intros j x Hj. rewrite Hfb, (Hmem j x Hj), (rep_nodes _ _ _ H j x Hj), layout_app.
    cbn [layout]. rewrite <- Ebrk. split.
    + intros [(sz & Hin & Hc)|[-> ->]].
      * exists sz. split; [apply in_or_app; left; exact Hin|exact Hc].
      * exists size. split; [apply in_or_app; right; left; reflexivity|reflexivity].
    + intros (sz & Hin & Hc). apply in_app_or in Hin. destruct Hin as [Hin|[E|[]]].
      * left. exists sz. auto.
      * right. injection E as <- <-. auto.
Qed.

(** The state right after [mem_sbrk] moved the break, seen as the start
    of work on the segment from the old epilogue to the new break. *)
Lemma run_grow (L : layout_t) (F : Z -> list Z) (s : state) (size : Z) :
  heap_rep L F s -> 0 <= size ->
  running (set_brk s (mem_brk s + size)) F (mem_brk s - 4) (mem_brk s + size) []
          (set_brk s (mem_brk s + size)) F.
Proof.
  intros H Hsz.
  pose proof (rep_geom _ _ _ H) as Hg.
  pose proof (geom_total _ _ Hg). pose proof (geom_brk _ _ Hg).
  constructor; try reflexivity.
  - cbn [heap_listp set_brk]. unfold first_block in *. lia.
  - apply (sep_sub s _ F F); [apply (rep_sep _ _ _ H)|reflexivity|auto|apply H].
  - apply (lists_ok_frame s); [apply H|reflexivity|reflexivity|reflexivity].
  - auto.
  - apply H.
  - intros j x Hj Hx. apply (rep_node_class _ _ _ _ _ H Hj Hx).
  - intros j x Hj Hx. left.
    destruct (rep_nodes_in _ _ _ H j x Hj Hx) as (sz & Hin & Hc).
    pose proof (geom_block _ _ _ _ _ Hg Hin) as (_ & B & A1 & A2 & _).
    pose proof (class_link_fits sz A1 A2) as Hfit. rewrite Hc in Hfit. lia.
  - apply same_but_refl.
Qed.

Lemma naf_snoc_alloc (L : layout_t) (sz : Z) :
  no_adj_free L = true -> no_adj_free (L ++ [(sz, true)]) = true.
Proof.
  intros H. apply naf_mid. cbn. intuition.
Qed.

(** [extend_heap] when the arena has room: the heap grows by [size]
    bytes, the new bytes become a free block that is merged with the last
    block when that one is free, and the block returned is that free
    block. *)
Lemma extend_heap_spec (fuel : nat) (L : layout_t) (F : Z -> list Z) (s : state)
      (words : Z) :
  heap_rep L F s -> no_adj_free L = true -> enough fuel s ->
  3 <= words ->
  mem_brk s + 4 * (words + words mod 2) <= mem_max_addr s ->
  exists s' r La Ma F',
    extend_heap fuel s words = Some (s', r) /\
    L = La ++ Ma /\ Forall (fun b => snd b = false) Ma /\
    r = first_block s + total La /\
    heap_rep (La ++ [(total Ma + 4 * (words + words mod 2), false)]) F' s' /\
    no_adj_free (La ++ [(total Ma + 4 * (words + words mod 2), false)]) = true /\
    heap_listp s' = heap_listp s /\ mem_max_addr s' = mem_max_addr s /\
    mem_brk s' = mem_brk s + 4 * (words + words mod 2) /\
    same_but (fun a => in_links s F a \/ r - 4 <= a) s s'.
Proof.
  intros H Hnaf Hfuel Hw Hfit.
  pose proof (rep_geom _ _ _ H) as Hg.
  pose proof (geom_total _ _ Hg) as Ht. pose proof (geom_brk _ _ Hg) as Ebrk.
  pose proof (geom_max _ _ Hg) as Hmax. pose proof (geom_addr _ _ Hg) as Haddr.
  pose proof (geom_small _ _ Hg) as Hsmall. pose proof (geom_base _ _ Hg) as Hbase.
  pose proof (Z.mod_pos_bound words 2 ltac:(lia)) as Hm.
  assert (Hw64 : 4 * words + 4 < 2 ^ 64) by (unfold first_block in *; lia).
  set (size := 4 * (words + words mod 2)) in *.
  assert (Hsz : 16 <= size /\ size mod 8 = 0 /\ size + 1 < 2 ^ 32).
  { split.
    { unfold size. destruct (Z.eq_dec words 3) as [->|]; [reflexivity|lia]. }
    split; [|unfold first_block in *; lia].
    unfold size. rewrite (Z.div_mod words 2) at 1 by lia.
    replace (4 * (2 * (words / 2) + words mod 2 + words mod 2))
      with ((words / 2 + words mod 2) * 8) by lia.
    apply Z.mod_mul. lia. }
  destruct Hsz as (Hs16 & Hs8 & Hs32).
  set (bp := mem_brk s) in *.
  unfold extend_heap.
  rewrite (extend_size words ltac:(lia) Hw64).
  fold size. unfold mem_sbrk. fold bp.
  replace (bp + size <=? mem_max_addr s) with true by (symmetry; apply Z.leb_le; lia).
  replace (bp =? 2 ^ 64 - 1) with false by (symmetry; apply Z.eqb_neq; lia).
  pose proof (run_grow L F s size H ltac:(lia)) as Hr1. fold bp in Hr1.
  set (s1 := set_brk s (bp + size)) in *.
  assert (Hnog : forall (q : Z) (F1 : Z -> list Z) j x sz',
            0 <= j <= 10 -> In x (F1 j) -> In (x, sz') (@nil (Z * Z)) ->
            q + 4 <= x - 4 \/ x + sz' - 8 <= q).
  { intros q F1 j x sz' _ _ []. }
  unfold HDRP, WSIZE.
  pose proof (run_put s1 F (bp - 4) (bp + size) [] s1 F (bp - 4) (PACK size 0) Hr1
                ltac:(lia) ltac:(lia) (Hnog (bp - 4) F)) as Hr2.
  set (s2 := PUT s1 (bp - 4) (PACK size 0)) in *.
  assert (Hh2 : tag (bytes s2) (bp - 4) size false).
  { apply (PUT_tag s1 (bp - 4) size false); lia. }
  assert (Ef : FTRP s2 bp = bp + size - 8).
  { unfold FTRP, HDRP, WSIZE, DSIZE. rewrite (tag_size _ _ _ _ Hh2) by lia. reflexivity. }
  rewrite Ef.
  pose proof (run_put s1 F (bp - 4) (bp + size) [] s2 F (bp + size - 8) (PACK size 0) Hr2
                ltac:(lia) ltac:(lia) (Hnog (bp + size - 8) F)) as Hr3.
  set (s3 := PUT s2 (bp + size - 8) (PACK size 0)) in *.
  assert (Hh3 : tag (bytes s3) (bp - 4) size false).
  { apply tag_PUT_other; [lia|exact Hh2]. }
  assert (Hf3 : tag (bytes s3) (bp + size - 8) size false).
  { apply (PUT_tag s2 (bp + size - 8) size false); lia. }
  assert (En : NEXT_BLKP s3 bp = bp + size).
  { unfold NEXT_BLKP, WSIZE. rewrite (tag_size _ _ _ _ Hh3) by lia. reflexivity. }
  rewrite En.
  pose proof (run_put s1 F (bp - 4) (bp + size) [] s3 F (bp + size - 4) (PACK 0 1) Hr3
                ltac:(lia) ltac:(lia) (Hnog (bp + size - 4) F)) as Hr4.
  set (s4 := PUT s3 (bp + size - 4) (PACK 0 1)) in *.
  assert (Hh4 : tag (bytes s4) (bp - 4) size false).
  { apply tag_PUT_other; [lia|exact Hh3]. }
  assert (Hf4 : tag (bytes s4) (bp + size - 8) size false).
  { apply tag_PUT_other; [lia|exact Hf3]. }
  assert (He4 : tag (bytes s4) (bp + size - 4) 0 true).
  { apply (PUT_tag s3 (bp + size - 4) 0 true); [lia|lia|reflexivity]. }
  (* list the new block *)
  assert (Hout : forall j x, 0 <= j <= 10 -> In x (F j) ->
                   x + link_size j + 4 <= bp - 4 \/ bp + size + 4 <= x).
  { intros j x Hj Hx.
    destruct (run_seg _ _ _ _ _ _ _ Hr4 j x Hj Hx) as [E|[E|(sz' & [] & _)]]; auto. }
  assert (Hk4 : class_of (GET_SIZE s4 (HDRP bp)) = class_of size).
  { unfold HDRP, WSIZE. rewrite (tag_size _ _ _ _ Hh4) by lia. reflexivity. }
  pose proof (class_link_fits size Hs16 Hs8) as Hlf.
  destruct (run_add s1 F (bp - 4) (bp + size) [] s4 F bp (class_of size) Hr4 Hout Hk4
              ltac:(lia) ltac:(lia) ltac:(lia))
    as (Hl5 & Hb5 & Hbrk5 & Hmax5 & Hfr05 & Hfr45 & Hnd5 & Hmem5).
  set (s5 := add_to_free_list s4 bp) in *.
  set (F5 := upd F (class_of size) (F (class_of size) ++ [bp])) in *.
  assert (Hclear4 : forall q a, bp - 4 <= q -> q + 4 <= bp + size ->
                      q <= a < q + 4 -> ~ in_links s4 F a).
  { intros q a Hq1 Hq2 Ha.
    apply (run_not_links s1 F (bp - 4) (bp + size) [] s4 F q a Hr4 Hq1 Hq2 (Hnog q F) Ha). }
  assert (Hrep5 : heap_rep (L ++ [(size, false)]) F5 s5).
  { apply (rep_extend s s5 F F5 L size H).
    - exact Hb5.
    - exact Hbrk5.
    - exact Hmax5.
    - fold bp. lia.
    - fold bp. intros a Ha. rewrite (Hfr05 a); [reflexivity|].
      intros [Hl|Hl]; apply Ha; [left|right; exact Hl].
      apply (in_links_base s s1 F a); [reflexivity|exact Hl].
    - fold bp. cbn [blocks_at]. split; [lia|]. split; [exact Hs8|].
      split; [|split; [|exact I]].
      + apply (tag_same_but _ s4 s5 _ _ _ Hfr45); [|exact Hh4].
        intros a Ha [Hl|Hl]; [|lia]. apply (Hclear4 (bp - 4) a); auto; lia.
      + apply (tag_same_but _ s4 s5 _ _ _ Hfr45); [|exact Hf4].
        intros a Ha [Hl|Hl]; [|lia]. apply (Hclear4 (bp + size - 8) a); auto; lia.
    - fold bp. apply (tag_same_but _ s4 s5 _ _ _ Hfr45); [|exact He4].
      intros a Ha [Hl|Hl]; [|lia]. apply (Hclear4 (bp + size - 4) a); auto; lia.
    - exact Hl5.
    - exact Hnd5.
    - intros j x Hj. fold bp. apply (Hmem5 j x Hj). }
  (* merge with the last block *)
  assert (Hbp5 : bp = first_block s5 + total L).
  { unfold first_block. rewrite Hb5. cbn [heap_listp set_brk s1].
    unfold bp, first_block in *. lia. }
  assert (Hfuel5 : enough fuel s5).
  { red. rewrite Hmax5, Hb5. exact Hfuel. }
  destruct (coalesce_spec fuel (L ++ [(size, false)]) F5 s5 L size [] bp Hrep5
              eq_refl Hbp5 Hfuel5 (naf_snoc_alloc L size Hnaf))
    as (s' & F' & La & Ma & Mb & Lb & E1 & E2 & HF & Hc & [Hb' Hmax'] & Hr' & Hnaf' & Hfr').
  symmetry in E2. apply app_eq_nil in E2. destruct E2 as [-> ->].
  rewrite app_nil_r in HF.
  assert (Efb : first_block s5 = first_block s).
  { unfold first_block. rewrite Hb5. reflexivity. }
  rewrite Efb in Hc, Hfr'.
  assert (ET : total (Ma ++ [(size, false)]) = total Ma + size).
  { rewrite total_app. cbn [total]. lia. }
  rewrite ET in Hr', Hnaf', Hfr'.
  exists s', (first_block s + total La), La, Ma, F'.
  split; [exact Hc|]. split; [exact E1|]. split; [exact HF|]. split; [reflexivity|].
  split; [exact Hr'|]. split; [exact Hnaf'|].
  split; [rewrite Hb', Hb5; reflexivity|]. split; [rewrite Hmax', Hmax5; reflexivity|].
  split.
  - pose proof (rep_brk _ _ _ Hr') as Eb'. rewrite total_app in Eb'. cbn [total] in Eb'.
    assert (first_block s' = first_block s) as Efb'
      by (unfold first_block; rewrite Hb', Hb5; reflexivity).
    assert (total L = total La + total Ma) by (rewrite E1; apply total_app).
    unfold bp in *. lia.
  - pose proof (geom_sizes _ _ Hg) as HsL. rewrite E1 in HsL.
    apply sizes_ok_app in HsL. destruct HsL as [HsA HsM].
    pose proof (total_nonneg _ HsA). pose proof (total_nonneg _ HsM).
    assert (Ebp : bp = first_block s + total La + total Ma).
    { assert (total L = total La + total Ma) by (rewrite E1; apply total_app). lia. }
    intros a Ha. rewrite (Hfr' a).
    + rewrite (Hfr05 a); [reflexivity|].
      intros [Hl|Hl]; apply Ha; [left|right; lia].
      apply (in_links_base s s1 F a); [reflexivity|exact Hl].
    + intros [Hl|Hl]; [|apply Ha; right; lia].
      destruct Hl as [Hl|(j & x & Hj & Hx & Hxa)].
      * apply Ha. left. left. rewrite Hb5 in Hl. exact Hl.
      * apply (Hmem5 j x Hj) in Hx. destruct Hx as [Hx|[_ ->]].
        -- apply Ha. left. right. exists j, x. auto.
        -- apply Ha. right. lia.
Qed.

(** * Initialisation *)

Ltac apart := change (Z.of_nat 8) with 8; change (Z.of_nat 4) with 4;
              unfold WSIZE, DSIZE; lia.

Lemma bytes_PUT (s : state) (p v : Z) :
  bytes (PUT s p v) = store_le (bytes s) p 4 v.
Proof. reflexivity. Qed.

Lemma bytes_PUT_NEXT_PTR (s : state) (p v : Z) :
  bytes (PUT_NEXT_PTR s p v) = store_le (bytes s) p 8 v.
Proof. reflexivity. Qed.

Lemma bytes_set_heap_listp (s : state) (p : Z) : bytes (set_heap_listp s p) = bytes s.
Proof. reflexivity. Qed.

Lemma bytes_set_brk (s : state) (p : Z) : bytes (set_brk s p) = bytes s.
Proof. reflexivity. Qed.

Lemma bytes_set_heads (s : state) (h0 h1 h2 h3 h4 h5 h6 h7 h8 h9 h10 : Z) :
  bytes (set_heads s h0 h1 h2 h3 h4 h5 h6 h7 h8 h9 h10) = bytes s.
Proof. reflexivity. Qed.

(** The state [mm_init] builds before it extends the heap: the prologue
    with its eleven anchors, the epilogue, and the heads at the anchors. *)
Lemma init_rep (s : state) (si : state) :
  mem_brk s mod 8 = 0 -> 0 <= mem_brk s ->
  mem_brk s + 104 <= mem_max_addr s ->
  mem_max_addr s - (mem_brk s + 8) < 2 ^ 32 ->
  mem_max_addr s + 16 <= 2 ^ 64 ->
  si = set_heads
         (PUT_NEXT_PTR (PUT_NEXT_PTR (PUT_NEXT_PTR (PUT_NEXT_PTR (PUT_NEXT_PTR
         (PUT_NEXT_PTR (PUT_NEXT_PTR (PUT_NEXT_PTR (PUT_NEXT_PTR (PUT_NEXT_PTR
         (PUT_NEXT_PTR
            (set_heap_listp
               (PUT (PUT (PUT (PUT
                  (set_heap_listp (set_brk s (mem_brk s + 104)) (mem_brk s))
                  (mem_brk s) 0)
                  (mem_brk s + 1 * WSIZE) (PACK (DSIZE * 12) 1))
                  (mem_brk s + 24 * WSIZE) (PACK (DSIZE * 12) 1))
                  (mem_brk s + 25 * WSIZE) (PACK 0 1))
               (mem_brk s + 2 * WSIZE))
            (mem_brk s + 2 * WSIZE) NULL)
            (mem_brk s + 2 * WSIZE + DSIZE) NULL)
            (mem_brk s + 2 * WSIZE + DSIZE * 2) NULL)
            (mem_brk s + 2 * WSIZE + DSIZE * 3) NULL)
            (mem_brk s + 2 * WSIZE + DSIZE * 4) NULL)
            (mem_brk s + 2 * WSIZE + DSIZE * 5) NULL)
            (mem_brk s + 2 * WSIZE + DSIZE * 6) NULL)
            (mem_brk s + 2 * WSIZE + DSIZE * 7) NULL)
            (mem_brk s + 2 * WSIZE + DSIZE * 8) NULL)
            (mem_brk s + 2 * WSIZE + DSIZE * 9) NULL)
            (mem_brk s + 2 * WSIZE + DSIZE * 10) NULL)
         (mem_brk s + 2 * WSIZE) (mem_brk s + 2 * WSIZE + DSIZE)
         (mem_brk s + 2 * WSIZE + DSIZE * 2) (mem_brk s + 2 * WSIZE + DSIZE * 3)
         (mem_brk s + 2 * WSIZE + DSIZE * 4) (mem_brk s + 2 * WSIZE + DSIZE * 5)
         (mem_brk s + 2 * WSIZE + DSIZE * 6) (mem_brk s + 2 * WSIZE + DSIZE * 7)
         (mem_brk s + 2 * WSIZE + DSIZE * 8) (mem_brk s + 2 * WSIZE + DSIZE * 9)
         (mem_brk s + 2 * WSIZE + DSIZE * 10) ->
  heap_rep [] (fun _ => []) si /\
  heap_listp si = mem_brk s + 8 /\ mem_brk si = mem_brk s + 104 /\
  mem_max_addr si = mem_max_addr s /\
  (forall a, a < mem_brk s \/ mem_brk s + 104 <= a -> bytes si a = bytes s a).
Proof.
  intros H8 H0 Hfit Hsmall Haddr E.
  set (p := mem_brk s) in *.
  assert (Eb : heap_listp si = p + 8) by (rewrite E; reflexivity).
  assert (Ebrk : mem_brk si = p + 104) by (rewrite E; reflexivity).
  assert (Emax : mem_max_addr si = mem_max_addr s) by (rewrite E; reflexivity).
  assert (Eh : forall k, 0 <= k <= 10 -> head_of si k = p + 8 + 8 * k).
  { intros k Hk.
    assert (k = 0 \/ k = 1 \/ k = 2 \/ k = 3 \/ k = 4 \/ k = 5 \/ k = 6 \/
            k = 7 \/ k = 8 \/ k = 9 \/ k = 10) as Hc by lia.
    rewrite E.
    repeat (destruct Hc as [Hc|Hc]; [subst k; cbn [head_of Z.eqb Pos.eqb]; cbn; apart|]).
    subst k. cbn. apart. }
  assert (Em : bytes si =
    store_le (store_le (store_le (store_le (store_le (store_le (store_le (store_le
    (store_le (store_le (store_le (store_le (store_le (store_le (store_le (bytes s)
      p 4 0) (p + 4) 4 97) (p + 96) 4 97) (p + 100) 4 1)
      (p + 8) 8 0) (p + 16) 8 0) (p + 24) 8 0) (p + 32) 8 0) (p + 40) 8 0)
      (p + 48) 8 0) (p + 56) 8 0) (p + 64) 8 0) (p + 72) 8 0) (p + 80) 8 0)
      (p + 88) 8 0).
  { rewrite E.
    rewrite bytes_set_heads, !bytes_PUT_NEXT_PTR, bytes_set_heap_listp, !bytes_PUT,
      bytes_set_heap_listp, bytes_set_brk.
    assert (PACK (DSIZE * 12) 1 = 97) as -> by reflexivity.
    assert (PACK 0 1 = 1) as -> by reflexivity.
    assert (NULL = 0) as -> by reflexivity.
    replace (p + 1 * WSIZE) with (p + 4) by apart.
    replace (p + 24 * WSIZE) with (p + 96) by apart.
    replace (p + 25 * WSIZE) with (p + 100) by apart.
    replace (p + 2 * WSIZE + DSIZE * 10) with (p + 88) by apart.
    replace (p + 2 * WSIZE + DSIZE * 9) with (p + 80) by apart.
    replace (p + 2 * WSIZE + DSIZE * 8) with (p + 72) by apart.
    replace (p + 2 * WSIZE + DSIZE * 7) with (p + 64) by apart.
    replace (p + 2 * WSIZE + DSIZE * 6) with (p + 56) by apart.
    replace (p + 2 * WSIZE + DSIZE * 5) with (p + 48) by apart.
    replace (p + 2 * WSIZE + DSIZE * 4) with (p + 40) by apart.
    replace (p + 2 * WSIZE + DSIZE * 3) with (p + 32) by apart.
    replace (p + 2 * WSIZE + DSIZE * 2) with (p + 24) by apart.
    replace (p + 2 * WSIZE + DSIZE) with (p + 16) by apart.
    replace (p + 2 * WSIZE) with (p + 8) by apart.
    reflexivity. }
  assert (Hanchor : forall k, 0 <= k <= 10 -> load_le (bytes si) (p + 8 + 8 * k) 8 = 0).
  { intros k Hk. rewrite Em.
    assert (k = 0 \/ k = 1 \/ k = 2 \/ k = 3 \/ k = 4 \/ k = 5 \/ k = 6 \/
            k = 7 \/ k = 8 \/ k = 9 \/ k = 10) as Hc by lia.
    repeat (destruct Hc as [Hc|Hc];
            [subst k; repeat (rewrite load_store_other by apart);
             match goal with
             | |- load_le (store_le _ ?a _ _) ?b _ = _ => replace b with a by lia
             end;
             rewrite load_store_same; reflexivity|]).
    subst k. repeat (rewrite load_store_other by apart).
    match goal with
    | |- load_le (store_le _ ?a _ _) ?b _ = _ => replace b with a by lia
    end.
    rewrite load_store_same. reflexivity. }
  assert (Htag : tag (bytes si) (p + 4) 96 true /\ tag (bytes si) (p + 96) 96 true /\
                 tag (bytes si) (p + 100) 0 true).
  { unfold tag. rewrite Em. repeat split.
    - repeat (rewrite load_store_other by apart). rewrite load_store_same. reflexivity.
    - repeat (rewrite load_store_other by apart). rewrite load_store_same. reflexivity.
    - repeat (rewrite load_store_other by apart). rewrite load_store_same. reflexivity. }
  destruct Htag as (T1 & T2 & T3).
  split; [|split; [exact Eb|split; [exact Ebrk|split; [exact Emax|]]]].
  - constructor.
    + rewrite Eb. rewrite Z.add_mod, H8 by lia. reflexivity.
    + lia.
    + rewrite Ebrk. unfold first_block. rewrite Eb. cbn [total]. lia.
    + lia.
    + rewrite Emax, Eb. exact Hsmall.
    + rewrite Emax. exact Haddr.
    + cbn [blocks_at]. rewrite Eb. split; [lia|]. split; [reflexivity|].
      replace (p + 8 - 4) with (p + 4) by lia.
      replace (p + 8 + 96 - 8) with (p + 96) by lia. auto.
    + rewrite Ebrk. replace (p + 104 - 4) with (p + 100) by lia. exact T3.
    + intros k Hk. unfold anchor, DSIZE. rewrite Eb. cbn [lseg last]. split.
      * apply Hanchor, Hk.
      * apply Eh, Hk.
    + intros k _. constructor.
    + intros k x _. cbn [layout In]. split; [intros []|intros (sz & [] & _)].
  - intros a Ha. rewrite Em.
    repeat (rewrite store_le_outside by apart). reflexivity.
Qed.

Lemma let_eq {A B : Type} (x : A) (f : A -> B) (r : B) (y : A) :
  y = x -> f y = r -> (let z := x in f z) = r.
Proof. intros -> H. exact H. Qed.

(** One [let] of [mm_init] at a time: the bound state is simplified
    before it is passed on. *)
Ltac step_let :=
  lazymatch goal with
  | |- (let s := ?X in @?f s) = ?r =>
      let y := eval cbn [heap_listp set_heap_listp PUT set_bytes PUT_NEXT_PTR set_heads
                         bytes mem_brk mem_max_addr set_brk] in X in
      refine (let_eq X f r y eq_refl _); cbv beta
  end.

(** [mm_init] on an untouched arena with room for the prologue and the
    first chunk. *)
Lemma mm_init_spec (fuel : nat) (s : state) :
  mem_brk s mod 8 = 0 -> 0 <= mem_brk s ->
  mem_brk s + 616 <= mem_max_addr s ->
  mem_max_addr s - (mem_brk s + 8) < 2 ^ 32 ->
  mem_max_addr s + 16 <= 2 ^ 64 ->
  mem_max_addr s - (mem_brk s + 8) <= Z.of_nat fuel ->
  exists s' F',
    mm_init fuel s = Some (s', 0) /\
    heap_rep [(512, false)] F' s' /\
    heap_listp s' = mem_brk s + 8 /\
    mem_brk s' = mem_brk s + 616 /\
    mem_max_addr s' = mem_max_addr s /\
    (forall a, a < mem_brk s -> bytes s' a = bytes s a).
Proof.
  intros H8 H0 Hfit Hsmall Haddr Hfuel.
  assert (Hrun : exists si,
            mm_init fuel s =
              ('(s1, bp) <- extend_heap fuel si (CHUNKSIZE / WSIZE) ;;
               if bp =? NULL then Some (s1, -1) else Some (s1, 0)) /\
            heap_rep [] (fun _ => []) si /\
            heap_listp si = mem_brk s + 8 /\ mem_brk si = mem_brk s + 104 /\
            mem_max_addr si = mem_max_addr s /\
            (forall a, a < mem_brk s \/ mem_brk s + 104 <= a -> bytes si a = bytes s a)).
  { eexists. split.
    - cbv beta delta [mm_init mem_sbrk].
      change (26 * WSIZE) with 104.
      replace (mem_brk s + 104 <=? mem_max_addr s) with true
        by (symmetry; apply Z.leb_le; lia).
      cbv beta iota. step_let.
      change (heap_listp (set_heap_listp (set_brk s (mem_brk s + 104)) (mem_brk s)))
        with (mem_brk s) at 1.
      replace (mem_brk s =? 2 ^ 64 - 1) with false by (symmetry; apply Z.eqb_neq; lia).
      cbv iota.
      do 16 step_let. step_let.
      reflexivity.
    - apply (init_rep s _ H8 H0 ltac:(lia) Hsmall Haddr eq_refl). }
  destruct Hrun as (si & Hrun & Hrep & Eb & Ebrk & Emax & Hfr).
  rewrite Hrun.
  change (CHUNKSIZE / WSIZE) with 128.
  assert (He : enough fuel si) by (red; rewrite Emax, Eb; exact Hfuel).
  destruct (extend_heap_spec fuel [] (fun _ => []) si 128 Hrep eq_refl He ltac:(lia)
              ltac:(rewrite Ebrk, Emax; change (4 * (128 + 128 mod 2)) with 512; lia))
    as (s' & r & La & Ma & F' & Hx & EL & _ & Er & Hrep' & _ & Hb' & Hmax' & Hbrk' & Hfr').
  symmetry in EL. apply app_eq_nil in EL. destruct EL as [-> ->].
  cbn [app total] in Hrep', Er. change (0 + 4 * (128 + 128 mod 2)) with 512 in Hrep'.
  change (4 * (128 + 128 mod 2)) with 512 in Hbrk'.
  rewrite Hx. cbn [bind].
  assert (Hr : r <> 0) by (unfold first_block in Er; lia).
  replace (r =? NULL) with false by (symmetry; apply Z.eqb_neq; exact Hr).
  exists s', F'. split; [reflexivity|]. split; [exact Hrep'|].
  split; [lia|]. split; [lia|]. split; [congruence|].
  intros a Ha. rewrite (Hfr' a); [apply Hfr; lia|].
  intros [[Hl|(j & x & _ & [] & _)]|Hl]; unfold first_block in *; lia.
Qed.

(** * Freeing a block *)

(** An allocated block is on no list. *)
Lemma live_not_listed (L : layout_t) (F : Z -> list Z) (s : state) (b sz j : Z) :
  heap_rep L F s -> In (b, sz, true) (layout (first_block s) L) ->
  0 <= j <= 10 -> ~ In b (F j).
Proof.
  intros H Hin Hj Hb.
  destruct (rep_nodes_in _ _ _ H j b Hj Hb) as (sz' & Hin' & _).
  pose proof (rep_geom _ _ _ H) as Hg.
  pose proof (geom_block _ _ _ _ _ Hg Hin). pose proof (geom_block _ _ _ _ _ Hg Hin').
  destruct (layout_disjoint _ _ _ _ _ _ _ _ (geom_sizes _ _ Hg) Hin Hin')
    as [(_ & _ & E)|E]; [discriminate|lia].
Qed.

(** The first half of [free]: the block is tagged free and listed. *)
Lemma mark_free_spec (L : layout_t) (F : Z -> list Z) (s : state)
      (L1 : layout_t) (sz : Z) (L2 : layout_t) (bp : Z) :
  heap_rep L F s -> L = L1 ++ (sz, true) :: L2 ->
  bp = first_block s + total L1 ->
  exists F',
    heap_rep (L1 ++ (sz, false) :: L2) F'
      (add_to_free_list (PUT (PUT s (bp - 4) (PACK sz 0)) (bp + sz - 8) (PACK sz 0)) bp) /\
    heap_listp (add_to_free_list (PUT (PUT s (bp - 4) (PACK sz 0)) (bp + sz - 8) (PACK sz 0)) bp)
      = heap_listp s /\
    mem_max_addr (add_to_free_list (PUT (PUT s (bp - 4) (PACK sz 0)) (bp + sz - 8) (PACK sz 0)) bp)
      = mem_max_addr s /\
    same_but (fun a => in_links s F a \/ bp - 4 <= a < bp + sz - 4) s
      (add_to_free_list (PUT (PUT s (bp - 4) (PACK sz 0)) (bp + sz - 8) (PACK sz 0)) bp) /\
    (forall j x, 0 <= j <= 10 -> In x (F' j) -> In x (F j) \/ x = bp).
Proof.
  intros H HL Hbp.
  pose proof (rep_geom _ _ _ H) as Hg.
  assert (Hb : In (bp, sz, true) (layout (first_block s) L)).
  { rewrite HL, Hbp. apply layout_mid. }
  pose proof (geom_block _ _ _ _ _ Hg Hb) as (B1 & B2 & B3 & B4 & B5 & B6).
  pose proof (geom_max _ _ Hg) as Hmax. pose proof (geom_addr _ _ Hg) as Haddr.
  assert (HLM : L = L1 ++ [(sz, true)] ++ L2) by (rewrite HL; reflexivity).
  pose proof (run_start L F s L1 _ L2 H HLM) as Hr0.
  cbn [total layout map addr_size fst snd] in Hr0. rewrite <- Hbp in Hr0.
  replace (bp + (sz + 0) - 4) with (bp + sz - 4) in Hr0 by lia.
  set (G := [(bp, sz)]) in *.
  assert (Hnl : forall j, 0 <= j <= 10 -> ~ In bp (F j)).
  { intros j Hj. apply (live_not_listed L F s bp sz j H Hb Hj). }
  assert (Hghost : forall q j x sz', 0 <= j <= 10 -> In x (F j) -> In (x, sz') G ->
                     q + 4 <= x - 4 \/ x + sz' - 8 <= q).
  { intros q j x sz' Hj Hx [E|[]]. injection E as -> _. destruct (Hnl j Hj Hx). }
  pose proof (run_put s F (bp - 4) (bp + sz - 4) G s F (bp - 4) (PACK sz 0) Hr0
                ltac:(lia) ltac:(lia) (Hghost (bp - 4))) as Hr1.
  set (s1 := PUT s (bp - 4) (PACK sz 0)) in *.
  assert (Hh1 : tag (bytes s1) (bp - 4) sz false).
  { apply (PUT_tag s (bp - 4) sz false); lia. }
  pose proof (run_put s F (bp - 4) (bp + sz - 4) G s1 F (bp + sz - 8) (PACK sz 0) Hr1
                ltac:(lia) ltac:(lia) (Hghost (bp + sz - 8))) as Hr2.
  set (s2 := PUT s1 (bp + sz - 8) (PACK sz 0)) in *.
  assert (Hf2 : tag (bytes s2) (bp + sz - 8) sz false).
  { apply (PUT_tag s1 (bp + sz - 8) sz false); lia. }
  assert (Hh2 : tag (bytes s2) (bp - 4) sz false).
  { apply tag_PUT_other; [lia|exact Hh1]. }
  assert (Hout : forall j x, 0 <= j <= 10 -> In x (F j) ->
                   x + link_size j + 4 <= bp - 4 \/ bp + sz - 4 + 4 <= x).
  { intros j x Hj Hx.
    destruct (run_seg _ _ _ _ _ _ _ Hr2 j x Hj Hx) as [E|[E|(sz' & [E|[]] & _)]]; auto.
    injection E as -> _. destruct (Hnl j Hj Hx). }
  assert (Hk2 : class_of (GET_SIZE s2 (HDRP bp)) = class_of sz).
  { unfold HDRP, WSIZE. rewrite (tag_size _ _ _ _ Hh2) by lia. reflexivity. }
  pose proof (class_link_fits sz B3 B4) as Hfit.
  destruct (run_add s F (bp - 4) (bp + sz - 4) G s2 F bp (class_of sz) Hr2 Hout Hk2
              ltac:(lia) ltac:(lia) ltac:(lia))
    as (Hl3 & Hb3 & Hbrk3 & Hmax3 & Hfr03 & Hfr23 & Hnd3 & Hmem3).
  set (s3 := add_to_free_list s2 bp) in *.
  set (F3 := upd F (class_of sz) (F (class_of sz) ++ [bp])) in *.
  exists F3.
  assert (Hclear2 : forall q a, bp - 4 <= q -> q + 4 <= bp + sz - 4 ->
                      q <= a < q + 4 -> ~ in_links s2 F a).
  { intros q a Hq1 Hq2 Ha.
    apply (run_not_links s F (bp - 4) (bp + sz - 4) G s2 F q a Hr2 Hq1 Hq2 (Hghost q) Ha). }
  split; [|split; [exact Hb3|split; [exact Hmax3|split; [exact Hfr03|]]]].
  - apply (rep_rewrite s s3 F F3 L1 [(sz, true)] L2 [(sz, false)]).
    + rewrite <- HLM. exact H.
    + reflexivity.
    + exact Hb3.
    + exact Hbrk3.
    + exact Hmax3.
    + rewrite <- Hbp. cbn [total].
      replace (bp + (sz + 0) - 4) with (bp + sz - 4) by lia. exact Hfr03.
    + rewrite <- Hbp. cbn [blocks_at].
      split; [lia|]. split; [lia|]. split; [|split; [|exact I]].
      * apply (tag_same_but _ s2 s3 _ _ _ Hfr23); [|exact Hh2].
        intros a Ha [Hl|Hl]; [|lia]. apply (Hclear2 (bp - 4) a); auto; lia.
      * apply (tag_same_but _ s2 s3 _ _ _ Hfr23); [|exact Hf2].
        intros a Ha [Hl|Hl]; [|lia]. apply (Hclear2 (bp + sz - 8) a); auto; lia.
    + exact Hl3.
    + exact Hnd3.
    + intros j x Hj. rewrite <- Hbp. cbn [layout map addr_of fst In].
      rewrite (Hmem3 j x Hj). split.
      * intros [Hx|[-> ->]].
        -- left. split; [exact Hx|]. intros [E|[]]. subst x. destruct (Hnl j Hj Hx).
        -- right. exists sz. split; [left; reflexivity|reflexivity].
      * intros [[Hx _]|(sz0 & [E|[]] & Hc)]; [left; exact Hx|].
        right. injection E as <- <-. auto.
  - intros j x Hj Hx. apply (Hmem3 j x Hj) in Hx. destruct Hx as [Hx|[_ ->]]; auto.
Qed.

Lemma free_spec (fuel : nat) (L : layout_t) (F : Z -> list Z) (s : state)
      (L1 : layout_t) (sz : Z) (L2 : layout_t) (bp : Z) :
  heap_rep L F s -> no_adj_free L = true -> enough fuel s ->
  L = L1 ++ (sz, true) :: L2 ->
  bp = first_block s + total L1 ->
  exists s' F' La Ma Mb Lb,
    free fuel s bp = Some s' /\
    L1 = La ++ Ma /\ L2 = Mb ++ Lb /\
    Forall (fun b => snd b = false) (Ma ++ Mb) /\
    heap_rep (La ++ (total (Ma ++ (sz, false) :: Mb), false) :: Lb) F' s' /\
    no_adj_free (La ++ (total (Ma ++ (sz, false) :: Mb), false) :: Lb) = true /\
    heap_listp s' = heap_listp s /\ mem_max_addr s' = mem_max_addr s /\
    same_but (fun a => in_links s F a \/
                       first_block s + total La - 4 <= a
                         < first_block s + total La +
                           total (Ma ++ (sz, false) :: Mb) - 4) s s'.
Proof.
  intros H Hnaf Hfuel HL Hbp.
  pose proof (rep_geom _ _ _ H) as Hg.
  assert (Hb : In (bp, sz, true) (layout (first_block s) L)).
  { rewrite HL, Hbp. apply layout_mid. }
  pose proof (geom_block _ _ _ _ _ Hg Hb) as (B1 & B2 & B3 & B4 & B5 & B6).
  pose proof (geom_base _ _ Hg) as Hbase.
  destruct (rep_read _ _ _ _ _ _ H Hb) as (R1 & _).
  destruct (mark_free_spec L F s L1 sz L2 bp H HL Hbp)
    as (F3 & Hrep3 & Hb3 & Hmax3 & Hfr3 & Hsub3).
  unfold free.
  replace (bp =? 0) with false by (symmetry; apply Z.eqb_neq; unfold first_block in *; lia).
  replace (heap_listp s =? 0) with false by (symmetry; apply Z.eqb_neq; lia).
  cbn [bind]. unfold HDRP, WSIZE. rewrite R1.
  assert (Ef : FTRP (PUT s (bp - 4) (PACK sz 0)) bp = bp + sz - 8).
  { unfold FTRP, HDRP, WSIZE, DSIZE.
    pose proof (GET_SIZE_PUT s (bp - 4) sz false ltac:(lia) ltac:(lia) B4) as E.
    cbn [flag] in E. rewrite E. reflexivity. }
  rewrite Ef.
  set (s3 := add_to_free_list (PUT (PUT s (bp - 4) (PACK sz 0)) (bp + sz - 8) (PACK sz 0)) bp)
    in *.
  assert (Efb : first_block s3 = first_block s) by (unfold first_block; rewrite Hb3; reflexivity).
  assert (Hfuel3 : enough fuel s3) by (red; rewrite Hmax3, Hb3; exact Hfuel).
  assert (Hnaf3 : no_adj_free (L1 ++ (sz, true) :: L2) = true) by (rewrite <- HL; exact Hnaf).
  destruct (coalesce_spec fuel _ F3 s3 L1 sz L2 bp Hrep3 eq_refl
              ltac:(rewrite Efb; exact Hbp) Hfuel3 Hnaf3)
    as (s' & F' & La & Ma & Mb & Lb & E1 & E2 & HF & Hc & [Hb' Hmax'] & Hr' & Hnaf' & Hfr').
  rewrite Hc. cbn [bind].
  rewrite Efb in Hfr'.
  exists s', F', La, Ma, Mb, Lb.
  split; [reflexivity|]. split; [exact E1|]. split; [exact E2|]. split; [exact HF|].
  split; [exact Hr'|]. split; [exact Hnaf'|].
  split; [congruence|]. split; [congruence|].
  pose proof (geom_sizes _ _ Hg) as HsL. rewrite HL, E1 in HsL.
  apply sizes_ok_app in HsL. destruct HsL as [HsL1 _].
  apply sizes_ok_app in HsL1. destruct HsL1 as [HsA HsM].
  pose proof (total_nonneg _ HsA). pose proof (total_nonneg _ HsM).
  pose proof (blocks_at_sizes _ _ _ (rep_blocks _ _ _ Hr')) as Hs'.
  apply sizes_ok_cons in Hs'. destruct Hs' as [_ Hs'].
  apply sizes_ok_app in Hs'. destruct Hs' as [_ Hs'].
  assert (ET : total (Ma ++ (sz, false) :: Mb) = total Ma + sz + total Mb).
  { rewrite total_app. cbn [total]. lia. }
  assert (HsMb : 0 <= total Mb).
  { pose proof (geom_sizes _ _ Hg) as HsL. rewrite HL, E2 in HsL.
    apply sizes_ok_app in HsL. destruct HsL as [_ HsL].
    apply sizes_ok_cons in HsL. destruct HsL as [_ HsL].
    apply sizes_ok_app in HsL. destruct HsL as [HsL _].
    apply (total_nonneg _ HsL). }
  assert (Ebp : bp = first_block s + total La + total Ma).
  { rewrite Hbp, E1, total_app. lia. }
  intros a Ha. rewrite (Hfr' a).
  - apply Hfr3. intros [Hl|Hl]; apply Ha; [left; exact Hl|right; lia].
  - intros [Hl|Hl]; [|apply Ha; right; exact Hl].
    destruct Hl as [Hl|(j & x & Hj & Hx & Hxa)].
    + apply Ha. left. left. rewrite <- Hb3. exact Hl.
    + destruct (Hsub3 j x Hj Hx) as [Hx0| ->].
      * apply Ha. left. right. exists j, x. auto.
      * apply Ha. right.
        assert (link_size j + 8 <= sz).
        { destruct (rep_nodes_in _ _ _ Hrep3 j bp Hj Hx) as (sz0 & Hin0 & Hc0).
          assert (Hin1 : In (bp, sz, false) (layout (first_block s3) (L1 ++ (sz, false) :: L2))).
          { rewrite Efb, Hbp. apply layout_mid. }
          pose proof (rep_geom _ _ _ Hrep3) as Hg3.
          pose proof (geom_block _ _ _ _ _ Hg3 Hin0).
          destruct (layout_disjoint _ _ _ _ _ _ _ _ (geom_sizes _ _ Hg3) Hin0 Hin1)
            as [(_ & -> & _)|E]; [|lia].
          rewrite <- Hc0. apply class_link_fits; assumption. }
        lia.
Qed.

(** * Searching the free lists *)

(** The first-fit walk over one list: the first node that fits, if any. *)
Lemma first_fit_list_spec (s : state) (asize : Z) (d : bool) (l : list Z) :
  forall (fuel : nat) (prev : Z),
    lseg (bytes s) d prev l 0 -> (length l < fuel)%nat ->
    exists r,
      first_fit_list fuel s asize (GET_NEXT_PTR s prev) = Some r /\
      ((r <> 0 /\ In r l /\ asize <= GET_SIZE s (HDRP r)) \/
       (r = 0 /\ forall x, In x l -> GET_SIZE s (HDRP x) < asize)).
Proof.
  induction l as [|x l IH]; intros fuel prev Hl Hf.
  - destruct fuel as [|f]; [cbn in Hf; lia|].
    cbn [lseg] in Hl. unfold GET_NEXT_PTR. rewrite Hl.
    exists 0. split; [reflexivity|]. right. split; [reflexivity|]. intros x [].
  - destruct fuel as [|f]; [cbn in Hf; lia|].
    cbn [lseg] in Hl. destruct Hl as (E1 & Hx & _ & Hrest).
    unfold GET_NEXT_PTR at 1. rewrite E1. cbn [first_fit_list].
    replace (x =? NULL) with false by (symmetry; apply Z.eqb_neq; exact Hx).
    destruct (asize <=? GET_SIZE s (HDRP x)) eqn:E.
    + apply Z.leb_le in E. exists x. split; [reflexivity|]. left.
      split; [exact Hx|]. split; [left; reflexivity|exact E].
    + apply Z.leb_gt in E.
      destruct (IH f x Hrest ltac:(cbn [length] in Hf; lia)) as (r & Hr & Hc).
      exists r. split; [exact Hr|].
      destruct Hc as [(A & B & C)|(A & B)]; [left|right].
      * split; [exact A|]. split; [right; exact B|exact C].
      * split; [exact A|]. intros y [<-|Hy]; [exact E|apply B, Hy].
Qed.

(** The best-fit walk over one list: the running best is kept, or becomes
    a node of the list that fits and is not larger than the bound. *)
Lemma best_fit_list_spec (s : state) (asize : Z) (d : bool) (l : list Z) :
  forall (fuel : nat) (prev b t : Z),
    lseg (bytes s) d prev l 0 -> (length l < fuel)%nat ->
    exists b' t',
      best_fit_list fuel s asize (GET_NEXT_PTR s prev) b t = Some (b', t') /\
      ((b' = b /\ t' = t /\
        forall x, In x l -> asize <= GET_SIZE s (HDRP x) -> t < GET_SIZE s (HDRP x)) \/
       (b' <> 0 /\ In b' l /\ asize <= GET_SIZE s (HDRP b') /\
        GET_SIZE s (HDRP b') <= t /\ t' = GET_SIZE s (HDRP b'))).
Proof.
  induction l as [|x l IH]; intros fuel prev b t Hl Hf.
  - destruct fuel as [|f]; [cbn in Hf; lia|].
    cbn [lseg] in Hl. unfold GET_NEXT_PTR. rewrite Hl.
    exists b, t. split; [reflexivity|]. left. split; [reflexivity|].
    split; [reflexivity|]. intros x [].
  - destruct fuel as [|f]; [cbn in Hf; lia|].
    pose proof (lseg_nonzero d (bytes s) (x :: l) prev 0) as Hnz.
    cbn [lseg] in Hl. destruct Hl as (E1 & Hx & _ & Hrest).
    unfold GET_NEXT_PTR at 1. rewrite E1. cbn [best_fit_list].
    replace (x =? NULL) with false by (symmetry; apply Z.eqb_neq; exact Hx).
    assert (Hlen : (length l < f)%nat) by (cbn [length] in Hf; lia).
    destruct (asize <=? GET_SIZE s (HDRP x)) eqn:E.
    + apply Z.leb_le in E.
      destruct (GET_SIZE s (HDRP x) <=? t) eqn:E'.
      * apply Z.leb_le in E'.
        destruct (IH f x x (GET_SIZE s (HDRP x)) Hrest Hlen) as (b' & t' & Hr & Hc).
        exists b', t'. split; [exact Hr|]. right.
        destruct Hc as [(-> & -> & _)|(A & B & C & D & G)].
        -- split; [exact Hx|]. split; [left; reflexivity|]. auto.
        -- split; [exact A|]. split; [right; exact B|]. split; [exact C|].
           split; [lia|exact G].
      * apply Z.leb_gt in E'.
        destruct (IH f x b t Hrest Hlen) as (b' & t' & Hr & Hc).
        exists b', t'. split; [exact Hr|].
        destruct Hc as [(A & B & C)|(A & B & C & D & G)]; [left|right].
        -- split; [exact A|]. split; [exact B|].
           intros y [<-|Hy] Hy2; [exact E'|apply (C y Hy Hy2)].
        -- split; [exact A|]. split; [right; exact B|]. auto.
    + apply Z.leb_gt in E.
      destruct (IH f x b t Hrest Hlen) as (b' & t' & Hr & Hc).
      exists b', t'. split; [exact Hr|].
      destruct Hc as [(A & B & C)|(A & B & C & D & G)]; [left|right].
      * split; [exact A|]. split; [exact B|].
        intros y [<-|Hy] Hy2; [lia|apply (C y Hy Hy2)].
      * split; [exact A|]. split; [right; exact B|]. auto.
Qed.

(** The loop condition of the first-fit stage holds at the anchors of the
    two smallest classes only. *)
Lemma first_fit_goes_on_anchor (s : state) (k : Z) :
  0 <= k <= 10 -> first_fit_goes_on s (anchor s k) = (k <? 2).
Proof.
  intros Hk. unfold first_fit_goes_on, anchor, DSIZE.
  assert (k = 0 \/ k = 1 \/ k = 2 \/ k = 3 \/ k = 4 \/ k = 5 \/ k = 6 \/
          k = 7 \/ k = 8 \/ k = 9 \/ k = 10) as Hc by lia.
  assert (Hd : forall a b : Z, a <> b -> (a =? b) = false) by (intros; apply Z.eqb_neq; assumption).
  destruct Hc as [Hc|[Hc|[Hc|[Hc|[Hc|[Hc|[Hc|[Hc|[Hc|[Hc|Hc]]]]]]]]]]; subst k;
    repeat match goal with
           | |- context [?a =? ?b] =>
               first [ rewrite (Hd a b) by lia
                     | replace (a =? b) with true by (symmetry; apply Z.eqb_eq; lia) ]
           end; reflexivity.
Qed.

Lemma anchor_next (s : state) (k : Z) : anchor s k + DSIZE = anchor s (k + 1).
Proof. unfold anchor, DSIZE. lia. Qed.

(** The first-fit stage, entered at the anchor of class [k]. *)
Lemma first_fit_loop_spec (s : state) (F : Z -> list Z) (asize : Z) (fuel : nat) (k : Z) :
  lists_ok s F -> 0 <= k <= 10 ->
  (forall j, 0 <= j <= 10 -> (length (F j) + 3 <= fuel)%nat) ->
  exists r k',
    first_fit_loop fuel s asize (anchor s k) = Some (r, anchor s k') /\
    ((r <> 0 /\ exists j, k <= j <= 1 /\ In r (F j) /\ asize <= GET_SIZE s (HDRP r)) \/
     (r = 0 /\ k' = Z.max k 2 /\
      forall j, k <= j <= 1 -> forall x, In x (F j) -> GET_SIZE s (HDRP x) < asize)).
Proof.
  intros Hl Hk Hf.
  assert (Hstop : forall f j, 2 <= j <= 10 ->
            first_fit_loop (S f) s asize (anchor s j) = Some (NULL, anchor s j)).
  { intros f j Hj. cbn [first_fit_loop].
    rewrite first_fit_goes_on_anchor by lia.
    replace (j <? 2) with false by (symmetry; apply Z.ltb_ge; lia). reflexivity. }
  assert (Hgo : forall f j, 0 <= j <= 1 ->
            first_fit_loop (S f) s asize (anchor s j) =
            (bp <- first_fit_list (S f) s asize (GET_NEXT_PTR s (anchor s j)) ;;
             if negb (bp =? NULL) then Some (bp, anchor s j)
             else first_fit_loop f s asize (anchor s (j + 1)))).
  { intros f j Hj. cbn [first_fit_loop].
    rewrite first_fit_goes_on_anchor by lia.
    replace (j <? 2) with true by (symmetry; apply Z.ltb_lt; lia).
    rewrite anchor_next. reflexivity. }
  pose proof (Hf 0 ltac:(lia)) as Hf0.
  destruct fuel as [|[|[|f]]]; try lia.
  assert (Hscan : forall g j, 0 <= j <= 1 -> (length (F j) < g)%nat ->
            exists r, first_fit_list g s asize (GET_NEXT_PTR s (anchor s j)) = Some r /\
              ((r <> 0 /\ In r (F j) /\ asize <= GET_SIZE s (HDRP r)) \/
               (r = 0 /\ forall x, In x (F j) -> GET_SIZE s (HDRP x) < asize))).
  { intros g j Hj Hg. destruct (Hl j ltac:(lia)) as [Hseg _].
    apply (first_fit_list_spec s asize (doubly j) (F j) g (anchor s j) Hseg Hg). }
  assert (H1 : forall g, (forall j, 0 <= j <= 10 -> (length (F j) + 2 <= S (S g))%nat) ->
            exists r k',
              first_fit_loop (S (S g)) s asize (anchor s 1) = Some (r, anchor s k') /\
              ((r <> 0 /\ In r (F 1) /\ asize <= GET_SIZE s (HDRP r)) \/
               (r = 0 /\ k' = 2 /\
                forall x, In x (F 1) -> GET_SIZE s (HDRP x) < asize))).
  { intros g Hg. rewrite Hgo by lia.
    destruct (Hscan (S (S g)) 1 ltac:(lia) ltac:(specialize (Hg 1 ltac:(lia)); lia))
      as (r & Hr & Hc).
    rewrite Hr. cbn [bind].
    destruct Hc as [(A & B & C)|(-> & B)].
    - replace (r =? NULL) with false by (symmetry; apply Z.eqb_neq; exact A).
      cbn [negb]. exists r, 1. split; [reflexivity|]. left. auto.
    - cbn [Z.eqb NULL negb]. change (1 + 1) with 2. rewrite Hstop by lia.
      exists 0, 2. split; [reflexivity|]. right. auto. }
  assert (Hc : k = 0 \/ k = 1 \/ 2 <= k <= 10) by lia.
  destruct Hc as [->|[->|Hc]].
  - rewrite Hgo by lia.
    destruct (Hscan (S (S (S f))) 0 ltac:(lia) ltac:(lia)) as (r & Hr & Hc).
    rewrite Hr. cbn [bind].
    destruct Hc as [(A & B & C)|(-> & B)].
    + replace (r =? NULL) with false by (symmetry; apply Z.eqb_neq; exact A).
      cbn [negb]. exists r, 0. split; [reflexivity|]. left.
      split; [exact A|]. exists 0. split; [lia|]. auto.
    + cbn [Z.eqb NULL negb]. change (0 + 1) with 1.
      destruct (H1 f) as (r & k' & Hr' & Hc').
      { intros j Hj. specialize (Hf j Hj). lia. }
      exists r, k'. split; [exact Hr'|].
      destruct Hc' as [(A & B' & C)|(-> & -> & B')]; [left|right].
      * split; [exact A|]. exists 1. split; [lia|]. auto.
      * split; [reflexivity|]. split; [reflexivity|].
        intros j Hj x Hx. assert (j = 0 \/ j = 1) as [-> | ->] by lia; auto.
  - destruct (H1 (S f)) as (r & k' & Hr' & Hc').
    { intros j Hj. specialize (Hf j Hj). lia. }
    exists r, k'. split; [exact Hr'|].
    destruct Hc' as [(A & B' & C)|(-> & -> & B')]; [left|right].
    + split; [exact A|]. exists 1. split; [lia|]. auto.
    + split; [reflexivity|]. split; [reflexivity|].
      intros j Hj x Hx. assert (j = 1) as -> by lia. auto.
  - rewrite Hstop by lia. exists 0, k. split; [reflexivity|]. right.
    split; [reflexivity|]. split; [lia|]. intros j Hj. lia.
Qed.

(** The best-fit stage, entered at the anchor of class [k] with no best
    block yet and the bound 2^30. *)
Lemma best_fit_loop_spec (s : state) (F : Z -> list Z) (asize : Z) (n : nat) :
  forall (fuel : nat) (k : Z),
    lists_ok s F -> 0 <= k -> k + Z.of_nat n = 11 ->
    (forall j, 0 <= j <= 10 -> (length (F j) + 12 <= fuel + Z.to_nat k)%nat) ->
    exists r,
      best_fit_loop fuel s asize (anchor s k) NULL (2 ^ 30) = Some r /\
      ((r <> 0 /\ exists j, k <= j <= 10 /\ In r (F j) /\
                  asize <= GET_SIZE s (HDRP r) <= 2 ^ 30) \/
       (r = 0 /\ forall j, k <= j <= 10 -> forall x, In x (F j) ->
                 asize <= GET_SIZE s (HDRP x) -> 2 ^ 30 < GET_SIZE s (HDRP x))).
Proof.
  induction n as [|n IH]; intros fuel k Hl Hk Hn Hf.
  - assert (k = 11) by lia. subst k.
    destruct fuel as [|f]; [specialize (Hf 0 ltac:(lia)); cbn in Hf; lia|].
    cbn [best_fit_loop]. unfold anchor, DSIZE.
    replace (heap_listp s + 8 * 11 =? heap_listp s + 11 * 8) with true
      by (symmetry; apply Z.eqb_eq; lia).
    exists NULL. split; [reflexivity|]. right. split; [reflexivity|].
    intros j Hj. lia.
  - assert (Hk10 : 0 <= k <= 10) by lia.
    pose proof (Hf k Hk10) as Hfk.
    destruct fuel as [|f]; [lia|].
    cbn [best_fit_loop].
    replace (anchor s k =? heap_listp s + 11 * DSIZE) with false
      by (symmetry; apply Z.eqb_neq; unfold anchor, DSIZE; lia).
    cbn [negb].
    destruct (Hl k Hk10) as [Hseg _].
    destruct (best_fit_list_spec s asize (doubly k) (F k) (S f) (anchor s k) NULL (2 ^ 30)
                Hseg ltac:(lia)) as (b' & t' & Hr & Hc).
    rewrite Hr. cbn [bind].
    destruct Hc as [(-> & -> & B)|(A & B & C & D & G)].
    + cbn [Z.eqb NULL negb]. rewrite anchor_next.
      destruct (IH f (k + 1) Hl ltac:(lia) ltac:(lia)) as (r & Hr' & Hc').
      { intros j Hj. specialize (Hf j Hj). lia. }
      exists r. split; [exact Hr'|].
      destruct Hc' as [(A & j & Hj & Hin & Hsz)|(-> & B')]; [left|right].
      * split; [exact A|]. exists j. split; [lia|]. auto.
      * split; [reflexivity|]. intros j Hj x Hx.
        destruct (Z.eq_dec j k) as [->|Hne]; [apply B, Hx|apply (B' j); [lia|exact Hx]].
    + replace (b' =? NULL) with false by (symmetry; apply Z.eqb_neq; exact A).
      cbn [negb]. exists b'. split; [reflexivity|]. left.
      split; [exact A|]. exists k. split; [lia|]. split; [exact B|]. lia.
Qed.

(** [find_fit] on a represented heap: it returns, and what it returns is
    [NULL] only when every free block that fits is larger than 2^30, and
    otherwise a free block that fits and is at most 2^30 bytes long. *)
Lemma find_fit_spec (fuel : nat) (L : layout_t) (F : Z -> list Z) (s : state)
      (asize : Z) :
  heap_rep L F s -> enough fuel s ->
  exists r,
    find_fit fuel s asize = Some r /\
    ((r = NULL /\
      forall b sz, In (b, sz, false) (layout (first_block s) L) ->
                   asize <= sz -> 2 ^ 30 < sz) \/
     (r <> NULL /\
      exists sz, In (r, sz, false) (layout (first_block s) L) /\
                 asize <= sz <= 2 ^ 30)).
Proof.
  intros H He.
  pose proof (rep_lists _ _ _ H) as Hl.
  pose proof (class_of_range asize) as Hk.
  assert (Hf : forall j, 0 <= j <= 10 -> (length (F j) + 96 <= fuel)%nat).
  { intros j Hj. apply (rep_fuel_slack _ _ _ _ _ H He Hj). }
  assert (Hsz : forall j x, 0 <= j <= 10 -> In x (F j) ->
            In (x, GET_SIZE s (HDRP x), false) (layout (first_block s) L) /\
            class_of (GET_SIZE s (HDRP x)) = j).
  { intros j x Hj Hx. destruct (rep_nodes_in _ _ _ H j x Hj Hx) as (sz & Hin & Hc).
    destruct (rep_read _ _ _ _ _ _ H Hin) as (E & _). unfold HDRP, WSIZE.
    rewrite E. auto. }
  assert (Hlisted : forall b sz, In (b, sz, false) (layout (first_block s) L) ->
            In b (F (class_of sz)) /\ GET_SIZE s (HDRP b) = sz).
  { intros b sz Hin. split.
    - apply (rep_nodes _ _ _ H); [apply class_of_range|]. exists sz. auto.
    - destruct (rep_read _ _ _ _ _ _ H Hin) as (E & _). exact E. }
  unfold find_fit. cbv zeta. rewrite find_list_tail_anchor.
  destruct (first_fit_loop_spec s F asize fuel (class_of asize) Hl Hk)
    as (r & k' & Hr & Hc).
  { intros j Hj. specialize (Hf j Hj). lia. }
  rewrite Hr. cbn [bind].
  destruct Hc as [(A & j & Hj & Hin & Hfit)|(-> & -> & B)].
  - replace (r =? NULL) with false by (symmetry; apply Z.eqb_neq; exact A).
    cbn [negb]. exists r. split; [reflexivity|]. right. split; [exact A|].
    destruct (Hsz j r ltac:(lia) Hin) as [Hin' Hc].
    exists (GET_SIZE s (HDRP r)). split; [exact Hin'|]. split; [exact Hfit|].
    assert (GET_SIZE s (HDRP r) <= 32).
    { destruct (Z.le_gt_cases (GET_SIZE s (HDRP r)) 32) as [E|E]; [exact E|].
      pose proof (class_of_mono 33 (GET_SIZE s (HDRP r)) ltac:(lia)) as Hm.
      change (class_of 33) with 2 in Hm. lia. }
    lia.
  - cbn [Z.eqb NULL negb]. change (Z.shiftl 1 30) with (2 ^ 30).
    set (k := class_of asize) in *.
    destruct (best_fit_loop_spec s F asize (Z.to_nat (11 - Z.max k 2)) fuel (Z.max k 2)
                Hl ltac:(lia) ltac:(lia)) as (r & Hr' & Hc').
    { intros j Hj. specialize (Hf j Hj). lia. }
    exists r. split; [exact Hr'|].
    destruct Hc' as [(A & j & Hj & Hin & Hfit)|(-> & B')]; [right|left].
    + split; [exact A|]. destruct (Hsz j r ltac:(lia) Hin) as [Hin' Hc].
      exists (GET_SIZE s (HDRP r)). auto.
    + split; [reflexivity|]. intros b sz Hin Hfit.
      destruct (Hlisted b sz Hin) as [Hb Esz].
      pose proof (class_of_mono asize sz Hfit) as Hm. fold k in Hm.
      pose proof (class_of_range sz) as Hr2.
      destruct (Z.le_gt_cases (class_of sz) 1) as [E|E].
      * pose proof (B (class_of sz) ltac:(lia) b Hb). lia.
      * rewrite <- Esz. apply (B' (class_of sz)); [lia|exact Hb|lia].
Qed.

(** * Placing a request in a free block *)

(** A tag may be rewritten at the header of a node that is still listed,
    as long as the size it holds stays. *)
Lemma run_put_hdr (s0 : state) (F0 : Z -> list Z) (lo hi : Z) (G : list (Z * Z))
      (s : state) (F : Z -> list Z) (x v : Z) :
  running s0 F0 lo hi G s F ->
  lo <= x - 4 -> x <= hi ->
  GET_SIZE (PUT s (x - 4) v) (x - 4) = GET_SIZE s (x - 4) ->
  (forall j y sz', 0 <= j <= 10 -> In y (F j) -> In (y, sz') G ->
     y = x \/ x <= y - 4 \/ y + sz' - 8 <= x - 4) ->
  running s0 F0 lo hi G (PUT s (x - 4) v) F.
Proof.
  intros Hr Hlo Hhi Hsz Hg.
  assert (Hfr : same_but (fun a => x - 4 <= a < x - 4 + 4) s (PUT s (x - 4) v)).
  { apply same_but_PUT. auto. }
  constructor; try apply Hr.
  - apply (lists_ok_frame s); [apply Hr|reflexivity|reflexivity|].
    intros a Ha. apply Hfr. intros Hq.
    destruct Ha as [Ha|(j & y & Hj & Hy & Hya)].
    + rewrite (run_base _ _ _ _ _ _ _ Hr) in Ha.
      pose proof (run_lo _ _ _ _ _ _ _ Hr). lia.
    + pose proof (link_size_cases j).
      destruct (run_seg _ _ _ _ _ _ _ Hr j y Hj Hy) as [E|[E|(sz' & Hin & E)]]; try lia.
      destruct (Hg j y sz' Hj Hy Hin) as [E'|[E'|E']]; lia.
  - intros j y Hj Hy. destruct (Z.eq_dec y x) as [->|Hne].
    + unfold HDRP, WSIZE. rewrite Hsz. apply (run_class _ _ _ _ _ _ _ Hr j x Hj Hy).
    + rewrite (GET_SIZE_same s (PUT s (x - 4) v)).
      * apply (run_class _ _ _ _ _ _ _ Hr j y Hj Hy).
      * intros a Ha. apply Hfr. unfold HDRP, WSIZE in Ha.
        pose proof (link_size_cases j).
        destruct (run_seg _ _ _ _ _ _ _ Hr j y Hj Hy) as [E|[E|(sz' & Hin & E)]]; try lia.
        destruct (Hg j y sz' Hj Hy Hin) as [E'|[E'|E']]; [contradiction|lia|lia].
  - apply (same_but_trans _ s0 s); [apply Hr|].
    intros a Ha. apply Hfr. lia.
Qed.

Section Place.
Variables (fuel : nat) (L : layout_t) (F : Z -> list Z) (s : state).
Variables (L1 : layout_t) (csize : Z) (L2 : layout_t) (bp asize : Z).
Hypothesis H : heap_rep L F s.
Hypothesis HL : L = L1 ++ (csize, false) :: L2.
Hypothesis Hbp : bp = first_block s + total L1.
Hypothesis Hfuel : enough fuel s.
Hypothesis Ha16 : 16 <= asize.
Hypothesis Ha8 : asize mod 8 = 0.

(** The block is split: the remainder stays at [bp], free and listed
    last in the class of its size; the allocated block is the high part
    and its address is returned. *)
Lemma place_split :
  16 <= csize - asize ->
  exists s' l1 l2,
    F (class_of csize) = l1 ++ bp :: l2 /\
    place fuel s bp asize = Some (s', bp + (csize - asize)) /\
    (heap_listp s' = heap_listp s /\ mem_max_addr s' = mem_max_addr s) /\
    heap_rep (L1 ++ (csize - asize, false) :: (asize, true) :: L2)
             (upd (upd F (class_of csize) (l1 ++ l2)) (class_of (csize - asize))
                  (upd F (class_of csize) (l1 ++ l2) (class_of (csize - asize)) ++ [bp]))
             s' /\
    same_but (fun a => in_links s F a \/ bp - 4 <= a < bp + csize - 4) s s'.
Proof.
  intros Hrem.
  pose proof (rep_geom _ _ _ H) as Hg.
  pose proof (coal_block L s L1 csize L2 bp HL Hbp) as Hb.
  pose proof (full_layout_in _ _ _ _ _ Hb) as Hbf.
  destruct (rep_read _ _ _ _ _ _ H Hb) as (R1 & _).
  pose proof (geom_block _ _ _ _ _ Hg Hb) as (B1 & B2 & B3 & B4 & B5 & B6).
  pose proof (geom_max _ _ Hg) as Hmax. pose proof (geom_addr _ _ Hg) as Haddr.
  set (rem := csize - asize) in *.
  assert (Hr8 : rem mod 8 = 0).
  { unfold rem. rewrite Zminus_mod, B4, Ha8. reflexivity. }
  assert (HLM : L = L1 ++ [(csize, false)] ++ L2) by (rewrite HL; reflexivity).
  pose proof (run_start L F s L1 _ L2 H HLM) as Hr0.
  cbn [total layout map addr_size fst snd] in Hr0. rewrite <- Hbp in Hr0.
  replace (bp + (csize + 0) - 4) with (bp + csize - 4) in Hr0 by lia.
  set (G := [(bp, csize)]) in *.
  unfold place.
  replace (GET_SIZE s (HDRP bp)) with csize by (symmetry; exact R1).
  rewrite (wrap64_small (csize - asize)) by (unfold rem in *; lia). fold rem.
  replace (rem >=? 2 * DSIZE) with true by (symmetry; apply Z.geb_le; unfold DSIZE; lia).
  (* unlist [bp] *)
  destruct (run_remove s F (bp - 4) (bp + csize - 4) G fuel s F (class_of csize) bp Hr0
              (class_of_range csize) (coal_listed L F s L1 csize L2 bp H HL Hbp)
              (rep_fuel _ _ _ _ _ H Hfuel (class_of_range csize)))
    as (s1 & l1 & l2 & HF1 & Hrm1 & Hr1 & Hfr1 & Hmem1).
  rewrite Hrm1. cbn [bind].
  set (F1 := upd F (class_of csize) (l1 ++ l2)) in *.
  assert (Hghost : forall q j x sz', 0 <= j <= 10 -> In x (F1 j) -> In (x, sz') G ->
                     q + 4 <= x - 4 \/ x + sz' - 8 <= q).
  { intros q j x sz' Hj Hx [E|[]]. injection E as <- _.
    apply (Hmem1 j bp Hj) in Hx. destruct Hx as [_ Hx]. contradiction. }
  cbv zeta. unfold HDRP, WSIZE.
  (* the tags of the remainder *)
  pose proof (run_put s F (bp - 4) (bp + csize - 4) G s1 F1 (bp - 4) (PACK rem 0) Hr1
                ltac:(lia) ltac:(lia) (Hghost (bp - 4))) as Hr2.
  set (s2 := PUT s1 (bp - 4) (PACK rem 0)) in *.
  assert (Hh2 : tag (bytes s2) (bp - 4) rem false).
  { apply (PUT_tag s1 (bp - 4) rem false); lia. }
  assert (Ef2 : FTRP s2 bp = bp + rem - 8).
  { unfold FTRP, HDRP, WSIZE, DSIZE. rewrite (tag_size _ _ _ _ Hh2) by lia. reflexivity. }
  rewrite Ef2.
  pose proof (run_put s F (bp - 4) (bp + csize - 4) G s2 F1 (bp + rem - 8) (PACK rem 0) Hr2
                ltac:(lia) ltac:(unfold rem in *; lia) (Hghost (bp + rem - 8))) as Hr3.
  set (s3 := PUT s2 (bp + rem - 8) (PACK rem 0)) in *.
  assert (Hh3 : tag (bytes s3) (bp - 4) rem false).
  { apply tag_PUT_other; [lia|exact Hh2]. }
  assert (Hf3 : tag (bytes s3) (bp + rem - 8) rem false).
  { apply (PUT_tag s2 (bp + rem - 8) rem false); lia. }
  assert (En3 : NEXT_BLKP s3 bp = bp + rem).
  { unfold NEXT_BLKP, WSIZE. rewrite (tag_size _ _ _ _ Hh3) by lia. reflexivity. }
  rewrite !En3.
  (* the tags of the allocated block *)
  pose proof (run_put s F (bp - 4) (bp + csize - 4) G s3 F1 (bp + rem - 4) (PACK asize 1) Hr3
                ltac:(lia) ltac:(unfold rem in *; lia) (Hghost (bp + rem - 4))) as Hr4.
  set (s4 := PUT s3 (bp + rem - 4) (PACK asize 1)) in *.
  assert (Hh4 : tag (bytes s4) (bp + rem - 4) asize true).
  { apply (PUT_tag s3 (bp + rem - 4) asize true); unfold rem in *; lia. }
  assert (Ef4 : FTRP s4 (bp + rem) = bp + csize - 8).
  { unfold FTRP, HDRP, WSIZE, DSIZE. rewrite (tag_size _ _ _ _ Hh4) by lia.
    unfold rem. lia. }
  rewrite Ef4.
  pose proof (run_put s F (bp - 4) (bp + csize - 4) G s4 F1 (bp + csize - 8) (PACK asize 1)
                Hr4 ltac:(lia) ltac:(lia) (Hghost (bp + csize - 8))) as Hr5.
  set (s5 := PUT s4 (bp + csize - 8) (PACK asize 1)) in *.
  assert (T1 : tag (bytes s5) (bp - 4) rem false).
  { apply tag_PUT_other; [lia|]. apply tag_PUT_other; [lia|exact Hh3]. }
  assert (T2 : tag (bytes s5) (bp + rem - 8) rem false).
  { apply tag_PUT_other; [unfold rem in *; lia|]. apply tag_PUT_other; [lia|exact Hf3]. }
  assert (T3 : tag (bytes s5) (bp + rem - 4) asize true).
  { apply tag_PUT_other; [unfold rem in *; lia|exact Hh4]. }
  assert (T4 : tag (bytes s5) (bp + csize - 8) asize true).
  { apply (PUT_tag s4 (bp + csize - 8) asize true); unfold rem in *; lia. }
  assert (Ep5 : PREV_BLKP s5 (bp + rem) = bp).
  { unfold PREV_BLKP, DSIZE. replace (bp + rem - 8) with (bp + rem - 8) by lia.
    rewrite (tag_size _ _ _ _ T2) by lia. lia. }
  rewrite Ep5.
  (* list the remainder *)
  assert (Hout : forall j x, 0 <= j <= 10 -> In x (F1 j) ->
                   x + link_size j + 4 <= bp - 4 \/ bp + csize - 4 + 4 <= x).
  { intros j x Hj Hx.
    destruct (run_seg _ _ _ _ _ _ _ Hr5 j x Hj Hx) as [E|[E|(sz' & [E|[]] & _)]]; auto.
    injection E as <- _. apply (Hmem1 j bp Hj) in Hx. destruct Hx as [_ Hx]. contradiction. }
  assert (Hk5 : class_of (GET_SIZE s5 (HDRP bp)) = class_of rem).
  { unfold HDRP, WSIZE. rewrite (tag_size _ _ _ _ T1) by lia. reflexivity. }
  pose proof (class_link_fits rem Hrem Hr8) as Hfit.
  destruct (run_add s F (bp - 4) (bp + csize - 4) G s5 F1 bp (class_of rem) Hr5 Hout Hk5
              ltac:(lia) ltac:(unfold rem in *; lia) ltac:(lia))
    as (Hl6 & Hb6 & Hbrk6 & Hmax6 & Hfr06 & Hfr56 & Hnd6 & Hmem6).
  set (s6 := add_to_free_list s5 bp) in *.
  set (F6 := upd F1 (class_of rem) (F1 (class_of rem) ++ [bp])) in *.
  exists s6, l1, l2. split; [exact HF1|].
  split; [reflexivity|]. split; [split; [exact Hb6|exact Hmax6]|].
  assert (Hclear5 : forall q a, bp - 4 <= q -> q + 4 <= bp + csize - 4 ->
                      q <= a < q + 4 -> ~ in_links s5 F1 a).
  { intros q a Hq1 Hq2 Ha.
    apply (run_not_links s F (bp - 4) (bp + csize - 4) G s5 F1 q a Hr5 Hq1 Hq2
             (Hghost q) Ha). }
  assert (Hkeep : forall q sz0 al0, bp - 4 <= q -> q + 4 <= bp + csize - 4 ->
                    (q + 4 <= bp \/ bp + link_size (class_of rem) <= q) ->
                    tag (bytes s5) q sz0 al0 -> tag (bytes s6) q sz0 al0).
  { intros q sz0 al0 Hq1 Hq2 Hq3.
    apply (tag_same_but _ s5 s6 _ _ _ Hfr56).
    intros a Ha [Hl|Hl]; [|lia]. apply (Hclear5 q a); auto. }
  split; [|exact Hfr06]. fold F1. fold F6.
  apply (rep_rewrite s s6 F F6 L1 [(csize, false)] L2 [(rem, false); (asize, true)]).
  - rewrite <- HLM. exact H.
  - cbn [total]. unfold rem. lia.
  - exact Hb6.
  - exact Hbrk6.
  - exact Hmax6.
  - rewrite <- Hbp. cbn [total].
    replace (bp + (csize + 0) - 4) with (bp + csize - 4) by lia. exact Hfr06.
  - rewrite <- Hbp. cbn [blocks_at].
    replace (bp + rem + asize - 8) with (bp + csize - 8) by (unfold rem; lia).
    split; [lia|]. split; [exact Hr8|].
    split; [apply Hkeep; auto; lia|]. split; [apply Hkeep; auto; unfold rem in *; lia|].
    split; [lia|]. split; [exact Ha8|].
    split; [apply Hkeep; auto; unfold rem in *; lia|].
    split; [apply Hkeep; auto; unfold rem in *; lia|exact I].
  - exact Hl6.
  - exact Hnd6.
  - intros j x Hj. rewrite <- Hbp. cbn [layout map addr_of fst In].
    rewrite (Hmem6 j x Hj), (Hmem1 j x Hj). split.
    + intros [[Hx A]|[-> ->]].
      * left. split; [exact Hx|]. intros [E|[]]; congruence.
      * right. exists rem. split; [left; reflexivity|reflexivity].
    + intros [[Hx A]|(sz0 & [E|[E|[]]] & Hc)].
      * left. split; [exact Hx|]. intros E; apply A; auto.
      * right. injection E as <- <-. auto.
      * discriminate E.
Qed.

(** The block is used whole: its tags are set allocated and it leaves
    its list; its address is returned. *)
Lemma place_whole :
  asize <= csize -> csize - asize < 16 ->
  exists s' l1 l2,
    F (class_of csize) = l1 ++ bp :: l2 /\
    place fuel s bp asize = Some (s', bp) /\
    (heap_listp s' = heap_listp s /\ mem_max_addr s' = mem_max_addr s) /\
    heap_rep (L1 ++ (csize, true) :: L2) (upd F (class_of csize) (l1 ++ l2)) s' /\
    same_but (fun a => in_links s F a \/ bp - 4 <= a < bp + csize - 4) s s'.
Proof.
  intros Hle Hrem.
  pose proof (rep_geom _ _ _ H) as Hg.
  pose proof (coal_block L s L1 csize L2 bp HL Hbp) as Hb.
  destruct (rep_read _ _ _ _ _ _ H Hb) as (R1 & _).
  pose proof (geom_block _ _ _ _ _ Hg Hb) as (B1 & B2 & B3 & B4 & B5 & B6).
  pose proof (geom_max _ _ Hg) as Hmax. pose proof (geom_addr _ _ Hg) as Haddr.
  assert (HLM : L = L1 ++ [(csize, false)] ++ L2) by (rewrite HL; reflexivity).
  pose proof (run_start L F s L1 _ L2 H HLM) as Hr0.
  cbn [total layout map addr_size fst snd] in Hr0. rewrite <- Hbp in Hr0.
  replace (bp + (csize + 0) - 4) with (bp + csize - 4) in Hr0 by lia.
  set (G := [(bp, csize)]) in *.
  unfold place.
  replace (GET_SIZE s (HDRP bp)) with csize by (symmetry; exact R1).
  rewrite (wrap64_small (csize - asize)) by lia.
  replace (csize - asize >=? 2 * DSIZE) with false
    by (symmetry; rewrite Z.geb_leb; apply Z.leb_gt; unfold DSIZE; lia).
  cbv zeta. unfold HDRP, WSIZE.
  (* the header, at a node that is still listed *)
  assert (Hsame : GET_SIZE (PUT s (bp - 4) (PACK csize 1)) (bp - 4) = GET_SIZE s (bp - 4)).
  { rewrite R1. apply (GET_SIZE_PUT s (bp - 4) csize true); lia. }
  assert (Hg1 : forall j y sz', 0 <= j <= 10 -> In y (F j) -> In (y, sz') G ->
                  y = bp \/ bp <= y - 4 \/ y + sz' - 8 <= bp - 4).
  { intros j y sz' _ _ [E|[]]. injection E as <- _. left. reflexivity. }
  pose proof (run_put_hdr s F (bp - 4) (bp + csize - 4) G s F bp (PACK csize 1) Hr0
                ltac:(lia) ltac:(lia) Hsame Hg1) as Hr1.
  set (s1 := PUT s (bp - 4) (PACK csize 1)) in *.
  assert (Hh1 : tag (bytes s1) (bp - 4) csize true).
  { apply (PUT_tag s (bp - 4) csize true); lia. }
  assert (Ef1 : FTRP s1 bp = bp + csize - 8).
  { unfold FTRP, HDRP, WSIZE, DSIZE. rewrite (tag_size _ _ _ _ Hh1) by lia. reflexivity. }
  rewrite Ef1.
  assert (Hg2 : forall j x sz', 0 <= j <= 10 -> In x (F j) -> In (x, sz') G ->
                  bp + csize - 8 + 4 <= x - 4 \/ x + sz' - 8 <= bp + csize - 8).
  { intros j x sz' _ _ [E|[]]. injection E as <- <-. right. lia. }
  pose proof (run_put s F (bp - 4) (bp + csize - 4) G s1 F (bp + csize - 8) (PACK csize 1)
                Hr1 ltac:(lia) ltac:(lia) Hg2) as Hr2.
  set (s2 := PUT s1 (bp + csize - 8) (PACK csize 1)) in *.
  assert (T1 : tag (bytes s2) (bp - 4) csize true).
  { apply tag_PUT_other; [lia|exact Hh1]. }
  assert (T2 : tag (bytes s2) (bp + csize - 8) csize true).
  { apply (PUT_tag s1 (bp + csize - 8) csize true); lia. }
  (* unlist [bp] *)
  destruct (run_remove s F (bp - 4) (bp + csize - 4) G fuel s2 F (class_of csize) bp Hr2
              (class_of_range csize) (coal_listed L F s L1 csize L2 bp H HL Hbp)
              (rep_fuel _ _ _ _ _ H Hfuel (class_of_range csize)))
    as (s3 & l1 & l2 & HF3 & Hrm3 & Hr3 & Hfr3 & Hmem3).
  rewrite Hrm3. cbn [bind].
  set (F3 := upd F (class_of csize) (l1 ++ l2)) in *.
  exists s3, l1, l2. split; [exact HF3|]. split; [reflexivity|]. fold F3.
  split; [split; [apply Hr3|apply Hr3]|].
  assert (Hclear2 : forall q a, q = bp - 4 \/ q = bp + csize - 8 ->
                      q <= a < q + 4 -> ~ in_links s2 F a).
  { intros q a Hq Ha.
    apply (coal_clear L F s H _ _ _ s2 F bp csize false q a Hr2
             (full_layout_in _ _ _ _ _ Hb) Hq Ha). }
  split; [|apply Hr3].
  apply (rep_rewrite s s3 F F3 L1 [(csize, false)] L2 [(csize, true)]).
  - rewrite <- HLM. exact H.
  - reflexivity.
  - apply Hr3.
  - apply Hr3.
  - apply Hr3.
  - rewrite <- Hbp. cbn [total].
    replace (bp + (csize + 0) - 4) with (bp + csize - 4) by lia. apply Hr3.
  - rewrite <- Hbp. cbn [blocks_at].
    split; [lia|]. split; [exact B4|]. split; [|split; [|exact I]].
    + apply (tag_same_but _ s2 s3 _ _ _ Hfr3); [|exact T1].
      intros a Ha. apply (Hclear2 (bp - 4) a); auto.
    + apply (tag_same_but _ s2 s3 _ _ _ Hfr3); [|exact T2].
      intros a Ha. apply (Hclear2 (bp + csize - 8) a); auto.
  - apply Hr3.
  - apply Hr3.
  - intros j x Hj. rewrite <- Hbp. cbn [layout map addr_of fst In].
    rewrite (Hmem3 j x Hj). split.
    + intros [Hx A]. left. split; [exact Hx|]. intros [E|[]]; congruence.
    + intros [[Hx A]|(sz0 & [E|[]] & Hc)].
      * split; [exact Hx|]. intros E; apply A; auto.
      * discriminate E.
Qed.
End Place.

(** * Allocation *)

(** The adjusted size: the request plus the two tags, rounded up to a
    multiple of 8, and at least 16; no wrap-around up to [2^64 - 16]. *)
Lemma adjust_spec (size : Z) :
  1 <= size <= 2 ^ 64 - 16 ->
  adjust size = Z.max 16 (8 * ((size + 15) / 8)) /\
  16 <= adjust size /\ adjust size mod 8 = 0 /\
  size + 8 <= adjust size /\ adjust size < 2 ^ 64.
Proof.
  intros Hs. unfold adjust, DSIZE.
  pose proof (Z.div_mod (size + 15) 8 ltac:(lia)) as Hd.
  pose proof (Z.mod_pos_bound (size + 15) 8 ltac:(lia)) as Hm.
  destruct (size <=? 8) eqn:E.
  - apply Z.leb_le in E.
    assert ((size + 15) / 8 = 2) by lia.
    split; [lia|]. split; [lia|]. split; [reflexivity|]. lia.
  - apply Z.leb_gt in E.
    rewrite (wrap64_small (size + 8)) by lia.
    replace (size + 8 + (8 - 1)) with (size + 15) by lia.
    rewrite (wrap64_small (size + 15)) by lia.
    rewrite (wrap64_small (8 * ((size + 15) / 8))) by lia.
    split; [lia|]. split; [lia|].
    split; [rewrite Z.mul_comm; apply Z.mod_mul; lia|]. lia.
Qed.


(** ** The blocks left by [place] *)

Lemma total_placed (csize asize : Z) : total (placed csize asize) = csize.
Proof. unfold placed. destruct (16 <=? csize - asize); cbn [total]; lia. Qed.

Lemma placed_size_bounds (csize asize : Z) :
  asize <= csize -> asize <= placed_size csize asize < asize + 16.
Proof.
  intros H. unfold placed_size. destruct (16 <=? csize - asize) eqn:E; [lia|].
  apply Z.leb_gt in E. lia.
Qed.

Lemma placed_block (bp csize asize : Z) :
  In (placed_at bp csize asize, placed_size csize asize, true)
     (layout bp (placed csize asize)).
Proof.
  unfold placed, placed_at, placed_size.
  destruct (16 <=? csize - asize); cbn [layout]; [right|]; left; reflexivity.
Qed.

Lemma placed_live (bp csize asize b bsz : Z) :
  In (b, bsz, true) (layout bp (placed csize asize)) ->
  b = placed_at bp csize asize /\ bsz = placed_size csize asize.
Proof.
  unfold placed, placed_at, placed_size.
  destruct (16 <=? csize - asize); cbn [layout In].
  - intros [E|[E|[]]]; [discriminate E|]. injection E as <- <-. auto.
  - intros [E|[]]. injection E as <- <-. auto.
Qed.

Lemma naf_placed (L1 L2 : layout_t) (csize asize : Z) :
  no_adj_free (L1 ++ (csize, false) :: L2) = true ->
  no_adj_free (L1 ++ placed csize asize ++ L2) = true.
Proof.
  intros Hn. apply naf_mid in Hn. destruct Hn as (A & B & C & D).
  unfold placed. destruct (16 <=? csize - asize).
  - change ([(csize - asize, false); (asize, true)] ++ L2)
      with ((csize - asize, false) :: (asize, true) :: L2).
    apply naf_mid. split; [exact A|]. split; [|split; [exact C|right; reflexivity]].
    change ((asize, true) :: L2) with ([] ++ (asize, true) :: L2).
    apply naf_mid. cbn. auto.
  - cbn [app]. apply naf_mid. auto.
Qed.

Section PlaceAny.
Variables (fuel : nat) (L : layout_t) (F : Z -> list Z) (s : state).
Variables (L1 : layout_t) (csize : Z) (L2 : layout_t) (bp asize : Z).
Hypothesis H : heap_rep L F s.
Hypothesis HL : L = L1 ++ (csize, false) :: L2.
Hypothesis Hbp : bp = first_block s + total L1.
Hypothesis Hfuel : enough fuel s.
Hypothesis Ha16 : 16 <= asize.
Hypothesis Ha8 : asize mod 8 = 0.
Hypothesis Hfit : asize <= csize.
Hypothesis Hnaf : no_adj_free L = true.

Lemma place_spec :
  exists s' F',
    place fuel s bp asize = Some (s', placed_at bp csize asize) /\
    (heap_listp s' = heap_listp s /\ mem_max_addr s' = mem_max_addr s) /\
    heap_rep (L1 ++ placed csize asize ++ L2) F' s' /\
    no_adj_free (L1 ++ placed csize asize ++ L2) = true /\
    same_but (fun a => in_links s F a \/ bp - 4 <= a < bp + csize - 4) s s'.
Proof.
  assert (Hn : no_adj_free (L1 ++ placed csize asize ++ L2) = true).
  { apply naf_placed. rewrite <- HL. exact Hnaf. }
  revert Hn. unfold placed, placed_at.
  destruct (16 <=? csize - asize) eqn:E; intros Hn.
  - apply Z.leb_le in E.
    destruct (place_split fuel L F s L1 csize L2 bp asize H HL Hbp Hfuel Ha16 Ha8 E)
      as (s' & l1 & l2 & _ & Hp & Hg & Hr & Hfr).
    eexists s', _. split; [exact Hp|]. split; [exact Hg|].
    split; [exact Hr|]. split; [exact Hn|exact Hfr].
  - apply Z.leb_gt in E.
    destruct (place_whole fuel L F s L1 csize L2 bp asize H HL Hbp Hfuel Hfit E)
      as (s' & l1 & l2 & _ & Hp & Hg & Hr & Hfr).
    eexists s', _. split; [exact Hp|]. split; [exact Hg|].
    split; [exact Hr|]. split; [exact Hn|exact Hfr].
Qed.
End PlaceAny.

(** ** Growing for a request *)

Lemma extend_heap_none (fuel : nat) (s : state) (words : Z) :
  0 <= words -> 4 * words + 4 < 2 ^ 64 ->
  mem_max_addr s < mem_brk s + 4 * (words + words mod 2) ->
  extend_heap fuel s words = Some (s, NULL).
Proof.
  intros H0 H1 Hno. unfold extend_heap.
  rewrite (extend_size words H0 H1). unfold mem_sbrk.
  replace (mem_brk s + 4 * (words + words mod 2) <=? mem_max_addr s) with false
    by (symmetry; apply Z.leb_gt; lia).
  reflexivity.
Qed.

(** The number of words [malloc] asks [extend_heap] for is even and gives
    back [MAX asize CHUNKSIZE] bytes. *)
Lemma extend_words (asize : Z) :
  16 <= asize -> asize mod 8 = 0 ->
  let words := MAX asize CHUNKSIZE / WSIZE in
  3 <= words /\ 4 * (words + words mod 2) = Z.max asize 512 /\
  asize <= Z.max asize 512.
Proof.
  intros H16 H8. cbv zeta. unfold MAX, WSIZE. change CHUNKSIZE with 512.
  assert (E : (if asize >? 512 then asize else 512) = Z.max asize 512).
  { destruct (asize >? 512) eqn:E; [apply Z.gtb_lt in E|rewrite Z.gtb_ltb in E;
      apply Z.ltb_ge in E]; lia. }
  rewrite E.
  assert (Hm : Z.max asize 512 mod 8 = 0).
  { destruct (Z.max_spec asize 512) as [[_ ->]|[_ ->]]; [reflexivity|exact H8]. }
  pose proof (Z.div_mod (Z.max asize 512) 8 ltac:(lia)) as Hd. rewrite Hm in Hd.
  set (q := Z.max asize 512 / 8) in *.
  assert (Hq : Z.max asize 512 / 4 = 2 * q).
  { rewrite Hd at 1. replace (8 * q + 0) with (q * 2 * 4) by lia.
    rewrite Z.div_mul by lia. lia. }
  rewrite Hq.
  assert (Hq2 : (2 * q) mod 2 = 0) by (rewrite Z.mul_comm; apply Z.mod_mul; lia).
  rewrite Hq2. lia.
Qed.

(** The link fields after the arena grew are those before, or lie in the
    last block. *)
Lemma links_after_extend (La Ma : layout_t) (big : Z) (F F1 : Z -> list Z)
      (s s1 : state) (a : Z) :
  heap_rep (La ++ Ma) F s -> heap_rep (La ++ [(big, false)]) F1 s1 ->
  heap_listp s1 = heap_listp s ->
  in_links s1 F1 a -> in_links s F a \/ first_block s + total La <= a.
Proof.
  intros H H1 Hb [Ha|(k & x & Hk & Hx & Ha)].
  - left. left. rewrite <- Hb. exact Ha.
  - apply (rep_nodes _ _ _ H1 k x Hk) in Hx. destruct Hx as (sz & Hin & Hc).
    unfold first_block in Hin. rewrite Hb in Hin. fold (first_block s) in Hin.
    rewrite layout_app in Hin. apply in_app_or in Hin. destruct Hin as [Hin|Hin].
    + left. right. exists k, x. split; [exact Hk|]. split; [|exact Ha].
      apply (rep_nodes _ _ _ H k x Hk). exists sz. split; [|exact Hc].
      rewrite layout_app. apply in_or_app. left. exact Hin.
    + right. cbn [layout] in Hin. destruct Hin as [E|[]]. injection E as <- _ . lia.
Qed.

Section Malloc.
Variables (fuel : nat) (L : layout_t) (F : Z -> list Z) (s : state) (size : Z).
Hypothesis H : heap_rep L F s.
Hypothesis Hnaf : no_adj_free L = true.
Hypothesis Hfuel : enough fuel s.
Hypothesis Hsize : 1 <= size <= 2 ^ 64 - 16.

(** The three ways [malloc] ends on an initialised heap: a free block
    fits and is placed; no block fits and the arena cannot grow; no block
    fits and the request is placed in the grown last block. *)
Lemma malloc_spec :
  exists s' p,
    malloc fuel s size = Some (s', p) /\
    heap_listp s' = heap_listp s /\ mem_max_addr s' = mem_max_addr s /\
    ((exists L1 csize L2 F',
        L = L1 ++ (csize, false) :: L2 /\
        adjust size <= csize <= 2 ^ 30 /\
        find_fit fuel s (adjust size) = Some (first_block s + total L1) /\
        p = placed_at (first_block s + total L1) csize (adjust size) /\
        heap_rep (L1 ++ placed csize (adjust size) ++ L2) F' s' /\
        no_adj_free (L1 ++ placed csize (adjust size) ++ L2) = true /\
        same_but (fun a => in_links s F a \/
                           first_block s + total L1 - 4 <= a
                             < first_block s + total L1 + csize - 4) s s') \/
     (find_fit fuel s (adjust size) = Some NULL /\
      (forall b sz, In (b, sz, false) (layout (first_block s) L) ->
                    adjust size <= sz -> 2 ^ 30 < sz) /\
      mem_max_addr s < mem_brk s + Z.max (adjust size) 512 /\
      s' = s /\ p = NULL) \/
     (find_fit fuel s (adjust size) = Some NULL /\
      (forall b sz, In (b, sz, false) (layout (first_block s) L) ->
                    adjust size <= sz -> 2 ^ 30 < sz) /\
      mem_brk s + Z.max (adjust size) 512 <= mem_max_addr s /\
      exists La Ma F',
        L = La ++ Ma /\ Forall (fun b => snd b = false) Ma /\
        p = placed_at (first_block s + total La)
                      (total Ma + Z.max (adjust size) 512) (adjust size) /\
        heap_rep (La ++ placed (total Ma + Z.max (adjust size) 512) (adjust size))
                 F' s' /\
        no_adj_free (La ++ placed (total Ma + Z.max (adjust size) 512) (adjust size))
          = true /\
        same_but (fun a => in_links s F a \/ first_block s + total La - 4 <= a) s s')).
Proof.
  pose proof (rep_geom _ _ _ H) as Hg.
  pose proof (geom_base _ _ Hg) as Hbase.
  destruct (adjust_spec size Hsize) as (_ & Ha16 & Ha8 & Hpay & Ha64).
  set (asize := adjust size) in *.
  destruct (extend_words asize Ha16 Ha8) as (Hw3 & Hw4 & Hwa).
  unfold malloc.
  replace (heap_listp s =? 0) with false by (symmetry; apply Z.eqb_neq; lia).
  cbn [bind].
  replace (size =? 0) with false by (symmetry; apply Z.eqb_neq; lia).
  cbv zeta. fold asize.
  destruct (find_fit_spec fuel L F s asize H Hfuel) as (r & Hff & [[-> Hno]|[Hr Hfit]]).
  - (* no fit *)
    rewrite Hff. cbn [bind]. change (negb (NULL =? NULL)) with false. cbv iota.
    set (words := MAX asize CHUNKSIZE / WSIZE) in *.
    destruct (Z_le_gt_dec (mem_brk s + Z.max asize 512) (mem_max_addr s)) as [Hroom|Hroom].
    + destruct (extend_heap_spec fuel L F s words H Hnaf Hfuel Hw3 ltac:(lia))
        as (s1 & r & La & Ma & F1 & He & HL & HMa & Er & Hr1 & Hn1 & Hb1 & Hm1 & Hbrk1 & Hfr1).
      rewrite Hw4 in *.
      rewrite He. cbn [bind].
      pose proof (geom_total _ _ Hg) as Ht.
      assert (HtM : 0 <= total Ma).
      { pose proof (geom_sizes _ _ Hg) as Hs. rewrite HL in Hs.
        apply sizes_ok_app in Hs. apply total_nonneg, Hs. }
      replace (r =? NULL) with false
        by (symmetry; apply Z.eqb_neq; unfold NULL, first_block in *;
            pose proof (total_nonneg La); rewrite HL in Hg;
            pose proof (geom_sizes _ _ Hg) as Hs; apply sizes_ok_app in Hs;
            pose proof (total_nonneg La (proj1 Hs)); lia).
      assert (Hf1 : enough fuel s1) by (unfold enough in *; rewrite Hb1, Hm1; exact Hfuel).
      assert (Er1 : r = first_block s1 + total La)
        by (unfold first_block in *; rewrite Hb1; exact Er).
      destruct (place_spec fuel _ F1 s1 La (total Ma + Z.max asize 512) [] r asize
                  Hr1 eq_refl Er1 Hf1 Ha16 Ha8 ltac:(lia) Hn1)
        as (s' & F' & Hp & [Hb' Hm'] & Hr' & Hn' & Hfr').
      rewrite Hp. exists s', (placed_at r (total Ma + Z.max asize 512) asize).
      split; [reflexivity|]. split; [congruence|]. split; [congruence|].
      right. right. split; [reflexivity|]. split; [exact Hno|]. split; [exact Hroom|].
      exists La, Ma, F'. rewrite app_nil_r in Hr', Hn'.
      split; [exact HL|]. split; [exact HMa|]. split; [rewrite Er; reflexivity|].
      split; [exact Hr'|]. split; [exact Hn'|].
      intros a Ha. rewrite (Hfr' a), (Hfr1 a); [reflexivity| |].
      * intros [Hl|Hl]; apply Ha; [left; exact Hl|right; lia].
      * rewrite HL in H.
        intros [Hl|Hl]; apply Ha; [|right; lia].
        destruct (links_after_extend La Ma _ F F1 s s1 a H Hr1 Hb1 Hl) as [Hq|Hq];
          [left; exact Hq|right; lia].
    + rewrite (extend_heap_none fuel s words); [| | |lia].
      * cbn [bind]. change (NULL =? NULL) with true. cbv iota.
        exists s, NULL. split; [reflexivity|]. split; [reflexivity|].
        split; [reflexivity|]. right. left.
        split; [reflexivity|]. split; [exact Hno|]. split; [lia|]. auto.
      * lia.
      * pose proof (Z.mod_pos_bound words 2 ltac:(lia)).
        pose proof (Z.div_mod asize 8 ltac:(lia)) as Hd. rewrite Ha8 in Hd.
        destruct (Z.max_spec asize 512); lia.
  - (* a fit *)
    destruct Hfit as (csize & Hin & Hc).
    rewrite Hff. cbn [bind].
    replace (negb (r =? NULL)) with true
      by (symmetry; apply negb_true_iff, Z.eqb_neq; exact Hr).
    cbv iota.
    destruct (layout_split _ _ _ _ _ Hin) as (L1 & L2 & HL & Er).
    destruct (place_spec fuel L F s L1 csize L2 r asize H HL Er Hfuel Ha16 Ha8
                ltac:(lia) Hnaf)
      as (s' & F' & Hp & [Hb' Hm'] & Hr' & Hn' & Hfr').
    rewrite Hp. exists s', (placed_at r csize asize).
    split; [reflexivity|]. split; [exact Hb'|]. split; [exact Hm'|].
    left. exists L1, csize, L2, F'. rewrite <- Er.
    split; [exact HL|]. split; [exact Hc|]. split; [reflexivity|].
    split; [reflexivity|]. split; [exact Hr'|]. split; [exact Hn'|exact Hfr'].
Qed.
End Malloc.

(** ** Live blocks across an allocation *)

(** An operation that rewrites a run [M] of free blocks into [M'], whose
    only allocated block is the one at [p], and writes nothing but link
    fields outside the run: the allocated blocks afterwards are the new
    one and those before, which hold the same bytes. *)
Lemma live_kept (s s' : state) (F : Z -> list Z) (La M Lb M' : layout_t)
      (p psz : Z) :
  heap_rep (La ++ M ++ Lb) F s ->
  Forall (fun b => snd b = false) M ->
  sizes_ok M' ->
  total M' = total M \/ Lb = [] ->
  (forall a, ~ in_links s F a ->
     a < first_block s + total La - 4 \/
     (Lb <> [] /\ first_block s + total La + total M - 4 <= a) ->
     bytes s' a = bytes s a) ->
  (forall b bsz, In (b, bsz, true) (layout (first_block s + total La) M') ->
     b = p /\ bsz = psz) ->
  first_block s + total La <= p ->
  (forall b bsz, In (b, bsz, true) (layout (first_block s) (La ++ M' ++ Lb)) ->
     (b = p /\ bsz = psz) \/
     In (b, bsz, true) (layout (first_block s) (La ++ M ++ Lb))) /\
  (forall b bsz, In (b, bsz, true) (layout (first_block s) (La ++ M ++ Lb)) ->
     In (b, bsz, true) (layout (first_block s) (La ++ M' ++ Lb)) /\
     (b + bsz <= p \/ first_block s + total La + total M' <= b) /\
     forall a, b - 4 <= a < b + bsz - 4 -> bytes s' a = bytes s a).
Proof.
  intros H HM HsM' HT Hfr Hnew Hp.
  pose proof (rep_geom _ _ _ H) as Hg.
  pose proof (geom_sizes _ _ Hg) as Hs.
  apply sizes_ok_app in Hs. destruct Hs as [HsA Hs].
  apply sizes_ok_app in Hs. destruct Hs as [HsM HsB].
  split.
  - intros b bsz Hin. rewrite !layout_app in *.
    apply in_app_or in Hin. destruct Hin as [Hin|Hin].
    + right. apply in_or_app. left. exact Hin.
    + apply in_app_or in Hin. destruct Hin as [Hin|Hin].
      * left. apply Hnew, Hin.
      * right. apply in_or_app. right. apply in_or_app. right.
        destruct HT as [HT| ->]; [rewrite <- HT; exact Hin|destruct Hin].
  - intros b bsz Hin.
    assert (Hcase : (In (b, bsz, true) (layout (first_block s) La)) \/
                    (Lb <> [] /\
                     In (b, bsz, true)
                        (layout (first_block s + total La + total M) Lb))).
    { rewrite !layout_app in Hin. apply in_app_or in Hin.
      destruct Hin as [Hin|Hin]; [left; exact Hin|].
      apply in_app_or in Hin. destruct Hin as [Hin|Hin].
      - pose proof (layout_all_free _ _ _ _ _ HM Hin). discriminate.
      - right. split; [|exact Hin]. intros ->. destruct Hin. }
    split; [|split].
    + rewrite !layout_app. apply in_or_app.
      destruct Hcase as [Hc|[Hne Hc]]; [left; exact Hc|right].
      apply in_or_app. right.
      destruct HT as [HT|HT]; [rewrite HT; exact Hc|contradiction].
    + destruct Hcase as [Hc|[Hne Hc]].
      * pose proof (layout_range _ _ _ _ _ HsA Hc). left. lia.
      * pose proof (layout_range _ _ _ _ _ HsB Hc). right.
        destruct HT as [HT|HT]; [lia|contradiction].
    + intros a Ha. apply Hfr.
      * intros Hl. apply (links_not_live s _ F a b bsz Hg (rep_nodes_in _ _ _ H) Hl Hin Ha).
      * destruct Hcase as [Hc|[Hne Hc]].
        -- pose proof (layout_range _ _ _ _ _ HsA Hc). left. lia.
        -- pose proof (layout_range _ _ _ _ _ HsB Hc). right. split; [exact Hne|lia].
Qed.

Lemma sizes_ok_placed (csize asize : Z) :
  16 <= asize -> asize mod 8 = 0 -> asize <= csize -> csize mod 8 = 0 ->
  sizes_ok (placed csize asize).
Proof.
  intros H16 H8 Hle Hc. unfold placed, sizes_ok.
  destruct (16 <=? csize - asize) eqn:E.
  - apply Z.leb_le in E. repeat constructor; cbn [fst]; try lia.
    rewrite Zminus_mod, Hc, H8. reflexivity.
  - repeat constructor; cbn [fst]; try lia.
Qed.

Section MallocLive.
Variables (fuel : nat) (L : layout_t) (F : Z -> list Z) (s : state) (size : Z).
Hypothesis H : heap_rep L F s.
Hypothesis Hnaf : no_adj_free L = true.
Hypothesis Hfuel : enough fuel s.
Hypothesis Hsize : 1 <= size <= 2 ^ 64 - 16.

(** [malloc] on an initialised heap returns; with [NULL] nothing has
    changed; otherwise the pointer is a new allocated block of the
    adjusted size or up to 8 bytes more, the heap is represented without
    adjacent free blocks, and the blocks allocated before are still
    there, apart from the new one and with their bytes unchanged. *)
Lemma malloc_live :
  exists s' p,
    malloc fuel s size = Some (s', p) /\
    heap_listp s' = heap_listp s /\ mem_max_addr s' = mem_max_addr s /\
    ((p = NULL /\ s' = s) \/
     (p <> NULL /\ exists L' F' sz,
        heap_rep L' F' s' /\ no_adj_free L' = true /\
        In (p, sz, true) (layout (first_block s) L') /\
        adjust size <= sz < adjust size + 16 /\
        (forall b bsz, In (b, bsz, true) (layout (first_block s) L') ->
           (b = p /\ bsz = sz) \/ In (b, bsz, true) (layout (first_block s) L)) /\
        (forall b bsz, In (b, bsz, true) (layout (first_block s) L) ->
           In (b, bsz, true) (layout (first_block s) L') /\
           (b + bsz <= p \/ p + sz <= b) /\
           forall a, b - 4 <= a < b + bsz - 4 -> bytes s' a = bytes s a))).
Proof.
  pose proof (rep_geom _ _ _ H) as Hg.
  destruct (adjust_spec size Hsize) as (_ & Ha16 & Ha8 & Hpay & Ha64).
  destruct (malloc_spec fuel L F s size H Hnaf Hfuel Hsize)
    as (s' & p & Hm & Hb & Hmx & [Hfit|[Hfail|Hgrow]]).
  - destruct Hfit as (L1 & csize & L2 & F' & HL & Hc & _ & Ep & Hr' & Hn' & Hfr).
    set (asize := adjust size) in *. set (bp := first_block s + total L1) in *.
    assert (Hin : In (bp, csize, false) (layout (first_block s) L)).
    { rewrite HL. apply layout_mid. }
    pose proof (geom_block _ _ _ _ _ Hg Hin) as (B1 & B2 & B3 & B4 & B5 & B6).
    assert (HLM : L = L1 ++ [(csize, false)] ++ L2) by (rewrite HL; reflexivity).
    rewrite HLM in H.
    destruct (live_kept s s' F L1 [(csize, false)] L2 (placed csize asize)
                p (placed_size csize asize) H
                ltac:(repeat constructor)
                (sizes_ok_placed csize asize Ha16 Ha8 ltac:(lia) B4)
                ltac:(left; rewrite total_placed; cbn [total]; lia))
      as [Hnew Hold].
    { intros a Hl Ha. apply Hfr. intros [Hq|Hq]; [contradiction|].
      fold bp in Ha. cbn [total] in Ha. lia. }
    { intros b bsz Hq. rewrite Ep. apply (placed_live _ _ _ _ _ Hq). }
    { rewrite Ep. fold bp. unfold placed_at. destruct (16 <=? csize - asize) eqn:E;
        [apply Z.leb_le in E|]; lia. }
    exists s', p. split; [exact Hm|]. split; [exact Hb|]. split; [exact Hmx|].
    right. split.
    { rewrite Ep. fold bp. unfold placed_at, NULL.
      destruct (16 <=? csize - asize) eqn:E; [apply Z.leb_le in E|];
        unfold first_block in *; pose proof (geom_base _ _ Hg); lia. }
    exists (L1 ++ placed csize asize ++ L2), F', (placed_size csize asize).
    split; [exact Hr'|]. split; [exact Hn'|]. split.
    { rewrite layout_app. apply in_or_app. right.
      rewrite layout_app. apply in_or_app. left. rewrite Ep. apply placed_block. }
    split; [apply placed_size_bounds; lia|]. rewrite HLM.
    split; [exact Hnew|].
    intros b bsz Hq. destruct (Hold b bsz Hq) as (A & B & C).
    split; [exact A|]. split; [|exact C].
    destruct B as [B|B]; [left; exact B|right].
    rewrite total_placed in B. fold bp in B.
    assert (p + placed_size csize asize = bp + csize); [|lia].
    rewrite Ep. fold bp. unfold placed_at, placed_size.
    destruct (16 <=? csize - asize); lia.
  - destruct Hfail as (_ & _ & _ & -> & ->).
    exists s, NULL. split; [exact Hm|]. split; [reflexivity|]. split; [reflexivity|].
    left. auto.
  - destruct Hgrow as (_ & _ & Hroom & La & Ma & F' & HL & HMa & Ep & Hr' & Hn' & Hfr).
    set (asize := adjust size) in *. set (bp := first_block s + total La) in *.
    set (big := total Ma + Z.max asize 512) in *.
    assert (HsM : sizes_ok Ma).
    { pose proof (geom_sizes _ _ Hg) as Hs. rewrite HL in Hs.
      apply sizes_ok_app in Hs. apply Hs. }
    assert (HsA : sizes_ok La).
    { pose proof (geom_sizes _ _ Hg) as Hs. rewrite HL in Hs.
      apply sizes_ok_app in Hs. apply Hs. }
    pose proof (total_nonneg _ HsM) as HtM. pose proof (total_nonneg _ HsA) as HtA.
    assert (Hbig8 : big mod 8 = 0).
    { pose proof (geom_sizes _ _ (rep_geom _ _ _ Hr')) as Hs.
      apply sizes_ok_app in Hs. destruct Hs as [_ Hs].
      pose proof (total_placed big asize) as Ht.
      clear - Hs Ht. unfold placed in *.
      destruct (16 <=? big - asize).
      - apply Forall_cons_iff in Hs. destruct Hs as [[_ A] Hs].
        apply Forall_cons_iff in Hs. destruct Hs as [[_ B] _]. cbn [fst] in *.
        replace big with ((big - asize) + asize) by lia.
        rewrite Z.add_mod, A, B by lia. reflexivity.
      - apply Forall_cons_iff in Hs. destruct Hs as [[_ A] _]. exact A. }
    assert (HLM : L = La ++ Ma ++ []) by (rewrite app_nil_r; exact HL).
    rewrite HLM in H.
    destruct (live_kept s s' F La Ma [] (placed big asize)
                p (placed_size big asize) H HMa
                (sizes_ok_placed big asize Ha16 Ha8 ltac:(unfold big; lia) Hbig8)
                ltac:(right; reflexivity))
      as [Hnew Hold].
    { intros a Hl Ha. apply Hfr. intros [Hq|Hq]; [contradiction|].
      fold bp in Ha. destruct Ha as [Ha|[Ha _]]; [lia|apply Ha; reflexivity]. }
    { intros b bsz Hq. rewrite Ep. apply (placed_live _ _ _ _ _ Hq). }
    { rewrite Ep. fold bp. unfold placed_at. destruct (16 <=? big - asize) eqn:E;
        [apply Z.leb_le in E|]; lia. }
    exists s', p. split; [exact Hm|]. split; [exact Hb|]. split; [exact Hmx|].
    right. split.
    { rewrite Ep. fold bp. unfold placed_at, NULL.
      destruct (16 <=? big - asize) eqn:E; [apply Z.leb_le in E|];
        unfold first_block in *; pose proof (geom_base _ _ Hg); lia. }
    exists (La ++ placed big asize), F', (placed_size big asize).
    split; [exact Hr'|]. split; [exact Hn'|]. split.
    { rewrite layout_app. apply in_or_app. right. rewrite Ep. apply placed_block. }
    split; [apply placed_size_bounds; unfold big; lia|]. rewrite HLM.
    rewrite !app_nil_r in *.
    split; [exact Hnew|].
    intros b bsz Hq. destruct (Hold b bsz Hq) as (A & B & C).
    split; [exact A|]. split; [|exact C].
    destruct B as [B|B]; [left; exact B|right].
    rewrite total_placed in B. fold bp in B.
    assert (p + placed_size big asize = bp + big); [|lia].
    rewrite Ep. fold bp. unfold placed_at, placed_size.
    destruct (16 <=? big - asize); lia.
Qed.
End MallocLive.

(** ** The first call *)


(** ** Alignment and payload of the block handed out *)


(** * Writes of the client and of [memset], [memcpy] *)





(** * [calloc] *)



(** * [realloc] *)


Section Realloc.
Variables (fuel : nat) (L : layout_t) (F : Z -> list Z) (s : state).
Variables (L1 : layout_t) (old : Z) (L2 : layout_t) (ptr asize : Z).
Hypothesis H : heap_rep L F s.
Hypothesis Hnaf : no_adj_free L = true.
Hypothesis Hfuel : enough fuel s.
Hypothesis HL : L = L1 ++ (old, true) :: L2.
Hypothesis Hptr : ptr = first_block s + total L1.
Hypothesis Ha16 : 16 <= asize.
Hypothesis Ha8 : asize mod 8 = 0.
Hypothesis Ha64 : asize <= 2 ^ 64 - 24.



End Realloc.

Section ReallocNext.
Variables (fuel : nat) (L : layout_t) (F : Z -> list Z) (s : state).
Variables (L1 : layout_t) (old nsz : Z) (L2 : layout_t) (ptr asize : Z).
Hypothesis H : heap_rep L F s.
Hypothesis Hnaf : no_adj_free L = true.
Hypothesis Hfuel : enough fuel s.
Hypothesis HL : L = L1 ++ (old, true) :: (nsz, false) :: L2.
Hypothesis Hptr : ptr = first_block s + total L1.
Hypothesis Ha16 : 16 <= asize.
Hypothesis Ha8 : asize mod 8 = 0.





End ReallocNext.


(** * Every operation keeps the heap well formed *)



(** * Tags and link fields *)

(** A tag written with [PUT] and [PACK] reads back: [GET_SIZE] returns the
    size and [GET_ALLOC] the flag, for every size that is a multiple of 8
    and fits a word. *)
Theorem tag_round_trip (s : state) (p size alloc : Z) :
  0 <= size < 2 ^ 32 -> size mod 8 = 0 -> alloc = 0 \/ alloc = 1 ->
  GET_SIZE (PUT s p (PACK size alloc)) p = size /\
  GET_ALLOC (PUT s p (PACK size alloc)) p = alloc.
Proof.
  intros Hs H8 Ha.
  assert (Hlt : size + 1 < 2 ^ 32).
  { assert (size <> 2 ^ 32 - 1) by (intros ->; discriminate). lia. }
  assert (exists al, alloc = flag al) as [al ->].
  { destruct Ha as [-> | ->]; [exists false|exists true]; reflexivity. }
  pose proof (PUT_tag s p size al ltac:(lia) Hlt H8) as Ht.
  split.
  - apply (tag_size _ _ _ al); auto. lia.
  - apply (tag_alloc _ _ size); auto.
Qed.

Lemma tag_round_trip_witness :
  GET_SIZE (PUT booted 4196 (PACK 512 1)) 4196 = 512 /\
  GET_ALLOC (PUT booted 4196 (PACK 512 1)) 4196 = 1.
Proof.
  apply (tag_round_trip booted 4196 512 1).
  - split; [lia|reflexivity].
  - reflexivity.
  - right. reflexivity.
Defined.

(** Whatever word is stored at [p], [GET_SIZE] clears its three low bits
    and [GET_ALLOC] keeps the lowest one: the size read is a multiple of 8,
    and size and flag differ from the word by its bits 1 and 2 only. *)
Theorem GET_SIZE_clears_low_bits (s : state) (p : Z) :
  GET_SIZE s p mod 8 = 0 /\
  GET_SIZE s p = GET s p - GET s p mod 8 /\
  GET_ALLOC s p = GET s p mod 2 /\
  0 <= GET_SIZE s p <= GET s p /\ GET s p < 2 ^ 32.
Proof.
  unfold GET_SIZE, GET_ALLOC, GET.
  pose proof (load_le_range 4 (bytes s) p) as Hr.
  change (2 ^ (8 * Z.of_nat 4)) with (2 ^ 32) in Hr.
  rewrite land_mask by exact Hr. rewrite land_one.
  set (w := load_le (bytes s) p 4) in *.
  pose proof (Z.div_mod w 8 ltac:(lia)).
  pose proof (Z.mod_pos_bound w 8 ltac:(lia)).
  repeat split; try lia.
  rewrite Z.mul_comm. apply Z.mod_mul. lia.
Qed.

(** The two link fields of a free block are independent 64-bit cells that
    do not overlap the header: writing one reads back and leaves the other
    and the header as they were. *)
Theorem link_fields_round_trip (s : state) (bp v : Z) :
  0 <= v < 2 ^ 64 ->
  GET_NEXT_PTR (PUT_NEXT_PTR s bp v) bp = v /\
  GET_PRED_PTR (PUT_NEXT_PTR s bp v) bp = GET_PRED_PTR s bp /\
  GET (PUT_NEXT_PTR s bp v) (HDRP bp) = GET s (HDRP bp) /\
  GET_PRED_PTR (PUT_PRED_PTR s bp v) bp = v /\
  GET_NEXT_PTR (PUT_PRED_PTR s bp v) bp = GET_NEXT_PTR s bp /\
  GET (PUT_PRED_PTR s bp v) (HDRP bp) = GET s (HDRP bp).
Proof.
  intros Hv.
  unfold GET_NEXT_PTR, GET_PRED_PTR, PUT_NEXT_PTR, PUT_PRED_PTR, GET, HDRP,
    WSIZE, DSIZE.
  cbn [bytes set_bytes].
  rewrite !load_store_same.
  change (2 ^ (8 * Z.of_nat 8)) with (2 ^ 64).
  rewrite Z.mod_small by exact Hv.
  repeat split; try reflexivity;
    apply load_store_other; change (Z.of_nat 8) with 8; change (Z.of_nat 4) with 4; lia.
Qed.

Lemma link_fields_round_trip_witness :
  GET_NEXT_PTR (PUT_NEXT_PTR booted 4200 4680) 4200 = 4680 /\
  GET_PRED_PTR (PUT_NEXT_PTR booted 4200 4680) 4200 = GET_PRED_PTR booted 4200 /\
  GET (PUT_NEXT_PTR booted 4200 4680) (HDRP 4200) = GET booted (HDRP 4200) /\
  GET_PRED_PTR (PUT_PRED_PTR booted 4200 4680) 4200 = 4680 /\
  GET_NEXT_PTR (PUT_PRED_PTR booted 4200 4680) 4200 = GET_NEXT_PTR booted 4200 /\
  GET (PUT_PRED_PTR booted 4200 4680) (HDRP 4200) = GET booted (HDRP 4200).
Proof.
  apply (link_fields_round_trip booted 4200 4680). split; [lia|reflexivity].
Defined.

(** * The table of list heads *)

(** [set_list_head] followed by [find_list_head]: the head of the class of
    [size] is the pointer just stored, for every size of that class; the
    heads of the other classes, the anchors and the arena are unchanged. *)
Theorem set_then_find_list_head (s : state) (size v size' : Z) :
  find_list_head (set_list_head s size v) size' =
    (if class_of size' =? class_of size then v else find_list_head s size') /\
  find_list_tail (set_list_head s size v) size' = find_list_tail s size' /\
  bytes (set_list_head s size v) = bytes s /\
  mem_brk (set_list_head s size v) = mem_brk s /\
  heap_listp (set_list_head s size v) = heap_listp s.
Proof.
  split; [|split; [|split; [|split]]].
  - rewrite !find_list_head_class.
    apply set_list_head_head. apply class_of_range.
  - rewrite !find_list_tail_anchor. apply anchor_set_list_head.
  - apply set_list_head_bytes.
  - apply set_list_head_brk.
  - apply set_list_head_base.
Qed.

(** The anchor chosen by [find_list_tail] is one of the eleven 8-byte
    slots at the start of the prologue payload, and a larger size never
    gets a lower slot. *)
Theorem find_list_tail_in_prologue (s : state) (size size' : Z) :
  size <= size' ->
  heap_listp s <= find_list_tail s size /\
  find_list_tail s size <= find_list_tail s size' /\
  find_list_tail s size' <= heap_listp s + 80 /\
  (find_list_tail s size - heap_listp s) mod 8 = 0.
Proof.
  intros H. rewrite !find_list_tail_anchor. unfold anchor, DSIZE.
  pose proof (class_of_range size). pose proof (class_of_range size').
  pose proof (class_of_mono size size' H).
  repeat split; try lia.
  replace (heap_listp s + 8 * class_of size - heap_listp s)
    with (class_of size * 8) by lia.
  apply Z.mod_mul. lia.
Qed.

Lemma find_list_tail_in_prologue_witness :
  heap_listp booted <= find_list_tail booted 24 /\
  find_list_tail booted 24 <= find_list_tail booted 4000 /\
  find_list_tail booted 4000 <= heap_listp booted + 80 /\
  (find_list_tail booted 24 - heap_listp booted) mod 8 = 0.
Proof. apply (find_list_tail_in_prologue booted 24 4000). lia. Defined.

(** * The free lists *)

Lemma lists_ok_ext (s : state) (F F' : Z -> list Z) :
  (forall j, 0 <= j <= 10 -> F' j = F j) -> lists_ok s F -> lists_ok s F'.
Proof. intros E H k Hk. rewrite (E k Hk). apply H, Hk. Qed.

Lemma sep_base_eq (s s' : state) (F : Z -> list Z) :
  heap_listp s' = heap_listp s -> sep s F -> sep s' F.
Proof.
  intros Hb Hs. apply (sep_sub s s' F F); auto. apply Hs.
Qed.

(** [add_to_free_list] appends: when the lists [F] are linked in memory
    and the block [bp], of class [k] by its header, lies apart from every
    listed node, the list of class [k] becomes [F k ++ [bp]], [bp] is the
    new head of the class with a [NULL] next field, the other lists stay,
    and no byte outside the link fields of the nodes changes. *)
Theorem add_to_free_list_appends (s : state) (F : Z -> list Z) (bp k : Z) :
  lists_ok s F ->
  class_of (GET_SIZE s (HDRP bp)) = k ->
  sep s (upd F k (F k ++ [bp])) ->
  lists_ok (add_to_free_list s bp) (upd F k (F k ++ [bp])) /\
  find_list_head (add_to_free_list s bp) (GET_SIZE s (HDRP bp)) = bp /\
  GET_NEXT_PTR (add_to_free_list s bp) bp = NULL /\
  heap_listp (add_to_free_list s bp) = heap_listp s /\
  mem_brk (add_to_free_list s bp) = mem_brk s /\
  (forall a, ~ in_links s (upd F k (F k ++ [bp])) a ->
             bytes (add_to_free_list s bp) a = bytes s a).
Proof.
  intros Hl Hk Hs.
  destruct (add_to_free_list_spec s F bp k Hl Hk Hs) as (Hl' & Hb & Hbrk & _ & Hfr).
  pose proof (class_of_range (GET_SIZE s (HDRP bp))) as Hkr. rewrite Hk in Hkr.
  destruct (Hl' k Hkr) as [Hseg Hhead]. rewrite upd_same in Hseg, Hhead.
  split; [exact Hl'|]. split; [|split; [|auto]].
  - rewrite find_list_head_class, Hk, Hhead. apply last_last.
  - apply lseg_split in Hseg. destruct Hseg as (_ & _ & _ & E). exact E.
Qed.

Lemma add_to_free_list_appends_witness :
  lists_ok (add_to_free_list tagged_free 4680)
           (upd booted_lists 0 (booted_lists 0 ++ [4680])) /\
  find_list_head (add_to_free_list tagged_free 4680)
                 (GET_SIZE tagged_free (HDRP 4680)) = 4680 /\
  GET_NEXT_PTR (add_to_free_list tagged_free 4680) 4680 = NULL /\
  heap_listp (add_to_free_list tagged_free 4680) = heap_listp tagged_free /\
  mem_brk (add_to_free_list tagged_free 4680) = mem_brk tagged_free /\
  (forall a, ~ in_links tagged_free (upd booted_lists 0 (booted_lists 0 ++ [4680])) a ->
             bytes (add_to_free_list tagged_free 4680) a = bytes tagged_free a).
Proof.
  apply (add_to_free_list_appends tagged_free booted_lists 4680 0).
  - apply lists_okb_sound. vm_compute. reflexivity.
  - vm_compute. reflexivity.
  - apply sepb_sound. vm_compute. reflexivity.
Defined.

(** [remove_frome_free_list] unlinks: when [bp] is a node of the list of
    its class, [F k = l1 ++ bp :: l2], and the fuel outlasts the walk to
    its predecessor, the call returns, the list becomes [l1 ++ l2], the
    other lists stay, and no byte outside the link fields changes. *)
Theorem remove_frome_free_list_unlinks (fuel : nat) (s : state) (F : Z -> list Z)
        (bp k : Z) (l1 l2 : list Z) :
  lists_ok s F -> sep s F ->
  class_of (GET_SIZE s (HDRP bp)) = k ->
  F k = l1 ++ bp :: l2 ->
  (length l1 < fuel)%nat ->
  exists s',
    remove_frome_free_list fuel s bp = Some s' /\
    lists_ok s' (upd F k (l1 ++ l2)) /\
    heap_listp s' = heap_listp s /\
    mem_brk s' = mem_brk s /\
    (forall a, ~ in_links s F a -> bytes s' a = bytes s a).
Proof.
  intros Hl Hs Hk HF Hfuel.
  destruct (remove_spec fuel s F bp k l1 l2 Hl Hs Hk HF Hfuel)
    as (s' & E & Hl' & Hb & Hbrk & _ & Hfr).
  exists s'. auto.
Qed.

Lemma remove_frome_free_list_unlinks_witness :
  exists s',
    remove_frome_free_list 100 before_coalesce 4680 = Some s' /\
    lists_ok s' (upd before_coalesce_lists 0 ([] ++ [])) /\
    heap_listp s' = heap_listp before_coalesce /\
    mem_brk s' = mem_brk before_coalesce /\
    (forall a, ~ in_links before_coalesce before_coalesce_lists a ->
               bytes s' a = bytes before_coalesce a).
Proof.
  apply (remove_frome_free_list_unlinks 100 before_coalesce before_coalesce_lists
           4680 0 [] []).
  - apply lists_okb_sound. vm_compute. reflexivity.
  - apply sepb_sound. vm_compute. reflexivity.
  - vm_compute. reflexivity.
  - reflexivity.
  - cbn. lia.
Defined.

(** Removing a block right after adding it restores every list: the lists
    are again [F], and memory differs from the start at most in the link
    fields of the nodes and of [bp]. *)
Theorem add_then_remove_restores (fuel : nat) (s : state) (F : Z -> list Z) (bp k : Z) :
  lists_ok s F ->
  class_of (GET_SIZE s (HDRP bp)) = k ->
  sep s (upd F k (F k ++ [bp])) ->
  (length (F k) < fuel)%nat ->
  exists s',
    remove_frome_free_list fuel (add_to_free_list s bp) bp = Some s' /\
    lists_ok s' F /\
    heap_listp s' = heap_listp s /\
    mem_brk s' = mem_brk s /\
    (forall a, ~ in_links s (upd F k (F k ++ [bp])) a -> bytes s' a = bytes s a).
Proof.
  intros Hl Hk Hs Hfuel.
  set (F1 := upd F k (F k ++ [bp])) in *.
  pose proof (class_of_range (GET_SIZE s (HDRP bp))) as Hkr. rewrite Hk in Hkr.
  destruct (add_to_free_list_spec s F bp k Hl Hk Hs) as (Hl1 & Hb1 & Hbrk1 & _ & Hfr1).
  fold F1 in Hl1, Hfr1.
  set (s1 := add_to_free_list s bp) in *.
  assert (Hin : In bp (F1 k)).
  { unfold F1. rewrite upd_same. apply in_or_app. right. left. reflexivity. }
  assert (Hk1 : class_of (GET_SIZE s1 (HDRP bp)) = k).
  { rewrite (GET_SIZE_same s s1); [exact Hk|].
    intros a Ha. apply Hfr1. unfold HDRP, WSIZE in Ha.
    apply (sep_header_not_links s F1 k bp); auto. lia. }
  assert (HF1 : F1 k = F k ++ bp :: []) by (unfold F1; apply upd_same).
  destruct (remove_spec fuel s1 F1 bp k (F k) [] Hl1 (sep_base_eq s s1 F1 Hb1 Hs)
              Hk1 HF1 Hfuel) as (s' & E & Hl' & Hb' & Hbrk' & _ & Hfr').
  exists s'. split; [exact E|]. split; [|split; [congruence|split; [congruence|]]].
  - apply (lists_ok_ext s' (upd F1 k (F k ++ []))); [|exact Hl'].
    intros j Hj. unfold upd, F1, upd. destruct (j =? k) eqn:Ej.
    + apply Z.eqb_eq in Ej. subst j. rewrite app_nil_r. reflexivity.
    + reflexivity.
  - intros a Ha. rewrite Hfr'; [apply Hfr1; exact Ha|].
    intros Hla. apply Ha. apply (in_links_sub s s1 F1 F1); auto.
Qed.

Lemma add_then_remove_restores_witness :
  exists s',
    remove_frome_free_list 100 (add_to_free_list tagged_free 4680) 4680 = Some s' /\
    lists_ok s' booted_lists /\
    heap_listp s' = heap_listp tagged_free /\
    mem_brk s' = mem_brk tagged_free /\
    (forall a, ~ in_links tagged_free (upd booted_lists 0 (booted_lists 0 ++ [4680])) a ->
               bytes s' a = bytes tagged_free a).
Proof.
  apply (add_then_remove_restores 100 tagged_free booted_lists 4680 0).
  - apply lists_okb_sound. vm_compute. reflexivity.
  - vm_compute. reflexivity.
  - apply sepb_sound. vm_compute. reflexivity.
  - cbn. lia.
Defined.

(** * Coalescing *)

(** Case 1 of [coalesce]: at a free block whose two neighbours are
    allocated (the prologue and the epilogue count as allocated) nothing
    changes and the block itself is returned, whatever the fuel. *)
Theorem coalesce_between_allocated (fuel : nat) (L : layout_t) (F : Z -> list Z)
        (s : state) (L1 : layout_t) (sz : Z) (L2 : layout_t) (bp : Z) :
  heap_rep L F s -> L = L1 ++ (sz, false) :: L2 ->
  bp = first_block s + total L1 ->
  last_alloc L1 = true -> first_alloc L2 = true ->
  coalesce fuel s bp = Some (s, bp).
Proof.
  intros H HL Hbp Hla Hfa.
  destruct (prev_info _ _ _ _ _ _ _ _ H HL Hbp) as (psz & pal & Hp & Hpc).
  assert (pal = true) as ->.
  { destruct Hpc as [(_ & _ & E)|(L1' & E)]; [exact E|].
    rewrite E, last_alloc_snoc in Hla. exact Hla. }
  apply (coalesce_case1 fuel L F s L1 sz L2 bp H HL Hbp psz Hp).
  destruct L2 as [|[nsz nal] L2']; [left; reflexivity|right].
  cbn [first_alloc] in Hfa. subst nal. eauto.
Qed.

Lemma coalesce_between_allocated_witness :
  coalesce 0 booted 4200 = Some (booted, 4200).
Proof.
  apply (coalesce_between_allocated 0 [(512, false)] booted_lists booted [] 512 [] 4200).
  - apply rep_check_sound. vm_compute. reflexivity.
  - reflexivity.
  - vm_compute. reflexivity.
  - reflexivity.
  - reflexivity.
Defined.

(** [coalesce] at a listed free block [bp], the only place of the heap
    where two free blocks may touch: the run of free blocks [Ma], [bp],
    [Mb] around it becomes one free block whose size is the sum of theirs,
    listed in the class of that size; the pointer returned is the address
    of the first block of the run; the result is again a represented heap
    without adjacent free blocks, and only link fields and the bytes of
    the run have changed. *)
Theorem coalesce_merges_free_run (fuel : nat) (L : layout_t) (F : Z -> list Z)
        (s : state) (L1 : layout_t) (sz : Z) (L2 : layout_t) (bp : Z) :
  heap_rep L F s -> L = L1 ++ (sz, false) :: L2 ->
  bp = first_block s + total L1 -> enough fuel s ->
  no_adj_free (L1 ++ (sz, true) :: L2) = true ->
  exists s' F' La Ma Mb Lb,
    L1 = La ++ Ma /\ L2 = Mb ++ Lb /\
    Forall (fun b => snd b = false) (Ma ++ Mb) /\
    coalesce fuel s bp = Some (s', first_block s + total La) /\
    heap_rep (La ++ (total (Ma ++ (sz, false) :: Mb), false) :: Lb) F' s' /\
    no_adj_free (La ++ (total (Ma ++ (sz, false) :: Mb), false) :: Lb) = true /\
    same_but (fun a => in_links s F a \/
                       first_block s + total La - 4 <= a
                         < first_block s + total La +
                           total (Ma ++ (sz, false) :: Mb) - 4) s s'.
Proof.
  intros H HL Hbp Hfuel Hnaf.
  destruct (coalesce_spec fuel L F s L1 sz L2 bp H HL Hbp Hfuel Hnaf)
    as (s' & F' & La & Ma & Mb & Lb & A & B & C & D & _ & E & G & I).
  exists s', F', La, Ma, Mb, Lb. auto 10.
Qed.

Lemma coalesce_merges_free_run_witness :
  exists s' F' La Ma Mb Lb,
    [(480, false)] = La ++ Ma /\ [(16, true)] = Mb ++ Lb /\
    Forall (fun b => snd b = false) (Ma ++ Mb) /\
    coalesce 5000 before_coalesce 4680
      = Some (s', first_block before_coalesce + total La) /\
    heap_rep (La ++ (total (Ma ++ (16, false) :: Mb), false) :: Lb) F' s' /\
    no_adj_free (La ++ (total (Ma ++ (16, false) :: Mb), false) :: Lb) = true /\
    same_but (fun a => in_links before_coalesce before_coalesce_lists a \/
                       first_block before_coalesce + total La - 4 <= a
                         < first_block before_coalesce + total La +
                           total (Ma ++ (16, false) :: Mb) - 4) before_coalesce s'.
Proof.
  apply (coalesce_merges_free_run 5000 before_coalesce_layout before_coalesce_lists
           before_coalesce [(480, false)] 16 [(16, true)] 4680).
  - apply rep_check_sound. vm_compute. reflexivity.
  - reflexivity.
  - vm_compute. reflexivity.
  - unfold enough. vm_compute. intros E. discriminate E.
  - reflexivity.
Defined.

(** [coalesce] touches no allocated block: every allocated block of the
    heap is an allocated block of the result, at the same address and with
    the same size, and its tags and payload hold the same bytes. *)
Theorem coalesce_keeps_allocated_blocks (fuel : nat) (L : layout_t) (F : Z -> list Z)
        (s : state) (L1 : layout_t) (sz : Z) (L2 : layout_t) (bp : Z) :
  heap_rep L F s -> L = L1 ++ (sz, false) :: L2 ->
  bp = first_block s + total L1 -> enough fuel s ->
  no_adj_free (L1 ++ (sz, true) :: L2) = true ->
  exists s' r L' F',
    coalesce fuel s bp = Some (s', r) /\
    heap_rep L' F' s' /\ first_block s' = first_block s /\
    forall b bsz, In (b, bsz, true) (layout (first_block s) L) ->
      In (b, bsz, true) (layout (first_block s) L') /\
      forall a, b - 4 <= a < b + bsz - 4 -> bytes s' a = bytes s a.
Proof.
  intros H HL Hbp Hfuel Hnaf.
  destruct (coalesce_spec fuel L F s L1 sz L2 bp H HL Hbp Hfuel Hnaf)
    as (s' & F' & La & Ma & Mb & Lb & E1 & E2 & HF & Hc & [Hb _] & Hr & _ & Hfr).
  set (M := Ma ++ (sz, false) :: Mb) in *.
  assert (HLM : L = La ++ M ++ Lb).
  { rewrite HL, E1, E2. unfold M. rewrite <- !app_assoc. reflexivity. }
  assert (HMf : Forall (fun b => snd b = false) M).
  { unfold M. apply Forall_app in HF. destruct HF as [A B].
    apply Forall_app. split; [exact A|]. constructor; [reflexivity|exact B]. }
  exists s', (first_block s + total La), (La ++ [(total M, false)] ++ Lb), F'.
  split; [exact Hc|]. split; [exact Hr|].
  split; [unfold first_block; rewrite Hb; reflexivity|].
  intros b bsz Hin. rewrite HLM in Hin, H.
  assert (Hnot : ~ In (b, bsz, true) (layout (first_block s + total La) M)).
  { intros Hm. pose proof (layout_all_free _ _ _ _ _ HMf Hm). discriminate. }
  split.
  - apply (layout_rewrite _ La M [(total M, false)] Lb); [cbn [total]; lia|exact Hin|].
    intros Hm. contradiction.
  - intros a Ha. apply Hfr.
    apply (live_outside s F La M Lb b bsz a H Hin Hnot Ha).
Qed.

Lemma coalesce_keeps_allocated_blocks_witness :
  exists s' r L' F',
    coalesce 5000 before_coalesce 4680 = Some (s', r) /\
    heap_rep L' F' s' /\ first_block s' = first_block before_coalesce /\
    forall b bsz,
      In (b, bsz, true) (layout (first_block before_coalesce) before_coalesce_layout) ->
      In (b, bsz, true) (layout (first_block before_coalesce) L') /\
      forall a, b - 4 <= a < b + bsz - 4 -> bytes s' a = bytes before_coalesce a.
Proof.
  apply (coalesce_keeps_allocated_blocks 5000 before_coalesce_layout
           before_coalesce_lists before_coalesce [(480, false)] 16 [(16, true)] 4680).
  - apply rep_check_sound. vm_compute. reflexivity.
  - reflexivity.
  - vm_compute. reflexivity.
  - unfold enough. vm_compute. intros E. discriminate E.
  - reflexivity.
Defined.

(** * The heap checker *)

Lemma GET_SIZE_mod8 (s : state) (p : Z) : GET_SIZE s p mod 8 = 0.
Proof.
  unfold GET_SIZE, GET.
  pose proof (load_le_range 4 (bytes s) p) as Hr.
  change (2 ^ (8 * Z.of_nat 4)) with (2 ^ 32) in Hr.
  rewrite land_mask by exact Hr. rewrite Z.mul_comm. apply Z.mod_mul. lia.
Qed.

Lemma total_length (L : layout_t) :
  sizes_ok L -> 16 * Z.of_nat (length L) <= total L.
Proof.
  induction L as [|[sz al] L IH]; intros Hs; [cbn; lia|].
  apply sizes_ok_cons in Hs. cbn [fst] in Hs. destruct Hs as [[H1 _] Hs].
  specialize (IH Hs). cbn [total length]. lia.
Qed.

(** The walk of [print_each_block] over tagged blocks that end at an
    epilogue tag. *)
Lemma print_blocks_spec (s : state) (lineno : Z) (Lx : layout_t) :
  forall (fuel : nat) (a : Z),
    blocks_at (bytes s) a Lx ->
    tag (bytes s) (a + total Lx - 4) 0 true ->
    (length Lx < fuel)%nat ->
    print_blocks fuel s lineno a = Some (block_lines lineno (layout a Lx), Returned).
Proof.
  induction Lx as [|[sz al] Lx IH]; intros fuel a HB He Hf.
  - destruct fuel as [|f]; [cbn in Hf; lia|].
    cbn [total] in He. rewrite Z.add_0_r in He.
    cbn [print_blocks]. unfold HDRP, WSIZE.
    rewrite (tag_size _ _ _ _ He) by (try lia; reflexivity).
    rewrite (tag_alloc _ _ _ _ He) by reflexivity.
    reflexivity.
  - destruct fuel as [|f]; [cbn in Hf; lia|].
    cbn [blocks_at] in HB. destruct HB as (H1 & H2 & Th & Tf & HB).
    cbn [print_blocks]. unfold FTRP, NEXT_BLKP, HDRP, WSIZE, DSIZE.
    rewrite (tag_size _ _ _ _ Th) by lia.
    rewrite (tag_size _ _ _ _ Tf) by lia.
    rewrite (tag_alloc _ _ _ _ Th) by exact H2.
    replace (sz >? 0) with true by (symmetry; apply Z.gtb_lt; lia).
    rewrite Z.eqb_refl. cbn [negb].
    rewrite (IH f (a + sz)); [reflexivity|exact HB| |cbn [length] in Hf; lia].
    cbn [total] in He. replace (a + sz + total Lx - 4) with (a + (sz + total Lx) - 4) by lia.
    exact He.
Qed.

Lemma print_each_block_spec (fuel : nat) (L : layout_t) (F : Z -> list Z)
      (s : state) (lineno : Z) :
  heap_rep L F s -> enough fuel s ->
  print_each_block fuel s lineno =
  Some (block_lines lineno (layout (heap_listp s) ((96, true) :: L)), Returned).
Proof.
  intros H He. unfold print_each_block. cbv zeta.
  rewrite GET_SIZE_mod8. cbn [Z.eqb negb].
  pose proof (rep_geom _ _ _ H) as Hg.
  apply print_blocks_spec.
  - apply H.
  - cbn [total]. pose proof (rep_epilogue _ _ _ H) as E.
    rewrite (rep_brk _ _ _ H) in E. unfold first_block in E.
    replace (heap_listp s + (96 + total L) - 4) with (heap_listp s + 96 + total L - 4) by lia.
    exact E.
  - pose proof (total_length L (geom_sizes _ _ Hg)).
    pose proof (geom_brk _ _ Hg). pose proof (geom_max _ _ Hg).
    red in He. unfold first_block in *. cbn [length]. lia.
Qed.

(** The do-while loop of [print_free_block] over a non-empty list. *)
Lemma print_list_spec (s : state) (lineno : Z) (d : bool) (l : list Z) :
  forall (fuel : nat) (prev x : Z),
    lseg (bytes s) d prev (x :: l) 0 ->
    (length l < fuel)%nat ->
    print_list fuel s lineno prev = Some (node_lines s lineno (x :: l)).
Proof.
  induction l as [|y l IH]; intros fuel prev x Hl Hf.
  - destruct fuel as [|f]; [cbn in Hf; lia|].
    cbn [lseg] in Hl. destruct Hl as (E1 & _ & _ & E2).
    cbn [print_list]. cbv zeta.
    assert (Ep : GET_NEXT_PTR s prev = x) by exact E1.
    assert (Ex : GET_NEXT_PTR s x = 0) by exact E2.
    rewrite !Ep, !Ex. cbn [Z.eqb negb].
    unfold node_lines. cbn [flat_map]. rewrite app_nil_r, Ex. reflexivity.
  - destruct fuel as [|f]; [cbn in Hf; lia|].
    pose proof Hl as Hl0.
    cbn [lseg] in Hl. destruct Hl as (E1 & _ & _ & E2 & Hy & Hrest).
    cbn [print_list]. cbv zeta.
    assert (Ep : GET_NEXT_PTR s prev = x) by exact E1.
    assert (Ex : GET_NEXT_PTR s x = y) by exact E2.
    rewrite !Ep, !Ex.
    replace (y =? 0) with false by (symmetry; apply Z.eqb_neq; exact Hy).
    cbn [negb].
    rewrite (IH f x y); [|cbn [lseg]; auto|cbn [length] in Hf; lia].
    cbn [bind]. unfold node_lines. cbn [flat_map]. rewrite Ex.
    rewrite <- app_assoc. reflexivity.
Qed.

Lemma print_lists_spec (s : state) (F : Z -> list Z) (lineno : Z) (n : nat) :
  forall (fuel : nat) (k : Z),
    lists_ok s F ->
    0 <= k -> k + Z.of_nat n = 11 ->
    (forall j, 0 <= j <= 10 -> (length (F j) + 12 <= fuel + Z.to_nat k)%nat) ->
    print_lists fuel s lineno (anchor s k) (16 * 2 ^ k) =
    Some (list_lines s F lineno (map (fun i => k + Z.of_nat i) (seq 0 n))).
Proof.
  induction n as [|n IH]; intros fuel k Hl Hk Hn Hf.
  - assert (k = 11) by lia. subst k.
    destruct fuel as [|f]; [specialize (Hf 0 ltac:(lia)); cbn in Hf; lia|].
    cbn [print_lists]. unfold anchor, DSIZE.
    replace (heap_listp s + 8 * 11 =? heap_listp s + 11 * 8) with true
      by (symmetry; apply Z.eqb_eq; lia).
    reflexivity.
  - assert (Hk10 : 0 <= k <= 10) by lia.
    pose proof (Hf k Hk10) as Hfk.
    destruct fuel as [|f]; [lia|].
    cbn [print_lists]. unfold anchor at 1, DSIZE at 1 2.
    replace (heap_listp s + 8 * k =? heap_listp s + 11 * 8) with false
      by (symmetry; apply Z.eqb_neq; lia).
    cbn [negb]. cbv zeta.
    destruct (Hl k Hk10) as [Hseg _].
    assert (Hbody :
      (if GET_NEXT_PTR s (anchor s k) =? 0 then Some []
       else print_list (S f) s lineno (anchor s k)) =
      Some (node_lines s lineno (F k))).
    { destruct (F k) as [|x l] eqn:EF.
      - cbn [lseg] in Hseg. unfold GET_NEXT_PTR. rewrite Hseg. reflexivity.
      - pose proof Hseg as Hseg0. cbn [lseg] in Hseg. destruct Hseg as (E1 & Hx & _).
        unfold GET_NEXT_PTR at 1. rewrite E1.
        replace (x =? 0) with false by (symmetry; apply Z.eqb_neq; exact Hx).
        apply (print_list_spec s lineno (doubly k) l (S f) (anchor s k) x Hseg0).
        cbn [length] in Hfk. lia. }
    rewrite Hbody. cbn [bind].
    replace (anchor s k + DSIZE) with (anchor s (k + 1)) by (unfold anchor, DSIZE; lia).
    replace (16 * 2 ^ k * 2) with (16 * 2 ^ (k + 1))
      by (rewrite Z.pow_add_r by lia; change (2 ^ 1) with 2; lia).
    rewrite (IH f (k + 1) Hl ltac:(lia) ltac:(lia)).
    + cbn [bind]. f_equal.
      cbn [seq map]. unfold list_lines. cbn [flat_map].
      rewrite Z.add_0_r. rewrite <- seq_shift, map_map.
      rewrite <- app_assoc. f_equal.
      * unfold class_title. destruct (lineno =? 0); [reflexivity|].
        destruct (k =? 10) eqn:E10.
        -- apply Z.eqb_eq in E10. subst k. reflexivity.
        -- replace (16 * 2 ^ k =? 16384) with false; [reflexivity|].
           symmetry. apply Z.eqb_neq. apply Z.eqb_neq in E10.
           assert (k = 0 \/ k = 1 \/ k = 2 \/ k = 3 \/ k = 4 \/ k = 5 \/ k = 6 \/
                   k = 7 \/ k = 8 \/ k = 9) as Hc by lia.
           repeat (destruct Hc as [Hc|Hc]; [subst k; discriminate|]).
           subst k. discriminate.
      * f_equal. f_equal. apply map_ext. intros i. lia.
    + intros j Hj. specialize (Hf j Hj). lia.
Qed.

Lemma print_free_block_spec (fuel : nat) (L : layout_t) (F : Z -> list Z)
      (s : state) (lineno : Z) :
  heap_rep L F s -> enough fuel s ->
  print_free_block fuel s lineno = Some (list_lines s F lineno classes).
Proof.
  intros H He. unfold print_free_block.
  replace (heap_listp s) with (anchor s 0) at 1 by (unfold anchor, DSIZE; lia).
  change 16 with (16 * 2 ^ 0).
  rewrite (print_lists_spec s F lineno 11 fuel 0); [reflexivity|apply H|lia|reflexivity|].
  intros j Hj. pose proof (rep_fuel_slack _ _ _ _ _ H He Hj). lia.
Qed.

(** On a represented heap [print_each_block] does not exit: it walks the
    prologue and every block of the layout in address order, prints one
    line for each when [lineno] is not zero, and returns. *)
Theorem print_each_block_passes (fuel : nat) (L : layout_t) (F : Z -> list Z)
        (s : state) (lineno : Z) :
  heap_rep L F s -> enough fuel s ->
  print_each_block fuel s lineno =
  Some (block_lines lineno (layout (heap_listp s) ((96, true) :: L)), Returned).
Proof. apply print_each_block_spec. Qed.

Lemma print_each_block_passes_witness :
  print_each_block 5000 two_small 1 =
  Some (block_lines 1 (layout (heap_listp two_small) ((96, true) :: two_small_layout)),
        Returned).
Proof.
  apply (print_each_block_passes 5000 two_small_layout booted_lists two_small 1).
  - apply rep_check_sound. vm_compute. reflexivity.
  - unfold enough. vm_compute. intros E. discriminate E.
Defined.

(** The first test of [print_each_block], that the size in the prologue
    header is a multiple of 8, can never fail: [GET_SIZE] masks the three
    low bits.  Whatever the memory holds, the checker goes on to the walk
    over the blocks. *)
Theorem print_each_block_alignment_test_is_dead (fuel : nat) (s : state) (lineno : Z) :
  print_each_block fuel s lineno = print_blocks fuel s lineno (heap_listp s).
Proof.
  unfold print_each_block. cbv zeta. rewrite GET_SIZE_mod8. reflexivity.
Qed.

(** On a represented heap [print_free_block] returns after eleven lists:
    for each class, in ascending order, its title and then the nodes of
    the list in list order, each with its next field. *)
Theorem print_free_block_lists_nodes (fuel : nat) (L : layout_t) (F : Z -> list Z)
        (s : state) (lineno : Z) :
  heap_rep L F s -> enough fuel s ->
  print_free_block fuel s lineno = Some (list_lines s F lineno classes).
Proof. apply print_free_block_spec. Qed.

Lemma print_free_block_lists_nodes_witness :
  print_free_block 5000 before_coalesce 1 =
  Some (list_lines before_coalesce before_coalesce_lists 1 classes).
Proof.
  apply (print_free_block_lists_nodes 5000 before_coalesce_layout
           before_coalesce_lists before_coalesce 1).
  - apply rep_check_sound. vm_compute. reflexivity.
  - unfold enough. vm_compute. intros E. discriminate E.
Defined.

(** [mm_checkheap] on a represented heap never ends the process: it
    returns after the lines of the blocks followed by the lines of the
    lists, and prints nothing at all when [lineno] is zero. *)
Theorem mm_checkheap_passes (fuel : nat) (L : layout_t) (F : Z -> list Z)
        (s : state) (lineno : Z) :
  heap_rep L F s -> enough fuel s ->
  mm_checkheap fuel s lineno =
    Some (block_lines lineno (layout (heap_listp s) ((96, true) :: L)) ++
          list_lines s F lineno classes, Returned) /\
  mm_checkheap fuel s 0 = Some ([], Returned).
Proof.
  intros H He. unfold mm_checkheap.
  rewrite !(print_each_block_spec fuel L F s _ H He). cbn [bind].
  rewrite !(print_free_block_spec fuel L F s _ H He). cbn [bind].
  split; [reflexivity|].
  assert (E1 : forall bl, block_lines 0 bl = []).
  { induction bl as [|b bl IH]; [reflexivity|].
    unfold block_lines in *. cbn [flat_map]. rewrite IH. reflexivity. }
  assert (E2 : forall l, node_lines s 0 l = []).
  { induction l as [|x l IH]; [reflexivity|].
    unfold node_lines in *. cbn [flat_map]. rewrite IH. reflexivity. }
  assert (E3 : forall ks, list_lines s F 0 ks = []).
  { induction ks as [|k ks IH]; [reflexivity|].
    unfold list_lines in *. cbn [flat_map]. rewrite IH, E2. reflexivity. }
  rewrite E1, E3. reflexivity.
Qed.

Lemma mm_checkheap_passes_witness :
  mm_checkheap 5000 two_small 7 =
    Some (block_lines 7 (layout (heap_listp two_small) ((96, true) :: two_small_layout)) ++
          list_lines two_small booted_lists 7 classes, Returned) /\
  mm_checkheap 5000 two_small 0 = Some ([], Returned).
Proof.
  apply (mm_checkheap_passes 5000 two_small_layout booted_lists two_small 7).
  - apply rep_check_sound. vm_compute. reflexivity.
  - unfold enough. vm_compute. intros E. discriminate E.
Defined.

(** * Growth and initialisation *)

(** [extend_heap] when the arena has no room for the request, rounded up
    to an even number of words: nothing is written, the state is the one
    before the call, and [NULL] is returned. *)
Theorem extend_heap_refused (fuel : nat) (s : state) (words : Z) :
  0 <= words -> 4 * words + 4 < 2 ^ 64 ->
  mem_max_addr s < mem_brk s + 4 * (words + words mod 2) ->
  extend_heap fuel s words = Some (s, NULL).
Proof.
  intros H0 H1 Hno. unfold extend_heap.
  rewrite (extend_size words H0 H1). unfold mem_sbrk.
  replace (mem_brk s + 4 * (words + words mod 2) <=? mem_max_addr s) with false
    by (symmetry; apply Z.leb_gt; lia).
  reflexivity.
Qed.

Lemma extend_heap_refused_witness :
  extend_heap 5000 nearly_full 1001 = Some (nearly_full, NULL).
Proof.
  apply (extend_heap_refused 5000 nearly_full 1001).
  - lia.
  - lia.
  - vm_compute. reflexivity.
Defined.

(** [extend_heap] when the arena has room, on a represented heap without
    adjacent free blocks: the break moves up by the request rounded to an
    even number of words, the new bytes are one free block, merged with
    the last block of the heap when that block is free ([Ma]), and the
    block returned is that free block; the result is again a represented
    heap without adjacent free blocks. *)
Theorem extend_heap_grows (fuel : nat) (L : layout_t) (F : Z -> list Z) (s : state)
        (words : Z) :
  heap_rep L F s -> no_adj_free L = true -> enough fuel s ->
  3 <= words ->
  mem_brk s + 4 * (words + words mod 2) <= mem_max_addr s ->
  exists s' r La Ma F',
    extend_heap fuel s words = Some (s', r) /\
    L = La ++ Ma /\ Forall (fun b => snd b = false) Ma /\
    r = first_block s + total La /\
    heap_rep (La ++ [(total Ma + 4 * (words + words mod 2), false)]) F' s' /\
    no_adj_free (La ++ [(total Ma + 4 * (words + words mod 2), false)]) = true /\
    heap_listp s' = heap_listp s /\ mem_max_addr s' = mem_max_addr s /\
    mem_brk s' = mem_brk s + 4 * (words + words mod 2) /\
    same_but (fun a => in_links s F a \/ r - 4 <= a) s s'.
Proof. apply extend_heap_spec. Qed.

Lemma extend_heap_grows_witness :
  exists s' r La Ma F',
    extend_heap 5000 two_small 127 = Some (s', r) /\
    two_small_layout = La ++ Ma /\ Forall (fun b => snd b = false) Ma /\
    r = first_block two_small + total La /\
    heap_rep (La ++ [(total Ma + 4 * (127 + 127 mod 2), false)]) F' s' /\
    no_adj_free (La ++ [(total Ma + 4 * (127 + 127 mod 2), false)]) = true /\
    heap_listp s' = heap_listp two_small /\ mem_max_addr s' = mem_max_addr two_small /\
    mem_brk s' = mem_brk two_small + 4 * (127 + 127 mod 2) /\
    same_but (fun a => in_links two_small booted_lists a \/ r - 4 <= a) two_small s'.
Proof.
  apply (extend_heap_grows 5000 two_small_layout booted_lists two_small 127).
  - apply rep_check_sound. vm_compute. reflexivity.
  - reflexivity.
  - unfold enough. vm_compute. intros E. discriminate E.
  - lia.
  - vm_compute. intros E. discriminate E.
Defined.

(** [mm_init] on an untouched arena whose break is 8-byte aligned and
    which has room for the 104 bytes of padding, prologue and epilogue and
    for the first chunk of 512 bytes: it returns 0 and leaves a
    represented heap of one free block of 512 bytes, with [heap_listp] 8
    bytes above the old break; no byte below the old break is written. *)
Theorem mm_init_builds_heap (fuel : nat) (s : state) :
  mem_brk s mod 8 = 0 -> 0 <= mem_brk s ->
  mem_brk s + 616 <= mem_max_addr s ->
  mem_max_addr s - (mem_brk s + 8) < 2 ^ 32 ->
  mem_max_addr s + 16 <= 2 ^ 64 ->
  mem_max_addr s - (mem_brk s + 8) <= Z.of_nat fuel ->
  exists s' F',
    mm_init fuel s = Some (s', 0) /\
    heap_rep [(512, false)] F' s' /\
    heap_listp s' = mem_brk s + 8 /\
    mem_brk s' = mem_brk s + 616 /\
    mem_max_addr s' = mem_max_addr s /\
    (forall a, a < mem_brk s -> bytes s' a = bytes s a).
Proof. apply mm_init_spec. Qed.

Lemma mm_init_builds_heap_witness :
  exists s' F',
    mm_init 5000 boot = Some (s', 0) /\
    heap_rep [(512, false)] F' s' /\
    heap_listp s' = mem_brk boot + 8 /\
    mem_brk s' = mem_brk boot + 616 /\
    mem_max_addr s' = mem_max_addr boot /\
    (forall a, a < mem_brk boot -> bytes s' a = bytes boot a).
Proof.
  apply (mm_init_builds_heap 5000 boot).
  - reflexivity.
  - vm_compute. intros E. discriminate E.
  - vm_compute. intros E. discriminate E.
  - vm_compute. reflexivity.
  - vm_compute. intros E. discriminate E.
  - vm_compute. intros E. discriminate E.
Defined.

(** [mm_init] when the arena cannot even hold the prologue: it returns
    -1, and the only thing it changes is [heap_listp], which now holds
    the failure value [(void * )-1] of [mem_sbrk] and not [NULL]; a later
    [malloc] will therefore not try to initialise again. *)
Theorem mm_init_no_room (fuel : nat) (s : state) :
  mem_max_addr s < mem_brk s + 104 ->
  mm_init fuel s = Some (set_heap_listp s (2 ^ 64 - 1), -1) /\
  heap_listp (set_heap_listp s (2 ^ 64 - 1)) <> NULL.
Proof.
  intros Hno. split; [|cbn [heap_listp set_heap_listp]; discriminate].
  cbv beta delta [mm_init mem_sbrk].
  change (26 * WSIZE) with 104.
  replace (mem_brk s + 104 <=? mem_max_addr s) with false
    by (symmetry; apply Z.leb_gt; lia).
  cbv beta iota.
  lazymatch goal with
  | |- (let s := ?X in @?f s) = ?r => refine (let_eq X f r X eq_refl _); cbv beta
  end.
  change (heap_listp (set_heap_listp s (2 ^ 64 - 1))) with (2 ^ 64 - 1) at 1.
  rewrite Z.eqb_refl. reflexivity.
Qed.

Lemma mm_init_no_room_witness :
  mm_init 5000 cramped = Some (set_heap_listp cramped (2 ^ 64 - 1), -1) /\
  heap_listp (set_heap_listp cramped (2 ^ 64 - 1)) <> NULL.
Proof.
  apply (mm_init_no_room 5000 cramped). vm_compute. reflexivity.
Defined.

(** [mm_init] when the arena holds the prologue but not the first chunk:
    it returns -1, yet what it leaves is a represented heap with no block
    at all, on which the allocator can run. *)
Theorem mm_init_no_first_chunk (fuel : nat) (s : state) :
  mem_brk s mod 8 = 0 -> 0 <= mem_brk s ->
  mem_brk s + 104 <= mem_max_addr s < mem_brk s + 616 ->
  mem_max_addr s + 16 <= 2 ^ 64 ->
  exists s',
    mm_init fuel s = Some (s', -1) /\
    heap_rep [] (fun _ => []) s' /\
    heap_listp s' = mem_brk s + 8 /\ mem_brk s' = mem_brk s + 104.
Proof.
  intros H8 H0 Hfit Haddr.
  assert (Hrun : exists si,
            mm_init fuel s =
              ('(s1, bp) <- extend_heap fuel si (CHUNKSIZE / WSIZE) ;;
               if bp =? NULL then Some (s1, -1) else Some (s1, 0)) /\
            heap_rep [] (fun _ => []) si /\
            heap_listp si = mem_brk s + 8 /\ mem_brk si = mem_brk s + 104 /\
            mem_max_addr si = mem_max_addr s /\
            (forall a, a < mem_brk s \/ mem_brk s + 104 <= a -> bytes si a = bytes s a)).
  { eexists. split.
    - cbv beta delta [mm_init mem_sbrk].
      change (26 * WSIZE) with 104.
      replace (mem_brk s + 104 <=? mem_max_addr s) with true
        by (symmetry; apply Z.leb_le; lia).
      cbv beta iota. step_let.
      change (heap_listp (set_heap_listp (set_brk s (mem_brk s + 104)) (mem_brk s)))
        with (mem_brk s) at 1.
      replace (mem_brk s =? 2 ^ 64 - 1) with false by (symmetry; apply Z.eqb_neq; lia).
      cbv iota.
      do 16 step_let. step_let.
      reflexivity.
    - apply (init_rep s _ H8 H0 ltac:(lia) ltac:(lia) Haddr eq_refl). }
  destruct Hrun as (si & Hrun & Hrep & Eb & Ebrk & Emax & Hfr).
  exists si. rewrite Hrun.
  change (CHUNKSIZE / WSIZE) with 128.
  rewrite (extend_heap_refused fuel si 128) by
    (try lia; rewrite Ebrk, Emax; change (4 * (128 + 128 mod 2)) with 512; lia).
  cbn [bind]. auto.
Qed.

Lemma mm_init_no_first_chunk_witness :
  exists s',
    mm_init 5000 no_chunk = Some (s', -1) /\
    heap_rep [] (fun _ => []) s' /\
    heap_listp s' = mem_brk no_chunk + 8 /\ mem_brk s' = mem_brk no_chunk + 104.
Proof.
  apply (mm_init_no_first_chunk 5000 no_chunk).
  - reflexivity.
  - vm_compute. intros E. discriminate E.
  - split; vm_compute; [intros E; discriminate E|reflexivity].
  - vm_compute. intros E. discriminate E.
Defined.

(** * Releasing, searching, placing and allocating *)

(** [free] of an allocated block [bp] of a represented heap without
    adjacent free blocks returns; the block and its free neighbours [Ma]
    and [Mb] (each empty or one block) have become one free block, and the
    heap is again represented, without adjacent free blocks; only link
    fields and bytes of the merged run have changed. *)
Theorem free_merges_with_free_neighbours (fuel : nat) (L : layout_t)
        (F : Z -> list Z) (s : state) (L1 : layout_t) (sz : Z) (L2 : layout_t)
        (bp : Z) :
  heap_rep L F s -> no_adj_free L = true -> enough fuel s ->
  L = L1 ++ (sz, true) :: L2 ->
  bp = first_block s + total L1 ->
  exists s' F' La Ma Mb Lb,
    free fuel s bp = Some s' /\
    L1 = La ++ Ma /\ L2 = Mb ++ Lb /\
    Forall (fun b => snd b = false) (Ma ++ Mb) /\
    heap_rep (La ++ (total (Ma ++ (sz, false) :: Mb), false) :: Lb) F' s' /\
    no_adj_free (La ++ (total (Ma ++ (sz, false) :: Mb), false) :: Lb) = true /\
    heap_listp s' = heap_listp s /\ mem_max_addr s' = mem_max_addr s /\
    same_but (fun a => in_links s F a \/
                       first_block s + total La - 4 <= a
                         < first_block s + total La +
                           total (Ma ++ (sz, false) :: Mb) - 4) s s'.
Proof. apply free_spec. Qed.

Lemma free_merges_with_free_neighbours_witness :
  exists s' F' La Ma Mb Lb,
    free 5000 two_small 4680 = Some s' /\
    [(480, false)] = La ++ Ma /\ [(16, true)] = Mb ++ Lb /\
    Forall (fun b => snd b = false) (Ma ++ Mb) /\
    heap_rep (La ++ (total (Ma ++ (16, false) :: Mb), false) :: Lb) F' s' /\
    no_adj_free (La ++ (total (Ma ++ (16, false) :: Mb), false) :: Lb) = true /\
    heap_listp s' = heap_listp two_small /\ mem_max_addr s' = mem_max_addr two_small /\
    same_but (fun a => in_links two_small booted_lists a \/
                       first_block two_small + total La - 4 <= a
                         < first_block two_small + total La +
                           total (Ma ++ (16, false) :: Mb) - 4) two_small s'.
Proof.
  apply (free_merges_with_free_neighbours 5000 two_small_layout booted_lists two_small
           [(480, false)] 16 [(16, true)] 4680).
  - apply rep_check_sound. vm_compute. reflexivity.
  - reflexivity.
  - unfold enough. vm_compute. intros E. discriminate E.
  - reflexivity.
  - vm_compute. reflexivity.
Defined.

(** The only allocated block of a run of free blocks around one
    allocated block. *)
Lemma one_live_in_run (Ma Mb : layout_t) (sz a b bsz : Z) :
  Forall (fun x => snd x = false) (Ma ++ Mb) ->
  In (b, bsz, true) (layout a (Ma ++ (sz, true) :: Mb)) ->
  b = a + total Ma /\ bsz = sz.
Proof.
  intros HF Hin. apply Forall_app in HF. destruct HF as [HA HB].
  rewrite layout_app in Hin. apply in_app_or in Hin. destruct Hin as [Hin|Hin].
  - pose proof (layout_all_free _ _ _ _ _ HA Hin). discriminate.
  - cbn [layout] in Hin. destruct Hin as [E|Hin].
    + injection E as <- <-. auto.
    + pose proof (layout_all_free _ _ _ _ _ HB Hin). discriminate.
Qed.

(** [free] touches no other allocated block: after [free(bp)] the block
    at [bp] is not allocated any more, and every other allocated block is
    still allocated, at the same address and with the same size, its tags
    and payload holding the same bytes. *)
Theorem free_keeps_other_blocks (fuel : nat) (L : layout_t) (F : Z -> list Z)
        (s : state) (L1 : layout_t) (sz : Z) (L2 : layout_t) (bp : Z) :
  heap_rep L F s -> no_adj_free L = true -> enough fuel s ->
  L = L1 ++ (sz, true) :: L2 ->
  bp = first_block s + total L1 ->
  exists s' L' F',
    free fuel s bp = Some s' /\
    heap_rep L' F' s' /\ no_adj_free L' = true /\
    first_block s' = first_block s /\
    (forall bsz, ~ In (bp, bsz, true) (layout (first_block s) L')) /\
    forall b bsz, In (b, bsz, true) (layout (first_block s) L) -> b <> bp ->
      In (b, bsz, true) (layout (first_block s) L') /\
      forall a, b - 4 <= a < b + bsz - 4 -> bytes s' a = bytes s a.
Proof.
  intros H Hnaf Hfuel HL Hbp.
  destruct (free_spec fuel L F s L1 sz L2 bp H Hnaf Hfuel HL Hbp)
    as (s' & F' & La & Ma & Mb & Lb & Hc & E1 & E2 & HF & Hr & Hn & Hb & _ & Hfr).
  pose proof (rep_geom _ _ _ H) as Hg.
  set (M := Ma ++ (sz, true) :: Mb) in *.
  assert (HT : total (Ma ++ (sz, false) :: Mb) = total M).
  { unfold M. rewrite !total_app. reflexivity. }
  rewrite HT in *.
  assert (HLM : L = La ++ M ++ Lb).
  { rewrite HL, E1, E2. unfold M. rewrite <- !app_assoc. reflexivity. }
  assert (Hbp' : bp = first_block s + total La + total Ma).
  { rewrite Hbp, E1, total_app. lia. }
  pose proof (geom_sizes _ _ Hg) as Hs. rewrite HLM in Hs.
  apply sizes_ok_app in Hs. destruct Hs as [HsA Hs].
  apply sizes_ok_app in Hs. destruct Hs as [HsM HsB].
  assert (HsMa : sizes_ok Ma) by (unfold M in HsM; apply sizes_ok_app in HsM; apply HsM).
  pose proof (total_nonneg _ HsMa) as HtMa.
  assert (Hsz : 16 <= sz /\ total M = total Ma + sz + total Mb /\ 0 <= total Mb).
  { unfold M in *. apply sizes_ok_app in HsM. destruct HsM as [_ HsM].
    apply sizes_ok_cons in HsM. cbn [fst] in HsM. destruct HsM as [[A _] B].
    pose proof (total_nonneg _ B). rewrite total_app. cbn [total]. lia. }
  exists s', (La ++ [(total M, false)] ++ Lb), F'.
  split; [exact Hc|]. split; [exact Hr|]. split; [exact Hn|].
  split; [unfold first_block; rewrite Hb; reflexivity|]. split.
  - intros bsz Hin. rewrite !layout_app in Hin.
    apply in_app_or in Hin. destruct Hin as [Hin|Hin].
    + pose proof (layout_range _ _ _ _ _ HsA Hin). lia.
    + apply in_app_or in Hin. destruct Hin as [Hin|Hin].
      * cbn [layout] in Hin. destruct Hin as [E|[]]. discriminate E.
      * pose proof (layout_range _ _ _ _ _ HsB Hin). cbn [total] in *. lia.
  - intros b bsz Hin Hne. rewrite HLM in Hin, H.
    assert (Hnot : ~ In (b, bsz, true) (layout (first_block s + total La) M)).
    { intros Hm. destruct (one_live_in_run Ma Mb sz _ b bsz HF Hm) as [E _]. lia. }
    split.
    + apply (layout_rewrite _ La M [(total M, false)] Lb); [cbn [total]; lia|exact Hin|].
      intros Hm. contradiction.
    + intros a Ha. apply Hfr.
      apply (live_outside s F La M Lb b bsz a H Hin Hnot Ha).
Qed.

Lemma free_keeps_other_blocks_witness :
  exists s' L' F',
    free 5000 two_small 4680 = Some s' /\
    heap_rep L' F' s' /\ no_adj_free L' = true /\
    first_block s' = first_block two_small /\
    (forall bsz, ~ In (4680, bsz, true) (layout (first_block two_small) L')) /\
    forall b bsz, In (b, bsz, true) (layout (first_block two_small) two_small_layout) ->
      b <> 4680 ->
      In (b, bsz, true) (layout (first_block two_small) L') /\
      forall a, b - 4 <= a < b + bsz - 4 -> bytes s' a = bytes two_small a.
Proof.
  apply (free_keeps_other_blocks 5000 two_small_layout booted_lists two_small
           [(480, false)] 16 [(16, true)] 4680).
  - apply rep_check_sound. vm_compute. reflexivity.
  - reflexivity.
  - unfold enough. vm_compute. intros E. discriminate E.
  - reflexivity.
  - vm_compute. reflexivity.
Defined.

(** [find_fit] on a represented heap returns; what it returns is [NULL]
    or a free block of the heap of at least [asize] and at most [2^30]
    bytes, and it is [NULL] only when the heap has no free block with a
    size in that range. *)
Theorem find_fit_finds_fitting_block (fuel : nat) (L : layout_t) (F : Z -> list Z)
        (s : state) (asize : Z) :
  heap_rep L F s -> enough fuel s ->
  exists r,
    find_fit fuel s asize = Some r /\
    ((r = NULL /\
      forall b sz, In (b, sz, false) (layout (first_block s) L) ->
                   asize <= sz -> 2 ^ 30 < sz) \/
     (r <> NULL /\
      exists sz, In (r, sz, false) (layout (first_block s) L) /\
                 asize <= sz <= 2 ^ 30)).
Proof. apply find_fit_spec. Qed.

Lemma find_fit_finds_fitting_block_witness :
  exists r,
    find_fit 5000 before_coalesce 24 = Some r /\
    ((r = NULL /\
      forall b sz,
        In (b, sz, false) (layout (first_block before_coalesce) before_coalesce_layout) ->
        24 <= sz -> 2 ^ 30 < sz) \/
     (r <> NULL /\
      exists sz,
        In (r, sz, false) (layout (first_block before_coalesce) before_coalesce_layout) /\
        24 <= sz <= 2 ^ 30)).
Proof.
  apply (find_fit_finds_fitting_block 5000 before_coalesce_layout before_coalesce_lists
           before_coalesce 24).
  - apply rep_check_sound. vm_compute. reflexivity.
  - unfold enough. vm_compute. intros E. discriminate E.
Defined.

(** [place] in a free block that exceeds the request by less than 16
    bytes: the whole block becomes the allocated block, it is unlinked
    from the list of its class, and its own address is returned. *)
Theorem place_takes_whole_block (fuel : nat) (L : layout_t) (F : Z -> list Z)
        (s : state) (L1 : layout_t) (csize : Z) (L2 : layout_t) (bp asize : Z) :
  heap_rep L F s -> L = L1 ++ (csize, false) :: L2 ->
  bp = first_block s + total L1 -> enough fuel s ->
  asize <= csize -> csize - asize < 16 ->
  exists s' l1 l2,
    F (class_of csize) = l1 ++ bp :: l2 /\
    place fuel s bp asize = Some (s', bp) /\
    (heap_listp s' = heap_listp s /\ mem_max_addr s' = mem_max_addr s) /\
    heap_rep (L1 ++ (csize, true) :: L2) (upd F (class_of csize) (l1 ++ l2)) s' /\
    same_but (fun a => in_links s F a \/ bp - 4 <= a < bp + csize - 4) s s'.
Proof. apply place_whole. Qed.

Lemma place_takes_whole_block_witness :
  exists s' l1 l2,
    before_coalesce_lists (class_of 16) = l1 ++ 4680 :: l2 /\
    place 5000 before_coalesce 4680 16 = Some (s', 4680) /\
    (heap_listp s' = heap_listp before_coalesce /\
     mem_max_addr s' = mem_max_addr before_coalesce) /\
    heap_rep ([(480, false)] ++ (16, true) :: [(16, true)])
             (upd before_coalesce_lists (class_of 16) (l1 ++ l2)) s' /\
    same_but (fun a => in_links before_coalesce before_coalesce_lists a \/
                       4680 - 4 <= a < 4680 + 16 - 4) before_coalesce s'.
Proof.
  apply (place_takes_whole_block 5000 before_coalesce_layout before_coalesce_lists
           before_coalesce [(480, false)] 16 [(16, true)] 4680 16).
  - apply rep_check_sound. vm_compute. reflexivity.
  - reflexivity.
  - vm_compute. reflexivity.
  - unfold enough. vm_compute. intros E. discriminate E.
  - lia.
  - lia.
Defined.

(** [malloc] on an initialised heap, for a request of 1 to [2^64 - 16]
    bytes, returns.  With [NULL] the state is the one before the call.
    Otherwise the pointer is a new allocated block of the adjusted size or
    8 bytes more, apart from every block allocated before; those blocks
    are still allocated and hold the same bytes, no other block has become
    allocated, and the heap is represented without adjacent free blocks. *)
Theorem malloc_returns_new_block (fuel : nat) (L : layout_t) (F : Z -> list Z)
        (s : state) (size : Z) :
  heap_rep L F s -> no_adj_free L = true -> enough fuel s ->
  1 <= size <= 2 ^ 64 - 16 ->
  exists s' p,
    malloc fuel s size = Some (s', p) /\
    heap_listp s' = heap_listp s /\ mem_max_addr s' = mem_max_addr s /\
    ((p = NULL /\ s' = s) \/
     (p <> NULL /\ exists L' F' sz,
        heap_rep L' F' s' /\ no_adj_free L' = true /\
        In (p, sz, true) (layout (first_block s) L') /\
        adjust size <= sz < adjust size + 16 /\
        (forall b bsz, In (b, bsz, true) (layout (first_block s) L') ->
           (b = p /\ bsz = sz) \/ In (b, bsz, true) (layout (first_block s) L)) /\
        (forall b bsz, In (b, bsz, true) (layout (first_block s) L) ->
           In (b, bsz, true) (layout (first_block s) L') /\
           (b + bsz <= p \/ p + sz <= b) /\
           forall a, b - 4 <= a < b + bsz - 4 -> bytes s' a = bytes s a))).
Proof. apply malloc_live. Qed.

Lemma malloc_returns_new_block_witness :
  exists s' p,
    malloc 5000 two_small 100 = Some (s', p) /\
    heap_listp s' = heap_listp two_small /\ mem_max_addr s' = mem_max_addr two_small /\
    ((p = NULL /\ s' = two_small) \/
     (p <> NULL /\ exists L' F' sz,
        heap_rep L' F' s' /\ no_adj_free L' = true /\
        In (p, sz, true) (layout (first_block two_small) L') /\
        adjust 100 <= sz < adjust 100 + 16 /\
        (forall b bsz, In (b, bsz, true) (layout (first_block two_small) L') ->
           (b = p /\ bsz = sz) \/
           In (b, bsz, true) (layout (first_block two_small) two_small_layout)) /\
        (forall b bsz,
           In (b, bsz, true) (layout (first_block two_small) two_small_layout) ->
           In (b, bsz, true) (layout (first_block two_small) L') /\
           (b + bsz <= p \/ p + sz <= b) /\
           forall a, b - 4 <= a < b + bsz - 4 -> bytes s' a = bytes two_small a))).
Proof.
  apply (malloc_returns_new_block 5000 two_small_layout booted_lists two_small 100).
  - apply rep_check_sound. vm_compute. reflexivity.
  - reflexivity.
  - unfold enough. vm_compute. intros E. discriminate E.
  - lia.
Defined.

(** * The claims about [place], [coalesce], [malloc] and [find_fit] *)

(** C1, as stated, fails: [place] of a request of 16 bytes in the free
    block of 512 bytes at 4200 does not return 4200; the low 496 bytes
    stay a free block at 4200 and the allocated block is the high part,
    at 4696, which is returned. *)
Lemma place_allocates_high_part :
  exists s',
    GET_SIZE booted (HDRP 4200) = 512 /\
    place 100 booted 4200 16 = Some (s', 4696) /\
    4696 <> 4200 /\
    GET_SIZE s' (HDRP 4200) = 496 /\ GET_ALLOC s' (HDRP 4200) = 0 /\
    GET_SIZE s' (HDRP 4696) = 16 /\ GET_ALLOC s' (HDRP 4696) = 1.
Proof.
  assert (Hp : result_ptr (place 100 booted 4200 16) = Some 4696)
    by (vm_compute; reflexivity).
  assert (Hs : let s' := result_state (place 100 booted 4200 16) boot in
               GET_SIZE s' (HDRP 4200) = 496 /\ GET_ALLOC s' (HDRP 4200) = 0 /\
               GET_SIZE s' (HDRP 4696) = 16 /\ GET_ALLOC s' (HDRP 4696) = 1)
    by (vm_compute; repeat split).
  destruct (place 100 booted 4200 16) as [[s' p]|] eqn:E; [ |discriminate Hp].
  unfold result_ptr in Hp. cbn [option_map snd] in Hp. injection Hp as ->.
  cbn [result_state] in Hs.
  exists s'. split; [vm_compute; reflexivity|]. split; [reflexivity|].
  split; [discriminate|exact Hs].
Qed.

(** C1, amended: when the free block at [bp], of [csize] bytes, exceeds
    the request [asize] by at least 16 bytes, [place] unlinks it from the
    list of its class and splits it: the high [asize] bytes become the
    allocated block, whose payload address [bp + (csize - asize)] is
    returned; the low [csize - asize] bytes stay a free block at [bp],
    with free tags, appended to the list of the class of its new size. *)
Theorem place_splits_off_high_part (fuel : nat) (L : layout_t) (F : Z -> list Z)
        (s : state) (L1 : layout_t) (csize : Z) (L2 : layout_t) (bp asize : Z) :
  heap_rep L F s -> L = L1 ++ (csize, false) :: L2 ->
  bp = first_block s + total L1 -> enough fuel s ->
  16 <= asize -> asize mod 8 = 0 -> 16 <= csize - asize ->
  exists s' l1 l2,
    F (class_of csize) = l1 ++ bp :: l2 /\
    place fuel s bp asize = Some (s', bp + (csize - asize)) /\
    heap_rep (L1 ++ (csize - asize, false) :: (asize, true) :: L2)
             (upd (upd F (class_of csize) (l1 ++ l2)) (class_of (csize - asize))
                  (upd F (class_of csize) (l1 ++ l2) (class_of (csize - asize)) ++ [bp]))
             s' /\
    (GET_SIZE s' (HDRP bp) = csize - asize /\ GET_ALLOC s' (HDRP bp) = 0 /\
     GET_SIZE s' (FTRP s' bp) = csize - asize /\ GET_ALLOC s' (FTRP s' bp) = 0) /\
    (GET_SIZE s' (HDRP (bp + (csize - asize))) = asize /\
     GET_ALLOC s' (HDRP (bp + (csize - asize))) = 1 /\
     GET_SIZE s' (FTRP s' (bp + (csize - asize))) = asize /\
     GET_ALLOC s' (FTRP s' (bp + (csize - asize))) = 1) /\
    same_but (fun a => in_links s F a \/ bp - 4 <= a < bp + csize - 4) s s'.
Proof.
  intros H HL Hbp Hfuel Ha16 Ha8 Hrem.
  destruct (place_split fuel L F s L1 csize L2 bp asize H HL Hbp Hfuel Ha16 Ha8 Hrem)
    as (s' & l1 & l2 & HF & Hp & [Hb _] & Hr & Hfr).
  exists s', l1, l2. split; [exact HF|]. split; [exact Hp|]. split; [exact Hr|].
  split; [|split; [|exact Hfr]].
  - assert (Hin : In (bp, csize - asize, false)
                     (layout (first_block s')
                        (L1 ++ (csize - asize, false) :: (asize, true) :: L2))).
    { unfold first_block. rewrite Hb. fold (first_block s). rewrite Hbp.
      apply layout_mid. }
    destruct (rep_read _ _ _ _ _ _ Hr Hin) as (R1 & R2 & R3 & R4).
    unfold FTRP, HDRP, WSIZE, DSIZE. rewrite R1. auto.
  - assert (Hin : In (bp + (csize - asize), asize, true)
                     (layout (first_block s')
                        (L1 ++ (csize - asize, false) :: (asize, true) :: L2))).
    { unfold first_block. rewrite Hb. fold (first_block s).
      rewrite layout_app. apply in_or_app. right. rewrite <- Hbp.
      right. left. reflexivity. }
    destruct (rep_read _ _ _ _ _ _ Hr Hin) as (R1 & R2 & R3 & R4).
    unfold FTRP, HDRP, WSIZE, DSIZE. rewrite R1. auto.
Qed.

Lemma place_splits_off_high_part_witness :
  exists s' l1 l2,
    booted_lists (class_of 480) = l1 ++ 4200 :: l2 /\
    place 5000 two_small 4200 32 = Some (s', 4200 + (480 - 32)) /\
    heap_rep ([] ++ (480 - 32, false) :: (32, true) :: [(16, true); (16, true)])
             (upd (upd booted_lists (class_of 480) (l1 ++ l2)) (class_of (480 - 32))
                  (upd booted_lists (class_of 480) (l1 ++ l2) (class_of (480 - 32))
                   ++ [4200]))
             s' /\
    (GET_SIZE s' (HDRP 4200) = 480 - 32 /\ GET_ALLOC s' (HDRP 4200) = 0 /\
     GET_SIZE s' (FTRP s' 4200) = 480 - 32 /\ GET_ALLOC s' (FTRP s' 4200) = 0) /\
    (GET_SIZE s' (HDRP (4200 + (480 - 32))) = 32 /\
     GET_ALLOC s' (HDRP (4200 + (480 - 32))) = 1 /\
     GET_SIZE s' (FTRP s' (4200 + (480 - 32))) = 32 /\
     GET_ALLOC s' (FTRP s' (4200 + (480 - 32))) = 1) /\
    same_but (fun a => in_links two_small booted_lists a \/
                       4200 - 4 <= a < 4200 + 480 - 4) two_small s'.
Proof.
  apply (place_splits_off_high_part 5000 two_small_layout booted_lists two_small
           [] 480 [(16, true); (16, true)] 4200 32).
  - apply rep_check_sound. vm_compute. reflexivity.
  - reflexivity.
  - vm_compute. reflexivity.
  - unfold enough. vm_compute. intros E. discriminate E.
  - lia.
  - reflexivity.
  - lia.
Defined.

(** C9.  [coalesce] at a freed block [bp] merges it with its free
    neighbours, the blocks [Ma] below it and [Mb] above it (each empty or
    one block, so this is no merge, a merge left, right, or both).  The
    pointer returned is the address of the first block of the merged run
    [Ma ++ bp :: Mb]: no merged block has a lower address, it is at most
    [bp], and the unified free block of the resulting heap is the block at
    that address. *)
Theorem coalesce_returns_lowest_merged_block (fuel : nat) (L : layout_t)
        (F : Z -> list Z) (s : state) (L1 : layout_t) (sz : Z) (L2 : layout_t)
        (bp : Z) :
  heap_rep L F s -> L = L1 ++ (sz, false) :: L2 ->
  bp = first_block s + total L1 -> enough fuel s ->
  no_adj_free (L1 ++ (sz, true) :: L2) = true ->
  exists s' r F' La Ma Mb Lb,
    coalesce fuel s bp = Some (s', r) /\
    L = La ++ (Ma ++ (sz, false) :: Mb) ++ Lb /\
    Forall (fun b => snd b = false) (Ma ++ Mb) /\
    r = first_block s + total La /\
    In (bp, sz, false) (layout r (Ma ++ (sz, false) :: Mb)) /\
    (exists rsz, In (r, rsz, false) (layout r (Ma ++ (sz, false) :: Mb))) /\
    (forall b bsz al, In (b, bsz, al) (layout r (Ma ++ (sz, false) :: Mb)) -> r <= b) /\
    r <= bp /\
    heap_rep (La ++ (total (Ma ++ (sz, false) :: Mb), false) :: Lb) F' s' /\
    no_adj_free (La ++ (total (Ma ++ (sz, false) :: Mb), false) :: Lb) = true /\
    In (r, total (Ma ++ (sz, false) :: Mb), false)
       (layout (first_block s') (La ++ (total (Ma ++ (sz, false) :: Mb), false) :: Lb)).
Proof.
  intros H HL Hbp Hfuel Hnaf.
  destruct (coalesce_spec fuel L F s L1 sz L2 bp H HL Hbp Hfuel Hnaf)
    as (s' & F' & La & Ma & Mb & Lb & E1 & E2 & HF & Hc & [Hb _] & Hr & Hn & _).
  pose proof (rep_geom _ _ _ H) as Hg.
  set (M := Ma ++ (sz, false) :: Mb) in *.
  set (r := first_block s + total La) in *.
  assert (HLM : L = La ++ M ++ Lb).
  { rewrite HL, E1, E2. unfold M. rewrite <- !app_assoc. reflexivity. }
  pose proof (geom_sizes _ _ Hg) as Hs. rewrite HLM in Hs.
  apply sizes_ok_app in Hs. destruct Hs as [HsA Hs].
  apply sizes_ok_app in Hs. destruct Hs as [HsM HsB].
  assert (HsMa : sizes_ok Ma) by (unfold M in HsM; apply sizes_ok_app in HsM; apply HsM).
  assert (Hbp' : bp = r + total Ma).
  { unfold r. rewrite Hbp, E1, total_app. lia. }
  exists s', r, F', La, Ma, Mb, Lb.
  split; [exact Hc|]. split; [exact HLM|]. split; [exact HF|]. split; [reflexivity|].
  split; [rewrite Hbp'; apply layout_mid|]. split.
  { unfold M. destruct Ma as [|[msz mal] Ma'].
    - exists sz. left. reflexivity.
    - apply Forall_app in HF. destruct HF as [HA _].
      apply Forall_cons_iff in HA. cbn [snd] in HA. destruct HA as [-> _].
      exists msz. left. reflexivity. }
  split; [intros b bsz al Hin; apply (layout_range _ _ _ _ _ HsM Hin)|].
  split; [pose proof (total_nonneg _ HsMa); lia|].
  split; [exact Hr|]. split; [exact Hn|].
  unfold first_block. rewrite Hb. fold (first_block s). apply layout_mid.
Qed.

Lemma coalesce_returns_lowest_merged_block_witness :
  exists s' r F' La Ma Mb Lb,
    coalesce 5000 between_free 4680 = Some (s', r) /\
    between_free_layout = La ++ (Ma ++ (16, false) :: Mb) ++ Lb /\
    Forall (fun b => snd b = false) (Ma ++ Mb) /\
    r = first_block between_free + total La /\
    In (4680, 16, false) (layout r (Ma ++ (16, false) :: Mb)) /\
    (exists rsz, In (r, rsz, false) (layout r (Ma ++ (16, false) :: Mb))) /\
    (forall b bsz al, In (b, bsz, al) (layout r (Ma ++ (16, false) :: Mb)) -> r <= b) /\
    r <= 4680 /\
    heap_rep (La ++ (total (Ma ++ (16, false) :: Mb), false) :: Lb) F' s' /\
    no_adj_free (La ++ (total (Ma ++ (16, false) :: Mb), false) :: Lb) = true /\
    In (r, total (Ma ++ (16, false) :: Mb), false)
       (layout (first_block s') (La ++ (total (Ma ++ (16, false) :: Mb), false) :: Lb)).
Proof.
  apply (coalesce_returns_lowest_merged_block 5000 between_free_layout
           between_free_lists between_free [(480, false)] 16 [(16, false)] 4680).
  - apply rep_check_sound. vm_compute. reflexivity.
  - reflexivity.
  - vm_compute. reflexivity.
  - unfold enough. vm_compute. intros E. discriminate E.
  - reflexivity.
Defined.




(** C10.  [find_fit] never returns a block of more than [2^30] bytes: a
    block it returns is a free block of at least the adjusted size and at
    most [2^30] bytes.  When every free block that is large enough has
    more than [2^30] bytes, [find_fit] returns [NULL], and [malloc] then
    grows the arena by the larger of the adjusted size and 512 bytes and
    returns a block, or returns [NULL] with nothing changed when the arena
    cannot grow by that much. *)
Theorem find_fit_ignores_blocks_above_2_30 (fuel : nat) (L : layout_t)
        (F : Z -> list Z) (s : state) (size : Z) :
  heap_rep L F s -> no_adj_free L = true -> enough fuel s ->
  1 <= size <= 2 ^ 64 - 16 ->
  (exists r,
     find_fit fuel s (adjust size) = Some r /\
     (r <> NULL ->
      exists sz, In (r, sz, false) (layout (first_block s) L) /\
                 adjust size <= sz <= 2 ^ 30)) /\
  ((forall b sz, In (b, sz, false) (layout (first_block s) L) ->
                 adjust size <= sz -> 2 ^ 30 < sz) ->
   find_fit fuel s (adjust size) = Some NULL /\
   exists s' p,
     malloc fuel s size = Some (s', p) /\
     ((mem_brk s + Z.max (adjust size) 512 <= mem_max_addr s /\ p <> NULL /\
       mem_brk s' = mem_brk s + Z.max (adjust size) 512) \/
      (mem_max_addr s < mem_brk s + Z.max (adjust size) 512 /\ p = NULL /\ s' = s))).
Proof.
  intros H Hnaf Hfuel Hsize. split.
  - destruct (find_fit_spec fuel L F s (adjust size) H Hfuel)
      as (r & Hff & [[-> _]|[Hr Hfit]]).
    + exists NULL. split; [exact Hff|]. intros E. contradiction.
    + exists r. split; [exact Hff|]. intros _. exact Hfit.
  - intros Hno.
    destruct (adjust_spec size Hsize) as (_ & Ha16 & Ha8 & _ & _).
    destruct (malloc_spec fuel L F s size H Hnaf Hfuel Hsize)
      as (s' & p & Hm & Hb & _ & [Hfit|[Hfail|Hgrow]]).
    + destruct Hfit as (L1 & csize & L2 & _ & HL & Hc & _).
      assert (Hin : In (first_block s + total L1, csize, false)
                       (layout (first_block s) L)).
      { rewrite HL. apply layout_mid. }
      pose proof (Hno _ _ Hin ltac:(lia)). lia.
    + destruct Hfail as (Hff & _ & Hroom & -> & ->).
      split; [exact Hff|]. exists s, NULL. split; [exact Hm|]. right. auto.
    + destruct Hgrow as (Hff & _ & Hroom & La & Ma & F' & HL & HMa & Ep & Hr' & _ & _).
      split; [exact Hff|]. exists s', p. split; [exact Hm|]. left.
      split; [exact Hroom|].
      pose proof (rep_geom _ _ _ H) as Hg.
      pose proof (geom_sizes _ _ Hg) as Hs. rewrite HL in Hs.
      apply sizes_ok_app in Hs. destruct Hs as [HsA HsM].
      pose proof (total_nonneg _ HsA). pose proof (total_nonneg _ HsM).
      pose proof (geom_base _ _ Hg). split.
      * rewrite Ep. unfold placed_at, NULL, first_block.
        destruct (16 <=? total Ma + Z.max (adjust size) 512 - adjust size) eqn:E;
          [apply Z.leb_le in E|]; lia.
      * rewrite (rep_brk _ _ _ Hr'), (rep_brk _ _ _ H), HL.
        unfold first_block. rewrite Hb, !total_app, total_placed. lia.
Qed.

Lemma find_fit_ignores_blocks_above_2_30_witness :
  In (4200, 2 ^ 30 + 520, false) (layout (first_block huge) huge_layout) /\
  adjust 8 <= 2 ^ 30 + 520 /\
  find_fit huge_fuel huge (adjust 8) = Some NULL /\
  exists s' p,
    malloc huge_fuel huge 8 = Some (s', p) /\ p <> NULL /\
    mem_brk s' = mem_brk huge + Z.max (adjust 8) 512.
Proof.
  assert (Hrep : heap_rep huge_layout huge_lists huge)
    by (apply rep_check_sound; vm_compute; reflexivity).
  assert (Hfuel : enough huge_fuel huge).
  { unfold enough, huge_fuel. rewrite Z2Nat.id by lia.
    vm_compute. intros E. discriminate E. }
  assert (Hno : forall b sz,
            In (b, sz, false) (layout (first_block huge) huge_layout) ->
            adjust 8 <= sz -> 2 ^ 30 < sz).
  { intros b sz [E|[]] _. apply (f_equal (fun x => snd (fst x))) in E.
    cbn [fst snd] in E. lia. }
  split; [left; vm_compute; reflexivity|]. split; [vm_compute; intros E; discriminate E|].
  destruct (find_fit_ignores_blocks_above_2_30 huge_fuel huge_layout huge_lists huge 8
              Hrep eq_refl Hfuel ltac:(lia)) as [_ HB].
  destruct (HB Hno) as (Hff & s' & p & Hm & [(_ & Hp & Hbrk)|(Hroom & _)]).
  - split; [exact Hff|]. exists s', p. auto.
  - exfalso. revert Hroom. vm_compute. intros E. discriminate E.
Defined.



(** * Concrete runs *)

(** C2 (the code departs from its documented policy).  In the class of
    sizes 33..64, which is not one of the two largest classes, [find_fit]
    does not return the first node that is large enough (4648, of 64 bytes)
    but walks the whole list and returns the smallest one (4584, of 48
    bytes): the first-fit loop only serves the two smallest classes. *)
Theorem find_fit_class_64_is_best_fit :
  find_list_tail two_in_class_64 48 = heap_listp two_in_class_64 + 2 * DSIZE /\
  first_fit_goes_on two_in_class_64 (find_list_tail two_in_class_64 48) = false /\
  GET_NEXT_PTR two_in_class_64 (heap_listp two_in_class_64 + 2 * DSIZE) = 4648 /\
  GET_SIZE two_in_class_64 (HDRP 4648) = 64 /\
  GET_NEXT_PTR two_in_class_64 4648 = 4584 /\
  GET_SIZE two_in_class_64 (HDRP 4584) = 48 /\
  first_fit_list 100 two_in_class_64 48 4648 = Some 4648 /\
  find_fit 100 two_in_class_64 48 = Some 4584.
Proof. vm_compute. repeat split. Qed.

(** C6 (missing null check).  When the arena cannot grow, [malloc] returns
    NULL and [calloc] still runs [memset] on the result: the byte at
    address 0 is overwritten. *)
Theorem calloc_writes_through_null :
  mem_max_addr nearly_full - mem_brk nearly_full < 4000 /\
  result_ptr (malloc 100 nearly_full (wrap64 (1 * 4000))) = Some NULL /\
  result_ptr (calloc 100 nearly_full 1 4000) = Some NULL /\
  bytes nearly_full 0 = 1 /\
  result_byte (calloc 100 nearly_full 1 4000) 0 = Some 0 /\
  result_byte (calloc 100 nearly_full 1 4000) 3999 = Some 0.
Proof. vm_compute. repeat split. Qed.

(** C7, as stated, fails: [calloc 1 17] hands back a block with 24 usable
    bytes of which the last ones still hold what the previous owner wrote. *)
Lemma calloc_leaves_tail_of_block :
  exists s' p,
    calloc 100 dirty_freed 1 17 = Some (s', p) /\ p <> NULL /\
    payload_size s' p = 24 /\
    ~ zero_filled s' p (payload_size s' p).
Proof.
  assert (Hp : result_ptr (calloc 100 dirty_freed 1 17) = Some 4680)
    by (vm_compute; reflexivity).
  assert (Hs : payload_size (result_state (calloc 100 dirty_freed 1 17) boot) 4680 = 24)
    by (vm_compute; reflexivity).
  assert (Hb : result_byte (calloc 100 dirty_freed 1 17) (4680 + 23) = Some 255)
    by (vm_compute; reflexivity).
  destruct (calloc 100 dirty_freed 1 17) as [[s' p]|] eqn:E;
    [ |discriminate].
  exists s', p. split; [reflexivity|].
  unfold result_ptr, result_byte, result_state in Hp, Hs, Hb.
  cbn [option_map fst snd] in Hp, Hs, Hb.
  injection Hp as ->. injection Hb as Hb.
  split; [discriminate|]. split; [exact Hs|].
  intros Hz. rewrite Hs in Hz. specialize (Hz 23 ltac:(lia)).
  change (4680 + 23) with 4703 in Hz, Hb.
  rewrite Hb in Hz. discriminate.
Qed.

(** C7, amended: when [calloc] returns a pointer other than NULL, the
    pointer is the one [malloc] returned for [nmemb * size] bytes (the
    product taken in [size_t], and not zero), the first [nmemb * size]
    bytes at the pointer are zero, and every other byte of memory, in
    particular the payload of the block beyond them, holds what it held
    when [malloc] returned: [memset] clears the bytes asked for, no fewer
    and no more.  The size tag of the block, hence its payload size, is
    the one [malloc] wrote. *)
Theorem calloc_zero_fills_request (fuel : nat) (s : state) (nmemb size : Z)
        (s' : state) (p : Z) :
  calloc fuel s nmemb size = Some (s', p) ->
  p <> NULL ->
  exists s1,
    malloc fuel s (wrap64 (nmemb * size)) = Some (s1, p) /\
    wrap64 (nmemb * size) <> 0 /\
    zero_filled s' p (wrap64 (nmemb * size)) /\
    (forall a, a < p \/ p + wrap64 (nmemb * size) <= a -> bytes s' a = bytes s1 a) /\
    payload_size s' p = payload_size s1 p.
Proof.
  unfold calloc.
  destruct (malloc fuel s (wrap64 (nmemb * size))) as [[s1 q]|] eqn:Em;
    cbn; [ |discriminate].
  intros H Hp. injection H as <- <-. exists s1.
  split; [reflexivity|]. split.
  - intros E. rewrite E in Em. unfold malloc in Em.
    destruct (if heap_listp s =? 0
              then '(s0, _) <- mm_init fuel s ;; Some s0
              else Some s) as [s0|]; cbn in Em; [ |discriminate].
    injection Em as _ Eq. apply Hp. symmetry. exact Eq.
  - split; [ |split].
    + intros i Hi. cbn. rewrite memset_inside by lia. reflexivity.
    + intros a Ha. cbn. apply memset_outside. exact Ha.
    + unfold payload_size, GET_SIZE, GET, HDRP, WSIZE. cbn [bytes set_bytes].
      f_equal. f_equal.
      apply load_le_ext. intros a Ha. apply memset_outside.
      left. change (Z.of_nat 4) with 4 in Ha. lia.
Qed.

Lemma calloc_zero_fills_request_witness :
  exists s' p,
    calloc 100 dirty_freed 1 17 = Some (s', p) /\ p <> NULL /\
    exists s1,
      malloc 100 dirty_freed (wrap64 (1 * 17)) = Some (s1, p) /\
      wrap64 (1 * 17) <> 0 /\
      zero_filled s' p (wrap64 (1 * 17)) /\
      (forall a, a < p \/ p + wrap64 (1 * 17) <= a -> bytes s' a = bytes s1 a) /\
      payload_size s' p = payload_size s1 p.
Proof.
  assert (Hp : result_ptr (calloc 100 dirty_freed 1 17) = Some 4680)
    by (vm_compute; reflexivity).
  destruct (calloc 100 dirty_freed 1 17) as [[s' p]|] eqn:E;
    [ |discriminate Hp].
  assert (Hn : p <> NULL).
  { unfold result_ptr in Hp. cbn [option_map snd] in Hp.
    injection Hp as ->. discriminate. }
  exists s', p. split; [reflexivity|]. split; [exact Hn|].
  exact (calloc_zero_fills_request 100 dirty_freed 1 17 s' p E Hn).
Defined.

(** C8, as stated, fails at [realloc(NULL, 0)] before the allocator is
    initialised: it is [free(NULL)], which does nothing, whereas
    [malloc(0)] initialises the heap. *)
Lemma realloc_null_zero_is_not_malloc :
  realloc 100 boot NULL 0 <> malloc 100 boot 0.
Proof.
  intros H.
  apply (f_equal (option_map (fun r => heap_listp (fst r)))) in H.
  vm_compute in H. discriminate.
Qed.

(** C8, amended: [realloc(ptr, 0)] is [free(ptr)] and returns NULL, for
    every [ptr]; [realloc(NULL, size)] is [malloc(size)] for every
    [size <> 0], and for [size = 0] too once the heap is initialised. *)
Theorem realloc_delegates (fuel : nat) (s : state) (ptr size : Z) :
  realloc fuel s ptr 0 = (s' <- free fuel s ptr ;; Some (s', NULL)) /\
  (size <> 0 \/ heap_listp s <> 0 ->
   realloc fuel s NULL size = malloc fuel s size).
Proof.
  split; [reflexivity|].
  intros H. unfold realloc.
  destruct (size =? 0) eqn:Es; [ |reflexivity].
  apply Z.eqb_eq in Es. subst size.
  destruct H as [H|H]; [congruence|].
  unfold free, malloc. cbn.
  apply Z.eqb_neq in H. rewrite H. reflexivity.
Qed.

Lemma realloc_delegates_witness :
  realloc 100 boot 4680 0 = (s' <- free 100 boot 4680 ;; Some (s', NULL)) /\
  realloc 100 boot NULL 24 = malloc 100 boot 24.
Proof.
  split.
  - exact (proj1 (realloc_delegates 100 boot 4680 24)).
  - apply (proj2 (realloc_delegates 100 boot 4680 24)). left. lia.
Defined.

(** C5 (the copy is 8 bytes too long).  [realloc(4680, 9)] on a block of 16
    bytes, hence 8 bytes of payload, whose next block is allocated, takes
    the fallback: it allocates the block at 4648 and [memcpy] copies the
    old block size, 16 bytes, and not the 8 bytes of the old payload: the
    bytes at offsets 8 and 12 of the new block, zero when [malloc] handed
    it out, hold the old footer and the header of the next block
    afterwards. *)
Theorem realloc_copies_block_size :
  GET_SIZE two_small (HDRP 4680) = 16 /\ payload_size two_small 4680 = 8 /\
  adjust 9 = 24 /\ GET_ALLOC two_small (HDRP (NEXT_BLKP two_small 4680)) = 1 /\
  Z.min (payload_size two_small 4680) 9 = 8 /\
  result_ptr (malloc 100 two_small (adjust 9)) = Some 4648 /\
  result_ptr (realloc 100 two_small 4680 9) = Some 4648 /\
  result_byte (malloc 100 two_small (adjust 9)) (4648 + 8) = Some 0 /\
  result_byte (malloc 100 two_small (adjust 9)) (4648 + 12) = Some 0 /\
  bytes two_small (4680 + 8) = 17 /\ bytes two_small (4680 + 12) = 17 /\
  result_byte (realloc 100 two_small 4680 9) (4648 + 8) = Some 17 /\
  result_byte (realloc 100 two_small 4680 9) (4648 + 12) = Some 17.
Proof. vm_compute. repeat split. Qed.
